(** * nanomsg poller (src/aio/poller.c): a functional model and its properties

    The C file selects one of three implementations of the same interface at
    build time ([NN_USE_EPOLL], [NN_USE_KQUEUE], [NN_USE_POLL]).  Each branch
    of the [#if] is modelled in a module of its own ([Epoll], [Kqueue],
    [Poll]) that keeps the names of the C functions.

    Conventions of the model:
    - a C [int] is a [Z]; bit masks are handled with [Z.land], [Z.lor] and
      [Z.lnot];
    - a [struct nn_poller_hndl *] is an address ([handle]); the structs the
      caller owns live in a store that is part of the state, because the
      poller writes to them;
    - every call into the operating system is appended to a log kept in the
      state, and whatever the operating system answers is an argument of the
      function that makes the call;
    - a function that can fail an assertion or index an array out of bounds
      returns an [outcome]. *)

From Stdlib Require Import ZArith Lia.
From stdpp Require Import base decidable option list functions sets.

Set Default Proof Using "Type".

(** ** Shared vocabulary *)

(** Address of a caller-owned [struct nn_poller_hndl]. *)
Definition handle := nat.

(** [NN_POLLER_IN], [NN_POLLER_OUT], [NN_POLLER_ERR] (poller.h). *)
Inductive kind := NN_POLLER_IN | NN_POLLER_OUT | NN_POLLER_ERR.

#[global] Instance kind_eq_dec : EqDecision kind.
Proof. solve_decision. Defined.

(** The [errno] values the file looks at, and [EOTHER] for all the rest. *)
Inductive errno := EINTR | EMFILE | ENFILE | EAGAIN | EBADF | EOTHER.

#[global] Instance errno_eq_dec : EqDecision errno.
Proof. solve_decision. Defined.

(** Value returned by the functions that return [int]: [0] or [-errno]. *)
Inductive retcode := rc_ok | rc_neg (e : errno).

#[global] Instance retcode_eq_dec : EqDecision retcode.
Proof. solve_decision. Defined.

(** How a call ends: it returns, it aborts in a failed [errno_assert],
    [alloc_assert] or [nn_assert], or it indexes an array outside its bounds
    (undefined behaviour in C). *)
Inductive outcome (A : Type) : Type :=
| Ok (a : A)
| Abort
| Undef.
Arguments Ok {A} a.
Arguments Abort {A}.
Arguments Undef {A}.

Definition obind {A B} (c : outcome A) (k : A -> outcome B) : outcome B :=
  match c with
  | Ok a => k a
  | Abort => Abort
  | Undef => Undef
  end.

#[global] Instance outcome_bind : MBind outcome := fun A B k c => obind c k.

(** ** C arrays as lists indexed by [int] *)

Section arrays.
Context {A : Type}.

(** [a[i]] as an rvalue; [Undef] outside the array. *)
Definition aget (a : list A) (i : Z) : outcome A :=
  if decide (0 <= i)%Z then
    match a !! Z.to_nat i with
    | Some x => Ok x
    | None => Undef
    end
  else Undef.

(** [a[i] = x]; [Undef] outside the array. *)
Definition aset (a : list A) (i : Z) (x : A) : outcome (list A) :=
  if decide (0 <= i < Z.of_nat (length a))%Z then Ok (<[Z.to_nat i := x]> a)
  else Undef.

(** [for (i = from; i != from + n; ++i) a[i] = body (a[i]);] *)
Fixpoint for_range (body : A -> A) (a : list A) (i : Z) (n : nat)
  : outcome (list A) :=
  match n with
  | O => Ok a
  | S n' =>
      x ← aget a i;
      a' ← aset a i (body x);
      for_range body a' (i + 1)%Z n'
  end.

(** [for (i = from; i != to; ++i) a[i] = body (a[i]);] When [to < from] the
    C loop runs [i] past the end of the array. *)
Definition for_live (body : A -> A) (a : list A) (from to : Z)
  : outcome (list A) :=
  if decide (from <= to)%Z then for_range body a from (Z.to_nat (to - from))
  else Undef.

(** [while (i < to) { if (live (a[i])) break; ++i; }], with [n] the number of
    cells left before [to]. *)
Fixpoint skip_from (live : A -> bool) (a : list A) (i : Z) (n : nat)
  : outcome Z :=
  match n with
  | O => Ok i
  | S n' =>
      x ← aget a i;
      if live x then Ok i else skip_from live a (i + 1)%Z n'
  end.

Definition skip_empty (live : A -> bool) (a : list A) (from to : Z)
  : outcome Z :=
  skip_from live a from (Z.to_nat (to - from)).

(** The cells [a[from]], ..., [a[to - 1]]. *)
Definition window (a : list A) (from to : Z) : list A :=
  take (Z.to_nat (to - from)) (drop (Z.to_nat from) a).

End arrays.

(** [x & m] is not zero. *)
Definition has (x m : Z) : bool := negb (Z.land x m =? 0)%Z.

(** [x &= ~m]. *)
Definition clear (x m : Z) : Z := Z.land x (Z.lnot m).

(** ** The epoll implementation ([#if defined NN_USE_EPOLL]) *)

Module Epoll.
Local Open Scope Z_scope.

(** Bits of <sys/epoll.h> (Linux). *)
Definition EPOLLIN : Z := 1.
Definition EPOLLOUT : Z := 4.
Definition EPOLLERR : Z := 8.
Definition EPOLLHUP : Z := 16.

(** Modelled from the spec: the length of the event array of
    [struct nn_poller], "a fixed maximum batch length (a tunable constant,
    not dynamically grown)"; the header that defines it is not among the
    sources. *)
Definition NN_POLLER_MAX_EVENTS : Z := 32.

(** [struct epoll_event]: [events] and [data.ptr]. *)
Record epoll_event := { ev_events : Z; ev_ptr : handle }.

(** [struct nn_poller_hndl] of this implementation: [fd] and [events]. *)
Record nn_poller_hndl := { hndl_fd : Z; hndl_events : Z }.

Inductive ctl_op := EPOLL_CTL_ADD | EPOLL_CTL_MOD | EPOLL_CTL_DEL.

(** Calls into the operating system, with their arguments. *)
Inductive syscall :=
| sys_epoll_create1
| sys_epoll_create (size : Z)
| sys_fcntl_cloexec (fd : Z)
| sys_epoll_ctl (epfd : Z) (op : ctl_op) (fd : Z) (ev : option epoll_event)
| sys_epoll_wait (epfd maxevents timeout : Z)
| sys_closefd (fd : Z).

(** [struct nn_poller] ([ep], [nevents], [index], [events]), the store of the
    caller's handles and the log of system calls. *)
Record state := {
  ep : Z;
  nevents : Z;
  index : Z;
  events : list epoll_event;
  hmem : handle -> nn_poller_hndl;
  trace : list syscall
}.

Definition set_buffer (s : state) (n i : Z) (evs : list epoll_event) : state :=
  {| ep := ep s; nevents := n; index := i; events := evs;
     hmem := hmem s; trace := trace s |}.

Definition set_hndl (s : state) (h : handle) (v : nn_poller_hndl) : state :=
  {| ep := ep s; nevents := nevents s; index := index s; events := events s;
     hmem := <[h := v]> (hmem s); trace := trace s |}.

Definition log (s : state) (c : syscall) : state :=
  {| ep := ep s; nevents := nevents s; index := index s; events := events s;
     hmem := hmem s; trace := trace s ++ [c] |}.

Definition set_ep (s : state) (fd : Z) : state :=
  {| ep := fd; nevents := nevents s; index := index s; events := events s;
     hmem := hmem s; trace := trace s |}.

(** What the operating system answers to [nn_poller_init]: the value and the
    [errno] of [epoll_create1] or [epoll_create], and the value of [fcntl] on
    a valid descriptor. *)
Record init_answer := {
  create_ret : Z;
  create_errno : errno;
  fcntl_ret : Z
}.

(** [fcntl (fd, F_SETFD, FD_CLOEXEC)]: on a descriptor that is not open, and
    [-1] never is, it returns [-1] with [EBADF] (POSIX). *)
Definition fcntl_cloexec (fd : Z) (k : init_answer) : Z :=
  if decide (fd = -1) then -1 else fcntl_ret k.

(** The part of [nn_poller_init] after [#endif]; [e] is [errno]. *)
Definition init_check (s : state) (e : errno) : outcome (state * retcode) :=
  if decide (ep s = -1) then
    if decide (e = ENFILE \/ e = EMFILE) then Ok (s, rc_neg EMFILE)
    else Abort
  else
    Ok (set_buffer s 0 0 (events s), rc_ok).

(** [nn_poller_init]; [have_cloexec] is [#ifdef EPOLL_CLOEXEC]. In the
    [#else] branch [errno_assert (rc != -1)] comes before the test of
    [self->ep]. *)
Definition nn_poller_init (have_cloexec : bool) (s : state) (k : init_answer)
  : outcome (state * retcode) :=
  if have_cloexec then
    init_check (log (set_ep s (create_ret k)) sys_epoll_create1) (create_errno k)
  else
    let s1 := log (set_ep s (create_ret k)) (sys_epoll_create 1) in
    let rc := fcntl_cloexec (ep s1) k in
    let s2 := log s1 (sys_fcntl_cloexec (ep s1)) in
    if decide (rc = -1) then Abort
    else init_check s2 (create_errno k).

(** [nn_poller_term]. [nn_closefd] (utils/closefd.c) is not among the
    sources; the call is logged with its argument. *)
Definition nn_poller_term (s : state) : state :=
  log s (sys_closefd (ep s)).

Definition nn_poller_add (s : state) (fd : Z) (h : handle) : state :=
  let s1 := set_hndl s h {| hndl_fd := fd; hndl_events := 0 |} in
  log s1 (sys_epoll_ctl (ep s1) EPOLL_CTL_ADD fd
            (Some {| ev_events := 0; ev_ptr := h |})).

(** The body of the three invalidation loops:
    [if (events [i].data.ptr == hndl) events [i].events = f (events [i].events)]. *)
Definition scrub (f : Z -> Z) (h : handle) (e : epoll_event) : epoll_event :=
  if decide (ev_ptr e = h) then {| ev_events := f (ev_events e); ev_ptr := ev_ptr e |}
  else e.

Definition nn_poller_rm (s : state) (h : handle) : outcome state :=
  let s1 := log s (sys_epoll_ctl (ep s) EPOLL_CTL_DEL (hndl_fd (hmem s h)) None) in
  evs ← for_live (scrub (fun _ => 0) h) (events s1) (index s1) (nevents s1);
  Ok (set_buffer s1 (nevents s1) (index s1) evs).

Definition nn_poller_set_in (s : state) (h : handle) : state :=
  let hd := hmem s h in
  if has (hndl_events hd) EPOLLIN then s
  else
    let m := Z.lor (hndl_events hd) EPOLLIN in
    let s1 := set_hndl s h {| hndl_fd := hndl_fd hd; hndl_events := m |} in
    log s1 (sys_epoll_ctl (ep s1) EPOLL_CTL_MOD (hndl_fd hd)
              (Some {| ev_events := m; ev_ptr := h |})).

Definition nn_poller_reset_in (s : state) (h : handle) : outcome state :=
  let hd := hmem s h in
  if negb (has (hndl_events hd) EPOLLIN) then Ok s
  else
    let m := clear (hndl_events hd) EPOLLIN in
    let s1 := set_hndl s h {| hndl_fd := hndl_fd hd; hndl_events := m |} in
    let s2 := log s1 (sys_epoll_ctl (ep s1) EPOLL_CTL_MOD (hndl_fd hd)
                        (Some {| ev_events := m; ev_ptr := h |})) in
    evs ← for_live (scrub (fun x => clear x EPOLLIN) h) (events s2)
             (index s2) (nevents s2);
    Ok (set_buffer s2 (nevents s2) (index s2) evs).

Definition nn_poller_set_out (s : state) (h : handle) : state :=
  let hd := hmem s h in
  let fd := hndl_fd hd in
  if has (hndl_events hd) EPOLLOUT then s
  else
    let m := Z.lor (hndl_events hd) EPOLLOUT in
    let s1 := set_hndl s h {| hndl_fd := hndl_fd hd; hndl_events := m |} in
    log s1 (sys_epoll_ctl (ep s1) EPOLL_CTL_MOD fd
              (Some {| ev_events := m; ev_ptr := h |})).

Definition nn_poller_reset_out (s : state) (h : handle) : outcome state :=
  let hd := hmem s h in
  if negb (has (hndl_events hd) EPOLLOUT) then Ok s
  else
    let m := clear (hndl_events hd) EPOLLOUT in
    let s1 := set_hndl s h {| hndl_fd := hndl_fd hd; hndl_events := m |} in
    let s2 := log s1 (sys_epoll_ctl (ep s1) EPOLL_CTL_MOD (hndl_fd hd)
                        (Some {| ev_events := m; ev_ptr := h |})) in
    evs ← for_live (scrub (fun x => clear x EPOLLOUT) h) (events s2)
             (index s2) (nevents s2);
    Ok (set_buffer s2 (nevents s2) (index s2) evs).

(** What [epoll_wait] answers once it is not interrupted: the records it
    wrote at the front of the array (it returns their number), or [-1] with
    an [errno] other than [EINTR]. *)
Inductive wait_answer :=
| Ready (batch : list epoll_event)
| Failed.

(** The value [epoll_wait] returns. *)
Definition wait_ret (a : wait_answer) : Z :=
  match a with
  | Ready batch => Z.of_nat (length batch)
  | Failed => -1
  end.

(** The array after [epoll_wait] has written its records. *)
Definition wait_array (a : wait_answer) (old : list epoll_event)
  : list epoll_event :=
  match a with
  | Ready batch => batch ++ drop (length batch) old
  | Failed => old
  end.

(** The [while (1)] loop: [interrupts] calls that return [-1] with [EINTR]
    and [continue], then the call that gets [final]. *)
Fixpoint wait_loop (s : state) (timeout : Z) (interrupts : nat) : state :=
  let s1 := log s (sys_epoll_wait (ep s) NN_POLLER_MAX_EVENTS timeout) in
  match interrupts with
  | O => s1
  | S n => wait_loop s1 timeout n
  end.

(** [nn_poller_wait]. The assertion after the loop reads [self->nevents],
    which was set to [0] at the top, not the local [nevents]. *)
Definition nn_poller_wait (s : state) (timeout : Z) (interrupts : nat)
    (final : wait_answer) : outcome (state * retcode) :=
  let s1 := set_buffer s 0 0 (events s) in
  let s2 := wait_loop s1 timeout interrupts in
  let s3 := set_buffer s2 (nevents s2) (index s2) (wait_array final (events s2)) in
  if decide (nevents s3 = -1) then Abort
  else Ok (set_buffer s3 (wait_ret final) (index s3) (events s3), rc_ok).

(** [nn_poller_event]: [None] is [-EAGAIN], [Some (event, hndl)] is a return
    of [0] with the two out-parameters. *)
Definition nn_poller_event (s : state)
  : outcome (state * option (kind * handle)) :=
  i ← skip_empty (fun e => negb (ev_events e =? 0)) (events s)
         (index s) (nevents s);
  let s1 := set_buffer s (nevents s) i (events s) in
  if decide (nevents s1 <= index s1) then Ok (s1, None)
  else
    e ← aget (events s1) (index s1);
    if has (ev_events e) EPOLLIN then
      evs ← aset (events s1) (index s1)
               {| ev_events := clear (ev_events e) EPOLLIN; ev_ptr := ev_ptr e |};
      Ok (set_buffer s1 (nevents s1) (index s1) evs, Some (NN_POLLER_IN, ev_ptr e))
    else if has (ev_events e) EPOLLOUT then
      evs ← aset (events s1) (index s1)
               {| ev_events := clear (ev_events e) EPOLLOUT; ev_ptr := ev_ptr e |};
      Ok (set_buffer s1 (nevents s1) (index s1) evs, Some (NN_POLLER_OUT, ev_ptr e))
    else
      Ok (set_buffer s1 (nevents s1) (index s1 + 1) (events s1),
          Some (NN_POLLER_ERR, ev_ptr e)).

(** *** Sequences of calls *)

Inductive op :=
| Add (fd : Z) (h : handle)
| Rm (h : handle)
| SetIn (h : handle)
| ResetIn (h : handle)
| SetOut (h : handle)
| ResetOut (h : handle)
| Wait (timeout : Z) (interrupts : nat) (final : wait_answer)
| Event.

Definition is_wait (o : op) : bool :=
  match o with
  | Wait _ _ _ => true
  | _ => false
  end.

(** One call; the second component is what an [Event] returned. *)
Definition exec (o : op) (s : state)
  : outcome (state * option (kind * handle)) :=
  match o with
  | Add fd h => Ok (nn_poller_add s fd h, None)
  | Rm h => s' ← nn_poller_rm s h; Ok (s', None)
  | SetIn h => Ok (nn_poller_set_in s h, None)
  | ResetIn h => s' ← nn_poller_reset_in s h; Ok (s', None)
  | SetOut h => Ok (nn_poller_set_out s h, None)
  | ResetOut h => s' ← nn_poller_reset_out s h; Ok (s', None)
  | Wait t n a => r ← nn_poller_wait s t n a; Ok (fst r, None)
  | Event => nn_poller_event s
  end.

(** A sequence of calls, and the events its [Event] calls returned. *)
Fixpoint run (ops : list op) (s : state)
  : outcome (state * list (kind * handle)) :=
  match ops with
  | [] => Ok (s, [])
  | o :: rest =>
      r ← exec o s;
      r' ← run rest (fst r);
      Ok (fst r', option_list (snd r) ++ snd r')
  end.

(** [n] calls of [nn_poller_event], stopping at the first [-EAGAIN]. *)
Fixpoint drain (n : nat) (s : state) : outcome (state * list (kind * handle)) :=
  match n with
  | O => Ok (s, [])
  | S n' =>
      r ← nn_poller_event s;
      match snd r with
      | None => Ok (fst r, [])
      | Some e => r' ← drain n' (fst r); Ok (fst r', e :: snd r')
      end
  end.

(** The states the interface keeps to: the cursor and the count lie inside
    the array. *)
Definition wf (s : state) : Prop :=
  0 <= index s <= nevents s /\ nevents s <= Z.of_nat (length (events s)).

(** What one record yields when it is drained: [IN], then [OUT], then [ERR]
    if other bits are left. *)
Definition decode (e : epoll_event) : list (kind * handle) :=
  (if has (ev_events e) EPOLLIN then [(NN_POLLER_IN, ev_ptr e)] else []) ++
  (if has (ev_events e) EPOLLOUT then [(NN_POLLER_OUT, ev_ptr e)] else []) ++
  (if decide (clear (clear (ev_events e) EPOLLIN) EPOLLOUT = 0) then []
   else [(NN_POLLER_ERR, ev_ptr e)]).

(** The records not yet passed by the cursor. *)
Definition live (s : state) : list epoll_event :=
  window (events s) (index s) (nevents s).

(** [e'] is [e] with some bits of its mask cleared. *)
Definition fades (e e' : epoll_event) : Prop :=
  ev_ptr e' = ev_ptr e /\ exists c, ev_events e' = Z.land (ev_events e) c.

(** No record that the cursor has not passed is [bad]. *)
Definition muted (bad : epoll_event -> Prop) (s : state) : Prop :=
  forall j e, index s <= j < nevents s -> aget (events s) j = Ok e -> ~ bad e.

(** The events a full drain of the batch returns. *)
Definition pending (s : state) : list (kind * handle) :=
  flat_map decode (live s).

(** The records of [h] that the cursor has not passed have [EPOLLIN] or
    [EPOLLOUT] only if the mask of the handle has it: the kernel reported
    them for that mask (see [reported]), and every later change of the mask
    went through this interface. *)
Definition tracks (s : state) (h : handle) : Prop :=
  forall j e, index s <= j < nevents s -> aget (events s) j = Ok e ->
    ev_ptr e = h ->
    (has (ev_events e) EPOLLIN -> has (hndl_events (hmem s h)) EPOLLIN) /\
    (has (ev_events e) EPOLLOUT -> has (hndl_events (hmem s h)) EPOLLOUT).

(** Handle [h] asks for nothing, and no record that the cursor has not
    passed reports [EPOLLIN] or [EPOLLOUT] for it. *)
Definition idle (s : state) (h : handle) : Prop :=
  has (hndl_events (hmem s h)) EPOLLIN = false /\
  has (hndl_events (hmem s h)) EPOLLOUT = false /\
  forall j e, index s <= j < nevents s -> aget (events s) j = Ok e ->
    ev_ptr e = h ->
    has (ev_events e) EPOLLIN = false /\ has (ev_events e) EPOLLOUT = false.

(** The count is kept, the cursor has not moved back, and each record the
    cursor has not passed is as it was or has lost bits of its mask. *)
Definition shrinks (s s' : state) : Prop :=
  index s <= index s' /\ nevents s' = nevents s /\
  forall j e', index s' <= j < nevents s' -> aget (events s') j = Ok e' ->
    exists e, aget (events s) j = Ok e /\ fades e e'.

(** What [epoll_wait] may answer in state [s] (epoll_ctl(2), epoll_wait(2)):
    at most [maxevents] records; a record carries the [data] registered with
    its descriptor, which is the handle, and its mask has [EPOLLIN] or
    [EPOLLOUT] only if the mask registered for that handle has the bit, while
    [EPOLLERR] and [EPOLLHUP] are reported whether or not they were asked
    for. *)
Definition reported (s : state) (a : wait_answer) : Prop :=
  match a with
  | Ready batch =>
      Z.of_nat (length batch) <= NN_POLLER_MAX_EVENTS /\
      Forall (fun e =>
        let interest := hndl_events (hmem s (ev_ptr e)) in
        (has (ev_events e) EPOLLIN -> has interest EPOLLIN) /\
        (has (ev_events e) EPOLLOUT -> has interest EPOLLOUT)) batch
  | Failed => True
  end.

(** Every [Wait] of the sequence gets an answer the kernel may give. *)
Fixpoint kernel_ok (ops : list op) (s : state) : Prop :=
  match ops with
  | [] => True
  | o :: rest =>
      match o with
      | Wait _ _ a => reported s a
      | _ => True
      end /\
      match exec o s with
      | Ok r => kernel_ok rest (fst r)
      | _ => True
      end
  end.

(** *** A context to run the functions on *)

Definition no_event : epoll_event := {| ev_events := 0; ev_ptr := 0%nat |}.

(** A context on epoll descriptor [3] with [batch] at the front of its
    array; handle [h] is for descriptor [h + 10] and has the mask
    [interest]. *)
Definition sample (interest : Z) (batch : list epoll_event) : state :=
  {| ep := 3; nevents := Z.of_nat (length batch); index := 0;
     events := batch ++ replicate (32 - length batch) no_event;
     hmem := fun h => {| hndl_fd := Z.of_nat h + 10; hndl_events := interest |};
     trace := [] |}.

(** Handle [1] readable and writable, handle [2] readable. *)
Definition two_ready : state :=
  sample (Z.lor EPOLLIN EPOLLOUT)
    [ {| ev_events := Z.lor EPOLLIN EPOLLOUT; ev_ptr := 1%nat |};
      {| ev_events := EPOLLIN; ev_ptr := 2%nat |} ].

(** What the kernel may answer when the peer of handle [1] has hung up and
    handle [2] is readable. *)
Definition hup_batch : list epoll_event :=
  [ {| ev_events := EPOLLHUP; ev_ptr := 1%nat |};
    {| ev_events := EPOLLIN; ev_ptr := 2%nat |} ].

End Epoll.

(** ** The kqueue implementation ([#elif defined NN_USE_KQUEUE]) *)

Module Kqueue.
Local Open Scope Z_scope.

(** Values of <sys/event.h>. *)
Definition EVFILT_READ : Z := -1.
Definition EVFILT_WRITE : Z := -2.
Definition EV_ADD : Z := 1.
Definition EV_DELETE : Z := 2.
Definition EV_EOF : Z := 32768.

(** Modelled from the spec: the two interest bits of a handle, "interest: set
    of {IN, OUT}"; the header that defines [NN_POLLER_EVENT_IN] and
    [NN_POLLER_EVENT_OUT] is not among the sources. *)
Definition NN_POLLER_EVENT_IN : Z := 1.
Definition NN_POLLER_EVENT_OUT : Z := 2.

(** Modelled from the spec: the length of the event array, as for epoll. *)
Definition NN_POLLER_MAX_EVENTS : Z := 32.

(** [struct kevent]: the fields the file reads; a null [udata] is [None]. *)
Record kevent_t := {
  ident : Z;
  filter : Z;
  flags : Z;
  udata : option handle
}.

Record nn_poller_hndl := { hndl_fd : Z; hndl_events : Z }.

Record timespec := { tv_sec : Z; tv_nsec : Z }.

Inductive syscall :=
| sys_kqueue
| sys_kevent_change (kq fd filt flgs : Z) (ud : option handle)
| sys_kevent_wait (kq maxevents : Z) (timeout : option timespec)
| sys_closefd (fd : Z).

Record state := {
  kq : Z;
  nevents : Z;
  index : Z;
  events : list kevent_t;
  hmem : handle -> nn_poller_hndl;
  trace : list syscall
}.

Definition set_buffer (s : state) (n i : Z) (evs : list kevent_t) : state :=
  {| kq := kq s; nevents := n; index := i; events := evs;
     hmem := hmem s; trace := trace s |}.

Definition set_hndl (s : state) (h : handle) (v : nn_poller_hndl) : state :=
  {| kq := kq s; nevents := nevents s; index := index s; events := events s;
     hmem := <[h := v]> (hmem s); trace := trace s |}.

Definition set_interest (s : state) (h : handle) (m : Z) : state :=
  set_hndl s h {| hndl_fd := hndl_fd (hmem s h); hndl_events := m |}.

Definition log (s : state) (c : syscall) : state :=
  {| kq := kq s; nevents := nevents s; index := index s; events := events s;
     hmem := hmem s; trace := trace s ++ [c] |}.

Definition set_kq (s : state) (fd : Z) : state :=
  {| kq := fd; nevents := nevents s; index := index s; events := events s;
     hmem := hmem s; trace := trace s |}.

(** What [kqueue ()] answers: its value and [errno]. *)
Record init_answer := { create_ret : Z; create_errno : errno }.

Definition nn_poller_init (s : state) (k : init_answer)
  : outcome (state * retcode) :=
  let s1 := log (set_kq s (create_ret k)) sys_kqueue in
  if decide (kq s1 = -1) then
    if decide (create_errno k = ENFILE \/ create_errno k = EMFILE)
    then Ok (s1, rc_neg EMFILE)
    else Abort
  else
    Ok (set_buffer s1 0 0 (events s1), rc_ok).

Definition nn_poller_term (s : state) : state :=
  log s (sys_closefd (kq s)).

Definition nn_poller_add (s : state) (fd : Z) (h : handle) : state :=
  set_hndl s h {| hndl_fd := fd; hndl_events := 0 |}.

(** [(unsigned) fd], compared with the [uintptr_t] field [ident]. *)
Definition unsigned (fd : Z) : Z := fd mod 2 ^ 32.

(** [udata = NULL] in the records that [test] selects. *)
Definition scrub (test : kevent_t -> bool) (e : kevent_t) : kevent_t :=
  if test e then
    {| ident := ident e; filter := filter e; flags := flags e; udata := None |}
  else e.

Definition nn_poller_rm (s : state) (h : handle) : outcome state :=
  let hd := hmem s h in
  let s1 :=
    if has (hndl_events hd) NN_POLLER_EVENT_IN
    then log s (sys_kevent_change (kq s) (hndl_fd hd) EVFILT_READ EV_DELETE None)
    else s in
  let s2 :=
    if has (hndl_events hd) NN_POLLER_EVENT_OUT
    then log s1 (sys_kevent_change (kq s1) (hndl_fd hd) EVFILT_WRITE EV_DELETE None)
    else s1 in
  evs ← for_live (scrub (fun e => bool_decide (ident e = unsigned (hndl_fd hd))))
          (events s2) (index s2) (nevents s2);
  Ok (set_buffer s2 (nevents s2) (index s2) evs).

(** [rc] is what [kevent] returns to the registration. *)
Definition nn_poller_set_in (s : state) (h : handle) (rc : Z) : state :=
  let hd := hmem s h in
  if negb (has (hndl_events hd) NN_POLLER_EVENT_IN) then
    let s1 := log s (sys_kevent_change (kq s) (hndl_fd hd) EVFILT_READ EV_ADD (Some h)) in
    if decide (rc <> -1)
    then set_interest s1 h (Z.lor (hndl_events hd) NN_POLLER_EVENT_IN)
    else s1
  else s.

(** The value of [kevent] is assigned to [rc] and not read. *)
Definition nn_poller_reset_in (s : state) (h : handle) : outcome state :=
  let hd := hmem s h in
  let s1 :=
    if has (hndl_events hd) NN_POLLER_EVENT_IN then
      let s' := log s (sys_kevent_change (kq s) (hndl_fd hd) EVFILT_READ EV_DELETE None) in
      set_interest s' h (clear (hndl_events hd) NN_POLLER_EVENT_IN)
    else s in
  evs ← for_live
          (scrub (fun e => bool_decide (ident e = unsigned (hndl_fd (hmem s1 h)))
                           && bool_decide (filter e = EVFILT_READ)))
          (events s1) (index s1) (nevents s1);
  Ok (set_buffer s1 (nevents s1) (index s1) evs).

Definition nn_poller_set_out (s : state) (h : handle) (rc : Z) : state :=
  let hd := hmem s h in
  let fd := hndl_fd hd in
  if negb (has (hndl_events hd) NN_POLLER_EVENT_OUT) then
    let s1 := log s (sys_kevent_change (kq s) fd EVFILT_WRITE EV_ADD (Some h)) in
    if decide (rc <> -1)
    then set_interest s1 h (Z.lor (hndl_events hd) NN_POLLER_EVENT_OUT)
    else s1
  else s.

Definition nn_poller_reset_out (s : state) (h : handle) (rc : Z)
  : outcome state :=
  let hd := hmem s h in
  let fd := hndl_fd hd in
  let s1 :=
    if has (hndl_events hd) NN_POLLER_EVENT_OUT then
      let s' := log s (sys_kevent_change (kq s) fd EVFILT_WRITE EV_DELETE None) in
      if decide (rc <> -1)
      then set_interest s' h (clear (hndl_events hd) NN_POLLER_EVENT_OUT)
      else s'
    else s in
  evs ← for_live
          (scrub (fun e => bool_decide (ident e = unsigned (hndl_fd (hmem s1 h)))
                           && bool_decide (filter e = EVFILT_WRITE)))
          (events s1) (index s1) (nevents s1);
  Ok (set_buffer s1 (nevents s1) (index s1) evs).

(** What [kevent] answers to the wait once it is not interrupted: the records
    it wrote, or [-1] with an [errno] other than [EINTR]. *)
Inductive wait_answer :=
| Ready (batch : list kevent_t)
| Failed.

Definition wait_ret (a : wait_answer) : Z :=
  match a with
  | Ready batch => Z.of_nat (length batch)
  | Failed => -1
  end.

Definition wait_array (a : wait_answer) (old : list kevent_t) : list kevent_t :=
  match a with
  | Ready batch => batch ++ drop (length batch) old
  | Failed => old
  end.

(** [ts.tv_sec = timeout / 1000; ts.tv_nsec = (timeout % 1000) * 1000000;]
    and [timeout >= 0 ? &ts : NULL]. C division truncates. *)
Definition wait_timeout (timeout : Z) : option timespec :=
  let ts := {| tv_sec := Z.quot timeout 1000;
               tv_nsec := Z.rem timeout 1000 * 1000000 |} in
  if decide (timeout >= 0) then Some ts else None.

Definition kevent_wait_call (s : state) (timeout : Z) : state :=
  log s (sys_kevent_wait (kq s) NN_POLLER_MAX_EVENTS (wait_timeout timeout)).

(** The calls that return [-1] with [EINTR] under [NN_IGNORE_EINTR]: each is
    followed by [goto again]. *)
Fixpoint wait_again (s : state) (timeout : Z) (interrupts : nat) : state :=
  match interrupts with
  | O => s
  | S n => wait_again (kevent_wait_call s timeout) timeout n
  end.

(** [nn_poller_wait]; [ignore_eintr] is [#if defined NN_IGNORE_EINTR],
    [interrupts] the number of times the kernel wait is interrupted before
    it gets [final]. *)
Definition nn_poller_wait (ignore_eintr : bool) (s : state) (timeout : Z)
    (interrupts : nat) (final : wait_answer) : outcome (state * retcode) :=
  let s1 := set_buffer s 0 0 (events s) in
  if negb ignore_eintr && negb (Nat.eqb interrupts 0) then
    Ok (kevent_wait_call s1 timeout, rc_neg EINTR)
  else
    let s2 := wait_again s1 timeout interrupts in
    let s3 := kevent_wait_call s2 timeout in
    let s4 := set_buffer s3 (nevents s3) (index s3) (wait_array final (events s3)) in
    if decide (wait_ret final = -1) then Abort
    else Ok (set_buffer s4 (wait_ret final) (index s4) (events s4), rc_ok).

Definition nn_poller_event (s : state)
  : outcome (state * option (kind * handle)) :=
  i ← skip_empty (fun e => bool_decide (udata e <> None)) (events s)
        (index s) (nevents s);
  let s1 := set_buffer s (nevents s) i (events s) in
  if decide (nevents s1 <= index s1) then Ok (s1, None)
  else
    e ← aget (events s1) (index s1);
    match udata e with
    | None => Undef (* not reached: the loop stopped on a non-null udata *)
    | Some h =>
        k ← (if has (flags e) EV_EOF then Ok NN_POLLER_ERR
             else if decide (filter e = EVFILT_WRITE) then Ok NN_POLLER_OUT
             else if decide (filter e = EVFILT_READ) then Ok NN_POLLER_IN
             else Abort);
        Ok (set_buffer s1 (nevents s1) (index s1 + 1) (events s1), Some (k, h))
    end.

(** *** Sequences of calls *)

Inductive op :=
| Add (fd : Z) (h : handle)
| Rm (h : handle)
| SetIn (h : handle) (rc : Z)
| ResetIn (h : handle)
| SetOut (h : handle) (rc : Z)
| ResetOut (h : handle) (rc : Z)
| Wait (timeout : Z) (interrupts : nat) (final : wait_answer)
| Event.

Definition is_wait (o : op) : bool :=
  match o with
  | Wait _ _ _ => true
  | _ => false
  end.

Definition exec (ignore_eintr : bool) (o : op) (s : state)
  : outcome (state * option (kind * handle)) :=
  match o with
  | Add fd h => Ok (nn_poller_add s fd h, None)
  | Rm h => s' ← nn_poller_rm s h; Ok (s', None)
  | SetIn h rc => Ok (nn_poller_set_in s h rc, None)
  | ResetIn h => s' ← nn_poller_reset_in s h; Ok (s', None)
  | SetOut h rc => Ok (nn_poller_set_out s h rc, None)
  | ResetOut h rc => s' ← nn_poller_reset_out s h rc; Ok (s', None)
  | Wait t n a => r ← nn_poller_wait ignore_eintr s t n a; Ok (fst r, None)
  | Event => nn_poller_event s
  end.

Fixpoint run (ignore_eintr : bool) (ops : list op) (s : state)
  : outcome (state * list (kind * handle)) :=
  match ops with
  | [] => Ok (s, [])
  | o :: rest =>
      r ← exec ignore_eintr o s;
      r' ← run ignore_eintr rest (fst r);
      Ok (fst r', option_list (snd r) ++ snd r')
  end.

Definition wf (s : state) : Prop :=
  0 <= index s <= nevents s /\ nevents s <= Z.of_nat (length (events s)).

Definition live (s : state) : list kevent_t :=
  window (events s) (index s) (nevents s).

(** [e'] is [e], or [e] with a null [udata]. *)
Definition fades (e e' : kevent_t) : Prop :=
  e' = e \/
  e' = {| ident := ident e; filter := filter e; flags := flags e; udata := None |}.

(** No record that the cursor has not passed is [bad]. *)
Definition muted (bad : kevent_t -> Prop) (s : state) : Prop :=
  forall j e, index s <= j < nevents s -> aget (events s) j = Ok e -> ~ bad e.

(** A record came from a registration made for handle [h] with the
    descriptor [h] holds now: [EV_SET (&ev, hndl->fd, filter, EV_ADD, 0, 0,
    hndl)] is the only registration the file makes, and the kernel returns
    [ident] and [udata] as registered; a descriptor is not negative and fits
    an [int]. *)
Definition tagged (s : state) (e : kevent_t) : Prop :=
  forall h, udata e = Some h ->
    ident e = hndl_fd (hmem s h) /\ 0 <= hndl_fd (hmem s h) < 2 ^ 31.

(** What [kevent] may answer to the wait in state [s] (kqueue(2)): at most
    [nevents] records, each from a filter that is registered: a read (write)
    record names a handle whose IN (OUT) bit is set.  [EV_EOF] is a flag on
    such a record. *)
Definition reported (s : state) (a : wait_answer) : Prop :=
  match a with
  | Ready batch =>
      Z.of_nat (length batch) <= NN_POLLER_MAX_EVENTS /\
      Forall (fun e =>
        tagged s e /\
        forall h, udata e = Some h ->
          (filter e = EVFILT_READ /\ has (hndl_events (hmem s h)) NN_POLLER_EVENT_IN) \/
          (filter e = EVFILT_WRITE /\ has (hndl_events (hmem s h)) NN_POLLER_EVENT_OUT))
        batch
  | Failed => True
  end.

(** Every record that the cursor has not passed is [tagged]. *)
Definition all_tagged (s : state) : Prop :=
  forall j e, index s <= j < nevents s -> aget (events s) j = Ok e -> tagged s e.

(** Handle [h] asks for nothing and no record that the cursor has not passed
    names it. *)
Definition idle (s : state) (h : handle) : Prop :=
  has (hndl_events (hmem s h)) NN_POLLER_EVENT_IN = false /\
  has (hndl_events (hmem s h)) NN_POLLER_EVENT_OUT = false /\
  forall j e, index s <= j < nevents s -> aget (events s) j = Ok e ->
    udata e <> Some h.

(** The count is kept, the cursor has not moved back, and each record the
    cursor has not passed is as it was or has lost its [udata]. *)
Definition shrinks (s s' : state) : Prop :=
  index s <= index s' /\ nevents s' = nevents s /\
  forall j e', index s' <= j < nevents s' -> aget (events s') j = Ok e' ->
    exists e, aget (events s) j = Ok e /\ fades e e'.

Fixpoint kernel_ok (ignore_eintr : bool) (ops : list op) (s : state) : Prop :=
  match ops with
  | [] => True
  | o :: rest =>
      match o with
      | Wait _ _ a => reported s a
      | _ => True
      end /\
      match exec ignore_eintr o s with
      | Ok r => kernel_ok ignore_eintr rest (fst r)
      | _ => True
      end
  end.

(** *** A context to run the functions on *)

Definition no_event : kevent_t :=
  {| ident := 0; filter := 0; flags := 0; udata := None |}.

(** A context on kqueue descriptor [3] with [batch] at the front of its
    array; handle [h] is for descriptor [h + 10] and has the bits
    [interest]. *)
Definition sample (interest : Z) (batch : list kevent_t) : state :=
  {| kq := 3; nevents := Z.of_nat (length batch); index := 0;
     events := batch ++ replicate (32 - length batch) no_event;
     hmem := fun h => {| hndl_fd := Z.of_nat h + 10; hndl_events := interest |};
     trace := [] |}.

(** Handle [1] readable and writable, handle [2] readable. *)
Definition two_ready : state :=
  sample (Z.lor NN_POLLER_EVENT_IN NN_POLLER_EVENT_OUT)
    [ {| ident := 11; filter := EVFILT_READ; flags := 0; udata := Some 1%nat |};
      {| ident := 11; filter := EVFILT_WRITE; flags := 0; udata := Some 1%nat |};
      {| ident := 12; filter := EVFILT_READ; flags := 0; udata := Some 2%nat |} ].

(** What the kernel may answer when handle [1] has reached end of file on
    its read filter and handle [2] is writable. *)
Definition eof_batch : list kevent_t :=
  [ {| ident := 11; filter := EVFILT_READ; flags := EV_EOF; udata := Some 1%nat |};
    {| ident := 12; filter := EVFILT_WRITE; flags := 0; udata := Some 2%nat |} ].

(** What the kernel may answer when handle [2] is readable. *)
Definition read_batch : list kevent_t :=
  [ {| ident := 12; filter := EVFILT_READ; flags := 0; udata := Some 2%nat |} ].

(** *** What a drain returns *)

(** The kind [nn_poller_event] gives a record: [EV_EOF] comes first, then
    the filter; [None] is where [nn_assert (0)] stands. *)
Definition classify (e : kevent_t) : option kind :=
  if has (flags e) EV_EOF then Some NN_POLLER_ERR
  else if decide (filter e = EVFILT_WRITE) then Some NN_POLLER_OUT
  else if decide (filter e = EVFILT_READ) then Some NN_POLLER_IN
  else None.

(** What one record yields when it is drained: nothing when its [udata] is
    null, else one event. *)
Definition decode (e : kevent_t) : list (kind * handle) :=
  match udata e, classify e with
  | Some h, Some k => [(k, h)]
  | _, _ => []
  end.

(** The events a full drain of the batch returns. *)
Definition pending (s : state) : list (kind * handle) :=
  flat_map decode (live s).

(** The caller's loop: [nn_poller_event] until it returns [-EAGAIN], at most
    [n] times. *)
Fixpoint drain (n : nat) (s : state) : outcome (state * list (kind * handle)) :=
  match n with
  | O => Ok (s, [])
  | S n' =>
      r ← nn_poller_event s;
      match snd r with
      | None => Ok (fst r, [])
      | Some e => r' ← drain n' (fst r); Ok (fst r', e :: snd r')
      end
  end.

End Kqueue.

(** ** The poll implementation ([#elif defined NN_USE_POLL]) *)

Module Poll.
Local Open Scope Z_scope.

(** Bits of <poll.h>. *)
Definition POLLIN : Z := 1.
Definition POLLOUT : Z := 4.
Definition POLLERR : Z := 8.
Definition POLLHUP : Z := 16.
Definition POLLNVAL : Z := 32.

Definition NN_POLLER_GRANULARITY : Z := 16.

(** [struct pollfd]. *)
Record pollfd := { fd : Z; events : Z; revents : Z }.

(** [struct nn_hndls_item]: the handle of the slot, null ([None]) when the
    slot is on the list of removed slots, and the links of that list. *)
Record nn_hndls_item := { hndl : option handle; prev : Z; next : Z }.

Inductive syscall :=
| sys_alloc_pollset (n : Z)
| sys_alloc_hndls (n : Z)
| sys_realloc_pollset (n : Z)
| sys_realloc_hndls (n : Z)
| sys_free_pollset
| sys_free_hndls
| sys_poll (nfds timeout : Z).

(** [struct nn_poller]; [hmem h] is the field [index] of the caller's
    [struct nn_poller_hndl] at address [h], its only field here. *)
Record state := {
  size : Z;
  index : Z;
  capacity : Z;
  pollset : list pollfd;
  hndls : list nn_hndls_item;
  removed : Z;
  hmem : handle -> Z;
  trace : list syscall
}.

Definition set_size (s : state) (n : Z) : state :=
  {| size := n; index := index s; capacity := capacity s; pollset := pollset s;
     hndls := hndls s; removed := removed s; hmem := hmem s; trace := trace s |}.

Definition set_index (s : state) (i : Z) : state :=
  {| size := size s; index := i; capacity := capacity s; pollset := pollset s;
     hndls := hndls s; removed := removed s; hmem := hmem s; trace := trace s |}.

Definition set_capacity (s : state) (n : Z) : state :=
  {| size := size s; index := index s; capacity := n; pollset := pollset s;
     hndls := hndls s; removed := removed s; hmem := hmem s; trace := trace s |}.

Definition set_pollset (s : state) (ps : list pollfd) : state :=
  {| size := size s; index := index s; capacity := capacity s; pollset := ps;
     hndls := hndls s; removed := removed s; hmem := hmem s; trace := trace s |}.

Definition set_hndls (s : state) (hs : list nn_hndls_item) : state :=
  {| size := size s; index := index s; capacity := capacity s; pollset := pollset s;
     hndls := hs; removed := removed s; hmem := hmem s; trace := trace s |}.

Definition set_removed (s : state) (r : Z) : state :=
  {| size := size s; index := index s; capacity := capacity s; pollset := pollset s;
     hndls := hndls s; removed := r; hmem := hmem s; trace := trace s |}.

Definition set_hndl_index (s : state) (h : handle) (i : Z) : state :=
  {| size := size s; index := index s; capacity := capacity s; pollset := pollset s;
     hndls := hndls s; removed := removed s; hmem := <[h := i]> (hmem s);
     trace := trace s |}.

Definition log (s : state) (c : syscall) : state :=
  {| size := size s; index := index s; capacity := capacity s; pollset := pollset s;
     hndls := hndls s; removed := removed s; hmem := hmem s;
     trace := trace s ++ [c] |}.

(** [self->pollset [i].f = ...] and [self->hndls [i].f = ...]: the cell is
    read, one field replaced, and the cell written back. *)
Definition upd_pollset (s : state) (i : Z) (f : pollfd -> pollfd)
  : outcome state :=
  p ← aget (pollset s) i;
  ps ← aset (pollset s) i (f p);
  Ok (set_pollset s ps).

Definition upd_hndls (s : state) (i : Z) (f : nn_hndls_item -> nn_hndls_item)
  : outcome state :=
  x ← aget (hndls s) i;
  hs ← aset (hndls s) i (f x);
  Ok (set_hndls s hs).

Definition with_events (v : Z) (p : pollfd) : pollfd :=
  {| fd := fd p; events := v; revents := revents p |}.
Definition with_revents (v : Z) (p : pollfd) : pollfd :=
  {| fd := fd p; events := events p; revents := v |}.
Definition with_hndl (v : option handle) (x : nn_hndls_item) : nn_hndls_item :=
  {| hndl := v; prev := prev x; next := next x |}.
Definition with_prev (v : Z) (x : nn_hndls_item) : nn_hndls_item :=
  {| hndl := hndl x; prev := v; next := next x |}.
Definition with_next (v : Z) (x : nn_hndls_item) : nn_hndls_item :=
  {| hndl := hndl x; prev := prev x; next := v |}.

(** What the allocator answers: whether each of the two requests succeeds,
    and what the fresh cells hold (they are not initialised). *)
Record alloc_answer := {
  pollset_ok : bool;
  hndls_ok : bool;
  fresh_pollfd : pollfd;
  fresh_item : nn_hndls_item
}.

(** [nn_poller_init]; both arrays get [NN_POLLER_GRANULARITY] cells. *)
Definition nn_poller_init (s : state) (k : alloc_answer)
  : outcome (state * retcode) :=
  let s := set_size s 0 in
  let s := set_index s 0 in
  let s := set_capacity s NN_POLLER_GRANULARITY in
  let s := log s (sys_alloc_pollset NN_POLLER_GRANULARITY) in
  if negb (pollset_ok k) then Abort
  else
    let s := set_pollset s (replicate (Z.to_nat NN_POLLER_GRANULARITY) (fresh_pollfd k)) in
    let s := log s (sys_alloc_hndls NN_POLLER_GRANULARITY) in
    if negb (hndls_ok k) then Abort
    else
      let s := set_hndls s (replicate (Z.to_nat NN_POLLER_GRANULARITY) (fresh_item k)) in
      let s := set_removed s (-1) in
      Ok (s, rc_ok).

Definition nn_poller_term (s : state) : state :=
  log (log s sys_free_pollset) sys_free_hndls.

(** [nn_poller_add]; [k] is what the allocator answers if the arrays have to
    grow ([nn_realloc] keeps the old cells). *)
Definition nn_poller_add (s : state) (fd0 : Z) (h : handle) (k : alloc_answer)
  : outcome state :=
  s ← (if decide (size s >= capacity s) then
         let s := set_capacity s (capacity s * 2) in
         let s := log s (sys_realloc_pollset (capacity s)) in
         if negb (pollset_ok k) then Abort
         else
           let s := set_pollset s
                      (resize (Z.to_nat (capacity s)) (fresh_pollfd k) (pollset s)) in
           let s := log s (sys_realloc_hndls (capacity s)) in
           if negb (hndls_ok k) then Abort
           else Ok (set_hndls s
                      (resize (Z.to_nat (capacity s)) (fresh_item k) (hndls s)))
       else Ok s);
  s ← upd_pollset s (size s) (fun p => {| fd := fd0; events := events p; revents := revents p |});
  s ← upd_pollset s (size s) (with_events 0);
  s ← upd_pollset s (size s) (with_revents 0);
  let s := set_hndl_index s h (size s) in
  s ← upd_hndls s (size s) (with_hndl (Some h));
  Ok (set_size s (size s + 1)).

Definition nn_poller_rm (s : state) (h : handle) : outcome state :=
  s ← upd_pollset s (hmem s h) (with_revents 0);
  s ← (if decide (removed s <> -1)
       then upd_hndls s (removed s) (with_prev (hmem s h))
       else Ok s);
  s ← upd_hndls s (hmem s h) (with_hndl None);
  s ← upd_hndls s (hmem s h) (with_prev (-1));
  s ← upd_hndls s (hmem s h) (with_next (removed s));
  Ok (set_removed s (hmem s h)).

Definition nn_poller_set_in (s : state) (h : handle) : outcome state :=
  upd_pollset s (hmem s h) (fun p => with_events (Z.lor (events p) POLLIN) p).

Definition nn_poller_reset_in (s : state) (h : handle) : outcome state :=
  s ← upd_pollset s (hmem s h) (fun p => with_events (clear (events p) POLLIN) p);
  upd_pollset s (hmem s h) (fun p => with_revents (clear (revents p) POLLIN) p).

Definition nn_poller_set_out (s : state) (h : handle) : outcome state :=
  upd_pollset s (hmem s h) (fun p => with_events (Z.lor (events p) POLLOUT) p).

Definition nn_poller_reset_out (s : state) (h : handle) : outcome state :=
  s ← upd_pollset s (hmem s h) (fun p => with_events (clear (events p) POLLOUT) p);
  upd_pollset s (hmem s h) (fun p => with_revents (clear (revents p) POLLOUT) p).

(** [if (i != self->size) { ... }]: the last slot in use is copied onto
    slot [i]. Every [self->hndls [i].f] is read again where the C text
    reads it. *)
Definition compact_move (s : state) (i : Z) : outcome state :=
  if decide (i <> size s) then
    last ← aget (pollset s) (size s);
    ps ← aset (pollset s) i last;
    let s := set_pollset s ps in
    it ← aget (hndls s) i;
    s ← (if decide (next it <> -1)
         then upd_hndls s (next it) (with_prev (-1))
         else Ok s);
    last ← aget (hndls s) (size s);
    hs ← aset (hndls s) i last;
    let s := set_hndls s hs in
    it ← aget (hndls s) i;
    Ok (match hndl it with
        | Some g => set_hndl_index s g i
        | None => s
        end)
  else Ok s.

(** [if (nn_slow (!self->hndls [i].hndl)) { ... }]: the slot that came to
    [i] was itself on the list of removed slots, and its neighbours are
    made to point to [i]. *)
Definition compact_relink (s : state) (i : Z) : outcome state :=
  it ← aget (hndls s) i;
  match hndl it with
  | Some _ => Ok s
  | None =>
      s ← (if decide (prev it <> -1)
           then upd_hndls s (prev it) (with_next i)
           else Ok s);
      it ← aget (hndls s) i;
      s ← (if decide (next it <> -1)
           then upd_hndls s (next it) (with_prev i)
           else Ok s);
      Ok (if decide (removed s = size s) then set_removed s i else s)
  end.

(** One turn of [while (self->removed != -1)] in [nn_poller_wait]. *)
Definition compact_step (s : state) : outcome state :=
  let i := removed s in
  it ← aget (hndls s) i;
  let s := set_removed s (next it) in
  let s := set_size s (size s - 1) in
  s ← compact_move s i;
  compact_relink s i.

(** The loop. Every turn decrements [size] and a turn that starts with
    [size = 0] indexes the arrays at [-1], so [size + 1] turns are all the
    loop can make. *)
Fixpoint compact_loop (fuel : nat) (s : state) : outcome state :=
  if decide (removed s = -1) then Ok s
  else
    match fuel with
    | O => Undef
    | S fuel' => s' ← compact_step s; compact_loop fuel' s'
    end.

Definition compact (s : state) : outcome state :=
  compact_loop (S (Z.to_nat (size s))) s.

(** What [poll] answers once it is not interrupted: the [revents] it wrote,
    one for each of the [nfds] cells, or [-1] with an [errno] other than
    [EINTR]. *)
Inductive wait_answer :=
| Ready (rs : list Z)
| Failed.

(** [poll] stores [revents] in the first cells of the array. *)
Fixpoint write_revents (ps : list pollfd) (rs : list Z) : list pollfd :=
  match ps, rs with
  | p :: ps', r :: rs' => with_revents r p :: write_revents ps' rs'
  | _, _ => ps
  end.

Definition wait_array (s : state) (a : wait_answer) : list pollfd :=
  match a with
  | Ready rs => write_revents (pollset s) (take (Z.to_nat (size s)) rs)
  | Failed => pollset s
  end.

Definition poll_call (s : state) (timeout : Z) : state :=
  log s (sys_poll (size s) timeout).

Fixpoint wait_again (s : state) (timeout : Z) (interrupts : nat) : state :=
  match interrupts with
  | O => s
  | S n => wait_again (poll_call s timeout) timeout n
  end.

(** [nn_poller_wait]; [ignore_eintr] is [#if defined NN_IGNORE_EINTR]. *)
Definition nn_poller_wait (ignore_eintr : bool) (s : state) (timeout : Z)
    (interrupts : nat) (final : wait_answer) : outcome (state * retcode) :=
  s ← compact s;
  let s := set_index s 0 in
  if negb ignore_eintr && negb (Nat.eqb interrupts 0) then
    Ok (poll_call s timeout, rc_neg EINTR)
  else
    let s := wait_again s timeout interrupts in
    let s := poll_call s timeout in
    match final with
    | Failed => Abort
    | Ready _ => Ok (set_pollset s (wait_array s final), rc_ok)
    end.

(** [nn_poller_event]; the handle returned is the pointer stored in the
    slot. *)
Definition nn_poller_event (s : state)
  : outcome (state * option (kind * option handle)) :=
  i ← skip_empty (fun p => negb (revents p =? 0)) (pollset s) (index s) (size s);
  let s := set_index s i in
  if decide (index s >= size s) then Ok (s, None)
  else
    it ← aget (hndls s) (index s);
    p ← aget (pollset s) (index s);
    if has (revents p) POLLIN then
      s' ← upd_pollset s (index s) (fun p => with_revents (clear (revents p) POLLIN) p);
      Ok (s', Some (NN_POLLER_IN, hndl it))
    else if has (revents p) POLLOUT then
      s' ← upd_pollset s (index s) (fun p => with_revents (clear (revents p) POLLOUT) p);
      Ok (s', Some (NN_POLLER_OUT, hndl it))
    else
      Ok (set_index s (index s + 1), Some (NN_POLLER_ERR, hndl it)).

(** *** Sequences of calls *)

Inductive op :=
| Add (fd0 : Z) (h : handle) (k : alloc_answer)
| Rm (h : handle)
| SetIn (h : handle)
| ResetIn (h : handle)
| SetOut (h : handle)
| ResetOut (h : handle)
| Wait (timeout : Z) (interrupts : nat) (final : wait_answer)
| Event.

Definition is_wait (o : op) : bool :=
  match o with
  | Wait _ _ _ => true
  | _ => false
  end.

Definition exec (ignore_eintr : bool) (o : op) (s : state)
  : outcome (state * option (kind * option handle)) :=
  match o with
  | Add fd0 h k => s' ← nn_poller_add s fd0 h k; Ok (s', None)
  | Rm h => s' ← nn_poller_rm s h; Ok (s', None)
  | SetIn h => s' ← nn_poller_set_in s h; Ok (s', None)
  | ResetIn h => s' ← nn_poller_reset_in s h; Ok (s', None)
  | SetOut h => s' ← nn_poller_set_out s h; Ok (s', None)
  | ResetOut h => s' ← nn_poller_reset_out s h; Ok (s', None)
  | Wait t n a => r ← nn_poller_wait ignore_eintr s t n a; Ok (fst r, None)
  | Event => nn_poller_event s
  end.

Fixpoint run (ignore_eintr : bool) (ops : list op) (s : state)
  : outcome (state * list (kind * option handle)) :=
  match ops with
  | [] => Ok (s, [])
  | o :: rest =>
      r ← exec ignore_eintr o s;
      r' ← run ignore_eintr rest (fst r);
      Ok (fst r', option_list (snd r) ++ snd r')
  end.

Fixpoint drain (n : nat) (s : state)
  : outcome (state * list (kind * option handle)) :=
  match n with
  | O => Ok (s, [])
  | S n' =>
      r ← nn_poller_event s;
      match snd r with
      | None => Ok (fst r, [])
      | Some e => r' ← drain n' (fst r); Ok (fst r', e :: snd r')
      end
  end.

(** *** The states the interface keeps to *)

(** The slots in use lie inside the two arrays, which have [capacity]
    cells. *)
Definition bounds (s : state) : Prop :=
  0 <= size s <= capacity s /\
  Z.of_nat (length (pollset s)) = capacity s /\
  Z.of_nat (length (hndls s)) = capacity s.

(** Slot [j] is in use and holds handle [g]. *)
Definition holds (s : state) (j : Z) (g : handle) : Prop :=
  0 <= j < size s /\
  exists it, aget (hndls s) j = Ok it /\ hndl it = Some g.

(** Handle [g] is registered: the slot its [index] names holds it. *)
Definition registered (s : state) (g : handle) : Prop :=
  holds s (hmem s g) g.

(** Handle [g] is registered and [p] is the [struct pollfd] of its slot. *)
Definition slot_of (s : state) (g : handle) (p : pollfd) : Prop :=
  registered s g /\ aget (pollset s) (hmem s g) = Ok p.

(** A handle sits in the slot its [index] names and in no other. *)
Definition indexed (s : state) : Prop :=
  forall j g, holds s j g -> hmem s g = j.

(** [l] is the list of removed slots, in the order of the [next] links from
    [self->removed]: the slots in use with a null handle, each once, linked
    both ways.  [headok] is what is known of the [prev] link of the first. *)
Definition free_list (headok : Z -> Prop) (s : state) (l : list Z) : Prop :=
  NoDup l /\
  removed s = default (-1) (head l) /\
  (forall j, 0 <= j < size s ->
     exists it, aget (hndls s) j = Ok it /\ (hndl it = None <-> j ∈ l)) /\
  (forall k i, l !! k = Some i ->
     0 <= i < size s /\
     exists it, aget (hndls s) i = Ok it /\
       next it = default (-1) (l !! S k) /\
       match k with
       | O => headok (prev it)
       | S k' => l !! k' = Some (prev it)
       end).

(** Between two calls of the interface. *)
Definition wf (s : state) : Prop :=
  bounds s /\ indexed s /\ exists l, free_list (fun p => p = -1) s l.

(** Inside the loop of [nn_poller_wait] the [prev] link of the first removed
    slot may be stale: it then names a slot that has already been cut off
    the end of the arrays. *)
Definition wf_loop (s : state) (l : list Z) : Prop :=
  bounds s /\ indexed s /\
  free_list (fun p => p = -1 \/ size s <= p < capacity s) s l.

(** [s'] has the registrations of [s]: the same handles, each with the
    [struct pollfd] it had, and the same fields outside the arrays. *)
Definition same_slots (s s' : state) : Prop :=
  index s' = index s /\ capacity s' = capacity s /\ trace s' = trace s /\
  forall g p, slot_of s g p <-> slot_of s' g p.

(** Each slot in use of [s'] has no event, or is the same slot of [s] with
    the same handle and with bits of [revents] cleared. *)
Definition quieter (s s' : state) : Prop :=
  bounds s' /\
  forall j it' p', 0 <= j < size s' ->
    aget (hndls s') j = Ok it' -> aget (pollset s') j = Ok p' ->
    revents p' = 0 \/
    (0 <= j < size s /\
     exists it p, aget (hndls s) j = Ok it /\ aget (pollset s) j = Ok p /\
       hndl it' = hndl it /\ exists c, revents p' = Z.land (revents p) c).

(** No slot of handle [h] has [bad] events. *)
Definition muted (bad : Z -> Prop) (h : handle) (s : state) : Prop :=
  forall j it p, 0 <= j < size s ->
    aget (hndls s) j = Ok it -> aget (pollset s) j = Ok p ->
    hndl it = Some h -> ~ bad (revents p).

(** Handle [h], if it is registered, asks for nothing and has neither
    [POLLIN] nor [POLLOUT] to deliver. *)
Definition idle (s : state) (h : handle) : Prop :=
  forall p, slot_of s h p ->
    has (events p) POLLIN = false /\ has (events p) POLLOUT = false /\
    has (revents p) POLLIN = false /\ has (revents p) POLLOUT = false.

(** What [poll] may answer for the array it is given (poll(2)): one
    [revents] for each cell, with [POLLIN] or [POLLOUT] only if [events] of
    that cell asks for it; [POLLERR], [POLLHUP] and [POLLNVAL] are reported
    whether or not they were asked for. *)
Definition reported (s : state) (a : wait_answer) : Prop :=
  match a with
  | Ready rs =>
      Z.of_nat (length rs) = size s /\
      forall j p r, aget (pollset s) j = Ok p -> aget rs j = Ok r ->
        (has r POLLIN -> has (events p) POLLIN) /\
        (has r POLLOUT -> has (events p) POLLOUT)
  | Failed => True
  end.

(** The caller keeps to the interface: it registers a handle that is not
    registered, and passes a registered handle to every other function. *)
Definition op_ok (o : op) (s : state) : Prop :=
  match o with
  | Add _ h _ => forall j, ~ holds s j h
  | Rm h | SetIn h | ResetIn h | SetOut h | ResetOut h => registered s h
  | Wait _ _ _ | Event => True
  end.

(** Every call of the sequence keeps to the interface, and every [Wait]
    gets an answer the kernel may give for the array [poll] is called on,
    which is the array after the removed slots have been cut out. *)
Fixpoint run_ok (ignore_eintr : bool) (ops : list op) (s : state) : Prop :=
  match ops with
  | [] => True
  | o :: rest =>
      op_ok o s /\
      match o with
      | Wait _ _ a =>
          match compact s with
          | Ok s1 => reported s1 a
          | _ => True
          end
      | _ => True
      end /\
      match exec ignore_eintr o s with
      | Ok r => run_ok ignore_eintr rest (fst r)
      | _ => True
      end
  end.

(** What one slot yields when it is drained. *)
Definition decode (c : pollfd * nn_hndls_item) : list (kind * option handle) :=
  (if has (revents (fst c)) POLLIN then [(NN_POLLER_IN, hndl (snd c))] else []) ++
  (if has (revents (fst c)) POLLOUT then [(NN_POLLER_OUT, hndl (snd c))] else []) ++
  (if decide (clear (clear (revents (fst c)) POLLIN) POLLOUT = 0) then []
   else [(NN_POLLER_ERR, hndl (snd c))]).

(** The slots that the cursor has not passed, each with its handle. *)
Definition live (s : state) : list (pollfd * nn_hndls_item) :=
  window (zip (pollset s) (hndls s)) (index s) (size s).

(** The events a full drain of the batch returns. *)
Definition pending (s : state) : list (kind * option handle) :=
  flat_map decode (live s).

(** The cursor lies inside the slots in use. *)
Definition cursor_ok (s : state) : Prop :=
  bounds s /\ 0 <= index s <= size s.

(** What [nn_poller_reset_in] ([m] is [POLLIN]) and [nn_poller_reset_out]
    ([m] is [POLLOUT]) do, seen as a map over the slots paired with their
    handles: [events &= ~m; revents &= ~m] in the slot of [h]. *)
Definition unset (m : Z) (h : handle) (c : pollfd * nn_hndls_item)
  : pollfd * nn_hndls_item :=
  if decide (hndl (snd c) = Some h) then
    ({| fd := fd (fst c); events := clear (events (fst c)) m;
        revents := clear (revents (fst c)) m |}, snd c)
  else c.

(** *** A context to run the functions on *)

Definition no_item : nn_hndls_item := {| hndl := None; prev := -1; next := -1 |}.

Definition no_pollfd : pollfd := {| fd := 0; events := 0; revents := 0 |}.

(** A context with the handles [1 .. length cells], handle [h] in slot
    [h - 1] on descriptor [h + 10], with [events] and [revents] as the pair
    [cells !! (h - 1)] says. *)
Definition sample (cells : list (Z * Z)) : state :=
  {| size := Z.of_nat (length cells); index := 0; capacity := 16;
     pollset :=
       imap (fun i c => {| fd := Z.of_nat i + 11; events := fst c; revents := snd c |})
            cells
       ++ replicate (16 - length cells) no_pollfd;
     hndls :=
       imap (fun i _ => {| hndl := Some (S i); prev := -1; next := -1 |}) cells
       ++ replicate (16 - length cells) no_item;
     removed := -1;
     hmem := fun h => Z.of_nat h - 1;
     trace := [] |}.

(** What the allocator answers when memory is there. *)
Definition alloc_fine : alloc_answer :=
  {| pollset_ok := true; hndls_ok := true;
     fresh_pollfd := no_pollfd; fresh_item := no_item |}.

(** Handle [1] readable and writable, handle [2] readable. *)
Definition two_ready : state :=
  sample [ (Z.lor POLLIN POLLOUT, Z.lor POLLIN POLLOUT); (POLLIN, POLLIN) ].

(** *** Keeping to the interface *)

(** Every call of the sequence is made on a state that allows it (see
    [op_ok]); what the kernel and the allocator answer is left free. *)
Fixpoint calls_ok (ignore_eintr : bool) (ops : list op) (s : state) : Prop :=
  match ops with
  | [] => True
  | o :: rest =>
      op_ok o s /\
      match exec ignore_eintr o s with
      | Ok r => calls_ok ignore_eintr rest (fst r)
      | _ => True
      end
  end.

(** The states the interface keeps to, as far as indexing goes: the lists
    are consistent, the cursor lies inside the slots in use, and the arrays
    are not empty. *)
Definition sound (s : state) : Prop :=
  wf s /\ 0 <= index s <= size s /\ 0 < capacity s.

(** A slot in use whose handle [nn_poller_rm] has cleared has no event to
    deliver. *)
Definition quiet_removed (s : state) : Prop :=
  forall j it p, 0 <= j < size s ->
    aget (hndls s) j = Ok it -> aget (pollset s) j = Ok p ->
    hndl it = None -> revents p = 0.

End Poll.

(** * Facts about the model *)

(** ** The monad *)

Lemma obind_Ok {A B} (c : outcome A) (k : A -> outcome B) (b : B) :
  c ≫= k = Ok b <-> exists a, c = Ok a /\ k a = Ok b.
Proof.
  unfold mbind, outcome_bind, obind. destruct c; split.
  - eauto.
  - intros (a0 & Ha & Hk). congruence.
  - discriminate.
  - intros (a0 & Ha & _). discriminate.
  - discriminate.
  - intros (a0 & Ha & _). discriminate.
Qed.

Lemma obind_Ok_l {A B} (c : outcome A) (k : A -> outcome B) (a : A) :
  c = Ok a -> c ≫= k = k a.
Proof. intros ->. reflexivity. Qed.

(** Decompose hypotheses of the form [c ≫= k = Ok b]. *)
Ltac inv_bind :=
  repeat match goal with
  | H : _ ≫= _ = Ok _ |- _ =>
      let a := fresh "a" in
      let Ha := fresh "Ha" in
      apply obind_Ok in H; destruct H as (a & Ha & H)
  | H : Ok _ = Ok _ |- _ => injection H as H
  | H : Abort = Ok _ |- _ => discriminate H
  | H : Undef = Ok _ |- _ => discriminate H
  end.

(** ** Arrays *)

Section array_facts.
Context {A : Type}.
Implicit Types (a : list A) (i j : Z) (x : A).
Local Open Scope Z_scope.

Lemma aget_Ok a i x :
  aget a i = Ok x <-> 0 <= i /\ a !! Z.to_nat i = Some x.
Proof.
  unfold aget. destruct (decide (0 <= i)) as [Hi|Hi].
  - destruct (a !! Z.to_nat i) as [y|] eqn:E; split.
    + intros [= ->]. auto.
    + intros [_ [= ->]]. reflexivity.
    + discriminate.
    + intros [_ ?]. discriminate.
  - split; [discriminate | intros [? _]; lia].
Qed.

Lemma aget_range a i x :
  aget a i = Ok x -> 0 <= i < Z.of_nat (length a).
Proof.
  rewrite aget_Ok. intros [Hi Hl]. apply lookup_lt_Some in Hl. lia.
Qed.

Lemma aget_in_range a i :
  0 <= i < Z.of_nat (length a) -> exists x, aget a i = Ok x.
Proof.
  intros Hi. destruct (lookup_lt_is_Some_2 a (Z.to_nat i)) as [x Hx]; [lia|].
  exists x. apply aget_Ok. split; [lia | done].
Qed.

Lemma aget_not_Abort a i : aget a i <> Abort.
Proof.
  unfold aget. destruct (decide _); [destruct (a !! _)|]; discriminate.
Qed.

Lemma aset_Ok a i x a' :
  aset a i x = Ok a' <->
  0 <= i < Z.of_nat (length a) /\ a' = <[Z.to_nat i := x]> a.
Proof.
  unfold aset. destruct (decide _) as [Hi|Hi]; split.
  - intros [= <-]. auto.
  - intros [_ ->]. reflexivity.
  - discriminate.
  - intros [? _]. lia.
Qed.

Lemma aset_in_range a i x :
  0 <= i < Z.of_nat (length a) -> aset a i x = Ok (<[Z.to_nat i := x]> a).
Proof. intros Hi. apply aset_Ok. auto. Qed.

Lemma aset_length a i x a' :
  aset a i x = Ok a' -> length a' = length a.
Proof. rewrite aset_Ok. intros [_ ->]. apply length_insert. Qed.

Lemma aget_insert_eq a i x :
  0 <= i < Z.of_nat (length a) -> aget (<[Z.to_nat i := x]> a) i = Ok x.
Proof.
  intros Hi. apply aget_Ok. split; [lia|].
  apply list_lookup_insert_eq. lia.
Qed.

Lemma aget_insert_ne a i j x :
  0 <= i -> i <> j -> aget (<[Z.to_nat i := x]> a) j = aget a j.
Proof.
  intros Hi Hne. unfold aget. destruct (decide (0 <= j)); [|done].
  rewrite list_lookup_insert_ne; [done | lia].
Qed.

Lemma aget_aset a i x a' j :
  aset a i x = Ok a' ->
  aget a' j = if decide (j = i) then Ok x else aget a j.
Proof.
  rewrite aset_Ok. intros [Hi ->]. destruct (decide (j = i)) as [->|Hne].
  - by apply aget_insert_eq.
  - apply aget_insert_ne; lia.
Qed.

(** The array after [for_range]: [body] applied to the cells of the range,
    the others kept. *)
Lemma for_range_Ok body a i n a' :
  for_range body a i n = Ok a' ->
  length a' = length a /\
  forall j x, aget a j = Ok x ->
    aget a' j = Ok (if decide (i <= j < i + Z.of_nat n) then body x else x).
Proof.
  revert a i. induction n as [|n IH]; intros a i H; simpl in H.
  - injection H as <-. split; [done|]. intros j x Hx.
    rewrite Hx. destruct (decide _); [lia | done].
  - inv_bind. rename a0 into x0, a1 into a1.
    pose proof (aset_length _ _ _ _ Ha0) as Hlen.
    pose proof (aget_range _ _ _ Ha) as Hr.
    destruct (IH a1 (i + 1) H) as (Hl & Hget).
    split; [congruence|].
    intros j x Hx.
    destruct (decide (j = i)) as [->|Hne].
    + assert (Hx1 : aget a1 i = Ok (body x0)).
      { rewrite (aget_aset _ _ _ _ _ Ha0). by destruct (decide (i = i)). }
      rewrite (Hget _ _ Hx1).
      assert (x = x0) by congruence. subst x0.
      destruct (decide (i + 1 <= i < _)); [lia|].
      destruct (decide (i <= i < _)); [done | lia].
    + assert (Hx1 : aget a1 j = Ok x).
      { rewrite (aget_aset _ _ _ _ _ Ha0). by destruct (decide (j = i)). }
      rewrite (Hget _ _ Hx1).
      destruct (decide (i + 1 <= j < _)), (decide (i <= j < _)); try done; lia.
Qed.

(** [for_range] returns when the range lies inside the array. *)
Lemma for_range_total body a i n :
  0 <= i -> i + Z.of_nat n <= Z.of_nat (length a) ->
  exists a', for_range body a i n = Ok a'.
Proof.
  revert a i. induction n as [|n IH]; intros a i Hi Hn; simpl.
  - eauto.
  - destruct (aget_in_range a i) as [x Hx]; [lia|].
    rewrite Hx. simpl.
    rewrite (obind_Ok_l _ _ _ (aset_in_range a i (body x) ltac:(lia))).
    apply IH; [lia|]. rewrite length_insert. lia.
Qed.

Lemma for_live_Ok body a from to a' :
  for_live body a from to = Ok a' ->
  from <= to /\
  length a' = length a /\
  forall j x, aget a j = Ok x ->
    aget a' j = Ok (if decide (from <= j < to) then body x else x).
Proof.
  unfold for_live. destruct (decide (from <= to)) as [Hle|]; [|done].
  intros H. apply for_range_Ok in H as (Hl & Hget).
  split; [lia|]. split; [done|].
  intros j x Hx. rewrite (Hget _ _ Hx).
  destruct (decide (from <= j < from + _)), (decide (from <= j < to));
    try done; lia.
Qed.

Lemma for_live_total body a from to :
  0 <= from <= to -> to <= Z.of_nat (length a) ->
  exists a', for_live body a from to = Ok a'.
Proof.
  intros Hf Ht. unfold for_live. destruct (decide _); [|lia].
  apply for_range_total; lia.
Qed.

(** Where [skip_from] stops: on the first cell that is [live], or after [n]
    cells. *)
Lemma skip_from_Ok live a i n k :
  skip_from live a i n = Ok k ->
  i <= k <= i + Z.of_nat n /\
  (forall j, i <= j < k -> exists x, aget a j = Ok x /\ live x = false) /\
  (k < i + Z.of_nat n -> exists x, aget a k = Ok x /\ live x = true).
Proof.
  revert i. induction n as [|n IH]; intros i H; simpl in H.
  - injection H as <-. split; [lia|]. split; intros; lia.
  - inv_bind. destruct (live a0) eqn:El.
    + injection H as <-. split; [lia|]. split; [intros; lia | eauto].
    + apply IH in H as (Hk & Hskip & Hstop). split; [lia|]. split.
      * intros j Hj. destruct (decide (j = i)) as [->|]; [eauto|].
        apply Hskip. lia.
      * intros Hlt. apply Hstop. lia.
Qed.

Lemma skip_from_total live a i n :
  0 <= i -> i + Z.of_nat n <= Z.of_nat (length a) ->
  exists k, skip_from live a i n = Ok k.
Proof.
  revert i. induction n as [|n IH]; intros i Hi Hn; simpl.
  - eauto.
  - destruct (aget_in_range a i) as [x Hx]; [lia|].
    rewrite Hx. simpl. destruct (live x); [eauto|]. apply IH; lia.
Qed.

(** [window] *)

Lemma window_nil a from to : to <= from -> window a from to = [].
Proof.
  intros H. unfold window. replace (Z.to_nat (to - from)) with O by lia. done.
Qed.

Lemma window_cons a from to x :
  from < to -> aget a from = Ok x ->
  window a from to = x :: window a (from + 1) to.
Proof.
  intros Hlt [Hf Hx]%aget_Ok. unfold window.
  replace (Z.to_nat (to - from)) with (S (Z.to_nat (to - (from + 1)))) by lia.
  replace (Z.to_nat (from + 1)) with (S (Z.to_nat from)) by lia.
  rewrite (drop_S _ _ _ Hx). done.
Qed.

(** A write below the window does not show in it. *)
Lemma window_insert_below a from to i x :
  0 <= i < from -> window (<[Z.to_nat i := x]> a) from to = window a from to.
Proof.
  intros Hi. unfold window. f_equal.
  rewrite drop_insert_lt; [done | lia].
Qed.

Lemma window_length a from to :
  0 <= from <= to -> to <= Z.of_nat (length a) ->
  Z.of_nat (length (window a from to)) = to - from.
Proof.
  intros Hf Ht. unfold window. rewrite length_take, length_drop. lia.
Qed.

(** Cell [j] of the array is cell [j - from] of the window. *)
Lemma window_lookup a from to j :
  0 <= from <= j -> j < to ->
  window a from to !! Z.to_nat (j - from) = a !! Z.to_nat j.
Proof.
  intros Hf Hj. unfold window.
  rewrite lookup_take_lt by lia. rewrite lookup_drop. f_equal. lia.
Qed.

Lemma take_plus_drop a (n m : nat) :
  take (n + m) a = take n a ++ take m (drop n a).
Proof.
  revert a. induction n as [|n IH]; intros [|x a]; simpl; try done.
  - by rewrite take_nil.
  - by rewrite IH.
Qed.

Lemma window_app a from k to :
  0 <= from <= k -> k <= to ->
  window a from to = window a from k ++ window a k to.
Proof.
  intros Hf Hk. unfold window.
  replace (Z.to_nat (to - from)) with (Z.to_nat (k - from) + Z.to_nat (to - k))%nat by lia.
  rewrite take_plus_drop. f_equal. rewrite drop_drop. do 2 f_equal. lia.
Qed.

(** A property of every cell of the range holds of the window. *)
Lemma window_Forall (P : A -> Prop) a from to :
  0 <= from ->
  (forall j, from <= j < to -> exists x, aget a j = Ok x /\ P x) ->
  Forall P (window a from to).
Proof.
  intros Hf H. apply Forall_lookup. intros k x Hk.
  assert (Hlt : Z.of_nat k < to - from).
  { unfold window in Hk. apply lookup_take_Some in Hk. lia. }
  replace k with (Z.to_nat ((from + Z.of_nat k) - from)) in Hk by lia.
  rewrite window_lookup in Hk by lia.
  destruct (H (from + Z.of_nat k) ltac:(lia)) as (y & [_ Hy]%aget_Ok & HP).
  congruence.
Qed.

(** An array that is [f] of another on the range has [f] of its window. *)
Lemma window_map (f : A -> A) a b from to :
  0 <= from -> length b = length a ->
  (forall j x, from <= j < to -> aget a j = Ok x -> aget b j = Ok (f x)) ->
  window b from to = map f (window a from to).
Proof.
  intros Hf Hl Hag. apply list_eq. intros k. rewrite list_lookup_fmap.
  destruct (decide (Z.of_nat k < to - from)) as [Hk|Hk].
  - replace k with (Z.to_nat ((from + Z.of_nat k) - from)) by lia.
    rewrite !window_lookup by lia.
    destruct (a !! Z.to_nat (from + Z.of_nat k)) as [x|] eqn:Ea; simpl.
    + assert (Hx : aget a (from + Z.of_nat k) = Ok x) by (apply aget_Ok; split; [lia|done]).
      apply Hag in Hx; [|lia]. apply aget_Ok in Hx as [_ Hx]. done.
    + apply lookup_ge_None in Ea. apply lookup_ge_None. lia.
  - unfold window. rewrite !lookup_take_ge by lia. done.
Qed.

(** Two arrays that agree on the range have the same window. *)
Lemma window_ext a b from to :
  0 <= from ->
  (forall j, from <= j < to -> aget a j = aget b j) ->
  window a from to = window b from to.
Proof.
  intros Hf Hag.
  destruct (decide (to <= from)) as [Hle|Hlt].
  { by rewrite !window_nil. }
  apply list_eq. intros k.
  destruct (decide (Z.of_nat k < to - from)) as [Hk|Hk].
  - replace k with (Z.to_nat ((from + Z.of_nat k) - from)) by lia.
    rewrite !window_lookup by lia.
    specialize (Hag (from + Z.of_nat k) ltac:(lia)).
    unfold aget in Hag. destruct (decide _); [|lia].
    destruct (a !! _) eqn:Ea, (b !! _) eqn:Eb; congruence.
  - unfold window. rewrite !lookup_take_ge by lia. done.
Qed.

End array_facts.

(** ** Bit masks *)

Section bits.
Local Open Scope Z_scope.

Lemma has_true x m : has x m = true <-> Z.land x m <> 0.
Proof.
  unfold has. rewrite negb_true_iff, Z.eqb_neq. done.
Qed.

Lemma has_false x m : has x m = false <-> Z.land x m = 0.
Proof.
  unfold has. rewrite negb_false_iff, Z.eqb_eq. done.
Qed.

Lemma has_zero m : has 0 m = false.
Proof. apply has_false. apply Z.land_0_l. Qed.

Lemma clear_zero m : clear 0 m = 0.
Proof. apply Z.land_0_l. Qed.

(** [x &= ~m] leaves no bit of [m]. *)
Lemma has_clear_same x m : has (clear x m) m = false.
Proof.
  apply has_false. unfold clear.
  rewrite <- Z.land_assoc, (Z.land_comm (Z.lnot m)), Z.land_lnot_diag.
  apply Z.land_0_r.
Qed.

(** [x &= ~m] sets no bit. *)
Lemma has_clear_mono x m m' : has (clear x m) m' = true -> has x m' = true.
Proof.
  rewrite !has_true. unfold clear. intros H Hz. apply H.
  rewrite <- Z.land_assoc, (Z.land_comm (Z.lnot m)), Z.land_assoc, Hz.
  apply Z.land_0_l.
Qed.

(** [x &= ~m] keeps the bits outside [m]. *)
Lemma has_clear_other x m m' :
  Z.land m m' = 0 -> has (clear x m) m' = has x m'.
Proof.
  intros Hd. unfold has, clear. f_equal. f_equal.
  rewrite <- Z.land_assoc. f_equal.
  apply Z.bits_inj'. intros n Hn.
  rewrite Z.land_spec, Z.lnot_spec by done.
  assert (Hb : Z.testbit (Z.land m m') n = false) by (rewrite Hd; apply Z.bits_0).
  rewrite Z.land_spec in Hb.
  destruct (Z.testbit m n), (Z.testbit m' n); simpl in *; congruence.
Qed.

Lemma clear_clear_comm x m m' : clear (clear x m) m' = clear (clear x m') m.
Proof.
  unfold clear. rewrite <- !Z.land_assoc. f_equal. apply Z.land_comm.
Qed.

Lemma clear_idem x m : clear (clear x m) m = clear x m.
Proof.
  unfold clear. rewrite <- Z.land_assoc, Z.land_diag. done.
Qed.

(** Without a bit of [m], [x &= ~m] changes nothing. *)
Lemma clear_absent x m : has x m = false -> clear x m = x.
Proof.
  rewrite has_false. intros H. unfold clear.
  apply Z.bits_inj'. intros n Hn.
  rewrite Z.land_spec, Z.lnot_spec by done.
  assert (Hb : Z.testbit (Z.land x m) n = false) by (rewrite H; apply Z.bits_0).
  rewrite Z.land_spec in Hb.
  destruct (Z.testbit x n), (Z.testbit m n); simpl in *; congruence.
Qed.

Lemma has_lor_same x m : m <> 0 -> has (Z.lor x m) m = true.
Proof.
  intros Hm. apply has_true.
  rewrite Z.land_comm, Z.land_lor_distr_r, Z.land_diag.
  intros Hz. apply Z.lor_eq_0_iff in Hz as [_ ?]. done.
Qed.

Lemma Is_true_has x m : Is_true (has x m) <-> has x m = true.
Proof. apply Is_true_true. Qed.

End bits.

(** ** Lists of events *)

Lemma flat_map_nil_Forall {A B} (f : A -> list B) (l : list A) :
  Forall (fun x => f x = []) l -> flat_map f l = [].
Proof.
  induction 1 as [|x l Hx _ IH]; simpl; [done|]. by rewrite Hx, IH.
Qed.

Lemma filter_flat_map {A B} (P : B -> Prop) `{!forall x, Decision (P x)}
    (f : A -> list B) (l : list A) :
  filter P (flat_map f l) = flat_map (fun x => filter P (f x)) l.
Proof.
  induction l as [|x l IH]; simpl; [done|]. by rewrite list.filter_app, IH.
Qed.

Lemma filter_all {A} (P : A -> Prop) `{!forall x, Decision (P x)} (l : list A) :
  Forall P l -> filter P l = l.
Proof.
  induction 1 as [|x l Hx _ IH]; [done|].
  rewrite filter_cons_True by done. by rewrite IH.
Qed.

Lemma flat_map_map {A B C} (f : B -> list C) (g : A -> B) (l : list A) :
  flat_map f (map g l) = flat_map (fun x => f (g x)) l.
Proof.
  induction l as [|x l IH]; simpl; [done|]. by rewrite IH.
Qed.

Lemma flat_map_ext_Forall {A B} (f g : A -> list B) (l : list A) :
  Forall (fun x => f x = g x) l -> flat_map f l = flat_map g l.
Proof.
  induction 1 as [|x l Hx _ IH]; simpl; [done|]. by rewrite Hx, IH.
Qed.

(** ** epoll *)

Module EpollFacts.
Import Epoll.
Local Open Scope Z_scope.

Lemma epoll_fades_refl e : fades e e.
Proof. split; [done|]. exists (-1). by rewrite Z.land_m1_r. Qed.

Lemma epoll_fades_trans e1 e2 e3 : fades e1 e2 -> fades e2 e3 -> fades e1 e3.
Proof.
  intros [Hp1 [c1 H1]] [Hp2 [c2 H2]]. split; [congruence|].
  exists (Z.land c1 c2). rewrite H2, H1. by rewrite Z.land_assoc.
Qed.

Lemma epoll_fades_scrub f h e :
  (forall x, exists c, f x = Z.land x c) -> fades e (scrub f h e).
Proof.
  intros Hf. unfold scrub. destruct (decide _); [|apply epoll_fades_refl].
  split; [done|]. simpl. apply Hf.
Qed.

Lemma epoll_fades_has e e' m :
  fades e e' -> has (ev_events e') m = true -> has (ev_events e) m = true.
Proof.
  intros [_ [c Hc]]. rewrite !has_true, Hc. intros H Hz. apply H.
  rewrite <- Z.land_assoc, (Z.land_comm c), Z.land_assoc, Hz.
  apply Z.land_0_l.
Qed.

Lemma epoll_fades_nonzero e e' :
  fades e e' -> ev_events e' <> 0 -> ev_events e <> 0.
Proof.
  intros [_ [c Hc]] H Hz. apply H. rewrite Hc, Hz. apply Z.land_0_l.
Qed.

(** The three invalidation loops: the array they leave. *)
Lemma epoll_scrub_loop f h evs from to evs' :
  for_live (scrub f h) evs from to = Ok evs' ->
  length evs' = length evs /\
  forall j e', aget evs' j = Ok e' ->
    exists e, aget evs j = Ok e /\
      e' = if decide (from <= j < to) then scrub f h e else e.
Proof.
  intros H. apply for_live_Ok in H as (_ & Hl & Hget).
  split; [done|]. intros j e' He'.
  destruct (aget_in_range evs j) as [e He].
  { apply aget_range in He'. lia. }
  exists e. split; [done|]. rewrite (Hget _ _ He) in He'. congruence.
Qed.

Lemma epoll_shrinks_refl s : shrinks s s.
Proof.
  split; [lia|]. split; [done|]. intros j e' _ He'.
  exists e'. split; [done | apply epoll_fades_refl].
Qed.

Lemma epoll_shrinks_trans s1 s2 s3 :
  shrinks s1 s2 -> shrinks s2 s3 -> shrinks s1 s3.
Proof.
  intros (Hi1 & Hn1 & H1) (Hi2 & Hn2 & H2).
  split; [lia|]. split; [congruence|]. intros j e3 Hj He3.
  destruct (H2 j e3 Hj He3) as (e2 & He2 & Hf2).
  destruct (H1 j e2 ltac:(lia) He2) as (e1 & He1 & Hf1).
  exists e1. split; [done|]. by eapply epoll_fades_trans.
Qed.

Lemma epoll_shrinks_scrub f h s evs :
  (forall x, exists c, f x = Z.land x c) ->
  for_live (scrub f h) (events s) (index s) (nevents s) = Ok evs ->
  forall s0, index s0 = index s -> nevents s0 = nevents s ->
    events s0 = events s ->
    shrinks s0 (set_buffer s (nevents s) (index s) evs).
Proof.
  intros Hf H s0 Hi Hn He. apply epoll_scrub_loop in H as (_ & Hget).
  split; [simpl; lia|]. split; [done|]. simpl. intros j e' Hj He'.
  destruct (Hget _ _ He') as (e & Hge & ->).
  exists e. rewrite He. split; [done|].
  destruct (decide _); [by apply epoll_fades_scrub | apply epoll_fades_refl].
Qed.

Lemma epoll_clear_land x m : exists c, clear x m = Z.land x c.
Proof. by exists (Z.lnot m). Qed.

Lemma epoll_zero_land (x : Z) : exists c, 0 = Z.land x c.
Proof. exists 0. by rewrite Z.land_0_r. Qed.

Lemma epoll_rm_shrinks s h s' :
  nn_poller_rm s h = Ok s' -> shrinks s s'.
Proof.
  unfold nn_poller_rm. intros H. inv_bind. subst s'.
  eapply epoll_shrinks_scrub in Ha; [exact Ha | apply epoll_zero_land | done..].
Qed.

Lemma epoll_reset_in_shrinks s h s' :
  nn_poller_reset_in s h = Ok s' -> shrinks s s'.
Proof.
  unfold nn_poller_reset_in. destruct (negb _).
  - intros [= <-]. apply epoll_shrinks_refl.
  - intros H. inv_bind. subst s'.
    eapply epoll_shrinks_scrub in Ha;
      [exact Ha | intros; apply epoll_clear_land | done..].
Qed.

Lemma epoll_reset_out_shrinks s h s' :
  nn_poller_reset_out s h = Ok s' -> shrinks s s'.
Proof.
  unfold nn_poller_reset_out. destruct (negb _).
  - intros [= <-]. apply epoll_shrinks_refl.
  - intros H. inv_bind. subst s'.
    eapply epoll_shrinks_scrub in Ha;
      [exact Ha | intros; apply epoll_clear_land | done..].
Qed.

Lemma epoll_set_in_buffer s h :
  index (nn_poller_set_in s h) = index s /\
  nevents (nn_poller_set_in s h) = nevents s /\
  events (nn_poller_set_in s h) = events s.
Proof. unfold nn_poller_set_in. by destruct (has _ _). Qed.

Lemma epoll_set_out_buffer s h :
  index (nn_poller_set_out s h) = index s /\
  nevents (nn_poller_set_out s h) = nevents s /\
  events (nn_poller_set_out s h) = events s.
Proof. unfold nn_poller_set_out. by destruct (has _ _). Qed.

Lemma epoll_shrinks_same s s' :
  index s' = index s -> nevents s' = nevents s -> events s' = events s ->
  shrinks s s'.
Proof.
  intros Hi Hn He. split; [lia|]. split; [done|]. intros j e' _ He'.
  exists e'. rewrite <- He. split; [done | apply epoll_fades_refl].
Qed.

(** What [nn_poller_event] does, case by case: [k] is where the loop over
    the empty records stops. *)
Lemma epoll_event_inv s s' r :
  nn_poller_event s = Ok (s', r) ->
  exists k,
    index s <= k /\
    (forall j, index s <= j < k -> exists x, aget (events s) j = Ok x /\ ev_events x = 0) /\
    ((nevents s <= k /\ (index s <= nevents s -> k = nevents s) /\ r = None /\
      s' = set_buffer s (nevents s) k (events s)) \/
     (k < nevents s /\ exists e, aget (events s) k = Ok e /\ ev_events e <> 0 /\
       ((has (ev_events e) EPOLLIN = true /\ r = Some (NN_POLLER_IN, ev_ptr e) /\
         s' = set_buffer s (nevents s) k
                (<[Z.to_nat k := {| ev_events := clear (ev_events e) EPOLLIN;
                                    ev_ptr := ev_ptr e |}]> (events s))) \/
        (has (ev_events e) EPOLLIN = false /\ has (ev_events e) EPOLLOUT = true /\
         r = Some (NN_POLLER_OUT, ev_ptr e) /\
         s' = set_buffer s (nevents s) k
                (<[Z.to_nat k := {| ev_events := clear (ev_events e) EPOLLOUT;
                                    ev_ptr := ev_ptr e |}]> (events s))) \/
        (has (ev_events e) EPOLLIN = false /\ has (ev_events e) EPOLLOUT = false /\
         r = Some (NN_POLLER_ERR, ev_ptr e) /\
         s' = set_buffer s (nevents s) (k + 1) (events s))))).
Proof.
  unfold nn_poller_event. intros H. inv_bind. rename a into k.
  unfold skip_empty in Ha. apply skip_from_Ok in Ha as (Hk & Hskip & Hstop).
  exists k. split; [lia|]. split.
  { intros j Hj. destruct (Hskip j Hj) as (x & Hx & Hz). exists x. split; [done|].
    apply negb_false_iff, Z.eqb_eq in Hz. done. }
  simpl in H. destruct (decide (nevents s <= k)) as [Hge|Hlt].
  - left. injection H as <- <-. repeat split; [done | lia].
  - right. split; [lia|]. inv_bind. rename a into e.
    destruct Hstop as (x & Hx & Hlive); [lia|].
    assert (x = e) by congruence. subst x.
    apply negb_true_iff, Z.eqb_neq in Hlive.
    exists e. split; [done|]. split; [done|].
    destruct (has (ev_events e) EPOLLIN) eqn:Ein.
    + left. inv_bind. apply aset_Ok in Ha0 as [_ ->]. subst. done.
    + destruct (has (ev_events e) EPOLLOUT) eqn:Eout.
      * right. left. inv_bind. apply aset_Ok in Ha0 as [_ ->]. subst. done.
      * right. right. injection H as <- <-. done.
Qed.

Lemma epoll_event_shrinks s s' r :
  nn_poller_event s = Ok (s', r) -> shrinks s s'.
Proof.
  intros (k & Hk & _ & H)%epoll_event_inv.
  destruct H as [(_ & _ & _ & ->) | (Hlt & e & He & _ & H)].
  { split; [simpl; lia|]. split; [done|]. simpl. intros j e' _ He'.
    exists e'. split; [done | apply epoll_fades_refl]. }
  pose proof (aget_range _ _ _ He) as Hr.
  assert (Hupd : forall m,
    shrinks s (set_buffer s (nevents s) k
      (<[Z.to_nat k := {| ev_events := clear (ev_events e) m; ev_ptr := ev_ptr e |}]>
         (events s)))).
  { intros m. split; [simpl; lia|]. split; [done|]. simpl. intros j e' Hj He'.
    destruct (decide (j = k)) as [->|Hne].
    - rewrite aget_insert_eq in He' by done. injection He' as <-.
      exists e. split; [done|]. split; [done|]. apply epoll_clear_land.
    - rewrite aget_insert_ne in He' by lia.
      exists e'. split; [done | apply epoll_fades_refl]. }
  destruct H as [(_ & _ & ->) | [(_ & _ & _ & ->) | (_ & _ & _ & ->)]]; [done..|].
  split; [simpl; lia|]. split; [done|]. simpl. intros j e' _ He'.
  exists e'. split; [done | apply epoll_fades_refl].
Qed.

(** An event that is returned comes from a record the cursor had not
    passed, whose mask is not zero and has the bit of the event. *)
Lemma epoll_event_source s s' k h :
  nn_poller_event s = Ok (s', Some (k, h)) ->
  exists j e, index s <= j < nevents s /\ aget (events s) j = Ok e /\
    ev_ptr e = h /\ ev_events e <> 0 /\
    (k = NN_POLLER_IN -> has (ev_events e) EPOLLIN = true) /\
    (k = NN_POLLER_OUT -> has (ev_events e) EPOLLOUT = true).
Proof.
  intros (j & Hk & _ & H)%epoll_event_inv.
  destruct H as [(_ & _ & ? & _) | (Hlt & e & He & Hnz & H)]; [done|].
  exists j, e. split; [lia|]. split; [done|].
  destruct H as [(? & [= -> ->] & _) | [(? & ? & [= -> ->] & _) | (? & ? & [= -> ->] & _)]];
    repeat split; done.
Qed.

(** A call other than [nn_poller_wait] does not refill the buffer. *)
Lemma epoll_exec_shrinks o s s' r :
  is_wait o = false -> exec o s = Ok (s', r) -> shrinks s s'.
Proof.
  destruct o; simpl; try discriminate; intros _ H; inv_bind; subst.
  - by apply epoll_shrinks_same.
  - by eapply epoll_rm_shrinks.
  - apply epoll_shrinks_same; apply epoll_set_in_buffer.
  - by eapply epoll_reset_in_shrinks.
  - apply epoll_shrinks_same; apply epoll_set_out_buffer.
  - by eapply epoll_reset_out_shrinks.
  - by eapply epoll_event_shrinks.
Qed.

Lemma epoll_exec_result o s s' e :
  exec o s = Ok (s', Some e) -> o = Event.
Proof.
  destruct o; simpl; intros H; inv_bind; try discriminate. done.
Qed.

(** Within one batch, every event returned comes from a record that was in
    the buffer, not yet passed, at the start, with a mask that was not zero
    and had the bit of the event. *)
Lemma epoll_run_source ops s s' outs :
  Forall (fun o => is_wait o = false) ops ->
  run ops s = Ok (s', outs) ->
  forall k h, (k, h) ∈ outs ->
    exists j e, index s <= j < nevents s /\ aget (events s) j = Ok e /\
      ev_ptr e = h /\ ev_events e <> 0 /\
      (k = NN_POLLER_IN -> has (ev_events e) EPOLLIN = true) /\
      (k = NN_POLLER_OUT -> has (ev_events e) EPOLLOUT = true).
Proof.
  intros Hops. revert s s' outs.
  induction Hops as [|o ops Ho Hops IH]; intros s s' outs H k h Hin; simpl in H.
  { injection H as <- <-. by apply elem_of_nil in Hin. }
  inv_bind. destruct a as [s1 r], a0 as [s2 outs2]. simpl in *. subst.
  apply elem_of_app in Hin as [Hin|Hin].
  - destruct r as [ev|]; simpl in Hin; [|by apply elem_of_nil in Hin].
    apply list_elem_of_singleton in Hin as <-.
    pose proof (epoll_exec_result _ _ _ _ Ha) as ->.
    by eapply epoll_event_source.
  - destruct (IH _ _ _ Ha0 _ _ Hin) as (j & e1 & Hj & He1 & Hp & Hnz & Hi & Ho').
    destruct (epoll_exec_shrinks _ _ _ _ Ho Ha) as (Hidx & Hn & Hsh).
    destruct (Hsh j e1 Hj He1) as (e & He & Hf).
    exists j, e. split; [lia|]. split; [done|].
    split; [destruct Hf; congruence|].
    split; [by eapply epoll_fades_nonzero|].
    split; intros Hk; eapply epoll_fades_has; eauto.
Qed.



(** *** What a record yields *)

Lemma epoll_in_out_disjoint : Z.land EPOLLIN EPOLLOUT = 0.
Proof. reflexivity. Qed.

Lemma epoll_out_in_disjoint : Z.land EPOLLOUT EPOLLIN = 0.
Proof. reflexivity. Qed.

Lemma epoll_decode_zero e : ev_events e = 0 -> decode e = [].
Proof.
  intros Hz. unfold decode. rewrite Hz, !has_zero, !clear_zero.
  by destruct (decide (0 = 0)).
Qed.

Lemma epoll_decode_in e :
  has (ev_events e) EPOLLIN = true ->
  decode e = (NN_POLLER_IN, ev_ptr e) ::
             decode {| ev_events := clear (ev_events e) EPOLLIN; ev_ptr := ev_ptr e |}.
Proof.
  intros Hin. unfold decode. simpl.
  rewrite Hin, has_clear_same, clear_idem.
  rewrite (has_clear_other _ _ _ epoll_in_out_disjoint). done.
Qed.

Lemma epoll_decode_out e :
  has (ev_events e) EPOLLIN = false -> has (ev_events e) EPOLLOUT = true ->
  decode e = (NN_POLLER_OUT, ev_ptr e) ::
             decode {| ev_events := clear (ev_events e) EPOLLOUT; ev_ptr := ev_ptr e |}.
Proof.
  intros Hin Hout. unfold decode. simpl.
  rewrite Hin, Hout, has_clear_same.
  rewrite (has_clear_other _ _ _ epoll_out_in_disjoint), Hin.
  rewrite (clear_clear_comm (clear _ _)), clear_idem, (clear_clear_comm (ev_events e)).
  done.
Qed.

Lemma epoll_decode_err e :
  has (ev_events e) EPOLLIN = false -> has (ev_events e) EPOLLOUT = false ->
  ev_events e <> 0 ->
  decode e = [(NN_POLLER_ERR, ev_ptr e)].
Proof.
  intros Hin Hout Hnz. unfold decode. rewrite Hin, Hout.
  rewrite (clear_absent _ _ Hin), (clear_absent _ _ Hout).
  by destruct (decide _).
Qed.

(** A record yields each kind of event at most once. *)
Lemma epoll_decode_NoDup e : NoDup (decode e).
Proof.
  unfold decode.
  apply NoDup_ListNoDup.
  destruct (has _ EPOLLIN), (has _ EPOLLOUT), (decide _); simpl;
    repeat constructor; simpl; intuition discriminate.
Qed.

Lemma epoll_decode_elem e k h :
  (k, h) ∈ decode e ->
  ev_ptr e = h /\
  (k = NN_POLLER_IN -> has (ev_events e) EPOLLIN = true) /\
  (k = NN_POLLER_OUT -> has (ev_events e) EPOLLOUT = true).
Proof.
  unfold decode. intros Hin.
  destruct (has _ EPOLLIN) eqn:Ei, (has _ EPOLLOUT) eqn:Eo, (decide _);
    simpl in Hin;
    repeat (apply elem_of_cons in Hin as [Hin|Hin]);
    try (by apply elem_of_nil in Hin);
    injection Hin as -> <-; repeat split; done.
Qed.

(** *** Draining the batch *)

Lemma epoll_event_total s :
  wf s -> exists s' r, nn_poller_event s = Ok (s', r).
Proof.
  intros [Hi Hn]. unfold nn_poller_event, skip_empty.
  destruct (skip_from_total (fun e => negb (ev_events e =? 0)) (events s)
              (index s) (Z.to_nat (nevents s - index s))) as [k Hk]; [lia..|].
  rewrite Hk. simpl. apply skip_from_Ok in Hk as (Hr & _ & _).
  destruct (decide (nevents s <= k)); [eauto|].
  destruct (aget_in_range (events s) k) as [e He]; [lia|].
  rewrite He. simpl.
  destruct (has _ EPOLLIN).
  { rewrite (obind_Ok_l _ _ _ (aset_in_range (events s) k _ ltac:(lia))). eauto. }
  destruct (has _ EPOLLOUT).
  { rewrite (obind_Ok_l _ _ _ (aset_in_range (events s) k _ ltac:(lia))). eauto. }
  eauto.
Qed.

(** One call of [nn_poller_event] returns the first of the pending events
    and leaves the others pending. *)
Lemma epoll_event_pending s s' r :
  wf s -> nn_poller_event s = Ok (s', r) ->
  wf s' /\ pending s = option_list r ++ pending s' /\
  (r = None -> pending s' = []).
Proof.
  intros [Hi Hn] (k & Hk & Hzero & H)%epoll_event_inv.
  assert (Hskip : forall to, flat_map decode (window (events s) (index s) to) =
                    flat_map decode (window (events s) k to) \/ to < k).
  { intros to. destruct (decide (to < k)); [by right | left].
    rewrite (window_app _ (index s) k to) by lia.
    rewrite flat_map_app, flat_map_nil_Forall; [done|].
    apply window_Forall; [lia|]. intros j Hj.
    destruct (Hzero j Hj) as (x & Hx & Hz). exists x. split; [done|].
    by apply epoll_decode_zero. }
  unfold pending, live.
  destruct H as [(Hge & Hkn & -> & ->) | (Hlt & e & He & Hnz & H)]; simpl.
  { rewrite (Hkn ltac:(lia)). split; [unfold wf; simpl; lia|].
    rewrite (window_nil _ (nevents s) (nevents s)) by lia. simpl.
    split; [|done]. destruct (Hskip (nevents s)) as [->|]; [|lia].
    rewrite Hkn by lia. by rewrite window_nil by lia. }
  pose proof (aget_range _ _ _ He) as Hr.
  destruct (Hskip (nevents s)) as [->|]; [|lia].
  rewrite (window_cons _ _ _ _ Hlt He). simpl.
  destruct H as [(Hin & -> & ->) | [(Hin & Hout & -> & ->) | (Hin & Hout & -> & ->)]];
    simpl.
  - split; [unfold wf; simpl; rewrite length_insert; lia|]. split; [|done].
    rewrite (window_cons _ k _ _ Hlt (aget_insert_eq _ _ _ Hr)). simpl.
    rewrite window_insert_below by lia. by rewrite (epoll_decode_in _ Hin).
  - split; [unfold wf; simpl; rewrite length_insert; lia|]. split; [|done].
    rewrite (window_cons _ k _ _ Hlt (aget_insert_eq _ _ _ Hr)). simpl.
    rewrite window_insert_below by lia. by rewrite (epoll_decode_out _ Hin Hout).
  - split; [unfold wf; simpl; lia|]. split; [|done].
    by rewrite (epoll_decode_err _ Hin Hout Hnz).
Qed.

(** Draining returns the pending events, in the order of the records, and
    for each record [IN] before [OUT] before [ERR]. *)
Lemma epoll_drain_pending n s :
  wf s -> (length (pending s) <= n)%nat ->
  exists s', drain n s = Ok (s', pending s) /\ wf s' /\ pending s' = [].
Proof.
  revert s. induction n as [|n IH]; intros s Hwf Hn; simpl.
  { exists s. destruct (pending s); simpl in Hn; [done | lia]. }
  destruct (epoll_event_total s Hwf) as (s1 & r & Hev).
  destruct (epoll_event_pending _ _ _ Hwf Hev) as (Hwf1 & Hp & Hnone).
  rewrite Hev. simpl. destruct r as [e|]; simpl in *.
  - rewrite Hp in Hn. simpl in Hn.
    destruct (IH s1 Hwf1 ltac:(lia)) as (s2 & Hd & Hwf2 & Hp2).
    rewrite Hd. simpl. exists s2. by rewrite Hp.
  - exists s1. rewrite Hp, (Hnone eq_refl). done.
Qed.

(** *** Turning interest off *)

Lemma epoll_scrub_absent m h e :
  (ev_ptr e = h -> has (ev_events e) m = false) ->
  scrub (fun x => clear x m) h e = e.
Proof.
  intros H. unfold scrub. destruct (decide _) as [Hp|]; [|done].
  rewrite (clear_absent _ _ (H Hp)). by destruct e.
Qed.

(** [nn_poller_reset_in] clears [EPOLLIN] in the records of the handle that
    the cursor has not passed, and changes no other record. *)
Lemma epoll_reset_in_live s h s' :
  wf s -> tracks s h -> nn_poller_reset_in s h = Ok s' ->
  index s' = index s /\ nevents s' = nevents s /\
  length (events s') = length (events s) /\
  live s' = map (scrub (fun x => clear x EPOLLIN) h) (live s).
Proof.
  intros [Hi Hn] Htr. unfold nn_poller_reset_in, live.
  destruct (has (hndl_events (hmem s h)) EPOLLIN) eqn:Eint; simpl.
  - intros H. inv_bind. subst s'. simpl. split; [done|]. split; [done|].
    apply for_live_Ok in Ha as (_ & Hl & Hget). split; [done|].
    apply window_map; [lia | done |]. intros j x Hj Hx.
    rewrite (Hget _ _ Hx). by destruct (decide _); [|lia].
  - intros [= <-]. split; [done|]. split; [done|]. split; [done|].
    apply window_map; [lia | done |]. intros j x Hj Hx.
    rewrite epoll_scrub_absent; [done|]. intros Hp.
    destruct (Htr j x Hj Hx Hp) as [Hin _].
    destruct (has (ev_events x) EPOLLIN); [|done].
    rewrite Eint in Hin. by destruct Hin.
Qed.

Lemma epoll_reset_out_live s h s' :
  wf s -> tracks s h -> nn_poller_reset_out s h = Ok s' ->
  index s' = index s /\ nevents s' = nevents s /\
  length (events s') = length (events s) /\
  live s' = map (scrub (fun x => clear x EPOLLOUT) h) (live s).
Proof.
  intros [Hi Hn] Htr. unfold nn_poller_reset_out, live.
  destruct (has (hndl_events (hmem s h)) EPOLLOUT) eqn:Eint; simpl.
  - intros H. inv_bind. subst s'. simpl. split; [done|]. split; [done|].
    apply for_live_Ok in Ha as (_ & Hl & Hget). split; [done|].
    apply window_map; [lia | done |]. intros j x Hj Hx.
    rewrite (Hget _ _ Hx). by destruct (decide _); [|lia].
  - intros [= <-]. split; [done|]. split; [done|]. split; [done|].
    apply window_map; [lia | done |]. intros j x Hj Hx.
    rewrite epoll_scrub_absent; [done|]. intros Hp.
    destruct (Htr j x Hj Hx Hp) as [_ Hout].
    destruct (has (ev_events x) EPOLLOUT); [|done].
    rewrite Eint in Hout. by destruct Hout.
Qed.

Lemma epoll_decode_no_in e h :
  has (ev_events e) EPOLLIN = false ->
  Forall (fun x => x <> (NN_POLLER_IN, h)) (decode e).
Proof.
  intros Hin. apply Forall_forall. intros [k g] Hx [= -> ->].
  apply epoll_decode_elem in Hx as (_ & Hi & _). rewrite Hin in Hi.
  by specialize (Hi eq_refl).
Qed.

Lemma epoll_decode_no_out e h :
  has (ev_events e) EPOLLOUT = false ->
  Forall (fun x => x <> (NN_POLLER_OUT, h)) (decode e).
Proof.
  intros Hout. apply Forall_forall. intros [k g] Hx [= -> ->].
  apply epoll_decode_elem in Hx as (_ & _ & Ho). rewrite Hout in Ho.
  by specialize (Ho eq_refl).
Qed.

Lemma epoll_decode_other e h k :
  ev_ptr e <> h -> Forall (fun x => x <> (k, h)) (decode e).
Proof.
  intros Hne. apply Forall_forall. intros [k' g] Hx [= -> ->].
  by apply epoll_decode_elem in Hx as (? & _).
Qed.

(** A record whose [EPOLLIN] has been cleared for [h] yields what it
    yielded before, except [(IN, h)]. *)
Lemma epoll_decode_scrub_in h e :
  decode (scrub (fun x => clear x EPOLLIN) h e) =
  filter (fun x => x <> (NN_POLLER_IN, h)) (decode e).
Proof.
  unfold scrub. destruct (decide (ev_ptr e = h)) as [Hp|Hp].
  - destruct (has (ev_events e) EPOLLIN) eqn:Ein.
    + rewrite (epoll_decode_in e Ein), Hp.
      rewrite filter_cons_False by (intros H; by apply H).
      rewrite filter_all; [done|]. apply epoll_decode_no_in. simpl.
      apply has_clear_same.
    + rewrite (clear_absent _ _ Ein).
      rewrite filter_all by (by apply epoll_decode_no_in). by destruct e.
  - rewrite filter_all; [done|]. by apply epoll_decode_other.
Qed.

Lemma epoll_decode_scrub_out h e :
  decode (scrub (fun x => clear x EPOLLOUT) h e) =
  filter (fun x => x <> (NN_POLLER_OUT, h)) (decode e).
Proof.
  unfold scrub. destruct (decide (ev_ptr e = h)) as [Hp|Hp].
  - destruct (has (ev_events e) EPOLLOUT) eqn:Eout.
    + unfold decode at 2. simpl. rewrite Eout.
      rewrite list.filter_app. simpl.
      rewrite filter_cons_False by (rewrite Hp; intros H; by apply H).
      unfold decode. simpl.
      rewrite (has_clear_other _ _ _ epoll_out_in_disjoint), has_clear_same.
      rewrite (clear_clear_comm (clear _ _)), clear_idem,
        (clear_clear_comm (ev_events e)).
      f_equal.
      { destruct (has _ EPOLLIN); [|done].
        rewrite filter_cons_True by done. done. }
      simpl. destruct (decide _); [done|].
      rewrite filter_cons_True by done. done.
    + rewrite (clear_absent _ _ Eout).
      rewrite filter_all by (by apply epoll_decode_no_out). by destruct e.
  - rewrite filter_all; [done|]. by apply epoll_decode_other.
Qed.

(** After [nn_poller_reset_in] a full drain returns what it would
    have returned, in the same order, without the [(IN, h)] events. *)
Lemma epoll_reset_in_pending s h s' :
  wf s -> tracks s h -> nn_poller_reset_in s h = Ok s' ->
  pending s' = filter (fun x => x <> (NN_POLLER_IN, h)) (pending s).
Proof.
  intros Hwf Htr H. destruct (epoll_reset_in_live _ _ _ Hwf Htr H) as (_ & _ & _ & Hl).
  unfold pending. rewrite Hl, flat_map_map, filter_flat_map.
  apply flat_map_ext_Forall, Forall_forall. intros e _.
  apply epoll_decode_scrub_in.
Qed.

Lemma epoll_reset_out_pending s h s' :
  wf s -> tracks s h -> nn_poller_reset_out s h = Ok s' ->
  pending s' = filter (fun x => x <> (NN_POLLER_OUT, h)) (pending s).
Proof.
  intros Hwf Htr H. destruct (epoll_reset_out_live _ _ _ Hwf Htr H) as (_ & _ & _ & Hl).
  unfold pending. rewrite Hl, flat_map_map, filter_flat_map.
  apply flat_map_ext_Forall, Forall_forall. intros e _.
  apply epoll_decode_scrub_out.
Qed.

(** A cell of the window is a cell of the array. *)
Lemma epoll_live_cell s j e :
  wf s -> index s <= j < nevents s -> aget (events s) j = Ok e -> e ∈ live s.
Proof.
  intros [Hi Hn] Hj [_ He]%aget_Ok. apply list_elem_of_lookup.
  exists (Z.to_nat (j - index s)). unfold live.
  by rewrite window_lookup by lia.
Qed.

(** After [nn_poller_reset_in] no call of the same batch returns
    [(IN, h)]. *)
Lemma epoll_reset_in_silences s h s1 ops s2 outs :
  wf s -> tracks s h ->
  nn_poller_reset_in s h = Ok s1 ->
  Forall (fun o => is_wait o = false) ops ->
  run ops s1 = Ok (s2, outs) ->
  (NN_POLLER_IN, h) ∉ outs.
Proof.
  intros Hwf Htr Hr Hops Hrun Hin.
  destruct (epoll_run_source _ _ _ _ Hops Hrun _ _ Hin)
    as (j & e & Hj & He & Hp & _ & Hi & _).
  destruct (epoll_reset_in_live _ _ _ Hwf Htr Hr) as (Hidx & Hn & Hlen & Hl).
  assert (Hwf1 : wf s1).
  { destruct Hwf as [? ?]. unfold wf. rewrite Hidx, Hn, Hlen. lia. }
  pose proof (epoll_live_cell _ _ _ Hwf1 Hj He) as Hel.
  rewrite Hl in Hel. apply list_elem_of_fmap in Hel as (e0 & -> & _).
  specialize (Hi eq_refl). unfold scrub in *.
  destruct (decide (ev_ptr e0 = h)); simpl in *; [|done].
  by rewrite has_clear_same in Hi.
Qed.

Lemma epoll_reset_out_silences s h s1 ops s2 outs :
  wf s -> tracks s h ->
  nn_poller_reset_out s h = Ok s1 ->
  Forall (fun o => is_wait o = false) ops ->
  run ops s1 = Ok (s2, outs) ->
  (NN_POLLER_OUT, h) ∉ outs.
Proof.
  intros Hwf Htr Hr Hops Hrun Hin.
  destruct (epoll_run_source _ _ _ _ Hops Hrun _ _ Hin)
    as (j & e & Hj & He & Hp & _ & _ & Ho).
  destruct (epoll_reset_out_live _ _ _ Hwf Htr Hr) as (Hidx & Hn & Hlen & Hl).
  assert (Hwf1 : wf s1).
  { destruct Hwf as [? ?]. unfold wf. rewrite Hidx, Hn, Hlen. lia. }
  pose proof (epoll_live_cell _ _ _ Hwf1 Hj He) as Hel.
  rewrite Hl in Hel. apply list_elem_of_fmap in Hel as (e0 & -> & _).
  specialize (Ho eq_refl). unfold scrub in *.
  destruct (decide (ev_ptr e0 = h)); simpl in *; [|done].
  by rewrite has_clear_same in Ho.
Qed.

(** *** Waiting *)

Lemma epoll_wait_loop_fields s t n :
  ep (wait_loop s t n) = ep s /\ nevents (wait_loop s t n) = nevents s /\
  index (wait_loop s t n) = index s /\ events (wait_loop s t n) = events s /\
  hmem (wait_loop s t n) = hmem s /\
  trace (wait_loop s t n) =
    trace s ++ replicate (S n) (sys_epoll_wait (ep s) NN_POLLER_MAX_EVENTS t).
Proof.
  revert s. induction n as [|n IH]; intros s; simpl; [done|].
  destruct (IH (log s (sys_epoll_wait (ep s) NN_POLLER_MAX_EVENTS t)))
    as (H1 & H2 & H3 & H4 & H5 & H6).
  simpl in *. rewrite H1, H2, H3, H4, H5, H6, <- app_assoc. done.
Qed.

(** [nn_poller_wait] always returns [0]: an interrupted [epoll_wait] is
    called again, and a failed one goes unnoticed, because the assertion
    reads the field that was just set to [0]. *)
Lemma epoll_wait_spec s t n a :
  exists s', nn_poller_wait s t n a = Ok (s', rc_ok) /\
    ep s' = ep s /\ hmem s' = hmem s /\
    index s' = 0 /\ nevents s' = wait_ret a /\
    events s' = wait_array a (events s) /\
    trace s' =
      trace s ++ replicate (S n) (sys_epoll_wait (ep s) NN_POLLER_MAX_EVENTS t).
Proof.
  unfold nn_poller_wait.
  destruct (epoll_wait_loop_fields (set_buffer s 0 0 (events s)) t n)
    as (H1 & H2 & H3 & H4 & H5 & H6).
  simpl in *. rewrite H2. destruct (decide (0 = -1)); [done|].
  eexists. split; [done|]. simpl. by rewrite H1, H3, H4, H5, H6.
Qed.


(** *** A handle without interest *)

Lemma epoll_idle_shrinks s s' h :
  shrinks s s' ->
  has (hndl_events (hmem s' h)) EPOLLIN = false ->
  has (hndl_events (hmem s' h)) EPOLLOUT = false ->
  idle s h -> idle s' h.
Proof.
  intros (Hi & Hn & Hsh) Hin Hout (_ & _ & Hq).
  split; [done|]. split; [done|]. intros j e' Hj He' Hp.
  destruct (Hsh j e' Hj He') as (e & He & Hf).
  destruct (Hq j e ltac:(lia) He) as [Hei Heo]; [destruct Hf; congruence|].
  split.
  - destruct (has (ev_events e') EPOLLIN) eqn:E; [|done].
    by rewrite (epoll_fades_has _ _ _ Hf E) in Hei.
  - destruct (has (ev_events e') EPOLLOUT) eqn:E; [|done].
    by rewrite (epoll_fades_has _ _ _ Hf E) in Heo.
Qed.

Lemma epoll_rm_hmem s h s' : nn_poller_rm s h = Ok s' -> hmem s' = hmem s.
Proof. unfold nn_poller_rm. intros H. inv_bind. by subst s'. Qed.

Lemma epoll_event_hmem s s' r :
  nn_poller_event s = Ok (s', r) -> hmem s' = hmem s.
Proof.
  intros (k & _ & _ & H)%epoll_event_inv.
  destruct H as [(_ & _ & _ & ->) | (_ & e & _ & _ & H)]; [done|].
  by destruct H as [(_ & _ & ->) | [(_ & _ & _ & ->) | (_ & _ & _ & ->)]].
Qed.

(** The interest of [h] after a call that turns off interest of [g]. *)
Lemma epoll_reset_in_interest s g s' h m :
  nn_poller_reset_in s g = Ok s' ->
  has (hndl_events (hmem s h)) m = false ->
  has (hndl_events (hmem s' h)) m = false.
Proof.
  unfold nn_poller_reset_in. destruct (negb _); [by intros [= <-]|].
  intros H Hm. inv_bind. subst s'. simpl.
  destruct (decide (g = h)) as [->|Hne].
  - rewrite fn_lookup_insert. simpl.
    destruct (has (clear _ _) m) eqn:E; [|done].
    apply has_clear_mono in E. congruence.
  - by rewrite fn_lookup_insert_ne.
Qed.

Lemma epoll_reset_out_interest s g s' h m :
  nn_poller_reset_out s g = Ok s' ->
  has (hndl_events (hmem s h)) m = false ->
  has (hndl_events (hmem s' h)) m = false.
Proof.
  unfold nn_poller_reset_out. destruct (negb _); [by intros [= <-]|].
  intros H Hm. inv_bind. subst s'. simpl.
  destruct (decide (g = h)) as [->|Hne].
  - rewrite fn_lookup_insert. simpl.
    destruct (has (clear _ _) m) eqn:E; [|done].
    apply has_clear_mono in E. congruence.
  - by rewrite fn_lookup_insert_ne.
Qed.

Lemma epoll_set_in_other s g h :
  g <> h -> hmem (nn_poller_set_in s g) h = hmem s h.
Proof.
  intros Hne. unfold nn_poller_set_in. destruct (has _ _); [done|].
  simpl. by rewrite fn_lookup_insert_ne.
Qed.

Lemma epoll_set_out_other s g h :
  g <> h -> hmem (nn_poller_set_out s g) h = hmem s h.
Proof.
  intros Hne. unfold nn_poller_set_out. destruct (has _ _); [done|].
  simpl. by rewrite fn_lookup_insert_ne.
Qed.

(** A call that does not turn on interest of [h], and a wait that gets what
    the kernel may answer, keep [h] idle. *)
Lemma epoll_exec_idle o s s' r h :
  o <> SetIn h -> o <> SetOut h ->
  match o with Wait _ _ a => reported s a | _ => True end ->
  exec o s = Ok (s', r) -> idle s h -> idle s' h.
Proof.
  intros Hni Hno Hk H Hidle.
  destruct (is_wait o) eqn:Ew.
  - destruct o; try discriminate. simpl in H. inv_bind. destruct a as [s1 rc].
    simpl in *. subst s1.
    destruct (epoll_wait_spec s timeout interrupts final)
      as (s1 & H1 & _ & Hm & Hi & Hn & He & _).
    rewrite H1 in Ha. injection Ha as <- <-.
    destruct Hidle as (Hin & Hout & _). unfold idle. rewrite Hm.
    split; [done|]. split; [done|]. rewrite Hi, Hn, He.
    intros j e Hj Hg Hp. destruct final as [batch|]; simpl in *; [|lia].
    destruct Hk as [_ Hk]. apply aget_Ok in Hg as [_ Hg].
    rewrite lookup_app_l in Hg by lia.
    rewrite Forall_lookup in Hk. specialize (Hk _ _ Hg). simpl in Hk.
    rewrite Hp in Hk. destruct Hk as [Hki Hko].
    rewrite Hin in Hki. rewrite Hout in Hko.
    split.
    + destruct (has (ev_events e) EPOLLIN); [by destruct Hki | done].
    + destruct (has (ev_events e) EPOLLOUT); [by destruct Hko | done].
  - pose proof (epoll_exec_shrinks _ _ _ _ Ew H) as Hsh.
    destruct Hidle as (Hin & Hout & Hq).
    apply (epoll_idle_shrinks s); [done | | | done];
      destruct o; simpl in H; inv_bind; subst; try discriminate.
    all: try (erewrite epoll_rm_hmem by done; done).
    all: try (by eapply epoll_reset_in_interest).
    all: try (by eapply epoll_reset_out_interest).
    all: try (erewrite epoll_event_hmem by done; done).
    all: try (rewrite epoll_set_in_other by congruence; done).
    all: try (rewrite epoll_set_out_other by congruence; done).
    all: simpl; destruct (decide (h0 = h)) as [->|];
      [by rewrite fn_lookup_insert | by rewrite fn_lookup_insert_ne].
Qed.

(** While no call turns on interest of an idle handle, no call
    returns [(IN, h)] or [(OUT, h)]. *)
Lemma epoll_run_idle ops s s' outs h :
  (SetIn h ∉ ops) -> (SetOut h ∉ ops) ->
  kernel_ok ops s -> run ops s = Ok (s', outs) -> idle s h ->
  ((NN_POLLER_IN, h) ∉ outs) /\ ((NN_POLLER_OUT, h) ∉ outs).
Proof.
  revert s s' outs. induction ops as [|o ops IH]; intros s s' outs Hni Hno Hk H Hidle;
    simpl in H.
  { injection H as <- <-. split; apply not_elem_of_nil. }
  apply not_elem_of_cons in Hni as [Hni1 Hni2].
  apply not_elem_of_cons in Hno as [Hno1 Hno2].
  inv_bind. destruct a as [s1 r], a0 as [s2 outs2]. simpl in *. subst.
  destruct Hk as [Hk1 Hk2]. rewrite Ha in Hk2. simpl in Hk2.
  assert (Hidle1 : idle s1 h).
  { eapply epoll_exec_idle; [| | | exact Ha | done]; [congruence.. | done]. }
  destruct (IH _ _ _ Hni2 Hno2 Hk2 Ha0 Hidle1) as [Hi Ho].
  assert (Hr : forall k, r = Some (k, h) -> k = NN_POLLER_ERR).
  { intros k ->. pose proof (epoll_exec_result _ _ _ _ Ha) as ->.
    simpl in Ha.
    apply epoll_event_source in Ha as (j & e & Hj & He & Hp & _ & Hki & Hko).
    destruct Hidle as (_ & _ & Hq). destruct (Hq j e Hj He Hp) as [Hei Heo].
    destruct k; [| | done].
    - rewrite Hki in Hei; done.
    - rewrite Hko in Heo; done. }
  split; intros [Hin|Hin]%elem_of_app; try done;
    destruct r as [[k g]|]; simpl in Hin; try (by apply elem_of_nil in Hin);
    apply list_elem_of_singleton in Hin; injection Hin as <- <-;
    by specialize (Hr _ eq_refl).
Qed.

(** After [nn_poller_add] the handle is idle, if no record of the batch
    reports [EPOLLIN] or [EPOLLOUT] for it. *)
Lemma epoll_add_idle s fd h :
  (forall j e, index s <= j < nevents s -> aget (events s) j = Ok e ->
     ev_ptr e = h ->
     has (ev_events e) EPOLLIN = false /\ has (ev_events e) EPOLLOUT = false) ->
  idle (nn_poller_add s fd h) h.
Proof.
  intros Hq. unfold idle, nn_poller_add. simpl. rewrite fn_lookup_insert. simpl.
  rewrite !has_zero. done.
Qed.

(** *** Turning interest on and off, and the calls it costs *)

Lemma epoll_set_in_noop s h :
  has (hndl_events (hmem s h)) EPOLLIN = true -> nn_poller_set_in s h = s.
Proof. intros H. unfold nn_poller_set_in. by rewrite H. Qed.

Lemma epoll_set_in_once s h :
  has (hndl_events (hmem s h)) EPOLLIN = false ->
  trace (nn_poller_set_in s h) =
    trace s ++ [sys_epoll_ctl (ep s) EPOLL_CTL_MOD (hndl_fd (hmem s h))
                  (Some {| ev_events := Z.lor (hndl_events (hmem s h)) EPOLLIN;
                           ev_ptr := h |})] /\
  has (hndl_events (hmem (nn_poller_set_in s h) h)) EPOLLIN = true.
Proof.
  intros H. unfold nn_poller_set_in. rewrite H. simpl.
  split; [done|]. rewrite fn_lookup_insert. simpl. by apply has_lor_same.
Qed.

Lemma epoll_set_out_noop s h :
  has (hndl_events (hmem s h)) EPOLLOUT = true -> nn_poller_set_out s h = s.
Proof. intros H. unfold nn_poller_set_out. by rewrite H. Qed.

Lemma epoll_set_out_once s h :
  has (hndl_events (hmem s h)) EPOLLOUT = false ->
  trace (nn_poller_set_out s h) =
    trace s ++ [sys_epoll_ctl (ep s) EPOLL_CTL_MOD (hndl_fd (hmem s h))
                  (Some {| ev_events := Z.lor (hndl_events (hmem s h)) EPOLLOUT;
                           ev_ptr := h |})] /\
  has (hndl_events (hmem (nn_poller_set_out s h) h)) EPOLLOUT = true.
Proof.
  intros H. unfold nn_poller_set_out. rewrite H. simpl.
  split; [done|]. rewrite fn_lookup_insert. simpl. by apply has_lor_same.
Qed.

Lemma epoll_reset_in_noop s h :
  has (hndl_events (hmem s h)) EPOLLIN = false -> nn_poller_reset_in s h = Ok s.
Proof. intros H. unfold nn_poller_reset_in. by rewrite H. Qed.

Lemma epoll_reset_out_noop s h :
  has (hndl_events (hmem s h)) EPOLLOUT = false -> nn_poller_reset_out s h = Ok s.
Proof. intros H. unfold nn_poller_reset_out. by rewrite H. Qed.

(** The second of two calls in a row changes nothing. *)
Lemma epoll_set_in_twice s h :
  nn_poller_set_in (nn_poller_set_in s h) h = nn_poller_set_in s h.
Proof.
  destruct (has (hndl_events (hmem s h)) EPOLLIN) eqn:E.
  - by rewrite !(epoll_set_in_noop s h E).
  - apply epoll_set_in_noop. by apply epoll_set_in_once.
Qed.

Lemma epoll_set_out_twice s h :
  nn_poller_set_out (nn_poller_set_out s h) h = nn_poller_set_out s h.
Proof.
  destruct (has (hndl_events (hmem s h)) EPOLLOUT) eqn:E.
  - by rewrite !(epoll_set_out_noop s h E).
  - apply epoll_set_out_noop. by apply epoll_set_out_once.
Qed.

(** *** Creation and destruction *)

(** With [EPOLL_CLOEXEC]: [-EMFILE] when [epoll_create1] fails with [ENFILE]
    or [EMFILE], an abort when it fails otherwise, and [0] with an empty
    buffer when it succeeds. *)
Lemma epoll_init_cloexec s k :
  nn_poller_init true s k =
    if decide (create_ret k = -1) then
      if decide (create_errno k = ENFILE \/ create_errno k = EMFILE)
      then Ok (log (set_ep s (-1)) sys_epoll_create1, rc_neg EMFILE)
      else Abort
    else Ok (set_buffer (log (set_ep s (create_ret k)) sys_epoll_create1) 0 0
               (events s), rc_ok).
Proof.
  unfold nn_poller_init, init_check. simpl.
  destruct (decide (create_ret k = -1)) as [->|]; done.
Qed.

(** Without [EPOLL_CLOEXEC] a failure of [epoll_create] never reaches the
    test that would return [-EMFILE]: [fcntl] on [-1] fails first and the
    assertion on its value aborts. *)
Lemma epoll_init_no_cloexec s k :
  nn_poller_init false s k =
    if decide (create_ret k = -1) then Abort
    else if decide (fcntl_ret k = -1) then Abort
    else Ok (set_buffer
               (log (log (set_ep s (create_ret k)) (sys_epoll_create 1))
                    (sys_fcntl_cloexec (create_ret k))) 0 0 (events s), rc_ok).
Proof.
  unfold nn_poller_init, init_check, fcntl_cloexec. simpl.
  destruct (decide (create_ret k = -1)) as [->|Hne]; simpl; [done|].
  destruct (decide (fcntl_ret k = -1)); [done|].
  by destruct (decide (create_ret k = -1)).
Qed.

(** [nn_poller_term] closes the descriptor of the poller and keeps no
    record of it: a second call closes the same number again. *)
Lemma epoll_term_spec s :
  nn_poller_term s = log s (sys_closefd (ep s)).
Proof. reflexivity. Qed.

Lemma epoll_term_twice s :
  trace (nn_poller_term (nn_poller_term s)) =
    trace s ++ [sys_closefd (ep s); sys_closefd (ep s)].
Proof. unfold nn_poller_term. simpl. by rewrite <- app_assoc. Qed.

(** *** A record with both bits *)

(** The record under the cursor, or after empty records, has [EPOLLIN] and
    [EPOLLOUT]: two calls return [(IN, h)] then [(OUT, h)], and leave the
    record without the two bits. *)
Lemma epoll_event_in_out s k e :
  wf s -> index s <= k < nevents s ->
  (forall j, index s <= j < k -> exists x, aget (events s) j = Ok x /\ ev_events x = 0) ->
  aget (events s) k = Ok e ->
  has (ev_events e) EPOLLIN = true -> has (ev_events e) EPOLLOUT = true ->
  exists s1 s2,
    nn_poller_event s = Ok (s1, Some (NN_POLLER_IN, ev_ptr e)) /\
    nn_poller_event s1 = Ok (s2, Some (NN_POLLER_OUT, ev_ptr e)) /\
    index s2 = k /\
    aget (events s2) k =
      Ok {| ev_events := clear (clear (ev_events e) EPOLLIN) EPOLLOUT;
            ev_ptr := ev_ptr e |}.
Proof.
  intros Hwf Hk Hzero He Hin Hout.
  pose proof (aget_range _ _ _ He) as Hr.
  assert (Hnz : forall x m, has x m = true -> x <> 0).
  { intros x m Hx ->. by rewrite has_zero in Hx. }
  (* the first call *)
  destruct (epoll_event_total s Hwf) as (s1 & r1 & H1).
  destruct (epoll_event_inv _ _ _ H1) as (k1 & Hk1 & Hz1 & Hc1).
  assert (k1 = k) as ->.
  { destruct (Z.lt_trichotomy k1 k) as [Hlt | [-> | Hgt]]; [| done |].
    - destruct (Hzero k1 ltac:(lia)) as (x & Hx & Hxz).
      destruct Hc1 as [(? & _) | (_ & e1 & He1 & Hnz1 & _)]; [lia | congruence].
    - destruct (Hz1 k ltac:(lia)) as (x & Hx & Hxz).
      assert (x = e) by congruence. subst x.
      exfalso. by apply (Hnz _ _ Hin). }
  destruct Hc1 as [(? & _) | (_ & e1 & He1 & _ & Hc1)]; [lia|].
  assert (e1 = e) by congruence. subst e1.
  destruct Hc1 as [(_ & -> & ->) | [(? & _) | (? & _)]]; [| congruence..].
  set (e' := {| ev_events := clear (ev_events e) EPOLLIN; ev_ptr := ev_ptr e |}) in *.
  set (s1 := set_buffer s (nevents s) k (<[Z.to_nat k := e']> (events s))) in *.
  assert (Hwf1 : wf s1).
  { destruct Hwf. unfold wf, s1. simpl. rewrite length_insert. lia. }
  assert (He' : aget (<[Z.to_nat k := e']> (events s)) k = Ok e')
    by (by apply aget_insert_eq).
  assert (Hout' : has (ev_events e') EPOLLOUT = true).
  { unfold e'. simpl. by rewrite (has_clear_other _ _ _ epoll_in_out_disjoint). }
  (* the second call *)
  destruct (epoll_event_total s1 Hwf1) as (s2 & r2 & H2).
  destruct (epoll_event_inv _ _ _ H2) as (k2 & Hk2 & Hz2 & Hc2).
  unfold s1 in Hk2, Hz2, Hc2. simpl in Hk2, Hz2, Hc2.
  assert (k2 = k) as ->.
  { destruct (decide (k2 = k)) as [|Hne]; [done|].
    destruct (Hz2 k ltac:(lia)) as (x & Hx & Hxz).
    assert (x = e') by congruence. subst x.
    exfalso. by apply (Hnz _ _ Hout'). }
  destruct Hc2 as [(? & _) | (_ & e2 & He2 & _ & Hc2)]; [lia|].
  assert (e2 = e') by congruence. subst e2.
  assert (Hin' : has (ev_events e') EPOLLIN = false) by apply has_clear_same.
  destruct Hc2 as [(? & _) | [(_ & _ & -> & ->) | (_ & ? & _)]]; [congruence | | congruence].
  do 2 eexists. split; [done|]. split; [exact H2|]. split; [done|].
  simpl. apply aget_insert_eq. rewrite length_insert. lia.
Qed.

End EpollFacts.

(** ** kqueue *)

Module KqueueFacts.
Import Kqueue.
Local Open Scope Z_scope.

Lemma kq_fades_refl e : fades e e.
Proof. by left. Qed.

Lemma kq_fades_trans e1 e2 e3 : fades e1 e2 -> fades e2 e3 -> fades e1 e3.
Proof.
  intros [->| ->] [->| ->]; unfold fades; simpl; auto.
Qed.

Lemma kq_fades_scrub test e : fades e (scrub test e).
Proof. unfold scrub. destruct (test e); [by right | by left]. Qed.

(** A record that still names a handle has not been touched. *)
Lemma kq_fades_udata e e' h : fades e e' -> udata e' = Some h -> e' = e.
Proof. intros [->| ->]; simpl; [done | discriminate]. Qed.

Lemma kq_scrub_loop test evs from to evs' :
  for_live (scrub test) evs from to = Ok evs' ->
  length evs' = length evs /\
  forall j e', aget evs' j = Ok e' ->
    exists e, aget evs j = Ok e /\
      e' = if decide (from <= j < to) then scrub test e else e.
Proof.
  intros H. apply for_live_Ok in H as (_ & Hl & Hget).
  split; [done|]. intros j e' He'.
  destruct (aget_in_range evs j) as [e He].
  { apply aget_range in He'. lia. }
  exists e. split; [done|]. rewrite (Hget _ _ He) in He'. congruence.
Qed.

Lemma kq_shrinks_refl s : shrinks s s.
Proof.
  split; [lia|]. split; [done|]. intros j e' _ He'.
  exists e'. split; [done | apply kq_fades_refl].
Qed.

Lemma kq_shrinks_same s s' :
  index s' = index s -> nevents s' = nevents s -> events s' = events s ->
  shrinks s s'.
Proof.
  intros Hi Hn He. split; [lia|]. split; [done|]. intros j e' _ He'.
  exists e'. rewrite <- He. split; [done | apply kq_fades_refl].
Qed.

Lemma kq_shrinks_scrub test s evs :
  for_live (scrub test) (events s) (index s) (nevents s) = Ok evs ->
  forall s0, index s0 = index s -> nevents s0 = nevents s ->
    events s0 = events s ->
    shrinks s0 (set_buffer s (nevents s) (index s) evs).
Proof.
  intros H s0 Hi Hn He. apply kq_scrub_loop in H as (_ & Hget).
  split; [simpl; lia|]. split; [done|]. simpl. intros j e' Hj He'.
  destruct (Hget _ _ He') as (e & Hge & ->).
  exists e. rewrite He. split; [done|].
  destruct (decide _); [apply kq_fades_scrub | apply kq_fades_refl].
Qed.

(** The fields that the registration calls leave alone. *)
Lemma kq_rm_prefix s h :
  let hd := hmem s h in
  let s1 :=
    if has (hndl_events hd) NN_POLLER_EVENT_IN
    then log s (sys_kevent_change (kq s) (hndl_fd hd) EVFILT_READ EV_DELETE None)
    else s in
  let s2 :=
    if has (hndl_events hd) NN_POLLER_EVENT_OUT
    then log s1 (sys_kevent_change (kq s1) (hndl_fd hd) EVFILT_WRITE EV_DELETE None)
    else s1 in
  index s2 = index s /\ nevents s2 = nevents s /\ events s2 = events s /\
  hmem s2 = hmem s.
Proof. simpl. by destruct (has _ _), (has _ _). Qed.

Lemma kq_rm_shrinks s h s' : nn_poller_rm s h = Ok s' -> shrinks s s'.
Proof.
  unfold nn_poller_rm. intros H. inv_bind. subst s'.
  destruct (kq_rm_prefix s h) as (Hi & Hn & He & _). simpl in *.
  eapply kq_shrinks_scrub in Ha; [exact Ha | done..].
Qed.

Lemma kq_rm_hmem s h s' : nn_poller_rm s h = Ok s' -> hmem s' = hmem s.
Proof.
  unfold nn_poller_rm. intros H. inv_bind. subst s'.
  destruct (kq_rm_prefix s h) as (_ & _ & _ & Hm). done.
Qed.

Lemma kq_reset_in_shrinks s h s' :
  nn_poller_reset_in s h = Ok s' -> shrinks s s'.
Proof.
  unfold nn_poller_reset_in. intros H. inv_bind. subst s'.
  eapply kq_shrinks_scrub in Ha; [exact Ha | by destruct (has _ _)..].
Qed.

Lemma kq_reset_out_shrinks s h rc s' :
  nn_poller_reset_out s h rc = Ok s' -> shrinks s s'.
Proof.
  unfold nn_poller_reset_out. intros H. inv_bind. subst s'.
  eapply kq_shrinks_scrub in Ha;
    [exact Ha | by destruct (has _ _); [destruct (decide _)|]..].
Qed.

Lemma kq_set_in_buffer s h rc :
  index (nn_poller_set_in s h rc) = index s /\
  nevents (nn_poller_set_in s h rc) = nevents s /\
  events (nn_poller_set_in s h rc) = events s.
Proof.
  unfold nn_poller_set_in. by destruct (negb _); [destruct (decide _)|].
Qed.

Lemma kq_set_out_buffer s h rc :
  index (nn_poller_set_out s h rc) = index s /\
  nevents (nn_poller_set_out s h rc) = nevents s /\
  events (nn_poller_set_out s h rc) = events s.
Proof.
  unfold nn_poller_set_out. by destruct (negb _); [destruct (decide _)|].
Qed.

(** What [nn_poller_event] does: [j] is where the loop over the records
    without [udata] stops. *)
Lemma kq_event_inv s s' r :
  nn_poller_event s = Ok (s', r) ->
  exists j,
    index s <= j /\
    (forall i, index s <= i < j -> exists x, aget (events s) i = Ok x /\ udata x = None) /\
    ((nevents s <= j /\ (index s <= nevents s -> j = nevents s) /\ r = None /\
      s' = set_buffer s (nevents s) j (events s)) \/
     (j < nevents s /\ exists e h k, aget (events s) j = Ok e /\ udata e = Some h /\
        r = Some (k, h) /\ s' = set_buffer s (nevents s) (j + 1) (events s) /\
        (k = NN_POLLER_ERR /\ has (flags e) EV_EOF = true \/
         k = NN_POLLER_OUT /\ has (flags e) EV_EOF = false /\ filter e = EVFILT_WRITE \/
         k = NN_POLLER_IN /\ has (flags e) EV_EOF = false /\ filter e = EVFILT_READ))).
Proof.
  unfold nn_poller_event. intros H. inv_bind. rename a into j.
  unfold skip_empty in Ha. apply skip_from_Ok in Ha as (Hj & Hskip & Hstop).
  exists j. split; [lia|]. split.
  { intros i Hi. destruct (Hskip i Hi) as (x & Hx & Hz). exists x. split; [done|].
    apply bool_decide_eq_false in Hz. by destruct (udata x); [destruct Hz|]. }
  simpl in H. destruct (decide (nevents s <= j)) as [Hge|Hlt].
  - left. injection H as <- <-. repeat split; [done | lia].
  - right. split; [lia|]. inv_bind. rename a into e.
    destruct (udata e) as [h|] eqn:Eu; [|done].
    inv_bind. rename a into k. subst. exists e, h, k. repeat split; try done.
    destruct (has (flags e) EV_EOF).
    { injection Ha0 as <-. by left. }
    destruct (decide (filter e = EVFILT_WRITE)).
    { injection Ha0 as <-. right. by left. }
    destruct (decide (filter e = EVFILT_READ)); [|done].
    injection Ha0 as <-. right. by right.
Qed.

Lemma kq_event_shrinks s s' r :
  nn_poller_event s = Ok (s', r) -> shrinks s s'.
Proof.
  intros (j & Hj & _ & H)%kq_event_inv.
  destruct H as [(_ & _ & _ & ->) | (_ & e & h & k & _ & _ & _ & -> & _)];
    (split; [simpl; lia|]; split; [done|]; simpl; intros i e' _ He';
     exists e'; split; [done | apply kq_fades_refl]).
Qed.

Lemma kq_event_hmem s s' r :
  nn_poller_event s = Ok (s', r) -> hmem s' = hmem s.
Proof.
  intros (j & _ & _ & H)%kq_event_inv.
  by destruct H as [(_ & _ & _ & ->) | (_ & e & h & k & _ & _ & _ & -> & _)].
Qed.

(** An event that is returned comes from a record that names the handle;
    [IN] comes from a read record. *)
Lemma kq_event_source s s' k h :
  nn_poller_event s = Ok (s', Some (k, h)) ->
  exists j e, index s <= j < nevents s /\ aget (events s) j = Ok e /\
    udata e = Some h /\
    (k = NN_POLLER_IN -> filter e = EVFILT_READ) /\
    (k = NN_POLLER_OUT -> filter e = EVFILT_WRITE).
Proof.
  intros (j & Hj & _ & H)%kq_event_inv.
  destruct H as [(_ & _ & ? & _) | (Hlt & e & h' & k' & He & Hu & [= -> ->] & _ & Hk)];
    [done|].
  exists j, e. split; [lia|]. split; [done|]. split; [done|].
  destruct Hk as [(-> & _) | [(-> & _ & ?) | (-> & _ & ?)]]; split; done.
Qed.

Lemma kq_exec_shrinks b o s s' r :
  is_wait o = false -> exec b o s = Ok (s', r) -> shrinks s s'.
Proof.
  destruct o; simpl; try discriminate; intros _ H; inv_bind; subst.
  - by apply kq_shrinks_same.
  - by eapply kq_rm_shrinks.
  - apply kq_shrinks_same; apply kq_set_in_buffer.
  - by eapply kq_reset_in_shrinks.
  - apply kq_shrinks_same; apply kq_set_out_buffer.
  - by eapply kq_reset_out_shrinks.
  - by eapply kq_event_shrinks.
Qed.

Lemma kq_exec_result b o s s' e :
  exec b o s = Ok (s', Some e) -> o = Event.
Proof.
  destruct o; simpl; intros H; inv_bind; try discriminate. done.
Qed.

(** Within one batch, every event returned comes from a record that was in
    the buffer, not yet passed, at the start, and named the handle. *)
Lemma kq_run_source b ops s s' outs :
  Forall (fun o => is_wait o = false) ops ->
  run b ops s = Ok (s', outs) ->
  forall k h, (k, h) ∈ outs ->
    exists j e, index s <= j < nevents s /\ aget (events s) j = Ok e /\
      udata e = Some h /\
      (k = NN_POLLER_IN -> filter e = EVFILT_READ) /\
      (k = NN_POLLER_OUT -> filter e = EVFILT_WRITE).
Proof.
  intros Hops. revert s s' outs.
  induction Hops as [|o ops Ho Hops IH]; intros s s' outs H k h Hin; simpl in H.
  { injection H as <- <-. by apply elem_of_nil in Hin. }
  inv_bind. destruct a as [s1 r], a0 as [s2 outs2]. simpl in *. subst.
  apply elem_of_app in Hin as [Hin|Hin].
  - destruct r as [ev|]; simpl in Hin; [|by apply elem_of_nil in Hin].
    apply list_elem_of_singleton in Hin as <-.
    pose proof (kq_exec_result _ _ _ _ _ Ha) as ->.
    by eapply kq_event_source.
  - destruct (IH _ _ _ Ha0 _ _ Hin) as (j & e1 & Hj & He1 & Hu & Hi & Ho').
    destruct (kq_exec_shrinks _ _ _ _ _ Ho Ha) as (Hidx & Hn & Hsh).
    destruct (Hsh j e1 Hj He1) as (e & He & Hf).
    pose proof (kq_fades_udata _ _ _ Hf Hu) as ->.
    exists j, e. split; [lia|]. done.
Qed.

(** [(unsigned) fd] is [fd] for a descriptor. *)
Lemma kq_unsigned_fd fd : 0 <= fd < 2 ^ 31 -> unsigned fd = fd.
Proof. intros H. unfold unsigned. apply Z.mod_small. lia. Qed.



(** *** Turning interest off *)

Lemma kq_reset_in_prefix s h :
  let hd := hmem s h in
  let s1 :=
    if has (hndl_events hd) NN_POLLER_EVENT_IN then
      let s' := log s (sys_kevent_change (kq s) (hndl_fd hd) EVFILT_READ EV_DELETE None) in
      set_interest s' h (clear (hndl_events hd) NN_POLLER_EVENT_IN)
    else s in
  index s1 = index s /\ nevents s1 = nevents s /\ events s1 = events s /\
  hndl_fd (hmem s1 h) = hndl_fd (hmem s h).
Proof.
  simpl. destruct (has _ _); [|done]. simpl. by rewrite fn_lookup_insert.
Qed.

Lemma kq_reset_out_prefix s h rc :
  let hd := hmem s h in
  let s1 :=
    if has (hndl_events hd) NN_POLLER_EVENT_OUT then
      let s' := log s (sys_kevent_change (kq s) (hndl_fd hd) EVFILT_WRITE EV_DELETE None) in
      if decide (rc <> -1)
      then set_interest s' h (clear (hndl_events hd) NN_POLLER_EVENT_OUT)
      else s'
    else s in
  index s1 = index s /\ nevents s1 = nevents s /\ events s1 = events s /\
  hndl_fd (hmem s1 h) = hndl_fd (hmem s h).
Proof.
  simpl. destruct (has _ _); [|done]. destruct (decide _); [|done].
  simpl. by rewrite fn_lookup_insert.
Qed.

(** The records that [nn_poller_reset_in] leaves: the read records of the
    descriptor lose their [udata], with or without [EV_EOF]; every other
    record is kept. *)
Lemma kq_reset_in_records s h s' :
  nn_poller_reset_in s h = Ok s' ->
  index s' = index s /\ nevents s' = nevents s /\
  forall j e', aget (events s') j = Ok e' ->
    exists e, aget (events s) j = Ok e /\
      e' = if decide (index s <= j < nevents s) then
             scrub (fun e => bool_decide (ident e = unsigned (hndl_fd (hmem s h)))
                             && bool_decide (filter e = EVFILT_READ)) e
           else e.
Proof.
  unfold nn_poller_reset_in. intros H. inv_bind. subst s'.
  destruct (kq_reset_in_prefix s h) as (Hi & Hn & He & Hfd). simpl in *.
  apply kq_scrub_loop in Ha as (_ & Hget).
  rewrite Hi, Hn, He, Hfd in Hget. by rewrite Hi, Hn.
Qed.

Lemma kq_reset_out_records s h rc s' :
  nn_poller_reset_out s h rc = Ok s' ->
  index s' = index s /\ nevents s' = nevents s /\
  forall j e', aget (events s') j = Ok e' ->
    exists e, aget (events s) j = Ok e /\
      e' = if decide (index s <= j < nevents s) then
             scrub (fun e => bool_decide (ident e = unsigned (hndl_fd (hmem s h)))
                             && bool_decide (filter e = EVFILT_WRITE)) e
           else e.
Proof.
  unfold nn_poller_reset_out. intros H. inv_bind. subst s'.
  destruct (kq_reset_out_prefix s h rc) as (Hi & Hn & He & Hfd). simpl in *.
  apply kq_scrub_loop in Ha as (_ & Hget).
  rewrite Hi, Hn, He, Hfd in Hget. by rewrite Hi, Hn.
Qed.

(** The records of the other filter are untouched. *)
Lemma kq_reset_in_keeps_write s h s' j e :
  nn_poller_reset_in s h = Ok s' ->
  aget (events s) j = Ok e -> filter e <> EVFILT_READ ->
  aget (events s') j = Ok e.
Proof.
  unfold nn_poller_reset_in. intros H He Hf. inv_bind. subst s'. simpl.
  destruct (kq_reset_in_prefix s h) as (Hi & Hn & Hev & Hfd). simpl in *.
  apply for_live_Ok in Ha as (_ & _ & Hget). rewrite Hev in Hget.
  rewrite (Hget _ _ He). f_equal. destruct (decide (_ <= j < _)); [|done].
  unfold scrub. destruct (bool_decide (filter e = _)) eqn:Eb.
  - by apply bool_decide_eq_true in Eb.
  - by rewrite andb_false_r.
Qed.

Lemma kq_reset_out_keeps_read s h rc s' j e :
  nn_poller_reset_out s h rc = Ok s' ->
  aget (events s) j = Ok e -> filter e <> EVFILT_WRITE ->
  aget (events s') j = Ok e.
Proof.
  unfold nn_poller_reset_out. intros H He Hf. inv_bind. subst s'. simpl.
  destruct (kq_reset_out_prefix s h rc) as (Hi & Hn & Hev & Hfd). simpl in *.
  apply for_live_Ok in Ha as (_ & _ & Hget). rewrite Hev in Hget.
  rewrite (Hget _ _ He). f_equal. destruct (decide (_ <= j < _)); [|done].
  unfold scrub. destruct (bool_decide (filter e = _)) eqn:Eb.
  - by apply bool_decide_eq_true in Eb.
  - by rewrite andb_false_r.
Qed.

(** After [nn_poller_reset_in] no read record that the cursor has not
    passed names the handle. *)
Lemma kq_reset_in_scrubbed s h s' :
  all_tagged s -> nn_poller_reset_in s h = Ok s' ->
  forall j e, index s' <= j < nevents s' -> aget (events s') j = Ok e ->
    udata e = Some h -> filter e <> EVFILT_READ.
Proof.
  intros Htag (Hi & Hn & Hget)%kq_reset_in_records j e Hj He Hu Hf.
  rewrite Hi, Hn in Hj. destruct (Hget _ _ He) as (e0 & He0 & ->).
  destruct (decide _); [|lia]. unfold scrub in *.
  destruct (bool_decide _ && bool_decide _) eqn:Eb; [done|].
  apply andb_false_iff in Eb as [Eb|Eb]; apply bool_decide_eq_false in Eb; [|done].
  apply Eb. destruct (Htag j e0 Hj He0 h Hu) as [-> Hfd]. by rewrite kq_unsigned_fd.
Qed.

Lemma kq_reset_out_scrubbed s h rc s' :
  all_tagged s -> nn_poller_reset_out s h rc = Ok s' ->
  forall j e, index s' <= j < nevents s' -> aget (events s') j = Ok e ->
    udata e = Some h -> filter e <> EVFILT_WRITE.
Proof.
  intros Htag (Hi & Hn & Hget)%kq_reset_out_records j e Hj He Hu Hf.
  rewrite Hi, Hn in Hj. destruct (Hget _ _ He) as (e0 & He0 & ->).
  destruct (decide _); [|lia]. unfold scrub in *.
  destruct (bool_decide _ && bool_decide _) eqn:Eb; [done|].
  apply andb_false_iff in Eb as [Eb|Eb]; apply bool_decide_eq_false in Eb; [|done].
  apply Eb. destruct (Htag j e0 Hj He0 h Hu) as [-> Hfd]. by rewrite kq_unsigned_fd.
Qed.

(** After [nn_poller_reset_in] no call of the same batch returns
    [(IN, h)]. *)
Lemma kq_reset_in_silences b s h s1 ops s2 outs :
  all_tagged s ->
  nn_poller_reset_in s h = Ok s1 ->
  Forall (fun o => is_wait o = false) ops ->
  run b ops s1 = Ok (s2, outs) ->
  (NN_POLLER_IN, h) ∉ outs.
Proof.
  intros Htag Hr Hops Hrun Hin.
  destruct (kq_run_source _ _ _ _ _ Hops Hrun _ _ Hin)
    as (j & e & Hj & He & Hu & Hi & _).
  apply (kq_reset_in_scrubbed _ _ _ Htag Hr j e Hj He Hu). by apply Hi.
Qed.

Lemma kq_reset_out_silences b s h rc s1 ops s2 outs :
  all_tagged s ->
  nn_poller_reset_out s h rc = Ok s1 ->
  Forall (fun o => is_wait o = false) ops ->
  run b ops s1 = Ok (s2, outs) ->
  (NN_POLLER_OUT, h) ∉ outs.
Proof.
  intros Htag Hr Hops Hrun Hin.
  destruct (kq_run_source _ _ _ _ _ Hops Hrun _ _ Hin)
    as (j & e & Hj & He & Hu & _ & Ho).
  apply (kq_reset_out_scrubbed _ _ _ _ Htag Hr j e Hj He Hu). by apply Ho.
Qed.

(** *** Waiting *)

Lemma kq_wait_again_fields s t n :
  kq (wait_again s t n) = kq s /\ nevents (wait_again s t n) = nevents s /\
  index (wait_again s t n) = index s /\ events (wait_again s t n) = events s /\
  hmem (wait_again s t n) = hmem s /\
  trace (wait_again s t n) =
    trace s ++ replicate n (sys_kevent_wait (kq s) NN_POLLER_MAX_EVENTS (wait_timeout t)).
Proof.
  revert s. induction n as [|n IH]; intros s; simpl.
  { by rewrite app_nil_r. }
  destruct (IH (kevent_wait_call s t)) as (H1 & H2 & H3 & H4 & H5 & H6).
  simpl in *. rewrite H1, H2, H3, H4, H5, H6, <- app_assoc. done.
Qed.




(** The three ways [nn_poller_wait] ends. *)
Lemma kq_wait_interrupted s t n a :
  n <> O ->
  nn_poller_wait false s t n a =
    Ok (kevent_wait_call (set_buffer s 0 0 (events s)) t, rc_neg EINTR).
Proof. intros Hn. unfold nn_poller_wait. by destruct n. Qed.

Lemma kq_wait_failed b s t n :
  b = true \/ n = O -> nn_poller_wait b s t n Failed = Abort.
Proof.
  intros Hb. unfold nn_poller_wait.
  replace (negb b && negb (n =? 0)%nat) with false; [done|].
  destruct Hb as [->| ->]; [done|]. by rewrite andb_false_r.
Qed.

Lemma kq_wait_ready b s t n batch :
  b = true \/ n = O ->
  exists s', nn_poller_wait b s t n (Ready batch) = Ok (s', rc_ok) /\
    kq s' = kq s /\ hmem s' = hmem s /\
    index s' = 0 /\ nevents s' = Z.of_nat (length batch) /\
    events s' = batch ++ drop (length batch) (events s) /\
    trace s' =
      trace s ++ replicate (S n)
        (sys_kevent_wait (kq s) NN_POLLER_MAX_EVENTS (wait_timeout t)).
Proof.
  intros Hb. unfold nn_poller_wait.
  replace (negb b && negb (n =? 0)%nat) with false.
  2:{ destruct Hb as [->| ->]; [done|]. by rewrite andb_false_r. }
  destruct (kq_wait_again_fields (set_buffer s 0 0 (events s)) t n)
    as (H1 & H2 & H3 & H4 & H5 & H6).
  simpl in *. destruct (decide _); [lia|].
  eexists. split; [done|]. cbn [kq hmem index nevents events trace set_buffer
    kevent_wait_call log]. rewrite H1, H3, H4, H5, H6.
  repeat split; try done.
  rewrite <- app_assoc. f_equal. by rewrite <- replicate_S_end.
Qed.

(** Whatever happens, a wait that returns has reset the cursor, and a wait
    that returns [0] holds the batch. *)
Lemma kq_wait_inv b s t n a s' rc :
  nn_poller_wait b s t n a = Ok (s', rc) ->
  hmem s' = hmem s /\ index s' = 0 /\
  ((rc = rc_neg EINTR /\ b = false /\ n <> O /\ nevents s' = 0) \/
   (rc = rc_ok /\ (b = true \/ n = O) /\ exists batch, a = Ready batch /\
      nevents s' = Z.of_nat (length batch) /\
      events s' = batch ++ drop (length batch) (events s))).
Proof.
  intros H. destruct (decide (b = true \/ n = O)) as [Hb|Hb].
  - destruct a as [batch|]; [|by rewrite kq_wait_failed in H].
    destruct (kq_wait_ready b s t n batch Hb) as (s1 & H1 & _ & Hm & Hi & Hn & He & _).
    rewrite H1 in H. injection H as <- <-.
    split; [done|]. split; [done|]. right. eauto 10.
  - assert (b = false /\ n <> O) as [-> Hn].
    { destruct b; [by destruct Hb; left|]. split; [done|]. intros ->. by destruct Hb; right. }
    rewrite kq_wait_interrupted in H by done. injection H as <- <-.
    split; [done|]. split; [done|]. by left.
Qed.

(** *** A handle without interest *)

Lemma kq_reset_in_interest s g s' h m :
  nn_poller_reset_in s g = Ok s' ->
  has (hndl_events (hmem s h)) m = false ->
  has (hndl_events (hmem s' h)) m = false.
Proof.
  unfold nn_poller_reset_in. intros H Hm. inv_bind. subst s'. simpl.
  destruct (has (hndl_events (hmem s g)) _); [|done]. simpl.
  destruct (decide (g = h)) as [->|Hne].
  - rewrite fn_lookup_insert. simpl.
    destruct (has (clear _ _) m) eqn:E; [|done].
    apply has_clear_mono in E. congruence.
  - by rewrite fn_lookup_insert_ne.
Qed.

Lemma kq_reset_out_interest s g rc s' h m :
  nn_poller_reset_out s g rc = Ok s' ->
  has (hndl_events (hmem s h)) m = false ->
  has (hndl_events (hmem s' h)) m = false.
Proof.
  unfold nn_poller_reset_out. intros H Hm. inv_bind. subst s'. simpl.
  destruct (has (hndl_events (hmem s g)) _); [|done].
  destruct (decide _); [|done]. simpl.
  destruct (decide (g = h)) as [->|Hne].
  - rewrite fn_lookup_insert. simpl.
    destruct (has (clear _ _) m) eqn:E; [|done].
    apply has_clear_mono in E. congruence.
  - by rewrite fn_lookup_insert_ne.
Qed.

Lemma kq_set_in_other s g rc h :
  g <> h -> hmem (nn_poller_set_in s g rc) h = hmem s h.
Proof.
  intros Hne. unfold nn_poller_set_in. destruct (negb _); [|done].
  destruct (decide _); [|done]. simpl. by rewrite fn_lookup_insert_ne.
Qed.

Lemma kq_set_out_other s g rc h :
  g <> h -> hmem (nn_poller_set_out s g rc) h = hmem s h.
Proof.
  intros Hne. unfold nn_poller_set_out. destruct (negb _); [|done].
  destruct (decide _); [|done]. simpl. by rewrite fn_lookup_insert_ne.
Qed.

Lemma kq_idle_shrinks s s' h :
  shrinks s s' ->
  has (hndl_events (hmem s' h)) NN_POLLER_EVENT_IN = false ->
  has (hndl_events (hmem s' h)) NN_POLLER_EVENT_OUT = false ->
  idle s h -> idle s' h.
Proof.
  intros (Hi & Hn & Hsh) Hin Hout (_ & _ & Hq).
  split; [done|]. split; [done|]. intros j e' Hj He' Hu.
  destruct (Hsh j e' Hj He') as (e & He & Hf).
  pose proof (kq_fades_udata _ _ _ Hf Hu) as ->.
  by apply (Hq j e ltac:(lia) He).
Qed.

(** A call that does not turn on interest of [h], and a wait that gets what
    the kernel may answer, keep [h] idle. *)
Lemma kq_exec_idle b o s s' r h :
  (forall rc, o <> SetIn h rc) -> (forall rc, o <> SetOut h rc) ->
  match o with Wait _ _ a => reported s a | _ => True end ->
  exec b o s = Ok (s', r) -> idle s h -> idle s' h.
Proof.
  intros Hni Hno Hk H Hidle.
  destruct (is_wait o) eqn:Ew.
  - destruct o; try discriminate. simpl in H. inv_bind. destruct a as [s1 rc].
    simpl in *. subst s1.
    destruct (kq_wait_inv _ _ _ _ _ _ _ Ha) as (Hm & Hi & Hc).
    destruct Hidle as (Hin & Hout & _). unfold idle. rewrite Hm.
    split; [done|]. split; [done|]. rewrite Hi.
    destruct Hc as [(_ & _ & _ & ->) | (_ & _ & batch & -> & -> & ->)]; [intros; lia|].
    intros j e Hj Hg Hu. simpl in Hk. destruct Hk as [_ Hk].
    apply aget_Ok in Hg as [_ Hg]. rewrite lookup_app_l in Hg by lia.
    rewrite Forall_lookup in Hk. destruct (Hk _ _ Hg) as [_ Hr].
    destruct (Hr h Hu) as [[_ Hb] | [_ Hb]].
    + rewrite Hin in Hb. done.
    + rewrite Hout in Hb. done.
  - pose proof (kq_exec_shrinks _ _ _ _ _ Ew H) as Hsh.
    destruct Hidle as (Hin & Hout & Hq).
    apply (kq_idle_shrinks s); [done | | | done];
      destruct o; simpl in H; inv_bind; subst; try discriminate.
    all: try (erewrite kq_rm_hmem by done; done).
    all: try (by eapply kq_reset_in_interest).
    all: try (by eapply kq_reset_out_interest).
    all: try (erewrite kq_event_hmem by done; done).
    all: try (rewrite kq_set_in_other by (intros ->; by eapply Hni); done).
    all: try (rewrite kq_set_out_other by (intros ->; by eapply Hno); done).
    all: unfold nn_poller_add; simpl; destruct (decide (h0 = h)) as [->|];
      [by rewrite fn_lookup_insert | by rewrite fn_lookup_insert_ne].
Qed.

(** While no call turns on interest of an idle handle, no call
    returns an event for it, of any kind. *)
Lemma kq_run_idle b ops s s' outs h :
  (forall rc, SetIn h rc ∉ ops) -> (forall rc, SetOut h rc ∉ ops) ->
  kernel_ok b ops s -> run b ops s = Ok (s', outs) -> idle s h ->
  forall k, (k, h) ∉ outs.
Proof.
  revert s s' outs. induction ops as [|o ops IH]; intros s s' outs Hni Hno Hk H Hidle k;
    simpl in H.
  { injection H as <- <-. apply not_elem_of_nil. }
  assert (Hni1 : forall rc, o <> SetIn h rc).
  { intros rc ->. apply (Hni rc). by left. }
  assert (Hno1 : forall rc, o <> SetOut h rc).
  { intros rc ->. apply (Hno rc). by left. }
  assert (Hni2 : forall rc, SetIn h rc ∉ ops).
  { intros rc Hin. apply (Hni rc). by right. }
  assert (Hno2 : forall rc, SetOut h rc ∉ ops).
  { intros rc Hin. apply (Hno rc). by right. }
  inv_bind. destruct a as [s1 r], a0 as [s2 outs2]. simpl in *. subst.
  destruct Hk as [Hk1 Hk2]. rewrite Ha in Hk2. simpl in Hk2.
  assert (Hidle1 : idle s1 h) by (by eapply kq_exec_idle).
  intros [Hin|Hin]%elem_of_app; [|by eapply IH].
  destruct r as [ev|]; simpl in Hin; [|by apply elem_of_nil in Hin].
  apply list_elem_of_singleton in Hin as <-.
  pose proof (kq_exec_result _ _ _ _ _ Ha) as ->. simpl in Ha.
  apply kq_event_source in Ha as (j & e & Hj & He & Hu & _).
  destruct Hidle as (_ & _ & Hq). by apply (Hq j e Hj He).
Qed.

Lemma kq_add_idle s fd h :
  (forall j e, index s <= j < nevents s -> aget (events s) j = Ok e ->
     udata e <> Some h) ->
  idle (nn_poller_add s fd h) h.
Proof.
  intros Hq. unfold idle, nn_poller_add. simpl. rewrite fn_lookup_insert. simpl.
  rewrite !has_zero. done.
Qed.

(** *** Turning interest on and off, and the calls it costs *)

Lemma kq_set_in_noop s h rc :
  has (hndl_events (hmem s h)) NN_POLLER_EVENT_IN = true ->
  nn_poller_set_in s h rc = s.
Proof. intros H. unfold nn_poller_set_in. by rewrite H. Qed.

(** One call to [kevent]; the bit is set only if the call did not fail. *)
Lemma kq_set_in_once s h rc :
  has (hndl_events (hmem s h)) NN_POLLER_EVENT_IN = false ->
  trace (nn_poller_set_in s h rc) =
    trace s ++ [sys_kevent_change (kq s) (hndl_fd (hmem s h)) EVFILT_READ EV_ADD (Some h)] /\
  has (hndl_events (hmem (nn_poller_set_in s h rc) h)) NN_POLLER_EVENT_IN =
    bool_decide (rc <> -1) /\
  hndl_fd (hmem (nn_poller_set_in s h rc) h) = hndl_fd (hmem s h) /\
  kq (nn_poller_set_in s h rc) = kq s.
Proof.
  intros H. unfold nn_poller_set_in. rewrite H. simpl.
  destruct (decide (rc <> -1)) as [Hrc|Hrc]; simpl.
  - rewrite fn_lookup_insert. simpl. rewrite has_lor_same by done.
    by rewrite bool_decide_eq_true_2.
  - rewrite H. by rewrite bool_decide_eq_false_2.
Qed.

Lemma kq_set_out_noop s h rc :
  has (hndl_events (hmem s h)) NN_POLLER_EVENT_OUT = true ->
  nn_poller_set_out s h rc = s.
Proof. intros H. unfold nn_poller_set_out. by rewrite H. Qed.

Lemma kq_set_out_once s h rc :
  has (hndl_events (hmem s h)) NN_POLLER_EVENT_OUT = false ->
  trace (nn_poller_set_out s h rc) =
    trace s ++ [sys_kevent_change (kq s) (hndl_fd (hmem s h)) EVFILT_WRITE EV_ADD (Some h)] /\
  has (hndl_events (hmem (nn_poller_set_out s h rc) h)) NN_POLLER_EVENT_OUT =
    bool_decide (rc <> -1) /\
  hndl_fd (hmem (nn_poller_set_out s h rc) h) = hndl_fd (hmem s h) /\
  kq (nn_poller_set_out s h rc) = kq s.
Proof.
  intros H. unfold nn_poller_set_out. rewrite H. simpl.
  destruct (decide (rc <> -1)) as [Hrc|Hrc]; simpl.
  - rewrite fn_lookup_insert. simpl. rewrite has_lor_same by done.
    by rewrite bool_decide_eq_true_2.
  - rewrite H. by rewrite bool_decide_eq_false_2.
Qed.

(** With the bit unset no call is made to the kernel. *)
Lemma kq_reset_in_no_call s h s' :
  has (hndl_events (hmem s h)) NN_POLLER_EVENT_IN = false ->
  nn_poller_reset_in s h = Ok s' ->
  trace s' = trace s /\ hmem s' = hmem s.
Proof.
  intros Hb. unfold nn_poller_reset_in. rewrite Hb. intros H. inv_bind.
  by subst s'.
Qed.

Lemma kq_reset_out_no_call s h rc s' :
  has (hndl_events (hmem s h)) NN_POLLER_EVENT_OUT = false ->
  nn_poller_reset_out s h rc = Ok s' ->
  trace s' = trace s /\ hmem s' = hmem s.
Proof.
  intros Hb. unfold nn_poller_reset_out. rewrite Hb. intros H. inv_bind.
  by subst s'.
Qed.

(** Two calls in a row: one call to the kernel if the first registration
    succeeds, two if it fails. *)
Lemma kq_set_in_twice s h rc1 rc2 :
  has (hndl_events (hmem s h)) NN_POLLER_EVENT_IN = false ->
  trace (nn_poller_set_in (nn_poller_set_in s h rc1) h rc2) =
    trace s ++
      if decide (rc1 <> -1)
      then [sys_kevent_change (kq s) (hndl_fd (hmem s h)) EVFILT_READ EV_ADD (Some h)]
      else [sys_kevent_change (kq s) (hndl_fd (hmem s h)) EVFILT_READ EV_ADD (Some h);
            sys_kevent_change (kq s) (hndl_fd (hmem s h)) EVFILT_READ EV_ADD (Some h)].
Proof.
  intros H. destruct (kq_set_in_once s h rc1 H) as (Ht & Hb & Hfd & Hkq).
  destruct (decide (rc1 <> -1)) as [Hrc|Hrc].
  - rewrite bool_decide_eq_true_2 in Hb by done.
    by rewrite (kq_set_in_noop _ _ _ Hb).
  - rewrite bool_decide_eq_false_2 in Hb by done.
    destruct (kq_set_in_once _ h rc2 Hb) as (Ht2 & _).
    rewrite Ht2, Ht, Hfd, Hkq, <- app_assoc. done.
Qed.

(** *** Creation and destruction *)

Lemma kq_init_spec s k :
  nn_poller_init s k =
    if decide (create_ret k = -1) then
      if decide (create_errno k = ENFILE \/ create_errno k = EMFILE)
      then Ok (log (set_kq s (-1)) sys_kqueue, rc_neg EMFILE)
      else Abort
    else Ok (set_buffer (log (set_kq s (create_ret k)) sys_kqueue) 0 0 (events s),
             rc_ok).
Proof.
  unfold nn_poller_init. simpl.
  destruct (decide (create_ret k = -1)) as [->|]; done.
Qed.

Lemma kq_term_twice s :
  trace (nn_poller_term (nn_poller_term s)) =
    trace s ++ [sys_closefd (kq s); sys_closefd (kq s)].
Proof. unfold nn_poller_term. simpl. by rewrite <- app_assoc. Qed.

(** The array keeps its length. *)
Lemma kq_reset_in_length s h s' :
  nn_poller_reset_in s h = Ok s' -> length (events s') = length (events s).
Proof.
  unfold nn_poller_reset_in. intros H. inv_bind. subst s'.
  destruct (kq_reset_in_prefix s h) as (_ & _ & He & _). simpl in *.
  apply kq_scrub_loop in Ha as (Hl & _). by rewrite Hl, He.
Qed.

Lemma kq_reset_out_length s h rc s' :
  nn_poller_reset_out s h rc = Ok s' -> length (events s') = length (events s).
Proof.
  unfold nn_poller_reset_out. intros H. inv_bind. subst s'.
  destruct (kq_reset_out_prefix s h rc) as (_ & _ & He & _). simpl in *.
  apply kq_scrub_loop in Ha as (Hl & _). by rewrite Hl, He.
Qed.

End KqueueFacts.

(** ** poll *)

Module PollFacts.
Import Poll.
Local Open Scope Z_scope.

(** *** Updates of one cell *)

Lemma poll_upd_pollset_Ok s i f s' :
  upd_pollset s i f = Ok s' <->
  exists p, aget (pollset s) i = Ok p /\
    s' = set_pollset s (<[Z.to_nat i := f p]> (pollset s)).
Proof.
  unfold upd_pollset. split.
  - intros H. inv_bind. apply aset_Ok in Ha0 as [_ ->]. eauto.
  - intros (p & Hp & ->). rewrite Hp. simpl.
    rewrite (obind_Ok_l _ _ _ (aset_in_range (pollset s) i (f p) (aget_range _ _ _ Hp))).
    done.
Qed.

Lemma poll_upd_hndls_Ok s i f s' :
  upd_hndls s i f = Ok s' <->
  exists x, aget (hndls s) i = Ok x /\
    s' = set_hndls s (<[Z.to_nat i := f x]> (hndls s)).
Proof.
  unfold upd_hndls. split.
  - intros H. inv_bind. apply aset_Ok in Ha0 as [_ ->]. eauto.
  - intros (x & Hx & ->). rewrite Hx. simpl.
    rewrite (obind_Ok_l _ _ _ (aset_in_range (hndls s) i (f x) (aget_range _ _ _ Hx))).
    done.
Qed.

Lemma poll_upd_hndls_eval s i f x :
  aget (hndls s) i = Ok x ->
  upd_hndls s i f = Ok (set_hndls s (<[Z.to_nat i := f x]> (hndls s))).
Proof. intros Hx. apply poll_upd_hndls_Ok. eauto. Qed.

(** Reading after a write. *)
Lemma poll_aget_insert {A} (a : list A) i x j :
  0 <= i < Z.of_nat (length a) ->
  aget (<[Z.to_nat i := x]> a) j = if decide (j = i) then Ok x else aget a j.
Proof.
  intros Hi. destruct (decide (j = i)) as [->|Hne].
  - by apply aget_insert_eq.
  - apply aget_insert_ne; lia.
Qed.

(** [if (x != -1) self->hndls [x].f = v;] where [x] is [-1] or a cell of
    the array. *)
Lemma poll_link_eval s x f :
  x = -1 \/ (exists y, aget (hndls s) x = Ok y) ->
  exists hs',
    (if decide (x <> -1) then upd_hndls s x f else Ok s) = Ok (set_hndls s hs') /\
    length hs' = length (hndls s) /\
    forall j y, aget (hndls s) j = Ok y ->
      aget hs' j = Ok (if decide (j = x) then f y else y).
Proof.
  intros Hx. destruct (decide (x <> -1)) as [Hne|Heq].
  - destruct Hx as [->|[y Hy]]; [done|].
    eexists. split; [by apply poll_upd_hndls_eval|].
    split; [apply length_insert|]. intros j y' Hj.
    rewrite poll_aget_insert by (by eapply aget_range).
    destruct (decide (j = x)) as [->|]; [congruence | done].
  - assert (x = -1) as -> by lia.
    exists (hndls s). split; [by destruct s|]. split; [done|].
    intros j y Hj. destruct (decide (j = -1)) as [->|]; [|done].
    apply aget_range in Hj. lia.
Qed.

(** *** Lists of slots *)

Lemma poll_NoDup_replace (l : list Z) k m i :
  NoDup l -> l !! k = Some m -> i ∉ l -> NoDup (<[k := i]> l).
Proof.
  intros Hnd Hk Hi. apply NoDup_alt. intros a b x Ha Hb.
  assert (Hlen : (k < length l)%nat) by (by eapply lookup_lt_Some).
  destruct (decide (a = k)) as [->|Hak], (decide (b = k)) as [->|Hbk]; try done.
  - rewrite list_lookup_insert_eq in Ha by done.
    rewrite list_lookup_insert_ne in Hb by done.
    injection Ha as <-. exfalso. apply Hi. by eapply list_elem_of_lookup_2.
  - rewrite list_lookup_insert_eq in Hb by done.
    rewrite list_lookup_insert_ne in Ha by done.
    injection Hb as <-. exfalso. apply Hi. by eapply list_elem_of_lookup_2.
  - rewrite list_lookup_insert_ne in Ha, Hb by done.
    by eapply NoDup_lookup.
Qed.

Lemma poll_elem_of_replace (l : list Z) k m i j :
  NoDup l -> l !! k = Some m ->
  j ∈ <[k := i]> l <-> j = i \/ (j ∈ l /\ j <> m).
Proof.
  intros Hnd Hk.
  assert (Hlen : (k < length l)%nat) by (by eapply lookup_lt_Some).
  rewrite !list_elem_of_lookup. split.
  - intros [a Ha]. destruct (decide (a = k)) as [->|Hne].
    + rewrite list_lookup_insert_eq in Ha by done. left. congruence.
    + rewrite list_lookup_insert_ne in Ha by done. right. split; [eauto|].
      intros ->. apply Hne. by eapply NoDup_lookup.
  - intros [->|[[a Ha] Hne]].
    + exists k. by apply list_lookup_insert_eq.
    + exists a. rewrite list_lookup_insert_ne; [done|]. congruence.
Qed.

(** *** The loop that cuts out the removed slots *)

(** The second block of the loop body, when slot [i] holds a handle. *)
Lemma poll_relink_skip s i it g :
  aget (hndls s) i = Ok it -> hndl it = Some g -> compact_relink s i = Ok s.
Proof. intros Hit Hg. unfold compact_relink. rewrite Hit. simpl. by rewrite Hg. Qed.

(** The second block, when slot [i] is on the list: the two neighbours it
    names get [i] in the link that points back to it. *)
Lemma poll_relink_eval s i it :
  aget (hndls s) i = Ok it -> hndl it = None ->
  prev it <> i -> next it <> i ->
  (prev it = -1 \/ exists y, aget (hndls s) (prev it) = Ok y) ->
  (next it = -1 \/ exists y, aget (hndls s) (next it) = Ok y) ->
  exists hs',
    compact_relink s i =
      Ok (if decide (removed s = size s)
          then set_removed (set_hndls s hs') i
          else set_hndls s hs') /\
    length hs' = length (hndls s) /\
    forall j y, aget (hndls s) j = Ok y ->
      aget hs' j =
        Ok (let y1 := if decide (j = prev it) then with_next i y else y in
            if decide (j = next it) then with_prev i y1 else y1).
Proof.
  intros Hit Hnone Hpi Hni Hp Hn. unfold compact_relink.
  rewrite Hit. cbn [mbind outcome_bind obind]. rewrite Hnone.
  destruct (poll_link_eval s (prev it) (with_next i) Hp) as (hs1 & E1 & Hl1 & Hg1).
  rewrite E1. cbn [mbind outcome_bind obind hndls set_hndls].
  assert (Hit1 : aget hs1 i = Ok it).
  { rewrite (Hg1 _ _ Hit). by destruct (decide (i = prev it)). }
  rewrite Hit1. cbn [mbind outcome_bind obind].
  destruct (poll_link_eval (set_hndls s hs1) (next it) (with_prev i))
    as (hs2 & E2 & Hl2 & Hg2).
  { destruct Hn as [?|[y Hy]]; [by left | right]. cbn [hndls set_hndls].
    rewrite (Hg1 _ _ Hy). eauto. }
  rewrite E2. cbn [mbind outcome_bind obind hndls set_hndls removed size] in *.
  exists hs2. split; [done|]. split; [congruence|].
  intros j y Hy. rewrite (Hg2 _ _ (Hg1 _ _ Hy)). done.
Qed.

(** The first block of the loop body, when [i] is not the last slot in use:
    the last slot is copied to [i], after the first slot of the list has
    lost its link back to [i]. *)
Lemma poll_move_eval s i it lastp lasth :
  i <> size s ->
  aget (hndls s) i = Ok it ->
  0 <= i < Z.of_nat (length (pollset s)) ->
  aget (pollset s) (size s) = Ok lastp ->
  (next it = -1 \/ exists y, aget (hndls s) (next it) = Ok y) ->
  aget (hndls s) (size s) = Ok lasth ->
  exists hs',
    compact_move s i =
      Ok (let s2 := set_hndls (set_pollset s (<[Z.to_nat i := lastp]> (pollset s))) hs' in
          match hndl lasth with
          | Some g => set_hndl_index s2 g i
          | None => s2
          end) /\
    length hs' = length (hndls s) /\
    aget hs' i =
      Ok (if decide (size s = next it) then with_prev (-1) lasth else lasth) /\
    forall j y, j <> i -> aget (hndls s) j = Ok y ->
      aget hs' j = Ok (if decide (j = next it) then with_prev (-1) y else y).
Proof.
  intros Hne Hit Hi Hlp Hn Hlh. unfold compact_move.
  destruct (decide (i <> size s)) as [_|]; [|done].
  rewrite Hlp. cbn [mbind outcome_bind obind].
  rewrite (obind_Ok_l _ _ _ (aset_in_range (pollset s) i lastp Hi)).
  cbn [hndls set_pollset]. rewrite Hit. cbn [mbind outcome_bind obind].
  destruct (poll_link_eval (set_pollset s (<[Z.to_nat i := lastp]> (pollset s)))
              (next it) (with_prev (-1)) Hn) as (hs1 & E1 & Hl1 & Hg1).
  rewrite E1. cbn [mbind outcome_bind obind hndls set_hndls set_pollset size] in *.
  rewrite (Hg1 _ _ Hlh). cbn [mbind outcome_bind obind].
  pose proof (aget_range _ _ _ Hit) as Hir. rewrite <- Hl1 in Hir.
  rewrite (obind_Ok_l _ _ _ (aset_in_range hs1 i _ Hir)).
  rewrite aget_insert_eq by done. cbn [mbind outcome_bind obind].
  set (lasth' := if decide (size s = next it) then with_prev (-1) lasth else lasth).
  exists (<[Z.to_nat i := lasth']> hs1).
  split.
  { replace (hndl lasth') with (hndl lasth);
      [by destruct (hndl lasth)|].
    subst lasth'. destruct (decide (size s = next it)); reflexivity. }
  split; [by rewrite length_insert|].
  split; [by apply aget_insert_eq|].
  intros j y Hj Hy. rewrite aget_insert_ne by lia. by apply Hg1.
Qed.

(** What the invariant says of the first removed slot. *)
Lemma poll_loop_head s i l' :
  wf_loop s (i :: l') ->
  removed s = i /\ 0 <= i < size s /\ (i ∉ l') /\ NoDup l' /\
  exists it0, aget (hndls s) i = Ok it0 /\ hndl it0 = None /\
    next it0 = default (-1) (head l') /\
    (prev it0 = -1 \/ size s <= prev it0 < capacity s).
Proof.
  intros (_ & _ & Hnd & Hrem & Hcov & Hlink).
  apply NoDup_cons in Hnd as [Hni Hnd].
  destruct (Hlink O i eq_refl) as (Hi & it0 & Hit0 & Hnext & Hprev).
  split; [done|]. split; [done|]. split; [done|]. split; [done|].
  exists it0. split; [done|]. split; [|split; [|done]].
  - destruct (Hcov i Hi) as (it & Hit & Hn). rewrite Hit0 in Hit. injection Hit as <-.
    apply Hn. by left.
  - rewrite Hnext. simpl. by destruct l'.
Qed.

(** What it says of the others. *)
Lemma poll_loop_tail s i l' k e :
  wf_loop s (i :: l') -> l' !! k = Some e ->
  0 <= e < size s /\ e <> i /\
  exists it, aget (hndls s) e = Ok it /\ hndl it = None /\
    next it = default (-1) (l' !! S k) /\ (i :: l') !! k = Some (prev it).
Proof.
  intros (_ & _ & Hnd & Hrem & Hcov & Hlink) Hk.
  apply NoDup_cons in Hnd as [Hni Hnd].
  destruct (Hlink (S k) e Hk) as (He & it & Hit & Hnext & Hprev).
  split; [done|]. split.
  { intros ->. apply Hni. by eapply list_elem_of_lookup_2. }
  exists it. split; [done|]. split; [|done].
  destruct (Hcov e He) as (it' & Hit' & Hn). rewrite Hit in Hit'. injection Hit' as <-.
  apply Hn. right. by eapply list_elem_of_lookup_2.
Qed.

(** A slot in use that is not on the list holds a handle. *)
Lemma poll_loop_live s l j :
  wf_loop s l -> 0 <= j < size s -> j ∉ l ->
  exists it g, aget (hndls s) j = Ok it /\ hndl it = Some g.
Proof.
  intros (_ & _ & _ & _ & Hcov & _) Hj Hnl.
  destruct (Hcov j Hj) as (it & Hit & Hn).
  destruct (hndl it) as [g|] eqn:Eg; [eauto|]. exfalso. by apply Hnl, Hn.
Qed.

(** One turn of the loop, when the first removed slot is the last slot in
    use: it is cut off. *)
Lemma poll_step_last s i l' :
  wf_loop s (i :: l') -> i = size s - 1 ->
  exists s', compact_step s = Ok s' /\ wf_loop s' l' /\ size s' = size s - 1 /\
    same_slots s s'.
Proof.
  intros Hwf Hlast.
  destruct (poll_loop_head _ _ _ Hwf)
    as (Hrem & Hi & Hni & Hnd & it0 & Hit0 & Hnone & Hnext & Hprev).
  pose proof Hwf as ((Hsz & Hlp & Hlh) & Hidx & Hfl).
  assert (Hnext_in : next it0 = -1 \/ exists y, aget (hndls s) (next it0) = Ok y).
  { destruct l' as [|e l'']; [by left | right]. simpl in Hnext.
    destruct (poll_loop_tail _ _ _ O e Hwf eq_refl) as (_ & _ & it & Hit & _).
    rewrite Hnext. eauto. }
  assert (Hnext_ne : next it0 <> i).
  { destruct l' as [|e l'']; simpl in Hnext; [lia|].
    rewrite Hnext. intros ->. apply Hni. by left. }
  unfold compact_step. cbv zeta. rewrite Hrem, Hit0. cbn [mbind outcome_bind obind].
  set (s1 := set_size (set_removed s (next it0)) (size (set_removed s (next it0)) - 1)).
  assert (Hmove : compact_move s1 i = Ok s1).
  { unfold compact_move. destruct (decide (i <> size s1)) as [Hne|]; [|done].
    exfalso. apply Hne. unfold s1. simpl. lia. }
  rewrite Hmove. cbn [mbind outcome_bind obind].
  destruct (poll_relink_eval s1 i it0) as (hs' & E & Hl & Hg); try done.
  { lia. }
  { destruct Hprev as [?|Hp]; [by left | right]. apply aget_in_range. simpl. lia. }
  rewrite E. destruct (decide (removed s1 = size s1)) as [Heq|_].
  { exfalso. unfold s1 in Heq. simpl in Heq. lia. }
  eexists. split; [done|].
  assert (Hcell : forall j, 0 <= j < size s -> j <> i ->
    exists y, aget (hndls s) j = Ok y /\
      aget hs' j = Ok (if decide (j = next it0) then with_prev i y else y)).
  { intros j Hj Hne. destruct (aget_in_range (hndls s) j) as [y Hy]; [lia|].
    exists y. split; [done|]. rewrite (Hg _ _ Hy). cbv zeta.
    destruct (decide (j = prev it0)); [lia | done]. }
  assert (Hcell_hndl : forall j, 0 <= j < size s -> j <> i ->
    exists y y', aget (hndls s) j = Ok y /\ aget hs' j = Ok y' /\ hndl y' = hndl y).
  { intros j Hj Hne. destruct (Hcell j Hj Hne) as (y & Hy & Hy').
    exists y. eexists. split; [done|]. split; [done|]. by destruct (decide _). }
  split; [|split].
  - (* the invariant *)
    split; [|split].
    + unfold bounds, s1. simpl. rewrite Hl. simpl. lia.
    + intros j g ([Hj1 Hj2] & it & Hit & Hgit). simpl in *.
      destruct (Hcell_hndl j ltac:(lia) ltac:(lia)) as (y & y' & Hy & Hy' & Hh).
      apply Hidx. split; [lia|]. exists y. split; [done|]. congruence.
    + destruct Hfl as (_ & _ & Hcov & _).
      split; [done|]. split; [done|]. split.
      * intros j Hj. simpl in Hj.
        destruct (Hcell_hndl j ltac:(lia) ltac:(lia)) as (y & y' & Hy & Hy' & Hh).
        exists y'. split; [done|]. rewrite Hh.
        destruct (Hcov j ltac:(lia)) as (y0 & Hy0 & Hiff).
        assert (y0 = y) by congruence. subst y0. rewrite Hiff.
        rewrite elem_of_cons. split; [intros [?|?]; [lia | done] | by right].
      * intros k e Hk.
        destruct (poll_loop_tail _ _ _ _ _ Hwf Hk) as (He & Hei & it & Hit & _ & Hnx & Hpv).
        split; [simpl; lia|].
        destruct (Hcell e He Hei) as (y & Hy & Hy').
        assert (y = it) by congruence. subst y.
        eexists. split; [exact Hy'|].
        split; [by destruct (decide _)|].
        destruct k as [|k'].
        -- assert (e = next it0) as ->.
           { rewrite Hnext. by destruct l'; simplify_eq/=. }
           destruct (decide _); [|done]. simpl. right. lia.
        -- destruct (decide (e = next it0)) as [->|]; [|done].
           exfalso. destruct l' as [|e0 l'']; [done|]. simpl in Hnext.
           assert (S k' = O); [|done].
           eapply NoDup_lookup; [exact Hnd | exact Hk | by rewrite Hnext].
  - simpl. lia.
  - split; [done|]. split; [done|]. split; [done|].
    intros g p. unfold slot_of, registered, holds. simpl. split.
    + intros ((Hj & it & Hit & Hgit) & Hp).
      assert (hmem s g <> i) by (intros Heq; rewrite Heq in Hit; congruence).
      destruct (Hcell_hndl _ Hj H) as (y & y' & Hy & Hy' & Hh).
      split; [|done]. split; [lia|]. exists y'. split; [done|]. congruence.
    + intros ((Hj & it & Hit & Hgit) & Hp).
      destruct (Hcell_hndl (hmem s g) ltac:(lia) ltac:(lia)) as (y & y' & Hy & Hy' & Hh).
      split; [|done]. split; [lia|]. exists y. split; [done|]. congruence.
Qed.

(** One turn, when the last slot in use holds a handle: it moves to the
    first removed slot, and the handle gets its new index. *)
Lemma poll_step_move_live s i l' lasth g :
  wf_loop s (i :: l') -> i <> size s - 1 ->
  aget (hndls s) (size s - 1) = Ok lasth -> hndl lasth = Some g ->
  exists s', compact_step s = Ok s' /\ wf_loop s' l' /\ size s' = size s - 1 /\
    same_slots s s'.
Proof.
  intros Hwf Hnl Hlast Hg.
  destruct (poll_loop_head _ _ _ Hwf)
    as (Hrem & Hi & Hni & Hnd & it0 & Hit0 & Hnone & Hnext & Hprev).
  pose proof Hwf as ((Hsz & Hlp & Hlh) & Hidx & Hfl).
  assert (Hnext_in : next it0 = -1 \/ exists y, aget (hndls s) (next it0) = Ok y).
  { destruct l' as [|e l'']; [by left | right]. simpl in Hnext.
    destruct (poll_loop_tail _ _ _ O e Hwf eq_refl) as (_ & _ & it & Hit & _).
    rewrite Hnext. eauto. }
  remember (size s - 1) as m eqn:Hm.
  assert (Hm_notin : m ∉ l').
  { intros [k Hk]%list_elem_of_lookup.
    destruct (poll_loop_tail _ _ _ _ _ Hwf Hk) as (_ & _ & it & Hit & Hn & _).
    congruence. }
  assert (Hnext_m : next it0 <> m).
  { destruct l' as [|e l'']; simpl in Hnext; [lia|].
    rewrite Hnext. intros ->. apply Hm_notin. by left. }
  destruct (aget_in_range (pollset s) m) as [lastp Hlastp]; [lia|].
  unfold compact_step. cbv zeta. rewrite Hrem, Hit0. cbn [mbind outcome_bind obind].
  set (s1 := set_size (set_removed s (next it0)) (size (set_removed s (next it0)) - 1)).
  destruct (poll_move_eval s1 i it0 lastp lasth) as (hs2 & E & Hl2 & Hi2 & Hg2);
    try done.
  { unfold s1. simpl. lia. }
  { unfold s1. simpl. lia. }
  { unfold s1. simpl. by rewrite <- Hm. }
  { unfold s1. simpl. by rewrite <- Hm. }
  rewrite E. cbv zeta. rewrite Hg. cbn [mbind outcome_bind obind].
  cbn [size s1 set_size set_removed] in Hi2. rewrite <- Hm in Hi2.
  destruct (decide (m = next it0)) as [Heq|_]; [by rewrite <- Heq in Hnext_m|].
  erewrite poll_relink_skip; [| cbn [hndls set_hndl_index set_hndls]; exact Hi2 | exact Hg].
  eexists. split; [done|].
  cbn [hndls s1 set_size set_removed] in Hg2, Hl2.
  assert (Hcell : forall j, 0 <= j < size s -> j <> i ->
    exists y, aget (hndls s) j = Ok y /\
      aget hs2 j = Ok (if decide (j = next it0) then with_prev (-1) y else y)).
  { intros j Hj Hne. destruct (aget_in_range (hndls s) j) as [y Hy]; [lia|].
    exists y. split; [done|]. by apply Hg2. }
  assert (Hcell_hndl : forall j, 0 <= j < size s -> j <> i ->
    exists y y', aget (hndls s) j = Ok y /\ aget hs2 j = Ok y' /\ hndl y' = hndl y).
  { intros j Hj Hne. destruct (Hcell j Hj Hne) as (y & Hy & Hy').
    exists y. eexists. split; [done|]. split; [done|]. by destruct (decide _). }
  assert (Hholds_m : holds s m g).
  { split; [lia|]. eauto. }
  pose proof (Hidx _ _ Hholds_m) as Hmem_g.
  split; [|split].
  - split; [|split].
    + unfold bounds, s1. simpl. rewrite Hl2, length_insert. lia.
    + intros j g' ([Hj1 Hj2] & it & Hit & Hgit). simpl in *.
      destruct (decide (j = i)) as [->|Hji].
      * assert (g' = g) as -> by congruence. by rewrite fn_lookup_insert.
      * destruct (Hcell_hndl j ltac:(lia) Hji) as (y & y' & Hy & Hy' & Hh).
        assert (Hold : holds s j g').
        { split; [lia|]. exists y. split; [done|]. congruence. }
        pose proof (Hidx _ _ Hold) as Hmem.
        rewrite fn_lookup_insert_ne; [done|]. intros ->. lia.
    + destruct Hfl as (_ & _ & Hcov & _).
      split; [done|]. split; [done|]. split.
      * intros j Hj. simpl in Hj.
        destruct (decide (j = i)) as [->|Hji].
        -- eexists. split; [exact Hi2|]. rewrite Hg. by split.
        -- destruct (Hcell_hndl j ltac:(lia) Hji) as (y & y' & Hy & Hy' & Hh).
           exists y'. split; [done|]. rewrite Hh.
           destruct (Hcov j ltac:(lia)) as (y0 & Hy0 & Hiff).
           assert (y0 = y) by congruence. subst y0. rewrite Hiff.
           rewrite elem_of_cons. split; [intros [?|?]; [lia | done] | by right].
      * intros k e Hk.
        destruct (poll_loop_tail _ _ _ _ _ Hwf Hk) as (He & Hei & it & Hit & _ & Hnx & Hpv).
        assert (e <> m).
        { intros ->. apply Hm_notin. by eapply list_elem_of_lookup_2. }
        split; [simpl; lia|].
        destruct (Hcell e He Hei) as (y & Hy & Hy').
        assert (y = it) by congruence. subst y.
        eexists. split; [exact Hy'|].
        split; [by destruct (decide _)|].
        destruct k as [|k'].
        -- assert (e = next it0) as ->.
           { rewrite Hnext. by destruct l'; simplify_eq/=. }
           destruct (decide _); [|done]. simpl. by left.
        -- destruct (decide (e = next it0)) as [->|]; [|done].
           exfalso. destruct l' as [|e0 l'']; [done|]. simpl in Hnext.
           assert (S k' = O); [|done].
           eapply NoDup_lookup; [exact Hnd | exact Hk | by rewrite Hnext].
  - simpl. lia.
  - split; [done|]. split; [done|]. split; [done|].
    intros g' p. unfold slot_of, registered, holds. simpl. split.
    + intros ((Hj & it & Hit & Hgit) & Hp).
      destruct (decide (g' = g)) as [->|Hgg].
      * rewrite fn_lookup_insert. rewrite Hmem_g in Hp.
        split; [split; [lia | eauto]|].
        rewrite poll_aget_insert by lia. destruct (decide (i = i)); [congruence | done].
      * rewrite fn_lookup_insert_ne by done.
        assert (hmem s g' <> i) by (intros Heq; rewrite Heq in Hit; congruence).
        assert (hmem s g' <> m) by (intros Heq; rewrite Heq in Hit; congruence).
        destruct (Hcell_hndl _ Hj H) as (y & y' & Hy & Hy' & Hh).
        split; [split; [lia|]; exists y'; split; [done | congruence]|].
        by rewrite aget_insert_ne by lia.
    + intros ((Hj & it & Hit & Hgit) & Hp).
      destruct (decide (g' = g)) as [->|Hgg].
      * rewrite fn_lookup_insert in Hp. rewrite Hmem_g.
        split; [done|]. rewrite poll_aget_insert in Hp by lia.
        destruct (decide (i = i)); [congruence | done].
      * rewrite fn_lookup_insert_ne in Hj, Hit, Hp by done.
        assert (hmem s g' <> i) by (intros Heq; rewrite Heq in Hit; congruence).
        destruct (Hcell_hndl (hmem s g') ltac:(lia) H) as (y & y' & Hy & Hy' & Hh).
        split; [split; [lia|]; exists y; split; [done | congruence]|].
        by rewrite aget_insert_ne in Hp by lia.
Qed.

(** One turn, when the last slot in use is itself on the list: it takes the
    place of the first removed slot in the array and of itself in the list,
    and its two neighbours are told. *)
Lemma poll_step_move_free s i l' lasth :
  wf_loop s (i :: l') -> i <> size s - 1 ->
  aget (hndls s) (size s - 1) = Ok lasth -> hndl lasth = None ->
  exists s' l'', compact_step s = Ok s' /\ wf_loop s' l'' /\
    length l'' = length l' /\ size s' = size s - 1 /\ same_slots s s'.
Proof.
  intros Hwf Hnl Hlast Hg.
  destruct (poll_loop_head _ _ _ Hwf)
    as (Hrem & Hi & Hni & Hnd & it0 & Hit0 & Hnone & Hnext & Hprev).
  pose proof Hwf as ((Hsz & Hlp & Hlh) & Hidx & Hfl).
  assert (Hnext_in : next it0 = -1 \/ exists y, aget (hndls s) (next it0) = Ok y).
  { destruct l' as [|e l'']; [by left | right]. simpl in Hnext.
    destruct (poll_loop_tail _ _ _ O e Hwf eq_refl) as (_ & _ & it & Hit & _).
    rewrite Hnext. eauto. }
  remember (size s - 1) as m eqn:Hm.
  (* the last slot is on the list, at position [km] *)
  assert (Hm_in : m ∈ l').
  { destruct Hfl as (_ & _ & Hcov & _).
    destruct (Hcov m ltac:(lia)) as (y & Hy & Hiff).
    assert (y = lasth) by congruence. subst y.
    apply Hiff in Hg. apply elem_of_cons in Hg as [?|?]; [lia | done]. }
  apply list_elem_of_lookup in Hm_in as [km Hkm].
  destruct (poll_loop_tail _ _ _ _ _ Hwf Hkm) as (_ & _ & it & Hit & _ & Hnx_m & Hpv_m).
  assert (it = lasth) by congruence. subst it.
  assert (Hpos : forall k e, l' !! k = Some e -> 0 <= e < size s /\ e <> i).
  { intros k e Hk. by destruct (poll_loop_tail _ _ _ _ _ Hwf Hk) as (? & ? & _). }
  assert (Hnext0 : km = O <-> m = next it0).
  { split.
    - intros ->. rewrite Hnext. by destruct l'; simplify_eq/=.
    - intros Heq. destruct l' as [|e0 l'']; [done|]. simpl in Hnext.
      eapply NoDup_lookup; [exact Hnd | exact Hkm | by rewrite Heq, Hnext]. }
  destruct (aget_in_range (pollset s) m) as [lastp Hlastp]; [lia|].
  unfold compact_step. cbv zeta. rewrite Hrem, Hit0. cbn [mbind outcome_bind obind].
  set (s1 := set_size (set_removed s (next it0)) (size (set_removed s (next it0)) - 1)).
  destruct (poll_move_eval s1 i it0 lastp lasth) as (hs2 & E & Hl2 & Hi2 & Hg2);
    try done.
  { unfold s1. simpl. lia. }
  { unfold s1. simpl. lia. }
  { unfold s1. simpl. by rewrite <- Hm. }
  { unfold s1. simpl. by rewrite <- Hm. }
  rewrite E. cbv zeta. rewrite Hg. cbn [mbind outcome_bind obind].
  cbn [size s1 set_size set_removed] in Hi2. rewrite <- Hm in Hi2.
  cbn [hndls s1 set_size set_removed] in Hg2, Hl2.
  set (it := if decide (m = next it0) then with_prev (-1) lasth else lasth) in *.
  assert (Hit_next : next it = default (-1) (l' !! S km)).
  { unfold it. by destruct (decide _). }
  assert (Hit_prev : match km with
                     | O => prev it = -1
                     | S k' => l' !! k' = Some (prev it)
                     end).
  { unfold it. destruct km as [|k'].
    - destruct (decide _) as [|Hne]; [done|]. by destruct Hne; apply Hnext0.
    - destruct (decide _) as [Heq|]; [|done]. by apply Hnext0 in Heq. }
  assert (Hit_none : hndl it = None).
  { unfold it. by destruct (decide _). }
  set (X := set_hndls (set_pollset s1 (<[Z.to_nat i := lastp]> (pollset s1))) hs2).
  destruct (poll_relink_eval X i it) as (hs3 & E3 & Hl3 & Hg3); try done.
  { destruct km as [|k']; [lia|]. by destruct (Hpos _ _ Hit_prev). }
  { rewrite Hit_next. destruct (l' !! S km) as [e|] eqn:Ee; simpl; [|lia].
    by destruct (Hpos _ _ Ee). }
  { destruct km as [|k']; [by left | right]. destruct (Hpos _ _ Hit_prev).
    apply aget_in_range. unfold X. simpl. lia. }
  { rewrite Hit_next. destruct (l' !! S km) as [e|] eqn:Ee; simpl; [right | by left].
    destruct (Hpos _ _ Ee). apply aget_in_range. unfold X. simpl. lia. }
  rewrite E3. cbn [hndls X set_hndls] in Hg3, Hl3.
  assert (Hprev_i : prev it <> i).
  { destruct km as [|k']; [lia|]. by destruct (Hpos _ _ Hit_prev). }
  assert (Hnext_i : next it <> i).
  { rewrite Hit_next. destruct (l' !! S km) as [e|] eqn:Ee; simpl; [|lia].
    by destruct (Hpos _ _ Ee). }
  (* which slots are the neighbours of the moved one *)
  assert (Hisprev : forall k e, l' !! k = Some e -> (e = prev it <-> km = S k)).
  { intros k e Hk. destruct (Hpos _ _ Hk) as [He _]. split.
    - intros ->. destruct km as [|k']; [lia|]. f_equal. symmetry.
      by eapply NoDup_lookup.
    - intros ->. simpl in Hit_prev. congruence. }
  assert (Hisnext : forall k e, l' !! k = Some e -> (e = next it <-> k = S km)).
  { intros k e Hk. destruct (Hpos _ _ Hk) as [He _]. rewrite Hit_next. split.
    - intros ->. destruct (l' !! S km) as [e|] eqn:Ee; simpl in *; [|lia].
      by eapply NoDup_lookup.
    - intros ->. by rewrite Hk. }
  assert (Hisnext0 : forall k e, l' !! k = Some e -> (e = next it0 <-> k = O)).
  { intros k e Hk. destruct (Hpos _ _ Hk) as [He _]. rewrite Hnext. split.
    - intros ->. destruct l' as [|e0 l'']; [done|]. simpl in *.
      by eapply (NoDup_lookup (e0 :: l'')).
    - intros ->. by destruct l'; simplify_eq/=. }
  (* the cells of the array at the end *)
  assert (Hcell_i : aget hs3 i = Ok it).
  { rewrite (Hg3 _ _ Hi2). by destruct (decide (i = next it)), (decide (i = prev it)). }
  assert (Hcell : forall j, 0 <= j < size s -> j <> i ->
    exists y y', aget (hndls s) j = Ok y /\ aget hs3 j = Ok y' /\
      hndl y' = hndl y /\
      next y' = (if decide (j = prev it) then i else next y) /\
      prev y' = (if decide (j = next it) then i
                 else if decide (j = next it0) then -1 else prev y)).
  { intros j Hj Hne. destruct (aget_in_range (hndls s) j) as [y Hy]; [lia|].
    exists y. eexists. split; [done|]. split; [exact (Hg3 _ _ (Hg2 _ _ Hne Hy))|].
    destruct (decide (j = next it)), (decide (j = prev it)), (decide (j = next it0));
      done. }
  set (s' := if decide (removed X = size X)
             then set_removed (set_hndls X hs3) i else set_hndls X hs3).
  assert (Hs' : size s' = m /\ hndls s' = hs3 /\ hmem s' = hmem s /\
                capacity s' = capacity s /\ index s' = index s /\
                trace s' = trace s /\
                pollset s' = <[Z.to_nat i := lastp]> (pollset s) /\
                removed s' = if decide (km = O) then i else next it0).
  { unfold s'. assert (removed X = next it0) as HrX by done.
    assert (size X = m) as HsX by (unfold X, s1; simpl; lia).
    rewrite HrX, HsX.
    destruct (decide (km = O)) as [Hk0|Hk0].
    - pose proof (proj1 Hnext0 Hk0) as Heq.
      destruct (decide (next it0 = m)) as [_|Hne]; [|congruence].
      unfold X, s1. simpl. repeat split; lia.
    - destruct (decide (next it0 = m)) as [Heq|_].
      { exfalso. by apply Hk0, Hnext0. }
      unfold X, s1. simpl. repeat split; lia. }
  destruct Hs' as (Hsize' & Hhs' & Hmem' & Hcap' & Hidx' & Htr' & Hps' & Hrem').
  exists s', (<[km := i]> l').
  split; [done|].
  assert (Hlen_km : (km < length l')%nat) by (by eapply lookup_lt_Some).
  split; [|split; [by rewrite length_insert | split; [done|]]].
  - (* the invariant *)
    split; [|split].
    + unfold bounds. rewrite Hsize', Hcap', Hhs', Hps', Hl3, Hl2, length_insert. lia.
    + intros j g ([Hj1 Hj2] & y' & Hy' & Hgy). rewrite Hsize' in Hj2.
      rewrite Hhs' in Hy'. rewrite Hmem'.
      destruct (decide (j = i)) as [->|Hji]; [congruence|].
      destruct (Hcell j ltac:(lia) Hji) as (y & y2 & Hy & Hy2 & Hh & _).
      apply Hidx. split; [lia|]. exists y. split; [done|]. congruence.
    + destruct Hfl as (_ & _ & Hcov & _).
      split; [by eapply poll_NoDup_replace|]. split; [|split].
      * rewrite Hrem'. destruct (decide (km = O)) as [->|Hk0].
        -- by destruct l'.
        -- rewrite Hnext. destruct l' as [|e0 l'']; [done|]. by destruct km.
      * intros j Hj. rewrite Hsize' in Hj. rewrite Hhs'.
        pose proof (poll_elem_of_replace _ _ _ i j Hnd Hkm) as Hrep.
        destruct (decide (j = i)) as [->|Hji].
        -- exists it. split; [done|]. rewrite Hrep. split; [by left | done].
        -- destruct (Hcell j ltac:(lia) Hji) as (y & y' & Hy & Hy' & Hh & _).
           exists y'. split; [done|]. rewrite Hh, Hrep.
           destruct (Hcov j ltac:(lia)) as (y0 & Hy0 & Hiff).
           assert (y0 = y) by congruence. subst y0. rewrite Hiff, elem_of_cons.
           split; [intros [?|?]; [lia | right; split; [done | lia]] |].
           intros [?|[? _]]; [lia | by right].
      * intros k e Hk. rewrite Hsize', Hhs'.
        destruct (decide (k = km)) as [->|Hkk].
        -- rewrite list_lookup_insert_eq in Hk by done. injection Hk as <-.
           split; [lia|]. exists it. split; [done|]. split.
           ++ rewrite list_lookup_insert_ne by lia. done.
           ++ destruct km as [|k']; [by left|].
              rewrite list_lookup_insert_ne by lia. done.
        -- rewrite list_lookup_insert_ne in Hk by done.
           destruct (poll_loop_tail _ _ _ _ _ Hwf Hk)
             as (He & Hei & ite & Hite & _ & Hnx & Hpv).
           assert (e <> m).
           { intros ->. apply Hkk. by eapply NoDup_lookup. }
           split; [lia|].
           destruct (Hcell e He Hei) as (y & y' & Hy & Hy' & _ & Hn' & Hp').
           assert (y = ite) by congruence. subst y.
           exists y'. split; [done|]. split.
           ++ rewrite Hn'. destruct (decide (e = prev it)) as [Hep|Hep].
              ** apply (Hisprev _ _ Hk) in Hep. subst km.
                 by rewrite list_lookup_insert_eq.
              ** rewrite list_lookup_insert_ne; [done|].
                 intros Heq. by apply Hep, (Hisprev _ _ Hk).
           ++ rewrite Hp'. destruct k as [|k'].
              ** destruct (decide (e = next it)) as [Hen|_].
                 { by apply (Hisnext _ _ Hk) in Hen. }
                 destruct (decide (e = next it0)) as [_|Hen0]; [by left|].
                 exfalso. by apply Hen0, (Hisnext0 _ _ Hk).
              ** destruct (decide (e = next it)) as [Hen|Hen].
                 { apply (Hisnext _ _ Hk) in Hen. injection Hen as ->.
                   by rewrite list_lookup_insert_eq. }
                 destruct (decide (e = next it0)) as [Hen0|_].
                 { by apply (Hisnext0 _ _ Hk) in Hen0. }
                 rewrite list_lookup_insert_ne; [done|].
                 intros Heq. apply Hen, (Hisnext _ _ Hk). by rewrite Heq.
  - split; [done|]. split; [done|]. split; [done|].
    intros g p. unfold slot_of, registered, holds.
    rewrite Hsize', Hhs', Hmem', Hps'. split.
    + intros ((Hj & y & Hy & Hgy) & Hp).
      assert (hmem s g <> i) by (intros Heq; rewrite Heq in Hy; congruence).
      assert (hmem s g <> m) by (intros Heq; rewrite Heq in Hy; congruence).
      destruct (Hcell _ Hj H) as (y0 & y' & Hy0 & Hy' & Hh & _).
      split; [split; [lia|]; exists y'; split; [done | congruence]|].
      by rewrite aget_insert_ne by lia.
    + intros ((Hj & y' & Hy' & Hgy) & Hp).
      assert (hmem s g <> i) by (intros Heq; rewrite Heq in Hy'; congruence).
      destruct (Hcell (hmem s g) ltac:(lia) H) as (y & y2 & Hy & Hy2 & Hh & _).
      split; [split; [lia|]; exists y; split; [done | congruence]|].
      by rewrite aget_insert_ne in Hp by lia.
Qed.

(** One turn of the loop keeps the invariant, shortens the list by one and
    keeps every registration. *)
Lemma poll_compact_step_ok s i l' :
  wf_loop s (i :: l') ->
  exists s' l'', compact_step s = Ok s' /\ wf_loop s' l'' /\
    length l'' = length l' /\ size s' = size s - 1 /\ same_slots s s'.
Proof.
  intros Hwf.
  destruct (poll_loop_head _ _ _ Hwf) as (_ & Hi & _).
  pose proof Hwf as ((Hsz & Hlp & Hlh) & _).
  destruct (decide (i = size s - 1)) as [Hl|Hl].
  { destruct (poll_step_last _ _ _ Hwf Hl) as (s' & H1 & H2 & H3 & H4).
    by exists s', l'. }
  destruct (aget_in_range (hndls s) (size s - 1)) as [lasth Hlast]; [lia|].
  destruct (hndl lasth) as [g|] eqn:Eg.
  - destruct (poll_step_move_live _ _ _ _ _ Hwf Hl Hlast Eg)
      as (s' & H1 & H2 & H3 & H4).
    by exists s', l'.
  - by eapply poll_step_move_free.
Qed.

Lemma poll_same_slots_refl s : same_slots s s.
Proof. split; [done|]. split; [done|]. split; [done|]. by intros g p. Qed.

Lemma poll_same_slots_trans s1 s2 s3 :
  same_slots s1 s2 -> same_slots s2 s3 -> same_slots s1 s3.
Proof.
  intros (A1 & B1 & C1 & D1) (A2 & B2 & C2 & D2).
  split; [congruence|]. split; [congruence|]. split; [congruence|].
  intros g p. by rewrite D1, D2.
Qed.

(** The loop ends with an empty list. *)
Lemma poll_compact_loop_ok fuel s l :
  wf_loop s l -> (length l <= fuel)%nat ->
  exists s', compact_loop fuel s = Ok s' /\ wf_loop s' [] /\
    size s' = size s - Z.of_nat (length l) /\ same_slots s s'.
Proof.
  revert s l. induction fuel as [|fuel IH]; intros s l Hwf Hlen.
  - destruct l; [|simpl in Hlen; lia]. simpl.
    destruct Hwf as (Hb & Hi & Hfl). pose proof Hfl as (_ & Hrem & _).
    simpl in Hrem. rewrite Hrem. destruct (decide (-1 = -1)); [|done].
    exists s. split; [done|]. split; [done|]. split; [simpl; lia|].
    apply poll_same_slots_refl.
  - destruct l as [|i l'].
    + simpl. destruct Hwf as (Hb & Hi & Hfl). pose proof Hfl as (_ & Hrem & _).
      simpl in Hrem. rewrite Hrem. destruct (decide (-1 = -1)); [|done].
      exists s. split; [done|]. split; [done|]. split; [simpl; lia|].
      apply poll_same_slots_refl.
    + destruct (poll_loop_head _ _ _ Hwf) as (Hrem & Hi & _).
      destruct (poll_compact_step_ok _ _ _ Hwf) as (s1 & l1 & Hs & Hwf1 & Hl1 & Hsz & Hss).
      simpl in Hlen.
      destruct (IH s1 l1 Hwf1 ltac:(lia)) as (s2 & Hloop & Hwf2 & Hsz2 & Hss2).
      cbn [compact_loop]. destruct (decide (removed s = -1)); [lia|].
      rewrite Hs. cbn [mbind outcome_bind obind]. rewrite Hloop.
      exists s2. split; [done|]. split; [done|].
      split; [simpl; lia|]. by eapply poll_same_slots_trans.
Qed.

(** The list of removed slots is not longer than the array in use. *)
Lemma poll_free_list_length headok s l :
  free_list headok s l -> Z.of_nat (length l) <= Z.max 0 (size s).
Proof.
  intros (Hnd & _ & _ & Hlink).
  assert (Hsub : l ⊆+ seqZ 0 (size s)).
  { apply NoDup_submseteq; [done|]. intros e [k Hk]%list_elem_of_lookup.
    destruct (Hlink _ _ Hk) as [He _]. apply elem_of_seqZ. lia. }
  apply submseteq_length in Hsub. rewrite length_seqZ in Hsub. lia.
Qed.

Lemma poll_wf_loop s l :
  bounds s -> indexed s -> free_list (fun p => p = -1) s l -> wf_loop s l.
Proof.
  intros Hb Hi (Hnd & Hrem & Hcov & Hlink). split; [done|]. split; [done|].
  split; [done|]. split; [done|]. split; [done|].
  intros k e Hk. destruct (Hlink k e Hk) as (He & it & Hit & Hn & Hp).
  split; [done|]. exists it. split; [done|]. split; [done|].
  destruct k; [by left | done].
Qed.

Lemma poll_wf_loop_nil s : wf_loop s [] -> wf s /\ removed s = -1.
Proof.
  intros (Hb & Hi & Hnd & Hrem & Hcov & Hlink). split; [|done].
  split; [done|]. split; [done|]. exists []. split; [done|]. split; [done|].
  split; [done|]. intros k e Hk. done.
Qed.

(** At the start of [nn_poller_wait] the removed slots are cut out: the
    loop returns, the list is empty, every slot in use holds a handle, and
    every handle that was registered is registered, at the index it stores,
    with the [struct pollfd] it had. *)
Lemma poll_compact_ok s :
  wf s ->
  exists s', compact s = Ok s' /\ wf s' /\ removed s' = -1 /\
    same_slots s s' /\
    (forall j, 0 <= j < size s' -> exists g, holds s' j g).
Proof.
  intros (Hb & Hi & l & Hfl).
  pose proof (poll_free_list_length _ _ _ Hfl) as Hlen.
  destruct (poll_compact_loop_ok (S (Z.to_nat (size s))) s l) as (s' & Hs & Hwf' & _ & Hss).
  { by apply poll_wf_loop. }
  { lia. }
  exists s'. split; [done|].
  destruct (poll_wf_loop_nil _ Hwf') as [Hwf Hrem].
  split; [done|]. split; [done|]. split; [done|].
  intros j Hj. destruct (poll_loop_live _ _ _ Hwf' Hj) as (it & g & Hit & Hg).
  { apply not_elem_of_nil. }
  exists g. split; [done|]. eauto.
Qed.

(** *** Removal *)

(** What [nn_poller_rm] writes: [revents] of the slot of the handle, the
    link of the first removed slot back to it, and the three fields of its
    own cell.  Nothing moves. *)
Lemma poll_rm_eval s h p it :
  aget (pollset s) (hmem s h) = Ok p ->
  aget (hndls s) (hmem s h) = Ok it ->
  removed s = -1 \/ (exists y, aget (hndls s) (removed s) = Ok y) ->
  exists hs',
    nn_poller_rm s h =
      Ok (set_removed
            (set_hndls
               (set_pollset s (<[Z.to_nat (hmem s h) := with_revents 0 p]> (pollset s)))
               hs')
            (hmem s h)) /\
    length hs' = length (hndls s) /\
    aget hs' (hmem s h) = Ok {| hndl := None; prev := -1; next := removed s |} /\
    forall j y, j <> hmem s h -> aget (hndls s) j = Ok y ->
      aget hs' j = Ok (if decide (j = removed s) then with_prev (hmem s h) y else y).
Proof.
  intros Hp Hit Hr. unfold nn_poller_rm.
  rewrite (proj2 (poll_upd_pollset_Ok s (hmem s h) (with_revents 0) _)
             (ex_intro _ p (conj Hp eq_refl))).
  cbn [mbind outcome_bind obind removed hmem set_pollset].
  destruct (poll_link_eval
              (set_pollset s (<[Z.to_nat (hmem s h) := with_revents 0 p]> (pollset s)))
              (removed s) (with_prev (hmem s h)) Hr)
    as (hs1 & E1 & Hl1 & Hg1).
  cbn [removed hndls set_pollset] in *. rewrite E1.
  cbn [mbind outcome_bind obind hmem set_hndls hndls removed] in *.
  destruct (aget_in_range hs1 (hmem s h)) as [y1 Hy1].
  { apply aget_range in Hit. lia. }
  pose proof (aget_range _ _ _ Hy1) as Hrange.
  erewrite poll_upd_hndls_eval by (cbn [hndls set_hndls]; exact Hy1).
  cbn [mbind outcome_bind obind hmem set_hndls hndls removed].
  erewrite poll_upd_hndls_eval by (cbn [hndls set_hndls]; by apply aget_insert_eq).
  cbn [mbind outcome_bind obind hmem set_hndls hndls removed].
  erewrite poll_upd_hndls_eval
    by (cbn [hndls set_hndls]; apply aget_insert_eq; by rewrite length_insert).
  cbn [mbind outcome_bind obind hmem set_hndls hndls removed].
  eexists. split; [reflexivity|]. cbn [hmem removed set_pollset].
  split; [by rewrite !length_insert|].
  split.
  { apply aget_insert_eq. by rewrite !length_insert. }
  intros j y Hj Hy. rewrite !aget_insert_ne by lia. by apply Hg1.
Qed.

(** [nn_poller_rm] of a registered handle keeps the invariant: the slot is
    the new first element of the list. *)
Lemma poll_rm_ok s h :
  wf s -> registered s h ->
  exists s', nn_poller_rm s h = Ok s' /\ wf s' /\
    size s' = size s /\ capacity s' = capacity s /\ index s' = index s /\
    hmem s' = hmem s /\ trace s' = trace s /\ removed s' = hmem s h /\
    (forall j g, holds s' j g <-> holds s j g /\ g <> h) /\
    (exists p, aget (pollset s) (hmem s h) = Ok p /\
       pollset s' = <[Z.to_nat (hmem s h) := with_revents 0 p]> (pollset s)).
Proof.
  intros ((Hsz & Hlp & Hlh) & Hidx & l & Hnd & Hrem & Hcov & Hlink)
         (Hj & it & Hit & Hg).
  destruct (aget_in_range (pollset s) (hmem s h)) as [p Hp]; [lia|].
  assert (Hr : removed s = -1 \/ exists y, aget (hndls s) (removed s) = Ok y).
  { rewrite Hrem. destruct l as [|e l']; [by left | right]. simpl.
    destruct (Hlink O e eq_refl) as (_ & y & Hy & _). eauto. }
  destruct (poll_rm_eval s h p it Hp Hit Hr) as (hs' & E & Hl & Hself & Hother).
  eexists. split; [exact E|]. simpl.
  assert (Hnotin : hmem s h ∉ l).
  { intros Hin. destruct (Hcov _ Hj) as (y & Hy & Hiff).
    apply Hiff in Hin. congruence. }
  assert (Hcell : forall j, 0 <= j < size s -> j <> hmem s h ->
    exists y y', aget (hndls s) j = Ok y /\ aget hs' j = Ok y' /\
      hndl y' = hndl y /\ next y' = next y /\
      prev y' = if decide (j = removed s) then hmem s h else prev y).
  { intros j Hjr Hne. destruct (aget_in_range (hndls s) j) as [y Hy]; [lia|].
    exists y. eexists. split; [done|]. split; [by apply Hother|].
    by destruct (decide _). }
  assert (Hholds : forall j g, holds (set_removed (set_hndls (set_pollset s
             (<[Z.to_nat (hmem s h) := with_revents 0 p]> (pollset s))) hs')
             (hmem s h)) j g <-> holds s j g /\ g <> h).
  { intros j g. unfold holds. simpl. split.
    - intros (Hjr & y' & Hy' & Hgy).
      destruct (decide (j = hmem s h)) as [->|Hne].
      { rewrite Hself in Hy'. by injection Hy' as <-. }
      destruct (Hcell j Hjr Hne) as (y & y2 & Hy & Hy2 & Hh & _).
      assert (Hold : holds s j g).
      { split; [done|]. exists y. split; [done|]. congruence. }
      split; [done|]. intros ->. apply Hne. symmetry. by apply Hidx.
    - intros ((Hjr & y & Hy & Hgy) & Hne).
      assert (j <> hmem s h).
      { intros ->. congruence. }
      destruct (Hcell j Hjr H) as (y0 & y' & Hy0 & Hy' & Hh & _).
      split; [done|]. exists y'. split; [done|]. congruence. }
  split; [|by eauto 10].
  split; [|split].
  - unfold bounds. simpl. rewrite length_insert, Hl. lia.
  - intros j g Hh. apply Hholds in Hh as [Hh _]. simpl. by apply Hidx.
  - exists (hmem s h :: l). split; [by apply NoDup_cons|]. split; [done|]. split.
    + simpl. intros j Hjr. destruct (decide (j = hmem s h)) as [->|Hne].
      * eexists. split; [exact Hself|]. simpl. split; [by left | done].
      * destruct (Hcell j Hjr Hne) as (y & y' & Hy & Hy' & Hh & _).
        exists y'. split; [done|]. rewrite Hh.
        destruct (Hcov j Hjr) as (y0 & Hy0 & Hiff).
        assert (y0 = y) by congruence. subst y0. rewrite Hiff, elem_of_cons.
        split; [by right | intros [?|?]; [lia | done]].
    + simpl. intros k e Hk. destruct k as [|k].
      * injection Hk as <-. split; [done|]. eexists. split; [exact Hself|].
        simpl. split; [|done]. rewrite Hrem. by destruct l.
      * simpl in Hk. destruct (Hlink k e Hk) as (He & y & Hy & Hn & Hpv).
        assert (e <> hmem s h).
        { intros ->. apply Hnotin. by eapply list_elem_of_lookup_2. }
        split; [done|].
        destruct (Hcell e He H) as (y0 & y' & Hy0 & Hy' & _ & Hn' & Hp').
        assert (y0 = y) by congruence. subst y0.
        exists y'. split; [done|]. split; [by rewrite Hn'|].
        rewrite Hp'. destruct k as [|k'].
        -- simpl. destruct (decide (e = removed s)) as [|Hne]; [done|].
           exfalso. apply Hne. rewrite Hrem. by destruct l; simplify_eq/=.
        -- simpl. destruct (decide (e = removed s)) as [Heq|]; [|done].
           exfalso. rewrite Hrem in Heq. destruct l as [|e0 l']; [done|].
           simpl in Heq. subst e0.
           assert (S k' = O); [|done].
           by eapply (NoDup_lookup (e :: l')).
Qed.

(** *** Registration *)

(** The arrays after [nn_realloc]: the old cells are kept. *)
Lemma poll_aget_resize {A} (l : list A) n x j :
  0 <= j < Z.of_nat (length l) -> (length l <= n)%nat ->
  aget (resize n x l) j = aget l j.
Proof.
  intros Hj Hn. unfold aget. destruct (decide (0 <= j)); [|done].
  rewrite lookup_resize by lia. done.
Qed.

Lemma poll_add_inv s fd0 h k s' :
  bounds s -> nn_poller_add s fd0 h k = Ok s' ->
  bounds s' /\ size s' = size s + 1 /\ index s' = index s /\
  removed s' = removed s /\ hmem s' = <[h := size s]> (hmem s) /\
  (forall j, 0 <= j < size s ->
     aget (pollset s') j = aget (pollset s) j /\
     aget (hndls s') j = aget (hndls s) j) /\
  aget (pollset s') (size s) = Ok {| fd := fd0; events := 0; revents := 0 |} /\
  exists it, aget (hndls s') (size s) = Ok it /\ hndl it = Some h.
Proof.
  intros (Hsz & Hlp & Hlh) H. unfold nn_poller_add in H.
  apply obind_Ok in H as (sg & Hgrow & H).
  assert (Hg : size sg = size s /\ index sg = index s /\ removed sg = removed s /\
               hmem sg = hmem s /\
               Z.of_nat (length (pollset sg)) = capacity sg /\
               Z.of_nat (length (hndls sg)) = capacity sg /\
               (forall j, 0 <= j < size s ->
                  aget (pollset sg) j = aget (pollset s) j /\
                  aget (hndls sg) j = aget (hndls s) j)).
  { destruct (decide (size s >= capacity s)) as [Hge|Hlt].
    - simpl in Hgrow. destruct (pollset_ok k); [|done]. simpl in Hgrow.
      destruct (hndls_ok k); [|done]. simpl in Hgrow. injection Hgrow as <-.
      simpl. rewrite !length_resize.
      repeat split; try done; try lia.
      + apply poll_aget_resize; lia.
      + apply poll_aget_resize; lia.
    - injection Hgrow as <-. repeat split; done. }
  destruct Hg as (Hgs & Hgi & Hgr & Hgm & Hglp & Hglh & Hgpre).
  clear Hgrow.
  apply obind_Ok in H as (s1 & H1 & H). apply poll_upd_pollset_Ok in H1 as (p1 & Hp1 & ->).
  apply obind_Ok in H as (s2 & H2 & H). apply poll_upd_pollset_Ok in H2 as (p2 & Hp2 & ->).
  apply obind_Ok in H as (s3 & H3 & H). apply poll_upd_pollset_Ok in H3 as (p3 & Hp3 & ->).
  apply obind_Ok in H as (s4 & H4 & H). apply poll_upd_hndls_Ok in H4 as (x & Hx & ->).
  injection H as <-. simpl in *.
  pose proof (aget_range _ _ _ Hp1) as Hr1.
  pose proof (aget_range _ _ _ Hx) as Hrx.
  rewrite aget_insert_eq in Hp2 by done. injection Hp2 as <-.
  rewrite aget_insert_eq in Hp3 by (by rewrite length_insert). injection Hp3 as <-.
  rewrite Hgs in *.
  split; [unfold bounds; simpl; rewrite !length_insert; lia|].
  split; [done|]. split; [done|]. split; [done|]. split; [by rewrite Hgm|].
  split; [|split].
  - intros j Hj. rewrite !aget_insert_ne by lia. by apply Hgpre.
  - rewrite aget_insert_eq by (by rewrite !length_insert). done.
  - eexists. split; [by apply aget_insert_eq|]. done.
Qed.

(** *** What the calls of one batch do to the slots *)

Lemma poll_land_refl (x : Z) : exists c, x = Z.land x c.
Proof. exists (-1). by rewrite Z.land_m1_r. Qed.

Lemma poll_quieter_refl s : bounds s -> quieter s s.
Proof.
  intros Hb. split; [done|]. intros j it p Hj Hit Hp. right.
  split; [done|]. exists it, p. repeat split; try done; apply poll_land_refl.
Qed.

Lemma poll_quieter_trans s1 s2 s3 : quieter s1 s2 -> quieter s2 s3 -> quieter s1 s3.
Proof.
  intros [Hb2 H12] [Hb3 H23]. split; [done|]. intros j it3 p3 Hj Hit3 Hp3.
  destruct (H23 j it3 p3 Hj Hit3 Hp3)
    as [Hz | (Hj2 & it2 & p2 & Hit2 & Hp2 & Hh & c & Hc)]; [by left|].
  destruct (H12 j it2 p2 Hj2 Hit2 Hp2)
    as [Hz | (Hj1 & it1 & p1 & Hit1 & Hp1 & Hh1 & c1 & Hc1)].
  - left. rewrite Hc, Hz. apply Z.land_0_l.
  - right. split; [done|]. exists it1, p1.
    split; [done|]. split; [done|]. split; [congruence|].
    exists (Z.land c1 c). by rewrite Hc, Hc1, Z.land_assoc.
Qed.

(** A write to one cell of [pollset] that only clears bits of [revents]. *)
Lemma poll_quieter_upd s i f s' :
  bounds s -> (forall p, exists c, revents (f p) = Z.land (revents p) c) ->
  upd_pollset s i f = Ok s' -> quieter s s'.
Proof.
  intros Hb Hf (p & Hp & ->)%poll_upd_pollset_Ok.
  pose proof (aget_range _ _ _ Hp) as Hr.
  split.
  { destruct Hb as (? & ? & ?). unfold bounds. simpl. by rewrite length_insert. }
  simpl. intros j it' p' Hj Hit' Hp'. right. split; [done|].
  rewrite poll_aget_insert in Hp' by done.
  destruct (decide (j = i)) as [->|Hne].
  - injection Hp' as <-. exists it', p. repeat split; try done; apply Hf.
  - exists it', p'. repeat split; try done; apply poll_land_refl.
Qed.

Lemma poll_upd_bounds s i f s' :
  bounds s -> upd_pollset s i f = Ok s' -> bounds s'.
Proof.
  intros (? & ? & ?) (p & Hp & ->)%poll_upd_pollset_Ok.
  unfold bounds. simpl. by rewrite length_insert.
Qed.

Lemma poll_set_in_quieter s h s' :
  bounds s -> nn_poller_set_in s h = Ok s' -> quieter s s'.
Proof.
  intros Hb. apply poll_quieter_upd; [done|]. intros p. apply poll_land_refl.
Qed.

Lemma poll_set_out_quieter s h s' :
  bounds s -> nn_poller_set_out s h = Ok s' -> quieter s s'.
Proof.
  intros Hb. apply poll_quieter_upd; [done|]. intros p. apply poll_land_refl.
Qed.

Lemma poll_reset_in_quieter s h s' :
  bounds s -> nn_poller_reset_in s h = Ok s' -> quieter s s'.
Proof.
  intros Hb H. unfold nn_poller_reset_in in H. apply obind_Ok in H as (s1 & H1 & H).
  eapply poll_quieter_trans.
  - eapply poll_quieter_upd; [done | | exact H1]. intros p. apply poll_land_refl.
  - eapply poll_quieter_upd; [by eapply poll_upd_bounds | | exact H].
    intros p. by exists (Z.lnot POLLIN).
Qed.

Lemma poll_reset_out_quieter s h s' :
  bounds s -> nn_poller_reset_out s h = Ok s' -> quieter s s'.
Proof.
  intros Hb H. unfold nn_poller_reset_out in H. apply obind_Ok in H as (s1 & H1 & H).
  eapply poll_quieter_trans.
  - eapply poll_quieter_upd; [done | | exact H1]. intros p. apply poll_land_refl.
  - eapply poll_quieter_upd; [by eapply poll_upd_bounds | | exact H].
    intros p. by exists (Z.lnot POLLOUT).
Qed.

Lemma poll_add_quieter s fd0 h k s' :
  bounds s -> nn_poller_add s fd0 h k = Ok s' -> quieter s s'.
Proof.
  intros Hb H.
  destruct (poll_add_inv _ _ _ _ _ Hb H) as (Hb' & Hsz & _ & _ & _ & Hpre & Hnew & _).
  split; [done|]. intros j it' p' Hj Hit' Hp'.
  destruct (decide (j = size s)) as [->|Hne].
  - left. rewrite Hnew in Hp'. by injection Hp' as <-.
  - right. split; [lia|]. destruct (Hpre j ltac:(lia)) as [Ep Eh].
    exists it', p'. rewrite <- Ep, <- Eh. repeat split; try done.
    apply poll_land_refl.
Qed.

(** [nn_poller_rm], whatever the handle: if it returns, it has cleared
    [revents] of one slot and the handle of the same slot, and has kept the
    handle of every other slot. *)
Lemma poll_rm_inv s h s' :
  nn_poller_rm s h = Ok s' ->
  size s' = size s /\ capacity s' = capacity s /\ index s' = index s /\
  hmem s' = hmem s /\ trace s' = trace s /\
  length (hndls s') = length (hndls s) /\
  exists p, aget (pollset s) (hmem s h) = Ok p /\
    pollset s' = <[Z.to_nat (hmem s h) := with_revents 0 p]> (pollset s) /\
    (exists it, aget (hndls s') (hmem s h) = Ok it /\ hndl it = None) /\
    forall j y, j <> hmem s h -> aget (hndls s) j = Ok y ->
      exists y', aget (hndls s') j = Ok y' /\ hndl y' = hndl y.
Proof.
  intros H. pose proof H as H0. unfold nn_poller_rm in H.
  apply obind_Ok in H as (s1 & H1 & H). apply poll_upd_pollset_Ok in H1 as (p & Hp & ->).
  apply obind_Ok in H as (s2 & H2 & H). simpl in H2.
  assert (Hr : removed s = -1 \/ exists y, aget (hndls s) (removed s) = Ok y).
  { destruct (decide (removed s <> -1)) as [Hne|]; [right | left; lia].
    apply poll_upd_hndls_Ok in H2 as (x & Hx & _). eauto. }
  apply obind_Ok in H as (s3 & H3 & _). apply poll_upd_hndls_Ok in H3 as (x & Hx & _).
  assert (Hit : exists it, aget (hndls s) (hmem s h) = Ok it).
  { apply aget_in_range. apply aget_range in Hx.
    destruct (decide (removed s <> -1)).
    - apply poll_upd_hndls_Ok in H2 as (x2 & Hx2 & ->). simpl in Hx.
      by rewrite length_insert in Hx.
    - by injection H2 as <-. }
  destruct Hit as [it Hit].
  destruct (poll_rm_eval s h p it Hp Hit Hr) as (hs' & E & Hl & Hself & Hother).
  rewrite E in H0. injection H0 as <-. simpl.
  repeat split; try done. exists p. repeat split; try done.
  - eexists. split; [exact Hself|]. done.
  - intros j y Hj Hy. eexists. split; [by apply Hother|].
    destruct (decide (j = removed s)); reflexivity.
Qed.

Lemma poll_rm_quieter s h s' :
  bounds s -> nn_poller_rm s h = Ok s' -> quieter s s'.
Proof.
  intros (Hsz & Hlp & Hlh) H.
  destruct (poll_rm_inv _ _ _ H)
    as (Es & Ec & _ & _ & _ & El & p & Hp & Eps & _ & Hother).
  pose proof (aget_range _ _ _ Hp) as Hr.
  split.
  { unfold bounds. rewrite Es, Ec, El, Eps, length_insert. done. }
  rewrite Es, Eps. intros j it' p' Hj Hit' Hp'.
  rewrite poll_aget_insert in Hp' by done.
  destruct (decide (j = hmem s h)) as [->|Hne].
  - left. by injection Hp' as <-.
  - right. split; [done|].
    destruct (aget_in_range (hndls s) j) as [y Hy]; [lia|].
    destruct (Hother j y Hne Hy) as (y' & Hy' & Hh).
    exists y, p'. repeat split; try done; try congruence; apply poll_land_refl.
Qed.

(** What [nn_poller_event] does: [j] is where the loop over the slots
    without events stops. *)
Lemma poll_event_inv s s' r :
  nn_poller_event s = Ok (s', r) ->
  exists j,
    index s <= j /\
    (forall i, index s <= i < j -> exists x, aget (pollset s) i = Ok x /\ revents x = 0) /\
    ((size s <= j /\ (index s <= size s -> j = size s) /\ r = None /\
      s' = set_index s j) \/
     (j < size s /\ exists p it, aget (pollset s) j = Ok p /\
        aget (hndls s) j = Ok it /\ revents p <> 0 /\
        ((has (revents p) POLLIN = true /\ r = Some (NN_POLLER_IN, hndl it) /\
          s' = set_pollset (set_index s j)
                 (<[Z.to_nat j := with_revents (clear (revents p) POLLIN) p]> (pollset s))) \/
         (has (revents p) POLLIN = false /\ has (revents p) POLLOUT = true /\
          r = Some (NN_POLLER_OUT, hndl it) /\
          s' = set_pollset (set_index s j)
                 (<[Z.to_nat j := with_revents (clear (revents p) POLLOUT) p]> (pollset s))) \/
         (has (revents p) POLLIN = false /\ has (revents p) POLLOUT = false /\
          r = Some (NN_POLLER_ERR, hndl it) /\
          s' = set_index s (j + 1))))).
Proof.
  unfold nn_poller_event. intros H. inv_bind. rename a into j.
  unfold skip_empty in Ha. apply skip_from_Ok in Ha as (Hj & Hskip & Hstop).
  exists j. split; [lia|]. split.
  { intros i Hi. destruct (Hskip i Hi) as (x & Hx & Hz). exists x. split; [done|].
    apply negb_false_iff, Z.eqb_eq in Hz. done. }
  simpl in H. destruct (decide (j >= size s)) as [Hge|Hlt].
  - left. injection H as <- <-. repeat split; [lia | lia].
  - right. split; [lia|]. inv_bind. rename a into it, a0 into p.
    destruct Hstop as (x & Hx & Hlive); [lia|].
    assert (x = p) by congruence. subst x.
    apply negb_true_iff, Z.eqb_neq in Hlive.
    exists p, it. split; [done|]. split; [done|]. split; [done|].
    destruct (has (revents p) POLLIN) eqn:Ein.
    + left. inv_bind. apply poll_upd_pollset_Ok in Ha1 as (p' & Hp' & ->).
      simpl in Hp'. assert (p' = p) by congruence. subst. done.
    + destruct (has (revents p) POLLOUT) eqn:Eout.
      * right. left. inv_bind. apply poll_upd_pollset_Ok in Ha1 as (p' & Hp' & ->).
        simpl in Hp'. assert (p' = p) by congruence. subst. done.
      * right. right. injection H as <- <-. done.
Qed.

Lemma poll_event_quieter s s' r :
  bounds s -> nn_poller_event s = Ok (s', r) -> quieter s s'.
Proof.
  intros Hb (j & Hj & _ & H)%poll_event_inv.
  assert (Hsame : forall i, quieter s (set_index s i)).
  { intros i. split; [done|]. simpl. intros k it p Hk Hit Hp. right.
    split; [done|]. exists it, p. repeat split; try done; apply poll_land_refl. }
  assert (Hclear : forall p m, aget (pollset s) j = Ok p ->
    quieter s (set_pollset (set_index s j)
      (<[Z.to_nat j := with_revents (clear (revents p) m) p]> (pollset s)))).
  { intros p m Hp. pose proof (aget_range _ _ _ Hp) as Hr. split.
    { destruct Hb as (? & ? & ?). unfold bounds. simpl. by rewrite length_insert. }
    simpl. intros k it' p' Hk Hit' Hp'. right. split; [done|].
    rewrite poll_aget_insert in Hp' by done.
    destruct (decide (k = j)) as [->|Hne].
    - injection Hp' as <-. exists it', p. repeat split; try done;
      by exists (Z.lnot m).
    - exists it', p'. repeat split; try done; apply poll_land_refl. }
  destruct H as [(_ & _ & _ & ->) | (_ & p & it & Hp & _ & _ & H)]; [done|].
  destruct H as [(_ & _ & ->) | [(_ & _ & _ & ->) | (_ & _ & _ & ->)]]; eauto.
Qed.

(** An event that is returned comes from a slot in use, whose [revents] is
    not zero and has the bit of the event. *)
Lemma poll_event_source s s' k oh :
  nn_poller_event s = Ok (s', Some (k, oh)) ->
  exists j it p, 0 <= j < size s /\ aget (hndls s) j = Ok it /\
    aget (pollset s) j = Ok p /\ hndl it = oh /\ revents p <> 0 /\
    (k = NN_POLLER_IN -> has (revents p) POLLIN = true) /\
    (k = NN_POLLER_OUT -> has (revents p) POLLOUT = true).
Proof.
  intros (j & Hj & _ & H)%poll_event_inv.
  destruct H as [(_ & _ & ? & _) | (Hlt & p & it & Hp & Hit & Hnz & H)]; [done|].
  exists j, it, p. split; [apply aget_range in Hp; lia|].
  split; [done|]. split; [done|].
  destruct H as [(? & [= -> ->] & _) | [(? & ? & [= -> ->] & _) | (? & ? & [= -> ->] & _)]];
    repeat split; done.
Qed.

Lemma poll_exec_quieter b o s s' r :
  bounds s -> is_wait o = false -> exec b o s = Ok (s', r) -> quieter s s'.
Proof.
  intros Hb. destruct o; simpl; try discriminate; intros _ H; inv_bind; subst.
  - by eapply poll_add_quieter.
  - by eapply poll_rm_quieter.
  - by eapply poll_set_in_quieter.
  - by eapply poll_reset_in_quieter.
  - by eapply poll_set_out_quieter.
  - by eapply poll_reset_out_quieter.
  - by eapply poll_event_quieter.
Qed.

Lemma poll_exec_result b o s s' e :
  exec b o s = Ok (s', Some e) -> o = Event.
Proof.
  destruct o; simpl; intros H; inv_bind; try discriminate. done.
Qed.

Lemma poll_muted_quieter bad h s s' :
  (forall x c, bad (Z.land x c) -> bad x) -> ~ bad 0 ->
  quieter s s' -> muted bad h s -> muted bad h s'.
Proof.
  intros Hup H0 [_ Hq] Hm j it' p' Hj Hit' Hp' Hh Hbad.
  destruct (Hq j it' p' Hj Hit' Hp')
    as [Hz | (Hjs & it & p & Hit & Hp & Hhh & c & Hc)].
  - apply H0. by rewrite <- Hz.
  - apply (Hm j it p Hjs Hit Hp); [congruence|]. apply (Hup _ c). by rewrite <- Hc.
Qed.

(** Within one batch, an event returned for a handle whose slots are
    [muted] comes from a [revents] that is not [bad]. *)
Lemma poll_run_source bad b ops s s' outs h :
  (forall x c, bad (Z.land x c) -> bad x) -> ~ bad 0 ->
  bounds s -> muted bad h s ->
  Forall (fun o => is_wait o = false) ops ->
  run b ops s = Ok (s', outs) ->
  forall k, (k, Some h) ∈ outs ->
    exists x, ~ bad x /\ x <> 0 /\
      (k = NN_POLLER_IN -> has x POLLIN = true) /\
      (k = NN_POLLER_OUT -> has x POLLOUT = true).
Proof.
  intros Hup H0 Hb Hm Hops. revert s s' outs Hb Hm.
  induction Hops as [|o ops Ho Hops IH]; intros s s' outs Hb Hm H k Hin; simpl in H.
  { injection H as <- <-. by apply elem_of_nil in Hin. }
  inv_bind. destruct a as [s1 r], a0 as [s2 outs2]. simpl in *. subst.
  pose proof (poll_exec_quieter _ _ _ _ _ Hb Ho Ha) as Hq.
  apply elem_of_app in Hin as [Hin|Hin].
  - destruct r as [ev|]; simpl in Hin; [|by apply elem_of_nil in Hin].
    apply list_elem_of_singleton in Hin as <-.
    pose proof (poll_exec_result _ _ _ _ _ Ha) as ->. simpl in Ha.
    apply poll_event_source in Ha as (j & it & p & Hj & Hit & Hp & Hh & Hnz & Hi & Ho').
    exists (revents p). split; [by eapply Hm|]. done.
  - eapply (IH s1); [by destruct Hq | by eapply poll_muted_quieter | done..].
Qed.

Lemma poll_has_land x c m : has (Z.land x c) m = true -> has x m = true.
Proof.
  rewrite !has_true. intros Hx Hz. apply Hx.
  by rewrite <- Z.land_assoc, (Z.land_comm c), Z.land_assoc, Hz, Z.land_0_l.
Qed.


(** What [nn_poller_reset_in] writes: the bit is cleared in [events] and in
    [revents] of the slot of the handle; nothing else changes. *)
Lemma poll_reset_in_spec s h s' :
  nn_poller_reset_in s h = Ok s' <->
  exists p, aget (pollset s) (hmem s h) = Ok p /\
    s' = set_pollset s
           (<[Z.to_nat (hmem s h) :=
                {| fd := fd p; events := clear (events p) POLLIN;
                   revents := clear (revents p) POLLIN |}]> (pollset s)).
Proof.
  unfold nn_poller_reset_in. split.
  - intros H. apply obind_Ok in H as (s1 & H1 & H).
    apply poll_upd_pollset_Ok in H1 as (p & Hp & ->).
    apply poll_upd_pollset_Ok in H as (p' & Hp' & ->). simpl in *.
    pose proof (aget_range _ _ _ Hp) as Hr.
    rewrite aget_insert_eq in Hp' by done. injection Hp' as <-.
    exists p. split; [done|]. simpl. by rewrite list_insert_insert_eq.
  - intros (p & Hp & ->). pose proof (aget_range _ _ _ Hp) as Hr.
    rewrite (proj2 (poll_upd_pollset_Ok s (hmem s h) _ _)
               (ex_intro _ p (conj Hp eq_refl))).
    cbn [mbind outcome_bind obind hmem set_pollset].
    apply poll_upd_pollset_Ok. eexists. split.
    { simpl. by apply aget_insert_eq. }
    simpl. by rewrite list_insert_insert_eq.
Qed.

Lemma poll_reset_out_spec s h s' :
  nn_poller_reset_out s h = Ok s' <->
  exists p, aget (pollset s) (hmem s h) = Ok p /\
    s' = set_pollset s
           (<[Z.to_nat (hmem s h) :=
                {| fd := fd p; events := clear (events p) POLLOUT;
                   revents := clear (revents p) POLLOUT |}]> (pollset s)).
Proof.
  unfold nn_poller_reset_out. split.
  - intros H. apply obind_Ok in H as (s1 & H1 & H).
    apply poll_upd_pollset_Ok in H1 as (p & Hp & ->).
    apply poll_upd_pollset_Ok in H as (p' & Hp' & ->). simpl in *.
    pose proof (aget_range _ _ _ Hp) as Hr.
    rewrite aget_insert_eq in Hp' by done. injection Hp' as <-.
    exists p. split; [done|]. simpl. by rewrite list_insert_insert_eq.
  - intros (p & Hp & ->). pose proof (aget_range _ _ _ Hp) as Hr.
    rewrite (proj2 (poll_upd_pollset_Ok s (hmem s h) _ _)
               (ex_intro _ p (conj Hp eq_refl))).
    cbn [mbind outcome_bind obind hmem set_pollset].
    apply poll_upd_pollset_Ok. eexists. split.
    { simpl. by apply aget_insert_eq. }
    simpl. by rewrite list_insert_insert_eq.
Qed.

(** After [nn_poller_reset_in] no call of the same batch returns
    [(IN, h)]. *)
Lemma poll_reset_in_silences b s h s1 ops s2 outs :
  bounds s -> (forall j, holds s j h -> j = hmem s h) ->
  nn_poller_reset_in s h = Ok s1 ->
  Forall (fun o => is_wait o = false) ops ->
  run b ops s1 = Ok (s2, outs) ->
  (NN_POLLER_IN, Some h) ∉ outs.
Proof.
  intros Hb Huniq Hr Hops Hrun Hin.
  destruct (poll_reset_in_quieter _ _ _ Hb Hr) as [Hb1 _].
  apply poll_reset_in_spec in Hr as (p & Hp & ->).
  pose proof (aget_range _ _ _ Hp) as Hrange.
  assert (Hm : muted (fun x => has x POLLIN = true) h
                 (set_pollset s (<[Z.to_nat (hmem s h) :=
                    {| fd := fd p; events := clear (events p) POLLIN;
                       revents := clear (revents p) POLLIN |}]> (pollset s)))).
  { intros j it p' Hj Hit Hp' Hh. simpl in *.
    assert (j = hmem s h) as ->.
    { apply Huniq. split; [done|]. eauto. }
    rewrite aget_insert_eq in Hp' by done. injection Hp' as <-. simpl.
    by rewrite has_clear_same. }
  destruct (poll_run_source (fun x => has x POLLIN = true) _ _ _ _ _ h
              ltac:(intros x c; apply poll_has_land)
              ltac:(simpl; by rewrite has_zero) Hb1 Hm Hops Hrun _ Hin) as (x & Hx & _ & Hi & _).
  by apply Hx, Hi.
Qed.

Lemma poll_reset_out_silences b s h s1 ops s2 outs :
  bounds s -> (forall j, holds s j h -> j = hmem s h) ->
  nn_poller_reset_out s h = Ok s1 ->
  Forall (fun o => is_wait o = false) ops ->
  run b ops s1 = Ok (s2, outs) ->
  (NN_POLLER_OUT, Some h) ∉ outs.
Proof.
  intros Hb Huniq Hr Hops Hrun Hin.
  destruct (poll_reset_out_quieter _ _ _ Hb Hr) as [Hb1 _].
  apply poll_reset_out_spec in Hr as (p & Hp & ->).
  pose proof (aget_range _ _ _ Hp) as Hrange.
  assert (Hm : muted (fun x => has x POLLOUT = true) h
                 (set_pollset s (<[Z.to_nat (hmem s h) :=
                    {| fd := fd p; events := clear (events p) POLLOUT;
                       revents := clear (revents p) POLLOUT |}]> (pollset s)))).
  { intros j it p' Hj Hit Hp' Hh. simpl in *.
    assert (j = hmem s h) as ->.
    { apply Huniq. split; [done|]. eauto. }
    rewrite aget_insert_eq in Hp' by done. injection Hp' as <-. simpl.
    by rewrite has_clear_same. }
  destruct (poll_run_source (fun x => has x POLLOUT = true) _ _ _ _ _ h
              ltac:(intros x c; apply poll_has_land)
              ltac:(simpl; by rewrite has_zero) Hb1 Hm Hops Hrun _ Hin) as (x & Hx & _ & _ & Ho).
  by apply Hx, Ho.
Qed.

(** *** Waiting *)

Lemma poll_wait_again_fields s t n :
  size (wait_again s t n) = size s /\ index (wait_again s t n) = index s /\
  capacity (wait_again s t n) = capacity s /\
  pollset (wait_again s t n) = pollset s /\ hndls (wait_again s t n) = hndls s /\
  removed (wait_again s t n) = removed s /\ hmem (wait_again s t n) = hmem s /\
  trace (wait_again s t n) = trace s ++ replicate n (sys_poll (size s) t).
Proof.
  revert s. induction n as [|n IH]; intros s; simpl.
  { by rewrite app_nil_r. }
  destruct (IH (poll_call s t)) as (H1 & H2 & H3 & H4 & H5 & H6 & H7 & H8).
  simpl in *. rewrite H1, H2, H3, H4, H5, H6, H7, H8, <- app_assoc. done.
Qed.

(** The cells after [poll] has stored [revents]. *)
Lemma poll_write_revents_length ps rs :
  length (write_revents ps rs) = length ps.
Proof.
  revert rs. induction ps as [|p ps IH]; intros [|r rs]; simpl; try done.
  by rewrite IH.
Qed.

Lemma poll_write_revents_lookup ps rs (k : nat) :
  write_revents ps rs !! k =
    match ps !! k, rs !! k with
    | Some p, Some r => Some (with_revents r p)
    | Some p, None => Some p
    | None, _ => None
    end.
Proof.
  revert rs k. induction ps as [|p ps IH]; intros [|r rs] [|k]; simpl; try done;
    first [by destruct (ps !! k) | apply IH].
Qed.

Lemma poll_write_revents_aget ps rs j p' :
  aget (write_revents ps rs) j = Ok p' ->
  exists p, aget ps j = Ok p /\
    (p' = p \/ exists r, aget rs j = Ok r /\ p' = with_revents r p).
Proof.
  rewrite aget_Ok. intros [Hj Hl]. rewrite poll_write_revents_lookup in Hl.
  destruct (ps !! Z.to_nat j) as [p|] eqn:Ep; [|done].
  exists p. split; [by apply aget_Ok|].
  destruct (rs !! Z.to_nat j) as [r|] eqn:Er.
  - injection Hl as <-. right. exists r. split; [by apply aget_Ok | done].
  - injection Hl as <-. by left.
Qed.

Lemma poll_aget_take {A} (l : list A) n j x :
  aget (take n l) j = Ok x -> aget l j = Ok x.
Proof.
  rewrite !aget_Ok. intros [Hj Hl]. split; [done|].
  apply lookup_take_Some in Hl. by destruct Hl.
Qed.

(** How [nn_poller_wait] ends, once the removed slots are cut out. *)
Lemma poll_wait_eval b s t n a sc :
  compact s = Ok sc ->
  nn_poller_wait b s t n a =
    if negb b && negb (Nat.eqb n 0) then
      Ok (poll_call (set_index sc 0) t, rc_neg EINTR)
    else
      match a with
      | Failed => Abort
      | Ready rs =>
          Ok (set_pollset
                (poll_call (wait_again (set_index sc 0) t n) t)
                (write_revents (pollset sc) (take (Z.to_nat (size sc)) rs)),
              rc_ok)
      end.
Proof.
  intros Hc. unfold nn_poller_wait. rewrite Hc. cbn [mbind outcome_bind obind].
  destruct (negb b && negb (n =? 0)%nat); [done|].
  destruct a as [rs|]; [|done]. unfold wait_array.
  destruct (poll_wait_again_fields (set_index sc 0) t n) as (H1 & _ & _ & H4 & _).
  simpl. by rewrite H1, H4.
Qed.

(** What a wait that returns leaves: the slots as the loop left them, the
    cursor on the first, and in [revents] what [poll] stored, if it was
    not interrupted. *)
Lemma poll_wait_inv b s t n a s' rc :
  nn_poller_wait b s t n a = Ok (s', rc) ->
  exists sc, compact s = Ok sc /\
    index s' = 0 /\ size s' = size sc /\ capacity s' = capacity sc /\
    hndls s' = hndls sc /\ hmem s' = hmem sc /\ removed s' = removed sc /\
    ((rc = rc_neg EINTR /\ b = false /\ n <> O /\ pollset s' = pollset sc /\
      trace s' = trace sc ++ [sys_poll (size sc) t]) \/
     (rc = rc_ok /\ (b = true \/ n = O) /\ exists rs, a = Ready rs /\
        pollset s' = write_revents (pollset sc) (take (Z.to_nat (size sc)) rs) /\
        trace s' = trace sc ++ replicate (S n) (sys_poll (size sc) t))).
Proof.
  intros H. destruct (compact s) as [sc| |] eqn:Hc;
    [|unfold nn_poller_wait in H; by rewrite Hc in H..].
  rewrite (poll_wait_eval _ _ _ _ _ _ Hc) in H. exists sc. split; [done|].
  destruct (negb b && negb (n =? 0)%nat) eqn:Eb.
  - injection H as <- <-. simpl. repeat split; try done. left.
    apply andb_true_iff in Eb as [Eb1 Eb2].
    apply negb_true_iff in Eb1, Eb2. apply Nat.eqb_neq in Eb2. by repeat split.
  - destruct a as [rs|]; [|done]. injection H as <- <-.
    destruct (poll_wait_again_fields (set_index sc 0) t n)
      as (H1 & H2 & H3 & H4 & H5 & H6 & H7 & H8).
    simpl in *. rewrite H1, H2, H3, H5, H6, H7, H8.
    repeat split; try done. right. split; [done|]. split.
    { apply andb_false_iff in Eb as [Eb|Eb]; apply negb_false_iff in Eb.
      - by left.
      - right. by apply Nat.eqb_eq. }
    exists rs. repeat split; try done.
    rewrite <- app_assoc. f_equal. by rewrite <- replicate_S_end.
Qed.

(** *** The invariant between calls *)

(** The invariant does not read the cursor nor the cells of [pollset]. *)
Lemma poll_wf_same s s' :
  wf s -> size s' = size s -> capacity s' = capacity s ->
  length (pollset s') = length (pollset s) -> hndls s' = hndls s ->
  removed s' = removed s -> hmem s' = hmem s -> wf s'.
Proof.
  intros (Hb & Hi & l & Hfl) Es Ec Elp Eh Er Em.
  unfold wf, bounds, indexed, holds, free_list in *.
  rewrite Es, Ec, Elp, Eh, Er, Em. eauto.
Qed.

Lemma poll_upd_wf s i f s' : wf s -> upd_pollset s i f = Ok s' -> wf s'.
Proof.
  intros Hwf (p & Hp & ->)%poll_upd_pollset_Ok.
  apply (poll_wf_same s); try done. simpl. apply length_insert.
Qed.

Lemma poll_event_wf s s' r : wf s -> nn_poller_event s = Ok (s', r) -> wf s'.
Proof.
  intros Hwf (j & _ & _ & H)%poll_event_inv.
  destruct H as [(_ & _ & _ & ->) | (_ & p & it & _ & _ & _ & H)].
  { by apply (poll_wf_same s). }
  destruct H as [(_ & _ & ->) | [(_ & _ & _ & ->) | (_ & _ & _ & ->)]];
    apply (poll_wf_same s); try done; simpl; apply length_insert.
Qed.

Lemma poll_add_wf s fd0 h k s' :
  wf s -> (forall j, ~ holds s j h) -> nn_poller_add s fd0 h k = Ok s' -> wf s'.
Proof.
  intros (Hb & Hidx & l & Hnd & Hrem & Hcov & Hlink) Hfresh H.
  destruct (poll_add_inv _ _ _ _ _ Hb H)
    as (Hb' & Es & _ & Er & Em & Hpre & _ & it & Hit & Hgit).
  split; [done|]. split.
  - intros j g (Hj & y & Hy & Hgy). rewrite Em. rewrite Es in Hj.
    destruct (decide (j = size s)) as [->|Hne].
    + assert (g = h) as -> by congruence. by rewrite fn_lookup_insert.
    + destruct (Hpre j ltac:(lia)) as [_ Eh]. rewrite Eh in Hy.
      assert (Hold : holds s j g) by (split; [lia | eauto]).
      rewrite fn_lookup_insert_ne; [by apply Hidx|].
      intros <-. by apply (Hfresh j).
  - exists l. split; [done|]. split; [congruence|]. split.
    + intros j Hj. rewrite Es in Hj. destruct (decide (j = size s)) as [->|Hne].
      * exists it. split; [done|]. rewrite Hgit. split; [done|].
        intros [k' Hk']%list_elem_of_lookup. destruct (Hlink _ _ Hk') as [? _]. lia.
      * destruct (Hpre j ltac:(lia)) as [_ Eh]. rewrite Eh. apply Hcov. lia.
    + intros k' e Hk'. destruct (Hlink _ _ Hk') as (He & y & Hy & Hn & Hp).
      split; [lia|]. destruct (Hpre e He) as [_ Eh]. rewrite Eh. eauto.
Qed.

(** Two registered handles with one index are one handle. *)
Lemma poll_registered_inj s g h :
  registered s g -> registered s h -> hmem s g = hmem s h -> g = h.
Proof.
  intros (_ & y & Hy & Hgy) (_ & y' & Hy' & Hgy') E. rewrite E in Hy. congruence.
Qed.

(** A call that keeps to the interface keeps the invariant. *)
Lemma poll_exec_wf b o s s' r :
  wf s -> op_ok o s -> exec b o s = Ok (s', r) -> wf s'.
Proof.
  intros Hwf Hok H. destruct o; simpl in *; inv_bind; subst.
  - by eapply poll_add_wf.
  - destruct (poll_rm_ok _ _ Hwf Hok) as (s1 & E & Hwf1 & _). congruence.
  - by eapply poll_upd_wf.
  - unfold nn_poller_reset_in in Ha. inv_bind. eauto using poll_upd_wf.
  - by eapply poll_upd_wf.
  - unfold nn_poller_reset_out in Ha. inv_bind. eauto using poll_upd_wf.
  - destruct a as [s1 rc]. simpl.
    destruct (poll_wait_inv _ _ _ _ _ _ _ Ha)
      as (sc & Hc & _ & Es & Ec & Eh & Em & Er & Hps).
    destruct (poll_compact_ok _ Hwf) as (sc' & Hc' & Hwfc & _).
    assert (sc' = sc) by congruence. subst sc'.
    apply (poll_wf_same sc); try done.
    destruct Hps as [(_ & _ & _ & -> & _) | (_ & _ & rs & _ & -> & _)]; [done|].
    apply poll_write_revents_length.
  - by eapply poll_event_wf.
Qed.

(** *** A handle without interest *)

Lemma poll_has_clear_false x m m' : has x m = false -> has (clear x m') m = false.
Proof.
  intros H. destruct (has (clear x m') m) eqn:E; [|done].
  apply has_clear_mono in E. congruence.
Qed.

(** A write to the slot of [g] shows in the slot of [h] only if it is the
    same slot. *)
Lemma poll_slot_of_upd s i f s' h p' :
  upd_pollset s i f = Ok s' -> slot_of s' h p' ->
  exists p, slot_of s h p /\ p' = if decide (hmem s h = i) then f p else p.
Proof.
  intros (p0 & Hp0 & ->)%poll_upd_pollset_Ok (Hreg & Hp'). simpl in *.
  pose proof (aget_range _ _ _ Hp0) as Hr.
  rewrite poll_aget_insert in Hp' by done.
  destruct (decide (hmem s h = i)) as [<-|Hne].
  - injection Hp' as <-. exists p0. by split.
  - exists p'. by split.
Qed.

Lemma poll_idle_set s g f s' h :
  registered s g -> g <> h ->
  upd_pollset s (hmem s g) f = Ok s' -> idle s h -> idle s' h.
Proof.
  intros Hg Hne Hu Hidle p' Hs.
  destruct (poll_slot_of_upd _ _ _ _ _ _ Hu Hs) as (p & Hp & ->).
  destruct (decide (hmem s h = hmem s g)) as [E|_]; [|by apply Hidle].
  exfalso. apply Hne. symmetry. apply (poll_registered_inj s); [by destruct Hp | done..].
Qed.

Lemma poll_idle_reset_in s g s' h :
  nn_poller_reset_in s g = Ok s' -> idle s h -> idle s' h.
Proof.
  intros (p0 & Hp0 & ->)%poll_reset_in_spec Hidle p' (Hreg & Hp'). simpl in *.
  pose proof (aget_range _ _ _ Hp0) as Hr.
  rewrite poll_aget_insert in Hp' by done.
  destruct (decide (hmem s h = hmem s g)) as [E|Hne].
  - injection Hp' as <-. rewrite <- E in Hp0.
    destruct (Hidle p0 (conj Hreg Hp0)) as (H1 & H2 & H3 & H4). simpl.
    by rewrite !poll_has_clear_false.
  - by apply Hidle.
Qed.

Lemma poll_idle_reset_out s g s' h :
  nn_poller_reset_out s g = Ok s' -> idle s h -> idle s' h.
Proof.
  intros (p0 & Hp0 & ->)%poll_reset_out_spec Hidle p' (Hreg & Hp'). simpl in *.
  pose proof (aget_range _ _ _ Hp0) as Hr.
  rewrite poll_aget_insert in Hp' by done.
  destruct (decide (hmem s h = hmem s g)) as [E|Hne].
  - injection Hp' as <-. rewrite <- E in Hp0.
    destruct (Hidle p0 (conj Hreg Hp0)) as (H1 & H2 & H3 & H4). simpl.
    by rewrite !poll_has_clear_false.
  - by apply Hidle.
Qed.

Lemma poll_idle_event s s' r h :
  nn_poller_event s = Ok (s', r) -> idle s h -> idle s' h.
Proof.
  intros (j & _ & _ & H)%poll_event_inv Hidle.
  assert (Hclear : forall p m, aget (pollset s) j = Ok p ->
    idle (set_pollset (set_index s j)
      (<[Z.to_nat j := with_revents (clear (revents p) m) p]> (pollset s))) h).
  { intros p m Hp p' (Hreg & Hp'). simpl in *.
    pose proof (aget_range _ _ _ Hp) as Hr.
    rewrite poll_aget_insert in Hp' by done.
    destruct (decide (hmem s h = j)) as [E|Hne].
    - injection Hp' as <-. rewrite <- E in Hp.
      destruct (Hidle p (conj Hreg Hp)) as (H1 & H2 & H3 & H4). simpl.
      by rewrite !poll_has_clear_false.
    - by apply Hidle. }
  destruct H as [(_ & _ & _ & ->) | (_ & p & it & Hp & _ & _ & H)]; [done|].
  destruct H as [(_ & _ & ->) | [(_ & _ & _ & ->) | (_ & _ & _ & ->)]]; eauto.
Qed.

Lemma poll_idle_add s fd0 g k s' h :
  bounds s -> (forall j, ~ holds s j g) ->
  nn_poller_add s fd0 g k = Ok s' -> idle s h -> idle s' h.
Proof.
  intros Hb Hfresh H Hidle p' ((Hj & y & Hy & Hgy) & Hp').
  destruct (poll_add_inv _ _ _ _ _ Hb H)
    as (_ & Es & _ & _ & Em & Hpre & Hnew & it & Hit & Hgit).
  rewrite Em, Es in *.
  destruct (decide (g = h)) as [->|Hne].
  - rewrite fn_lookup_insert in *. rewrite Hnew in Hp'. injection Hp' as <-.
    simpl. by rewrite !has_zero.
  - rewrite fn_lookup_insert_ne in * by done.
    destruct (decide (hmem s h = size s)) as [E|Hlt].
    { rewrite E in Hy. congruence. }
    destruct (Hpre (hmem s h) ltac:(lia)) as [Ep Eh]. rewrite Ep in Hp'.
    rewrite Eh in Hy. apply Hidle. split; [|done]. split; [lia | eauto].
Qed.

Lemma poll_idle_rm s g s' h :
  wf s -> registered s g ->
  nn_poller_rm s g = Ok s' -> idle s h -> idle s' h.
Proof.
  intros Hwf Hg H Hidle p' (Hreg & Hp').
  destruct (poll_rm_ok _ _ Hwf Hg)
    as (s1 & E & _ & _ & _ & _ & Em & _ & _ & Hholds & p & Hp & Eps).
  assert (s1 = s') by congruence. subst s1.
  unfold registered in Hreg. rewrite Em in *.
  apply Hholds in Hreg as [Hreg Hne].
  pose proof (aget_range _ _ _ Hp) as Hr.
  rewrite Eps, poll_aget_insert in Hp' by done.
  destruct (decide (hmem s h = hmem s g)) as [Eq|_]; [|by apply Hidle].
  exfalso. apply Hne. by apply (poll_registered_inj s).
Qed.

Lemma poll_idle_wait b s t n a s' rc h :
  wf s ->
  match compact s with Ok sc => reported sc a | _ => True end ->
  nn_poller_wait b s t n a = Ok (s', rc) -> idle s h -> idle s' h.
Proof.
  intros Hwf Hk H Hidle p' ((Hj & y & Hy & Hgy) & Hp').
  destruct (poll_wait_inv _ _ _ _ _ _ _ H)
    as (sc & Hc & _ & Es & _ & Eh & Em & _ & Hps).
  destruct (poll_compact_ok _ Hwf) as (sc' & Hc' & _ & _ & (_ & _ & _ & Hslots) & _).
  assert (sc' = sc) by congruence. subst sc'. rewrite Hc in Hk.
  rewrite Es, Eh, Em in *.
  assert (Hreg : registered sc h) by (split; [done | eauto]).
  destruct Hps as [(_ & _ & _ & Eps & _) | (_ & _ & rs & -> & Eps & _)];
    rewrite Eps in Hp'.
  - apply Hidle, Hslots. by split.
  - apply poll_write_revents_aget in Hp' as (p & Hp & Hor).
    destruct (Hidle p (proj2 (Hslots h p) (conj Hreg Hp))) as (H1 & H2 & H3 & H4).
    destruct Hor as [->|(r & Hr & ->)]; [done|]. simpl.
    apply poll_aget_take in Hr. destruct Hk as [_ Hk].
    destruct (Hk _ _ _ Hp Hr) as [Hi Ho]. rewrite H1 in Hi. rewrite H2 in Ho.
    repeat split; try done.
    + destruct (has r POLLIN); [by destruct Hi | done].
    + destruct (has r POLLOUT); [by destruct Ho | done].
Qed.

(** A call that keeps to the interface and does not turn on interest of
    [h], and a wait that gets what the kernel may answer, keep [h] idle. *)
Lemma poll_exec_idle b o s s' r h :
  wf s -> op_ok o s -> o <> SetIn h -> o <> SetOut h ->
  match o with
  | Wait _ _ a => match compact s with Ok sc => reported sc a | _ => True end
  | _ => True
  end ->
  exec b o s = Ok (s', r) -> idle s h -> idle s' h.
Proof.
  intros Hwf Hok Hni Hno Hk H Hidle. pose proof Hwf as (Hb & _).
  destruct o; simpl in *; inv_bind; subst.
  - by eapply poll_idle_add.
  - by eapply poll_idle_rm.
  - eapply poll_idle_set; [exact Hok | congruence | exact Ha | done].
  - by eapply poll_idle_reset_in.
  - eapply poll_idle_set; [exact Hok | congruence | exact Ha | done].
  - by eapply poll_idle_reset_out.
  - destruct a as [s1 rc]. by eapply poll_idle_wait.
  - by eapply poll_idle_event.
Qed.

(** While no call turns on interest of an idle handle, no call
    returns [(IN, h)] or [(OUT, h)]. *)
Lemma poll_run_idle b ops s s' outs h :
  (SetIn h ∉ ops) -> (SetOut h ∉ ops) ->
  wf s -> run_ok b ops s -> run b ops s = Ok (s', outs) -> idle s h ->
  ((NN_POLLER_IN, Some h) ∉ outs) /\ ((NN_POLLER_OUT, Some h) ∉ outs).
Proof.
  revert s s' outs.
  induction ops as [|o ops IH]; intros s s' outs Hni Hno Hwf Hk H Hidle; simpl in H.
  { injection H as <- <-. split; apply not_elem_of_nil. }
  apply not_elem_of_cons in Hni as [Hni1 Hni2].
  apply not_elem_of_cons in Hno as [Hno1 Hno2].
  cbn [run_ok] in Hk. destruct Hk as (Hok & Hkern & Hk2).
  inv_bind. destruct a as [s1 r], a0 as [s2 outs2].
  cbn [fst snd] in *. subst. rewrite Ha in Hk2. cbn [fst] in Hk2.
  assert (Hwf1 : wf s1) by (by eapply poll_exec_wf).
  assert (Hidle1 : idle s1 h).
  { eapply (poll_exec_idle b o s s1 r h Hwf Hok);
      [congruence | congruence | | exact Ha | exact Hidle].
    destruct o; try done. }
  destruct (IH _ _ _ Hni2 Hno2 Hwf1 Hk2 Ha0 Hidle1) as [Hi Ho].
  assert (Hr : forall k, r = Some (k, Some h) -> k = NN_POLLER_ERR).
  { intros k ->. pose proof (poll_exec_result _ _ _ _ _ Ha) as ->.
    simpl in Ha.
    apply poll_event_source in Ha as (j & it & p & Hj & Hit & Hp & Hh & _ & Hki & Hko).
    destruct Hwf as (_ & Hidx & _).
    assert (Hholds : holds s j h) by (split; [done | eauto]).
    pose proof (Hidx _ _ Hholds) as Hm.
    destruct (Hidle p) as (_ & _ & H3 & H4).
    { split; [by red; rewrite Hm | by rewrite Hm]. }
    destruct k; [| | done].
    - rewrite Hki in H3; done.
    - rewrite Hko in H4; done. }
  split; intros [Hin|Hin]%elem_of_app; try done;
    destruct r as [[k g]|]; simpl in Hin; try (by apply elem_of_nil in Hin);
    apply list_elem_of_singleton in Hin; injection Hin as <- <-;
    by specialize (Hr _ eq_refl).
Qed.

(** After [nn_poller_add] the handle is idle. *)
Lemma poll_add_idle s fd0 h k s' :
  bounds s -> nn_poller_add s fd0 h k = Ok s' -> idle s' h.
Proof.
  intros Hb H p' (_ & Hp').
  destruct (poll_add_inv _ _ _ _ _ Hb H) as (_ & _ & _ & _ & Em & _ & Hnew & _).
  rewrite Em, fn_lookup_insert, Hnew in Hp'. injection Hp' as <-.
  simpl. by rewrite !has_zero.
Qed.

(** *** Draining the batch *)

Lemma poll_aget_zip {A B} (a : list A) (b : list B) j :
  aget (zip a b) j =
    match aget a j, aget b j with
    | Ok x, Ok y => Ok (x, y)
    | _, _ => Undef
    end.
Proof.
  unfold aget. destruct (decide (0 <= j)); [|done].
  rewrite lookup_zip_with.
  destruct (a !! Z.to_nat j), (b !! Z.to_nat j); done.
Qed.

Lemma poll_in_out_disjoint : Z.land POLLIN POLLOUT = 0.
Proof. reflexivity. Qed.

Lemma poll_out_in_disjoint : Z.land POLLOUT POLLIN = 0.
Proof. reflexivity. Qed.

Lemma poll_decode_zero p it : revents p = 0 -> decode (p, it) = [].
Proof.
  intros Hz. unfold decode. simpl. rewrite Hz, !has_zero, !clear_zero.
  by destruct (decide (0 = 0)).
Qed.

Lemma poll_decode_in p it :
  has (revents p) POLLIN = true ->
  decode (p, it) = (NN_POLLER_IN, hndl it) ::
                   decode (with_revents (clear (revents p) POLLIN) p, it).
Proof.
  intros Hin. unfold decode. simpl.
  rewrite Hin, has_clear_same, clear_idem.
  rewrite (has_clear_other _ _ _ poll_in_out_disjoint). done.
Qed.

Lemma poll_decode_out p it :
  has (revents p) POLLIN = false -> has (revents p) POLLOUT = true ->
  decode (p, it) = (NN_POLLER_OUT, hndl it) ::
                   decode (with_revents (clear (revents p) POLLOUT) p, it).
Proof.
  intros Hin Hout. unfold decode. simpl.
  rewrite Hin, Hout, has_clear_same.
  rewrite (has_clear_other _ _ _ poll_out_in_disjoint), Hin.
  rewrite (clear_clear_comm (clear _ _)), clear_idem, (clear_clear_comm (revents p)).
  done.
Qed.

Lemma poll_decode_err p it :
  has (revents p) POLLIN = false -> has (revents p) POLLOUT = false ->
  revents p <> 0 ->
  decode (p, it) = [(NN_POLLER_ERR, hndl it)].
Proof.
  intros Hin Hout Hnz. unfold decode. simpl. rewrite Hin, Hout.
  rewrite (clear_absent _ _ Hin), (clear_absent _ _ Hout).
  by destruct (decide _).
Qed.

(** A slot yields each kind of event at most once. *)
Lemma poll_decode_NoDup c : NoDup (decode c).
Proof.
  unfold decode. apply NoDup_ListNoDup.
  destruct (has _ POLLIN), (has _ POLLOUT), (decide _); simpl;
    repeat constructor; simpl; intuition discriminate.
Qed.

Lemma poll_event_total s :
  cursor_ok s -> exists s' r, nn_poller_event s = Ok (s', r).
Proof.
  intros ((Hsz & Hlp & Hlh) & Hi). unfold nn_poller_event, skip_empty.
  destruct (skip_from_total (fun p => negb (revents p =? 0)) (pollset s)
              (index s) (Z.to_nat (size s - index s))) as [k Hk]; [lia..|].
  rewrite Hk. cbn [mbind outcome_bind obind]. apply skip_from_Ok in Hk as (Hr & _ & _).
  cbn [index size set_index hndls pollset].
  destruct (decide (k >= size s)); [eauto|].
  destruct (aget_in_range (hndls s) k) as [it Hit]; [lia|].
  destruct (aget_in_range (pollset s) k) as [p Hp]; [lia|].
  rewrite Hit, Hp. cbn [mbind outcome_bind obind].
  destruct (has _ POLLIN).
  { erewrite (proj2 (poll_upd_pollset_Ok _ _ _ _)); [by eauto|]. eauto. }
  destruct (has _ POLLOUT).
  { erewrite (proj2 (poll_upd_pollset_Ok _ _ _ _)); [by eauto|]. eauto. }
  eauto.
Qed.

(** One call of [nn_poller_event] returns the first of the pending events
    and leaves the others pending. *)
Lemma poll_event_pending s s' r :
  cursor_ok s -> nn_poller_event s = Ok (s', r) ->
  cursor_ok s' /\ pending s = option_list r ++ pending s' /\
  (r = None -> pending s' = []).
Proof.
  intros ((Hsz & Hlp & Hlh) & Hi) (k & Hk & Hzero & H)%poll_event_inv.
  set (cs := zip (pollset s) (hndls s)).
  assert (Hcell : forall j p it, aget (pollset s) j = Ok p -> aget (hndls s) j = Ok it ->
            aget cs j = Ok (p, it)).
  { intros j p it Hp Hit. unfold cs. by rewrite poll_aget_zip, Hp, Hit. }
  assert (Hskip : forall to, to <= size s ->
            flat_map decode (window cs (index s) to) =
            flat_map decode (window cs k to) \/ to < k).
  { intros to Hto. destruct (decide (to < k)); [by right | left].
    rewrite (window_app _ (index s) k to) by lia.
    rewrite flat_map_app, flat_map_nil_Forall; [done|].
    apply window_Forall; [lia|]. intros j Hj.
    destruct (Hzero j Hj) as (x & Hx & Hz).
    destruct (aget_in_range (hndls s) j) as [it Hit]; [lia|].
    exists (x, it). split; [by apply Hcell|]. by apply poll_decode_zero. }
  unfold pending, live. fold cs.
  destruct H as [(Hge & Hkn & -> & ->) | (Hlt & p & it & Hp & Hit & Hnz & H)].
  { simpl. fold cs. rewrite (Hkn ltac:(lia)).
    split; [unfold cursor_ok, bounds; simpl; lia|].
    rewrite (window_nil _ (size s) (size s)) by lia. simpl.
    split; [|done]. destruct (Hskip (size s) ltac:(lia)) as [->|]; [|lia].
    rewrite Hkn by lia. by rewrite window_nil by lia. }
  pose proof (aget_range _ _ _ Hp) as Hr.
  destruct (Hskip (size s) ltac:(lia)) as [->|]; [|lia].
  rewrite (window_cons _ _ _ _ Hlt (Hcell _ _ _ Hp Hit)). simpl.
  assert (Hupd : forall p', 
    window (zip (<[Z.to_nat k := p']> (pollset s)) (hndls s)) k (size s) =
    (p', it) :: window cs (k + 1) (size s)).
  { intros p'. rewrite (window_cons _ k _ (p', it) Hlt).
    - f_equal. apply window_ext; [lia|]. intros j Hj. unfold cs.
      rewrite !poll_aget_zip. by rewrite aget_insert_ne by lia.
    - rewrite poll_aget_zip, aget_insert_eq, Hit by done. done. }
  destruct H as [(Hin & -> & ->) | [(Hin & Hout & -> & ->) | (Hin & Hout & -> & ->)]];
    simpl.
  - split; [unfold cursor_ok, bounds; simpl; rewrite length_insert; lia|].
    split; [|done]. rewrite Hupd. simpl. by rewrite (poll_decode_in _ _ Hin).
  - split; [unfold cursor_ok, bounds; simpl; rewrite length_insert; lia|].
    split; [|done]. rewrite Hupd. simpl. by rewrite (poll_decode_out _ _ Hin Hout).
  - split; [unfold cursor_ok, bounds; simpl; lia|]. split; [|done].
    by rewrite (poll_decode_err _ _ Hin Hout Hnz).
Qed.

(** Draining returns the pending events, slot by slot in the order of the
    array, and for each slot [IN] before [OUT] before [ERR]. *)
Lemma poll_drain_pending n s :
  cursor_ok s -> (length (pending s) <= n)%nat ->
  exists s', drain n s = Ok (s', pending s) /\ cursor_ok s' /\ pending s' = [].
Proof.
  revert s. induction n as [|n IH]; intros s Hwf Hn; simpl.
  { exists s. destruct (pending s); simpl in Hn; [done | lia]. }
  destruct (poll_event_total s Hwf) as (s1 & r & Hev).
  destruct (poll_event_pending _ _ _ Hwf Hev) as (Hwf1 & Hp & Hnone).
  rewrite Hev. simpl. destruct r as [e|]; simpl in *.
  - rewrite Hp in Hn. simpl in Hn.
    destruct (IH s1 Hwf1 ltac:(lia)) as (s2 & Hd & Hwf2 & Hp2).
    rewrite Hd. simpl. exists s2. by rewrite Hp.
  - exists s1. rewrite Hp, (Hnone eq_refl). done.
Qed.

(** The slot under the cursor, or after slots without events, has [POLLIN]
    and [POLLOUT]: two calls return [(IN, h)] then [(OUT, h)], and leave
    [revents] without the two bits. *)
Lemma poll_event_in_out s k p it :
  cursor_ok s -> index s <= k < size s ->
  (forall j, index s <= j < k -> exists x, aget (pollset s) j = Ok x /\ revents x = 0) ->
  aget (pollset s) k = Ok p -> aget (hndls s) k = Ok it ->
  has (revents p) POLLIN = true -> has (revents p) POLLOUT = true ->
  exists s1 s2,
    nn_poller_event s = Ok (s1, Some (NN_POLLER_IN, hndl it)) /\
    nn_poller_event s1 = Ok (s2, Some (NN_POLLER_OUT, hndl it)) /\
    index s2 = k /\
    aget (pollset s2) k =
      Ok (with_revents (clear (clear (revents p) POLLIN) POLLOUT) p).
Proof.
  intros Hwf Hk Hzero Hp Hit Hin Hout.
  pose proof (aget_range _ _ _ Hp) as Hr.
  assert (Hnz : forall x m, has x m = true -> x <> 0).
  { intros x m Hx ->. by rewrite has_zero in Hx. }
  destruct (poll_event_total s Hwf) as (s1 & r1 & H1).
  destruct (poll_event_inv _ _ _ H1) as (k1 & Hk1 & Hz1 & Hc1).
  assert (k1 = k) as ->.
  { destruct (Z.lt_trichotomy k1 k) as [Hlt | [-> | Hgt]]; [| done |].
    - destruct (Hzero k1 ltac:(lia)) as (x & Hx & Hxz).
      destruct Hc1 as [(? & _) | (_ & p1 & it1 & Hp1 & _ & Hnz1 & _)]; [lia | congruence].
    - destruct (Hz1 k ltac:(lia)) as (x & Hx & Hxz).
      assert (x = p) by congruence. subst x.
      exfalso. by apply (Hnz _ _ Hin). }
  destruct Hc1 as [(? & _) | (_ & p1 & it1 & Hp1 & Hit1 & _ & Hc1)]; [lia|].
  assert (p1 = p) by congruence. assert (it1 = it) by congruence. subst p1 it1.
  destruct Hc1 as [(_ & -> & ->) | [(? & _) | (? & _)]]; [| congruence..].
  set (p' := with_revents (clear (revents p) POLLIN) p) in *.
  set (s1 := set_pollset (set_index s k) (<[Z.to_nat k := p']> (pollset s))) in *.
  assert (Hwf1 : cursor_ok s1).
  { destruct Hwf as ((? & ? & ?) & ?). unfold cursor_ok, bounds, s1. simpl.
    rewrite length_insert. lia. }
  assert (Hp' : aget (<[Z.to_nat k := p']> (pollset s)) k = Ok p')
    by (by apply aget_insert_eq).
  assert (Hout' : has (revents p') POLLOUT = true).
  { unfold p'. simpl. by rewrite (has_clear_other _ _ _ poll_in_out_disjoint). }
  destruct (poll_event_total s1 Hwf1) as (s2 & r2 & H2).
  destruct (poll_event_inv _ _ _ H2) as (k2 & Hk2 & Hz2 & Hc2).
  unfold s1 in Hk2, Hz2, Hc2. simpl in Hk2, Hz2, Hc2.
  assert (k2 = k) as ->.
  { destruct (decide (k2 = k)) as [|Hne]; [done|].
    destruct (Hz2 k ltac:(lia)) as (x & Hx & Hxz).
    assert (x = p') by congruence. subst x.
    exfalso. by apply (Hnz _ _ Hout'). }
  destruct Hc2 as [(? & _) | (_ & p2 & it2 & Hp2 & Hit2 & _ & Hc2)]; [lia|].
  assert (p2 = p') by congruence. assert (it2 = it) by congruence. subst p2 it2.
  assert (Hin' : has (revents p') POLLIN = false) by apply has_clear_same.
  destruct Hc2 as [(? & _) | [(_ & _ & -> & ->) | (_ & ? & _)]]; [congruence | | congruence].
  do 2 eexists. split; [done|]. split; [exact H2|]. split; [done|].
  simpl. apply aget_insert_eq. rewrite length_insert. lia.
Qed.

(** *** Interest, creation and destruction *)

(** Setting a bit that is set changes nothing. *)
Lemma poll_lor_present x k :
  0 <= k -> has x (2 ^ k) = true -> Z.lor x (2 ^ k) = x.
Proof.
  intros Hk Hx. apply has_true in Hx.
  assert (Hb : Z.testbit x k = true).
  { destruct (Z.testbit x k) eqn:E; [done|]. exfalso. apply Hx.
    apply Z.bits_inj'. intros n Hn. rewrite Z.land_spec, Z.bits_0, Z.pow2_bits_eqb by done.
    destruct (Z.eqb_spec k n) as [->|]; [by rewrite E | by rewrite andb_false_r]. }
  apply Z.bits_inj'. intros n Hn. rewrite Z.lor_spec, Z.pow2_bits_eqb by done.
  destruct (Z.eqb_spec k n) as [<-|]; [by rewrite Hb | by rewrite orb_false_r].
Qed.

(** [nn_poller_set_in] and [nn_poller_set_out] call nothing: they write
    [events] of the slot. *)
Lemma poll_set_in_spec s h s' :
  nn_poller_set_in s h = Ok s' <->
  exists p, aget (pollset s) (hmem s h) = Ok p /\
    s' = set_pollset s
           (<[Z.to_nat (hmem s h) := with_events (Z.lor (events p) POLLIN) p]>
              (pollset s)).
Proof. apply poll_upd_pollset_Ok. Qed.

Lemma poll_set_out_spec s h s' :
  nn_poller_set_out s h = Ok s' <->
  exists p, aget (pollset s) (hmem s h) = Ok p /\
    s' = set_pollset s
           (<[Z.to_nat (hmem s h) := with_events (Z.lor (events p) POLLOUT) p]>
              (pollset s)).
Proof. apply poll_upd_pollset_Ok. Qed.

Lemma poll_set_pollset_id s ps : ps = pollset s -> set_pollset s ps = s.
Proof. intros ->. by destruct s. Qed.

Lemma poll_set_in_noop s h p :
  aget (pollset s) (hmem s h) = Ok p -> has (events p) POLLIN = true ->
  nn_poller_set_in s h = Ok s.
Proof.
  intros Hp Hb. apply poll_set_in_spec. exists p. split; [done|].
  symmetry. apply poll_set_pollset_id. apply list_insert_id.
  apply aget_Ok in Hp as [_ Hp]. rewrite Hp. f_equal.
  unfold with_events. rewrite (poll_lor_present _ 0) by done. by destruct p.
Qed.

Lemma poll_set_out_noop s h p :
  aget (pollset s) (hmem s h) = Ok p -> has (events p) POLLOUT = true ->
  nn_poller_set_out s h = Ok s.
Proof.
  intros Hp Hb. apply poll_set_out_spec. exists p. split; [done|].
  symmetry. apply poll_set_pollset_id. apply list_insert_id.
  apply aget_Ok in Hp as [_ Hp]. rewrite Hp. f_equal.
  unfold with_events. rewrite (poll_lor_present _ 2) by done. by destruct p.
Qed.

Lemma poll_set_in_trace s h s' :
  nn_poller_set_in s h = Ok s' -> trace s' = trace s.
Proof. by intros (p & _ & ->)%poll_set_in_spec. Qed.

Lemma poll_set_out_trace s h s' :
  nn_poller_set_out s h = Ok s' -> trace s' = trace s.
Proof. by intros (p & _ & ->)%poll_set_out_spec. Qed.

Lemma poll_reset_in_trace s h s' :
  nn_poller_reset_in s h = Ok s' -> trace s' = trace s.
Proof. by intros (p & _ & ->)%poll_reset_in_spec. Qed.

Lemma poll_reset_out_trace s h s' :
  nn_poller_reset_out s h = Ok s' -> trace s' = trace s.
Proof. by intros (p & _ & ->)%poll_reset_out_spec. Qed.

(** The second of two calls in a row changes nothing. *)
Lemma poll_set_in_twice s h s1 :
  nn_poller_set_in s h = Ok s1 -> nn_poller_set_in s1 h = Ok s1.
Proof.
  intros (p & Hp & ->)%poll_set_in_spec. pose proof (aget_range _ _ _ Hp) as Hr.
  eapply poll_set_in_noop.
  - simpl. by apply aget_insert_eq.
  - simpl. by apply has_lor_same.
Qed.

(** [nn_poller_init] has no descriptor to get: it returns [0], or aborts
    when memory is short. *)
Lemma poll_init_ok s k :
  pollset_ok k = true -> hndls_ok k = true ->
  exists s', nn_poller_init s k = Ok (s', rc_ok) /\
    size s' = 0 /\ index s' = 0 /\ removed s' = -1 /\
    capacity s' = NN_POLLER_GRANULARITY /\
    pollset s' = replicate (Z.to_nat NN_POLLER_GRANULARITY) (fresh_pollfd k) /\
    hndls s' = replicate (Z.to_nat NN_POLLER_GRANULARITY) (fresh_item k) /\
    hmem s' = hmem s /\
    trace s' = trace s ++ [sys_alloc_pollset NN_POLLER_GRANULARITY;
                           sys_alloc_hndls NN_POLLER_GRANULARITY].
Proof.
  intros H1 H2. unfold nn_poller_init. rewrite H1, H2. cbn [negb].
  eexists. split; [reflexivity|]. cbn -[replicate Z.to_nat].
  by rewrite <- app_assoc.
Qed.

Lemma poll_init_short s k :
  pollset_ok k && hndls_ok k = false -> nn_poller_init s k = Abort.
Proof.
  unfold nn_poller_init. destruct (pollset_ok k); [|done].
  by destruct (hndls_ok k).
Qed.

Lemma poll_init_no_errno s k s' e :
  nn_poller_init s k <> Ok (s', rc_neg e).
Proof.
  unfold nn_poller_init. destruct (pollset_ok k); [|done].
  by destruct (hndls_ok k).
Qed.

(** [nn_poller_term] frees the two arrays and keeps no record of it: a
    second call frees the same two pointers again. *)
Lemma poll_term_twice s :
  trace (nn_poller_term (nn_poller_term s)) =
    trace s ++ [sys_free_pollset; sys_free_hndls; sys_free_pollset; sys_free_hndls].
Proof. unfold nn_poller_term. simpl. by rewrite <- !app_assoc. Qed.

(** *** Turning interest off, seen from the drain *)

Lemma poll_decode_elem c k g :
  (k, g) ∈ decode c ->
  hndl (snd c) = g /\
  (k = NN_POLLER_IN -> has (revents (fst c)) POLLIN = true) /\
  (k = NN_POLLER_OUT -> has (revents (fst c)) POLLOUT = true).
Proof.
  unfold decode. intros Hin.
  destruct (has _ POLLIN) eqn:Ei, (has _ POLLOUT) eqn:Eo, (decide _);
    simpl in Hin;
    repeat (apply elem_of_cons in Hin as [Hin|Hin]);
    try (by apply elem_of_nil in Hin);
    injection Hin as -> <-; repeat split; done.
Qed.

Lemma poll_decode_no_in c g :
  has (revents (fst c)) POLLIN = false ->
  Forall (fun x => x <> (NN_POLLER_IN, g)) (decode c).
Proof.
  intros Hin. apply Forall_forall. intros [k g'] Hx [= -> ->].
  apply poll_decode_elem in Hx as (_ & Hi & _). rewrite Hin in Hi.
  by specialize (Hi eq_refl).
Qed.

Lemma poll_decode_no_out c g :
  has (revents (fst c)) POLLOUT = false ->
  Forall (fun x => x <> (NN_POLLER_OUT, g)) (decode c).
Proof.
  intros Hout. apply Forall_forall. intros [k g'] Hx [= -> ->].
  apply poll_decode_elem in Hx as (_ & _ & Ho). rewrite Hout in Ho.
  by specialize (Ho eq_refl).
Qed.

Lemma poll_decode_other c g k :
  hndl (snd c) <> g -> Forall (fun x => x <> (k, g)) (decode c).
Proof.
  intros Hne. apply Forall_forall. intros [k' g'] Hx [= -> ->].
  by apply poll_decode_elem in Hx as (? & _).
Qed.

(** [decode] reads [revents] and the handle, nothing else. *)
Lemma poll_decode_revents p q it :
  revents p = revents q -> decode (p, it) = decode (q, it).
Proof. intros H. unfold decode. simpl. by rewrite H. Qed.

Lemma poll_decode_unset_in h c :
  decode (unset POLLIN h c) =
  filter (fun x => x <> (NN_POLLER_IN, Some h)) (decode c).
Proof.
  unfold unset. destruct c as [p it]. simpl.
  destruct (decide (hndl it = Some h)) as [Hp|Hp].
  - destruct (has (revents p) POLLIN) eqn:Ein.
    + rewrite (poll_decode_in p it Ein), Hp.
      rewrite filter_cons_False by (intros H; by apply H).
      rewrite filter_all by (apply poll_decode_no_in; simpl; apply has_clear_same).
      by apply poll_decode_revents.
    + rewrite filter_all by (by apply poll_decode_no_in).
      apply poll_decode_revents. simpl. by apply clear_absent.
  - rewrite filter_all; [done|]. by apply poll_decode_other.
Qed.

Lemma poll_decode_unset_out h c :
  decode (unset POLLOUT h c) =
  filter (fun x => x <> (NN_POLLER_OUT, Some h)) (decode c).
Proof.
  unfold unset. destruct c as [p it]. simpl.
  destruct (decide (hndl it = Some h)) as [Hp|Hp].
  - destruct (has (revents p) POLLOUT) eqn:Eout.
    + unfold decode at 2. simpl. rewrite Eout.
      rewrite list.filter_app. simpl.
      rewrite filter_cons_False by (rewrite Hp; intros H; by apply H).
      unfold decode. simpl.
      rewrite (has_clear_other _ _ _ poll_out_in_disjoint), has_clear_same.
      rewrite (clear_clear_comm (clear _ _)), clear_idem,
        (clear_clear_comm (revents p)).
      f_equal.
      { destruct (has _ POLLIN); [|done].
        rewrite filter_cons_True by done. done. }
      simpl. destruct (decide _); [done|].
      rewrite filter_cons_True by done. done.
    + rewrite filter_all by (by apply poll_decode_no_out).
      apply poll_decode_revents. simpl. by apply clear_absent.
  - rewrite filter_all; [done|]. by apply poll_decode_other.
Qed.

(** Writing the slot of [h] is [unset] over the slots, when no other slot
    holds [h]. *)
Lemma poll_unset_live s h m p :
  bounds s -> indexed s -> registered s h -> 0 <= index s ->
  aget (pollset s) (hmem s h) = Ok p ->
  live (set_pollset s
          (<[Z.to_nat (hmem s h) :=
               {| fd := fd p; events := clear (events p) m;
                  revents := clear (revents p) m |}]> (pollset s))) =
  map (unset m h) (live s).
Proof.
  intros Hb Hix Hreg Hi Hp. unfold live. cbn [pollset hndls index size set_pollset].
  destruct Hreg as (Hr & it & Hit & Hh).
  apply window_map; [done | |].
  { by rewrite !length_zip_with, length_insert. }
  intros j [q jt] Hj Hx. rewrite poll_aget_zip in Hx |- *.
  destruct (aget (pollset s) j) as [q'| |] eqn:Eq; try done.
  destruct (aget (hndls s) j) as [jt'| |] eqn:Ej; try done.
  injection Hx as -> ->.
  destruct (decide (j = hmem s h)) as [->|Hne].
  - rewrite Hp in Eq. injection Eq as <-. rewrite Hit in Ej. injection Ej as <-.
    rewrite aget_insert_eq by (by apply aget_range in Hp). unfold unset. simpl.
    by destruct (decide _).
  - rewrite aget_insert_ne by (done || lia). rewrite Eq. unfold unset. simpl.
    destruct (decide (hndl jt = Some h)) as [Hjt|]; [|done].
    exfalso. apply Hne. symmetry. apply Hix. split; [lia|]. eauto.
Qed.

(** [nn_poller_reset_in] takes [(IN, h)] out of what the batch still yields
    and leaves the rest, in its order. *)
Lemma poll_reset_in_pending s h s' :
  bounds s -> indexed s -> registered s h -> 0 <= index s ->
  nn_poller_reset_in s h = Ok s' ->
  pending s' = filter (fun x => x <> (NN_POLLER_IN, Some h)) (pending s).
Proof.
  intros Hb Hix Hreg Hi (p & Hp & ->)%poll_reset_in_spec.
  unfold pending. rewrite (poll_unset_live s h POLLIN p) by done.
  rewrite flat_map_map, filter_flat_map.
  apply flat_map_ext_Forall, Forall_forall. intros c _.
  apply poll_decode_unset_in.
Qed.

Lemma poll_reset_out_pending s h s' :
  bounds s -> indexed s -> registered s h -> 0 <= index s ->
  nn_poller_reset_out s h = Ok s' ->
  pending s' = filter (fun x => x <> (NN_POLLER_OUT, Some h)) (pending s).
Proof.
  intros Hb Hix Hreg Hi (p & Hp & ->)%poll_reset_out_spec.
  unfold pending. rewrite (poll_unset_live s h POLLOUT p) by done.
  rewrite flat_map_map, filter_flat_map.
  apply flat_map_ext_Forall, Forall_forall. intros c _.
  apply poll_decode_unset_out.
Qed.

(** The two functions return when the handle is registered. *)
Lemma poll_reset_in_total s h :
  bounds s -> registered s h -> exists s', nn_poller_reset_in s h = Ok s'.
Proof.
  intros (Hs & Hl & _) (Hr & _).
  destruct (aget_in_range (pollset s) (hmem s h)) as [p Hp]; [lia|].
  eexists. apply poll_reset_in_spec. eauto.
Qed.

Lemma poll_reset_out_total s h :
  bounds s -> registered s h -> exists s', nn_poller_reset_out s h = Ok s'.
Proof.
  intros (Hs & Hl & _) (Hr & _).
  destruct (aget_in_range (pollset s) (hmem s h)) as [p Hp]; [lia|].
  eexists. apply poll_reset_out_spec. eauto.
Qed.

End PollFacts.

Local Open Scope Z_scope.

(** * Totality, and the sample contexts *)

Module Totals.

Lemma epoll_rm_total s h :
  Epoll.wf s -> exists s1, Epoll.nn_poller_rm s h = Ok s1.
Proof.
  intros [Hi Hn]. unfold Epoll.nn_poller_rm. simpl.
  destruct (for_live_total (Epoll.scrub (fun _ => 0) h) (Epoll.events s)
              (Epoll.index s) (Epoll.nevents s)) as [evs Hevs]; [lia..|].
  rewrite Hevs. simpl. eauto.
Qed.

Lemma kq_rm_total s h :
  Kqueue.wf s -> exists s1, Kqueue.nn_poller_rm s h = Ok s1.
Proof.
  intros [Hi Hn]. unfold Kqueue.nn_poller_rm.
  destruct (has _ Kqueue.NN_POLLER_EVENT_IN), (has _ Kqueue.NN_POLLER_EVENT_OUT);
    cbn -[for_live];
    match goal with
    | |- context [for_live ?f ?a ?i ?n] =>
        destruct (for_live_total f a i n) as [evs Hevs]; [simpl; lia..|];
        rewrite Hevs; simpl; eauto
    end.
Qed.

Lemma epoll_reset_in_total s h :
  Epoll.wf s -> exists s1, Epoll.nn_poller_reset_in s h = Ok s1.
Proof.
  intros [Hi Hn]. unfold Epoll.nn_poller_reset_in.
  destruct (has _ Epoll.EPOLLIN); [|simpl; eauto]. cbn -[for_live].
  match goal with
  | |- context [for_live ?f ?a ?i ?n] =>
      destruct (for_live_total f a i n) as [evs Hevs]; [simpl; lia..|];
      rewrite Hevs; simpl; eauto
  end.
Qed.

Lemma epoll_reset_out_total s h :
  Epoll.wf s -> exists s1, Epoll.nn_poller_reset_out s h = Ok s1.
Proof.
  intros [Hi Hn]. unfold Epoll.nn_poller_reset_out.
  destruct (has _ Epoll.EPOLLOUT); [|simpl; eauto]. cbn -[for_live].
  match goal with
  | |- context [for_live ?f ?a ?i ?n] =>
      destruct (for_live_total f a i n) as [evs Hevs]; [simpl; lia..|];
      rewrite Hevs; simpl; eauto
  end.
Qed.

Lemma kq_reset_in_total s h :
  Kqueue.wf s -> exists s1, Kqueue.nn_poller_reset_in s h = Ok s1.
Proof.
  intros [Hi Hn]. unfold Kqueue.nn_poller_reset_in.
  destruct (has _ Kqueue.NN_POLLER_EVENT_IN); cbn -[for_live];
    match goal with
    | |- context [for_live ?f ?a ?i ?n] =>
        destruct (for_live_total f a i n) as [evs Hevs]; [simpl; lia..|];
        rewrite Hevs; simpl; eauto
    end.
Qed.

Lemma kq_reset_out_total s h rc :
  Kqueue.wf s -> exists s1, Kqueue.nn_poller_reset_out s h rc = Ok s1.
Proof.
  intros [Hi Hn]. unfold Kqueue.nn_poller_reset_out.
  destruct (has _ Kqueue.NN_POLLER_EVENT_OUT); [destruct (decide (rc <> -1))|];
    cbn -[for_live];
    match goal with
    | |- context [for_live ?f ?a ?i ?n] =>
        destruct (for_live_total f a i n) as [evs Hevs]; [simpl; lia..|];
        rewrite Hevs; simpl; eauto
    end.
Qed.

(** The sample contexts are well formed. *)
Lemma epoll_sample_wf m batch :
  (length batch <= 32)%nat -> Epoll.wf (Epoll.sample m batch).
Proof.
  intros H. unfold Epoll.wf, Epoll.sample. simpl.
  rewrite length_app, length_replicate. lia.
Qed.

Lemma kq_sample_wf m batch :
  (length batch <= 32)%nat -> Kqueue.wf (Kqueue.sample m batch).
Proof.
  intros H. unfold Kqueue.wf, Kqueue.sample. simpl.
  rewrite length_app, length_replicate. lia.
Qed.

Lemma epoll_sample_tracks batch h :
  Epoll.tracks (Epoll.sample (Z.lor Epoll.EPOLLIN Epoll.EPOLLOUT) batch) h.
Proof. intros j e _ _ _. by split. Qed.

Lemma kq_sample_tagged m batch :
  Forall (fun e => forall h, Kqueue.udata e = Some h ->
            Kqueue.ident e = Z.of_nat h + 10 /\ Z.of_nat h + 10 < 2 ^ 31) batch ->
  Kqueue.all_tagged (Kqueue.sample m batch).
Proof.
  intros Hall j e Hj He h Hh. simpl in *.
  apply aget_Ok in He as [Hj0 He].
  rewrite lookup_app_l in He by lia.
  rewrite Forall_lookup in Hall. destruct (Hall _ _ He h Hh) as [Hid Hlt].
  split; [done | lia].
Qed.

Lemma poll_sample_lookup cells j it :
  0 <= j < Z.of_nat (length cells) ->
  aget (Poll.hndls (Poll.sample cells)) j = Ok it ->
  Poll.hndl it = Some (S (Z.to_nat j)).
Proof.
  intros Hj [_ Hit]%aget_Ok. simpl in Hit.
  rewrite lookup_app_l in Hit by (rewrite length_imap; lia).
  rewrite list_lookup_imap in Hit.
  destruct (cells !! Z.to_nat j); [|done]. by injection Hit as <-.
Qed.

Lemma poll_sample_wf cells :
  (length cells <= 16)%nat -> Poll.wf (Poll.sample cells).
Proof.
  intros Hl.
  assert (Hb : Poll.bounds (Poll.sample cells)).
  { unfold Poll.bounds. simpl.
    rewrite !length_app, !length_imap, !length_replicate. lia. }
  split; [done|]. split.
  - intros j g (Hj & it & Hit & Hg). simpl in Hj.
    rewrite (poll_sample_lookup _ _ _ Hj Hit) in Hg. injection Hg as <-.
    simpl. lia.
  - exists []. split; [constructor|]. split; [done|]. split.
    + intros j Hj. simpl in Hj.
      destruct (aget_in_range (Poll.hndls (Poll.sample cells)) j) as [it Hit].
      { destruct Hb as (_ & _ & Hh). rewrite Hh. simpl. lia. }
      exists it. split; [done|].
      rewrite (poll_sample_lookup _ _ _ Hj Hit). split; [done|].
      by intros ?%elem_of_nil.
    + by intros k i ?.
Qed.

Lemma poll_sample_registered cells h :
  (0 < h <= length cells)%nat -> (length cells <= 16)%nat ->
  Poll.registered (Poll.sample cells) h.
Proof.
  intros Hh Hl. unfold Poll.registered, Poll.holds. simpl.
  split; [lia|].
  destruct (aget_in_range (Poll.hndls (Poll.sample cells)) (Z.of_nat h - 1))
    as [it Hit].
  { simpl. rewrite length_app, length_imap, length_replicate. lia. }
  exists it. split; [done|].
  rewrite (poll_sample_lookup cells (Z.of_nat h - 1) it) by (done || lia).
  f_equal. lia.
Qed.

(** One step of the conditions on a sequence of calls. *)
Lemma epoll_kernel_ok_wait t n a rest s :
  Epoll.reported s a ->
  (forall r, Epoll.exec (Epoll.Wait t n a) s = Ok r -> Epoll.kernel_ok rest (fst r)) ->
  Epoll.kernel_ok (Epoll.Wait t n a :: rest) s.
Proof.
  intros Hr Hk. cbn [Epoll.kernel_ok]. split; [done|].
  destruct (Epoll.exec _ s); auto.
Qed.

Lemma kq_kernel_ok_wait b t n a rest s :
  Kqueue.reported s a ->
  (forall r, Kqueue.exec b (Kqueue.Wait t n a) s = Ok r ->
     Kqueue.kernel_ok b rest (fst r)) ->
  Kqueue.kernel_ok b (Kqueue.Wait t n a :: rest) s.
Proof.
  intros Hr Hk. cbn [Kqueue.kernel_ok]. split; [done|].
  destruct (Kqueue.exec b _ s); auto.
Qed.

Lemma poll_run_ok_wait b t n a rest s :
  (forall sc, Poll.compact s = Ok sc -> Poll.reported sc a) ->
  (forall r, Poll.exec b (Poll.Wait t n a) s = Ok r -> Poll.run_ok b rest (fst r)) ->
  Poll.run_ok b (Poll.Wait t n a :: rest) s.
Proof.
  intros Hr Hk. cbn [Poll.run_ok Poll.op_ok]. split; [done|]. split.
  - destruct (Poll.compact s); auto.
  - destruct (Poll.exec b _ s); auto.
Qed.

(** Calls other than the wait ask nothing of the kernel's answers. *)
Lemma epoll_kernel_ok_nowait ops s :
  Forall (fun o => Epoll.is_wait o = false) ops -> Epoll.kernel_ok ops s.
Proof.
  intros H. revert s. induction H as [|o ops Ho _ IH]; intros s; simpl; [done|].
  split; [by destruct o|]. destruct (Epoll.exec o s); auto.
Qed.

Lemma kq_kernel_ok_nowait b ops s :
  Forall (fun o => Kqueue.is_wait o = false) ops -> Kqueue.kernel_ok b ops s.
Proof.
  intros H. revert s. induction H as [|o ops Ho _ IH]; intros s; simpl; [done|].
  split; [by destruct o|]. destruct (Kqueue.exec b o s); auto.
Qed.

Lemma poll_run_ok_events b ops s :
  Forall (fun o => o = Poll.Event) ops -> Poll.run_ok b ops s.
Proof.
  intros H. revert s. induction H as [|o ops -> _ IH]; intros s; [done|].
  cbn [Poll.run_ok Poll.op_ok]. split; [done|]. split; [done|].
  destruct (Poll.exec b Poll.Event s); auto.
Qed.

(** A batch that the kernel may report leaves the buffer as the properties
    of [nn_poller_rm] and of the resets want it. *)
Lemma kq_wait_tagged b s t n a s' rc :
  Kqueue.reported s a -> Kqueue.nn_poller_wait b s t n a = Ok (s', rc) ->
  Kqueue.all_tagged s'.
Proof.
  intros Hrep Hw.
  destruct (KqueueFacts.kq_wait_inv _ _ _ _ _ _ _ Hw) as (Hm & Hi & Hcase).
  intros j e Hj He.
  destruct Hcase as [(_ & _ & _ & Hn) | (_ & _ & batch & -> & Hn & Hev)]; [lia|].
  rewrite Hev in He. apply aget_Ok in He as [Hj0 He].
  rewrite lookup_app_l in He by lia.
  destruct Hrep as [_ Hall]. rewrite Forall_lookup in Hall.
  destruct (Hall _ _ He) as [Htag _].
  intros h Hh. rewrite Hm. by apply Htag.
Qed.

Lemma epoll_wait_tracks s t n a s' rc h :
  Epoll.reported s a -> Epoll.nn_poller_wait s t n a = Ok (s', rc) ->
  Epoll.tracks s' h.
Proof.
  intros Hrep Hw.
  destruct (EpollFacts.epoll_wait_spec s t n a)
    as (s1 & H1 & _ & Hm & Hi & Hn & Hev & _).
  rewrite H1 in Hw. injection Hw as <- _.
  intros j e Hj He Hp. rewrite Hm.
  destruct a as [batch|]; simpl in *; [|lia].
  rewrite Hev in He. apply aget_Ok in He as [Hj0 He].
  rewrite lookup_app_l in He by lia.
  destruct Hrep as [_ Hall]. rewrite Forall_lookup in Hall.
  specialize (Hall _ _ He). simpl in Hall. by rewrite Hp in Hall.
Qed.

End Totals.

(** * The properties of the interface *)



(** C2, as amended: [nn_poller_reset_in] and [nn_poller_reset_out] return,
    and after [nn_poller_reset_in] of [h] (resp. [nn_poller_reset_out]) no
    call of [nn_poller_event] before the next [nn_poller_wait] returns
    [(IN, h)] (resp. [(OUT, h)]).  With epoll and with poll the drain of the
    batch returns what it would have returned, in the same order, less that
    one pair.  With kqueue the records of the other filter are untouched,
    and each record of the descriptor on the filter that is reset loses its
    handle, whatever its flags. *)
Theorem reset_silences_its_kind :
  (forall s h, Epoll.wf s -> Epoll.tracks s h ->
     ((exists s1, Epoll.nn_poller_reset_in s h = Ok s1) /\
      forall s1, Epoll.nn_poller_reset_in s h = Ok s1 ->
        Epoll.pending s1 =
          filter (fun x => x <> (NN_POLLER_IN, h)) (Epoll.pending s) /\
        forall ops s2 outs,
          Forall (fun o => Epoll.is_wait o = false) ops ->
          Epoll.run ops s1 = Ok (s2, outs) -> (NN_POLLER_IN, h) ∉ outs) /\
     ((exists s1, Epoll.nn_poller_reset_out s h = Ok s1) /\
      forall s1, Epoll.nn_poller_reset_out s h = Ok s1 ->
        Epoll.pending s1 =
          filter (fun x => x <> (NN_POLLER_OUT, h)) (Epoll.pending s) /\
        forall ops s2 outs,
          Forall (fun o => Epoll.is_wait o = false) ops ->
          Epoll.run ops s1 = Ok (s2, outs) -> (NN_POLLER_OUT, h) ∉ outs)) /\
  (forall b s h rc, Kqueue.wf s -> Kqueue.all_tagged s ->
     ((exists s1, Kqueue.nn_poller_reset_in s h = Ok s1) /\
      forall s1, Kqueue.nn_poller_reset_in s h = Ok s1 ->
        (forall j e, aget (Kqueue.events s) j = Ok e ->
           Kqueue.filter e <> Kqueue.EVFILT_READ ->
           aget (Kqueue.events s1) j = Ok e) /\
        (forall j e, Kqueue.index s <= j < Kqueue.nevents s ->
           aget (Kqueue.events s) j = Ok e ->
           Kqueue.ident e = Kqueue.unsigned (Kqueue.hndl_fd (Kqueue.hmem s h)) ->
           Kqueue.filter e = Kqueue.EVFILT_READ ->
           exists e', aget (Kqueue.events s1) j = Ok e' /\ Kqueue.udata e' = None) /\
        forall ops s2 outs,
          Forall (fun o => Kqueue.is_wait o = false) ops ->
          Kqueue.run b ops s1 = Ok (s2, outs) -> (NN_POLLER_IN, h) ∉ outs) /\
     ((exists s1, Kqueue.nn_poller_reset_out s h rc = Ok s1) /\
      forall s1, Kqueue.nn_poller_reset_out s h rc = Ok s1 ->
        (forall j e, aget (Kqueue.events s) j = Ok e ->
           Kqueue.filter e <> Kqueue.EVFILT_WRITE ->
           aget (Kqueue.events s1) j = Ok e) /\
        (forall j e, Kqueue.index s <= j < Kqueue.nevents s ->
           aget (Kqueue.events s) j = Ok e ->
           Kqueue.ident e = Kqueue.unsigned (Kqueue.hndl_fd (Kqueue.hmem s h)) ->
           Kqueue.filter e = Kqueue.EVFILT_WRITE ->
           exists e', aget (Kqueue.events s1) j = Ok e' /\ Kqueue.udata e' = None) /\
        forall ops s2 outs,
          Forall (fun o => Kqueue.is_wait o = false) ops ->
          Kqueue.run b ops s1 = Ok (s2, outs) -> (NN_POLLER_OUT, h) ∉ outs)) /\
  (forall b s h, Poll.wf s -> Poll.registered s h -> 0 <= Poll.index s ->
     ((exists s1, Poll.nn_poller_reset_in s h = Ok s1) /\
      forall s1, Poll.nn_poller_reset_in s h = Ok s1 ->
        Poll.pending s1 =
          filter (fun x => x <> (NN_POLLER_IN, Some h)) (Poll.pending s) /\
        forall ops s2 outs,
          Forall (fun o => Poll.is_wait o = false) ops ->
          Poll.run b ops s1 = Ok (s2, outs) -> (NN_POLLER_IN, Some h) ∉ outs) /\
     ((exists s1, Poll.nn_poller_reset_out s h = Ok s1) /\
      forall s1, Poll.nn_poller_reset_out s h = Ok s1 ->
        Poll.pending s1 =
          filter (fun x => x <> (NN_POLLER_OUT, Some h)) (Poll.pending s) /\
        forall ops s2 outs,
          Forall (fun o => Poll.is_wait o = false) ops ->
          Poll.run b ops s1 = Ok (s2, outs) -> (NN_POLLER_OUT, Some h) ∉ outs)).
Proof.
  split; [|split].
  - intros s h Hwf Htr. split.
    + split; [by apply Totals.epoll_reset_in_total|]. intros s1 H1. split.
      * by apply EpollFacts.epoll_reset_in_pending.
      * intros ops s2 outs. by apply (EpollFacts.epoll_reset_in_silences s h s1).
    + split; [by apply Totals.epoll_reset_out_total|]. intros s1 H1. split.
      * by apply EpollFacts.epoll_reset_out_pending.
      * intros ops s2 outs. by apply (EpollFacts.epoll_reset_out_silences s h s1).
  - intros b s h rc Hwf Htag. split.
    + split; [by apply Totals.kq_reset_in_total|]. intros s1 H1.
      split; [|split].
      * intros j e. by apply (KqueueFacts.kq_reset_in_keeps_write s h).
      * intros j e Hj He Hid Hf.
        destruct (KqueueFacts.kq_reset_in_records _ _ _ H1) as (_ & _ & Hrec).
        destruct (aget_in_range (Kqueue.events s1) j) as [e' He'].
        { apply aget_range in He.
          by rewrite (KqueueFacts.kq_reset_in_length _ _ _ H1). }
        exists e'. split; [done|].
        destruct (Hrec _ _ He') as (e0 & He0 & ->). rewrite He in He0.
        injection He0 as <-. destruct (decide _); [|lia].
        unfold Kqueue.scrub. rewrite !bool_decide_eq_true_2 by done. done.
      * intros ops s2 outs. by apply (KqueueFacts.kq_reset_in_silences b s h s1).
    + split; [by apply Totals.kq_reset_out_total|]. intros s1 H1.
      split; [|split].
      * intros j e. by apply (KqueueFacts.kq_reset_out_keeps_read s h rc).
      * intros j e Hj He Hid Hf.
        destruct (KqueueFacts.kq_reset_out_records _ _ _ _ H1) as (_ & _ & Hrec).
        destruct (aget_in_range (Kqueue.events s1) j) as [e' He'].
        { apply aget_range in He.
          by rewrite (KqueueFacts.kq_reset_out_length _ _ _ _ H1). }
        exists e'. split; [done|].
        destruct (Hrec _ _ He') as (e0 & He0 & ->). rewrite He in He0.
        injection He0 as <-. destruct (decide _); [|lia].
        unfold Kqueue.scrub. rewrite !bool_decide_eq_true_2 by done. done.
      * intros ops s2 outs. by apply (KqueueFacts.kq_reset_out_silences b s h rc s1).
  - intros b s h Hwf Hreg Hi. pose proof Hwf as (Hb & Hix & _).
    assert (Huniq : forall j, Poll.holds s j h -> j = Poll.hmem s h).
    { intros j Hj. symmetry. by apply Hix. }
    split.
    + split; [by apply PollFacts.poll_reset_in_total|]. intros s1 H1. split.
      * by apply PollFacts.poll_reset_in_pending.
      * intros ops s2 outs. by apply (PollFacts.poll_reset_in_silences b s h s1).
    + split; [by apply PollFacts.poll_reset_out_total|]. intros s1 H1. split.
      * by apply PollFacts.poll_reset_out_pending.
      * intros ops s2 outs. by apply (PollFacts.poll_reset_out_silences b s h s1).
Qed.

(** On the contexts where handle [1] is readable and writable and handle [2]
    readable: after [nn_poller_reset_in] of handle [1] the drain returns
    [(OUT, 1)] and [(IN, 2)], after [nn_poller_reset_out] it returns
    [(IN, 1)] and [(IN, 2)]. *)
Lemma reset_silences_its_kind_witness :
  ((exists s1 s2,
      Epoll.nn_poller_reset_in Epoll.two_ready 1%nat = Ok s1 /\
      Epoll.run [Epoll.Event; Epoll.Event; Epoll.Event] s1
        = Ok (s2, [(NN_POLLER_OUT, 1%nat); (NN_POLLER_IN, 2%nat)]) /\
      (NN_POLLER_IN, 1%nat) ∉ [(NN_POLLER_OUT, 1%nat); (NN_POLLER_IN, 2%nat)]) /\
   (exists s1 s2,
      Epoll.nn_poller_reset_out Epoll.two_ready 1%nat = Ok s1 /\
      Epoll.run [Epoll.Event; Epoll.Event; Epoll.Event] s1
        = Ok (s2, [(NN_POLLER_IN, 1%nat); (NN_POLLER_IN, 2%nat)]) /\
      (NN_POLLER_OUT, 1%nat) ∉ [(NN_POLLER_IN, 1%nat); (NN_POLLER_IN, 2%nat)])) /\
  ((exists s1 s2,
      Kqueue.nn_poller_reset_in Kqueue.two_ready 1%nat = Ok s1 /\
      Kqueue.run false [Kqueue.Event; Kqueue.Event; Kqueue.Event] s1
        = Ok (s2, [(NN_POLLER_OUT, 1%nat); (NN_POLLER_IN, 2%nat)]) /\
      (NN_POLLER_IN, 1%nat) ∉ [(NN_POLLER_OUT, 1%nat); (NN_POLLER_IN, 2%nat)]) /\
   (exists s1 s2,
      Kqueue.nn_poller_reset_out Kqueue.two_ready 1%nat 0 = Ok s1 /\
      Kqueue.run false [Kqueue.Event; Kqueue.Event; Kqueue.Event] s1
        = Ok (s2, [(NN_POLLER_IN, 1%nat); (NN_POLLER_IN, 2%nat)]) /\
      (NN_POLLER_OUT, 1%nat) ∉ [(NN_POLLER_IN, 1%nat); (NN_POLLER_IN, 2%nat)])) /\
  ((exists s1 s2,
      Poll.nn_poller_reset_in Poll.two_ready 1%nat = Ok s1 /\
      Poll.run false [Poll.Event; Poll.Event; Poll.Event] s1
        = Ok (s2, [(NN_POLLER_OUT, Some 1%nat); (NN_POLLER_IN, Some 2%nat)]) /\
      (NN_POLLER_IN, Some 1%nat)
        ∉ [(NN_POLLER_OUT, Some 1%nat); (NN_POLLER_IN, Some 2%nat)]) /\
   (exists s1 s2,
      Poll.nn_poller_reset_out Poll.two_ready 1%nat = Ok s1 /\
      Poll.run false [Poll.Event; Poll.Event; Poll.Event] s1
        = Ok (s2, [(NN_POLLER_IN, Some 1%nat); (NN_POLLER_IN, Some 2%nat)]) /\
      (NN_POLLER_OUT, Some 1%nat)
        ∉ [(NN_POLLER_IN, Some 1%nat); (NN_POLLER_IN, Some 2%nat)])).
Proof.
  destruct reset_silences_its_kind as (HE & HK & HP).
  assert (HwE : Epoll.wf Epoll.two_ready)
    by (apply Totals.epoll_sample_wf; simpl; lia).
  assert (HtE : Epoll.tracks Epoll.two_ready 1%nat)
    by apply Totals.epoll_sample_tracks.
  assert (HwK : Kqueue.wf Kqueue.two_ready)
    by (apply Totals.kq_sample_wf; simpl; lia).
  assert (HtK : Kqueue.all_tagged Kqueue.two_ready).
  { apply Totals.kq_sample_tagged.
    repeat (apply Forall_cons_2; [intros h [= <-]; simpl; lia|]).
    constructor. }
  assert (HwP : Poll.wf Poll.two_ready)
    by (apply Totals.poll_sample_wf; simpl; lia).
  assert (HrP : Poll.registered Poll.two_ready 1%nat)
    by (apply Totals.poll_sample_registered; simpl; lia).
  assert (HiP : 0 <= Poll.index Poll.two_ready) by (simpl; lia).
  destruct (HE _ 1%nat HwE HtE) as [[_ HEi] [_ HEo]].
  destruct (HK false _ 1%nat 0 HwK HtK) as [[_ HKi] [_ HKo]].
  destruct (HP false _ 1%nat HwP HrP HiP) as [[_ HPi] [_ HPo]].
  split; [|split]; split.
  - eexists _, _. split; [vm_compute; reflexivity|].
    split; [vm_compute; reflexivity|].
    eapply (proj2 (HEi _ eq_refl) [Epoll.Event; Epoll.Event; Epoll.Event]).
    + repeat constructor.
    + vm_compute. reflexivity.
  - eexists _, _. split; [vm_compute; reflexivity|].
    split; [vm_compute; reflexivity|].
    eapply (proj2 (HEo _ eq_refl) [Epoll.Event; Epoll.Event; Epoll.Event]).
    + repeat constructor.
    + vm_compute. reflexivity.
  - eexists _, _. split; [vm_compute; reflexivity|].
    split; [vm_compute; reflexivity|].
    eapply (proj2 (proj2 (HKi _ eq_refl)) [Kqueue.Event; Kqueue.Event; Kqueue.Event]).
    + repeat constructor.
    + vm_compute. reflexivity.
  - eexists _, _. split; [vm_compute; reflexivity|].
    split; [vm_compute; reflexivity|].
    eapply (proj2 (proj2 (HKo _ eq_refl)) [Kqueue.Event; Kqueue.Event; Kqueue.Event]).
    + repeat constructor.
    + vm_compute. reflexivity.
  - eexists _, _. split; [vm_compute; reflexivity|].
    split; [vm_compute; reflexivity|].
    eapply (proj2 (HPi _ eq_refl) [Poll.Event; Poll.Event; Poll.Event]).
    + repeat constructor.
    + vm_compute. reflexivity.
  - eexists _, _. split; [vm_compute; reflexivity|].
    split; [vm_compute; reflexivity|].
    eapply (proj2 (HPo _ eq_refl) [Poll.Event; Poll.Event; Poll.Event]).
    + repeat constructor.
    + vm_compute. reflexivity.
Defined.

(** With kqueue a reset of [IN] takes more than [IN] with it.  Handles [1]
    and [2] ask for both directions; the kernel reports end of file on the
    read filter of handle [1] and handle [2] writable.  Drained as it is,
    the batch returns [(ERR, 1)] and [(OUT, 2)]; after [nn_poller_reset_in]
    of handle [1] it returns [(OUT, 2)] only: the buffered [ERR] of handle
    [1] goes with the reset of [IN]. *)
Lemma kqueue_reset_in_drops_err :
  Kqueue.reported (Kqueue.sample 3 []) (Kqueue.Ready Kqueue.eof_batch) /\
  (exists s,
     Kqueue.run false
       [Kqueue.Wait (-1) 0 (Kqueue.Ready Kqueue.eof_batch);
        Kqueue.Event; Kqueue.Event; Kqueue.Event] (Kqueue.sample 3 [])
     = Ok (s, [(NN_POLLER_ERR, 1%nat); (NN_POLLER_OUT, 2%nat)])) /\
  (exists s,
     Kqueue.run false
       [Kqueue.Wait (-1) 0 (Kqueue.Ready Kqueue.eof_batch);
        Kqueue.ResetIn 1%nat;
        Kqueue.Event; Kqueue.Event; Kqueue.Event] (Kqueue.sample 3 [])
     = Ok (s, [(NN_POLLER_OUT, 2%nat)])).
Proof.
  split; [|split].
  - split; [vm_compute; discriminate|].
    apply Forall_cons_2; [|apply Forall_cons_2; [|constructor]].
    + split; intros h [= <-]; [by vm_compute|]. left. by vm_compute.
    + split; intros h [= <-]; [by vm_compute|]. right. by vm_compute.
  - eexists. vm_compute. reflexivity.
  - eexists. vm_compute. reflexivity.
Qed.

(** C3, as amended: a handle that [nn_poller_add] has just registered, and
    for which neither [nn_poller_set_in] nor [nn_poller_set_out] has been
    called since, is never returned by [nn_poller_event] with [IN] or with
    [OUT], whatever other calls are made and however often the poller
    waits, as long as the kernel reports readiness only where it was asked
    to.  With kqueue it is not returned with any kind of event, [ERR]
    included: nothing is registered for it. *)
Theorem no_interest_no_readiness :
  (forall s0 fd h ops s' outs,
     (forall j e, Epoll.index s0 <= j < Epoll.nevents s0 ->
        aget (Epoll.events s0) j = Ok e -> Epoll.ev_ptr e = h ->
        has (Epoll.ev_events e) Epoll.EPOLLIN = false /\
        has (Epoll.ev_events e) Epoll.EPOLLOUT = false) ->
     (Epoll.SetIn h ∉ ops) -> (Epoll.SetOut h ∉ ops) ->
     Epoll.kernel_ok ops (Epoll.nn_poller_add s0 fd h) ->
     Epoll.run ops (Epoll.nn_poller_add s0 fd h) = Ok (s', outs) ->
     ((NN_POLLER_IN, h) ∉ outs) /\ ((NN_POLLER_OUT, h) ∉ outs)) /\
  (forall b s0 fd h ops s' outs,
     (forall j e, Kqueue.index s0 <= j < Kqueue.nevents s0 ->
        aget (Kqueue.events s0) j = Ok e -> Kqueue.udata e <> Some h) ->
     (forall rc, Kqueue.SetIn h rc ∉ ops) ->
     (forall rc, Kqueue.SetOut h rc ∉ ops) ->
     Kqueue.kernel_ok b ops (Kqueue.nn_poller_add s0 fd h) ->
     Kqueue.run b ops (Kqueue.nn_poller_add s0 fd h) = Ok (s', outs) ->
     forall k, (k, h) ∉ outs) /\
  (forall b s0 fd h k s1 ops s' outs,
     Poll.wf s0 -> (forall j, ~ Poll.holds s0 j h) ->
     Poll.nn_poller_add s0 fd h k = Ok s1 ->
     (Poll.SetIn h ∉ ops) -> (Poll.SetOut h ∉ ops) ->
     Poll.run_ok b ops s1 ->
     Poll.run b ops s1 = Ok (s', outs) ->
     ((NN_POLLER_IN, Some h) ∉ outs) /\ ((NN_POLLER_OUT, Some h) ∉ outs)).
Proof.
  split; [|split].
  - intros s0 fd h ops s' outs Hfresh Hni Hno Hk Hrun.
    eapply EpollFacts.epoll_run_idle; [exact Hni | exact Hno | exact Hk | exact Hrun |].
    by apply EpollFacts.epoll_add_idle.
  - intros b s0 fd h ops s' outs Hfresh Hni Hno Hk Hrun.
    eapply KqueueFacts.kq_run_idle; [exact Hni | exact Hno | exact Hk | exact Hrun |].
    by apply KqueueFacts.kq_add_idle.
  - intros b s0 fd h k s1 ops s' outs Hwf Hnew Hadd Hni Hno Hk Hrun.
    eapply PollFacts.poll_run_idle; [exact Hni | exact Hno | | exact Hk | exact Hrun |].
    + by eapply PollFacts.poll_add_wf.
    + destruct Hwf as (Hb & _). by eapply PollFacts.poll_add_idle.
Qed.

(** Handle [1] (with poll: handle [2]) is registered and asks for nothing;
    the other handle asks for [IN].  The kernel reports the other handle
    readable, and with epoll and poll a hang-up on the handle without
    interest: the drain returns no [IN] and no [OUT] for it, and with kqueue
    nothing at all. *)
Lemma no_interest_no_readiness_witness :
  (exists s',
     Epoll.run
       [Epoll.Wait 0 0 (Epoll.Ready Epoll.hup_batch);
        Epoll.Event; Epoll.Event; Epoll.Event]
       (Epoll.nn_poller_add (Epoll.sample 5 []) 11 1%nat)
     = Ok (s', [(NN_POLLER_ERR, 1%nat); (NN_POLLER_IN, 2%nat)]) /\
     ((NN_POLLER_IN, 1%nat) ∉ [(NN_POLLER_ERR, 1%nat); (NN_POLLER_IN, 2%nat)]) /\
     ((NN_POLLER_OUT, 1%nat) ∉ [(NN_POLLER_ERR, 1%nat); (NN_POLLER_IN, 2%nat)])) /\
  (exists s',
     Kqueue.run false
       [Kqueue.Wait 0 0 (Kqueue.Ready Kqueue.read_batch);
        Kqueue.Event; Kqueue.Event]
       (Kqueue.nn_poller_add (Kqueue.sample 3 []) 11 1%nat)
     = Ok (s', [(NN_POLLER_IN, 2%nat)]) /\
     forall k, (k, 1%nat) ∉ [(NN_POLLER_IN, 2%nat)]) /\
  (exists s1 s',
     Poll.nn_poller_add (Poll.sample [(1, 0)]) 12 2%nat Poll.alloc_fine = Ok s1 /\
     Poll.run false
       [Poll.Wait 0 0 (Poll.Ready [Poll.POLLIN; Poll.POLLHUP]);
        Poll.Event; Poll.Event; Poll.Event] s1
     = Ok (s', [(NN_POLLER_IN, Some 1%nat); (NN_POLLER_ERR, Some 2%nat)]) /\
     ((NN_POLLER_IN, Some 2%nat)
        ∉ [(NN_POLLER_IN, Some 1%nat); (NN_POLLER_ERR, Some 2%nat)]) /\
     ((NN_POLLER_OUT, Some 2%nat)
        ∉ [(NN_POLLER_IN, Some 1%nat); (NN_POLLER_ERR, Some 2%nat)])).
Proof.
  destruct no_interest_no_readiness as (HE & HK & HP).
  split; [|split].
  - eexists. split; [vm_compute; reflexivity|].
    eapply (HE (Epoll.sample 5 []) 11 1%nat
              [Epoll.Wait 0 0 (Epoll.Ready Epoll.hup_batch);
               Epoll.Event; Epoll.Event; Epoll.Event]).
    + intros j e Hj. simpl in Hj. lia.
    + intros H. repeat (apply elem_of_cons in H as [H|H]; [discriminate|]).
      by apply elem_of_nil in H.
    + intros H. repeat (apply elem_of_cons in H as [H|H]; [discriminate|]).
      by apply elem_of_nil in H.
    + apply Totals.epoll_kernel_ok_wait.
      * split; [vm_compute; discriminate|].
        apply Forall_cons_2; [|apply Forall_cons_2; [|constructor]];
          split; by vm_compute.
      * intros r _. apply Totals.epoll_kernel_ok_nowait. repeat constructor.
    + vm_compute. reflexivity.
  - eexists. split; [vm_compute; reflexivity|].
    eapply (HK false (Kqueue.sample 3 []) 11 1%nat
              [Kqueue.Wait 0 0 (Kqueue.Ready Kqueue.read_batch);
               Kqueue.Event; Kqueue.Event]).
    + intros j e Hj. simpl in Hj. lia.
    + intros rc H. repeat (apply elem_of_cons in H as [H|H]; [discriminate|]).
      by apply elem_of_nil in H.
    + intros rc H. repeat (apply elem_of_cons in H as [H|H]; [discriminate|]).
      by apply elem_of_nil in H.
    + apply Totals.kq_kernel_ok_wait.
      * split; [vm_compute; discriminate|].
        apply Forall_cons_2; [|constructor].
        split; intros h [= <-]; [by vm_compute|]. left. by vm_compute.
      * intros r _. apply Totals.kq_kernel_ok_nowait. repeat constructor.
    + vm_compute. reflexivity.
  - eassert (Hadd : Poll.nn_poller_add (Poll.sample [(1, 0)]) 12 2%nat Poll.alloc_fine
                    = Ok _) by (vm_compute; reflexivity).
    eexists _, _. split; [exact Hadd|]. split; [vm_compute; reflexivity|].
    eapply (HP false _ 12 2%nat _ _
              [Poll.Wait 0 0 (Poll.Ready [Poll.POLLIN; Poll.POLLHUP]);
               Poll.Event; Poll.Event; Poll.Event]).
    + apply (Totals.poll_sample_wf [(1, 0)]). simpl. lia.
    + intros j (Hj & it & Hit & Hh). simpl in Hj.
      rewrite (Totals.poll_sample_lookup [(1, 0)] j it) in Hh by (done || (simpl; lia)).
      injection Hh as Hh. lia.
    + exact Hadd.
    + intros H. repeat (apply elem_of_cons in H as [H|H]; [discriminate|]).
      by apply elem_of_nil in H.
    + intros H. repeat (apply elem_of_cons in H as [H|H]; [discriminate|]).
      by apply elem_of_nil in H.
    + apply Totals.poll_run_ok_wait.
      * intros sc Hsc. vm_compute in Hsc. injection Hsc as <-.
        split; [reflexivity|].
        intros j p r Hp Hr. pose proof (aget_range _ _ _ Hr) as Hj. simpl in Hj.
        assert (j = 0 \/ j = 1) as [-> | ->] by lia;
          vm_compute in Hp; vm_compute in Hr;
          injection Hp as <-; injection Hr as <-; split; by vm_compute.
      * intros r _. apply Totals.poll_run_ok_events. repeat constructor.
    + vm_compute. reflexivity.
Defined.

(** With epoll a handle without interest is still returned with [ERR].
    Handle [1] is registered and asks for nothing, its peer hangs up, and
    the kernel, which reports a hang-up whatever the mask, puts it in the
    batch: [nn_poller_event] returns [(ERR, 1)]. *)
Lemma epoll_hangup_without_interest :
  Epoll.kernel_ok
    [Epoll.Wait (-1) 0 (Epoll.Ready Epoll.hup_batch); Epoll.Event]
    (Epoll.nn_poller_add (Epoll.sample 5 []) 11 1%nat) /\
  exists s',
    Epoll.run
      [Epoll.Wait (-1) 0 (Epoll.Ready Epoll.hup_batch); Epoll.Event]
      (Epoll.nn_poller_add (Epoll.sample 5 []) 11 1%nat)
    = Ok (s', [(NN_POLLER_ERR, 1%nat)]).
Proof.
  split.
  - apply Totals.epoll_kernel_ok_wait.
    + split; [vm_compute; discriminate|].
      apply Forall_cons_2; [|apply Forall_cons_2; [|constructor]];
        split; by vm_compute.
    + intros r _. apply Totals.epoll_kernel_ok_nowait. repeat constructor.
  - eexists. vm_compute. reflexivity.
Qed.

(** C4, as amended.  With epoll and kqueue, [nn_poller_set_in] and
    [nn_poller_set_out] on a handle whose bit is set change nothing and call
    nothing; on a handle whose bit is not set they make one registration
    call.  With epoll the bit is then set, and a second call in a row is
    without effect.  With kqueue the bit is set only if the kernel accepted
    the registration: then a second call in a row is without effect, and if
    it refused, the second call registers again.  [nn_poller_reset_in] and
    [nn_poller_reset_out] on a handle whose bit is not set call nothing.
    With poll none of the four calls the kernel, and a second
    [nn_poller_set_in] in a row changes nothing. *)
Theorem set_registers_once :
  (forall s h,
     (has (Epoll.hndl_events (Epoll.hmem s h)) Epoll.EPOLLIN = true ->
        Epoll.nn_poller_set_in s h = s) /\
     (has (Epoll.hndl_events (Epoll.hmem s h)) Epoll.EPOLLOUT = true ->
        Epoll.nn_poller_set_out s h = s) /\
     (has (Epoll.hndl_events (Epoll.hmem s h)) Epoll.EPOLLIN = false ->
        Epoll.trace (Epoll.nn_poller_set_in s h) =
          Epoll.trace s ++
            [Epoll.sys_epoll_ctl (Epoll.ep s) Epoll.EPOLL_CTL_MOD
               (Epoll.hndl_fd (Epoll.hmem s h))
               (Some {| Epoll.ev_events :=
                          Z.lor (Epoll.hndl_events (Epoll.hmem s h)) Epoll.EPOLLIN;
                        Epoll.ev_ptr := h |})] /\
        has (Epoll.hndl_events (Epoll.hmem (Epoll.nn_poller_set_in s h) h))
            Epoll.EPOLLIN = true) /\
     (has (Epoll.hndl_events (Epoll.hmem s h)) Epoll.EPOLLOUT = false ->
        Epoll.trace (Epoll.nn_poller_set_out s h) =
          Epoll.trace s ++
            [Epoll.sys_epoll_ctl (Epoll.ep s) Epoll.EPOLL_CTL_MOD
               (Epoll.hndl_fd (Epoll.hmem s h))
               (Some {| Epoll.ev_events :=
                          Z.lor (Epoll.hndl_events (Epoll.hmem s h)) Epoll.EPOLLOUT;
                        Epoll.ev_ptr := h |})] /\
        has (Epoll.hndl_events (Epoll.hmem (Epoll.nn_poller_set_out s h) h))
            Epoll.EPOLLOUT = true) /\
     Epoll.nn_poller_set_in (Epoll.nn_poller_set_in s h) h
       = Epoll.nn_poller_set_in s h /\
     Epoll.nn_poller_set_out (Epoll.nn_poller_set_out s h) h
       = Epoll.nn_poller_set_out s h /\
     (has (Epoll.hndl_events (Epoll.hmem s h)) Epoll.EPOLLIN = false ->
        Epoll.nn_poller_reset_in s h = Ok s) /\
     (has (Epoll.hndl_events (Epoll.hmem s h)) Epoll.EPOLLOUT = false ->
        Epoll.nn_poller_reset_out s h = Ok s)) /\
  (forall s h rc rc',
     (has (Kqueue.hndl_events (Kqueue.hmem s h)) Kqueue.NN_POLLER_EVENT_IN = true ->
        Kqueue.nn_poller_set_in s h rc = s) /\
     (has (Kqueue.hndl_events (Kqueue.hmem s h)) Kqueue.NN_POLLER_EVENT_OUT = true ->
        Kqueue.nn_poller_set_out s h rc = s) /\
     (has (Kqueue.hndl_events (Kqueue.hmem s h)) Kqueue.NN_POLLER_EVENT_IN = false ->
        Kqueue.trace (Kqueue.nn_poller_set_in s h rc) =
          Kqueue.trace s ++
            [Kqueue.sys_kevent_change (Kqueue.kq s) (Kqueue.hndl_fd (Kqueue.hmem s h))
               Kqueue.EVFILT_READ Kqueue.EV_ADD (Some h)] /\
        has (Kqueue.hndl_events (Kqueue.hmem (Kqueue.nn_poller_set_in s h rc) h))
            Kqueue.NN_POLLER_EVENT_IN = bool_decide (rc <> -1) /\
        Kqueue.trace (Kqueue.nn_poller_set_in (Kqueue.nn_poller_set_in s h rc) h rc') =
          Kqueue.trace s ++
            if decide (rc <> -1)
            then [Kqueue.sys_kevent_change (Kqueue.kq s)
                    (Kqueue.hndl_fd (Kqueue.hmem s h))
                    Kqueue.EVFILT_READ Kqueue.EV_ADD (Some h)]
            else [Kqueue.sys_kevent_change (Kqueue.kq s)
                    (Kqueue.hndl_fd (Kqueue.hmem s h))
                    Kqueue.EVFILT_READ Kqueue.EV_ADD (Some h);
                  Kqueue.sys_kevent_change (Kqueue.kq s)
                    (Kqueue.hndl_fd (Kqueue.hmem s h))
                    Kqueue.EVFILT_READ Kqueue.EV_ADD (Some h)]) /\
     (has (Kqueue.hndl_events (Kqueue.hmem s h)) Kqueue.NN_POLLER_EVENT_OUT = false ->
        Kqueue.trace (Kqueue.nn_poller_set_out s h rc) =
          Kqueue.trace s ++
            [Kqueue.sys_kevent_change (Kqueue.kq s) (Kqueue.hndl_fd (Kqueue.hmem s h))
               Kqueue.EVFILT_WRITE Kqueue.EV_ADD (Some h)] /\
        has (Kqueue.hndl_events (Kqueue.hmem (Kqueue.nn_poller_set_out s h rc) h))
            Kqueue.NN_POLLER_EVENT_OUT = bool_decide (rc <> -1)) /\
     (forall s', has (Kqueue.hndl_events (Kqueue.hmem s h)) Kqueue.NN_POLLER_EVENT_IN = false ->
        Kqueue.nn_poller_reset_in s h = Ok s' ->
        Kqueue.trace s' = Kqueue.trace s /\ Kqueue.hmem s' = Kqueue.hmem s) /\
     (forall s', has (Kqueue.hndl_events (Kqueue.hmem s h)) Kqueue.NN_POLLER_EVENT_OUT = false ->
        Kqueue.nn_poller_reset_out s h rc = Ok s' ->
        Kqueue.trace s' = Kqueue.trace s /\ Kqueue.hmem s' = Kqueue.hmem s)) /\
  (forall s h s',
     (Poll.nn_poller_set_in s h = Ok s' ->
        Poll.trace s' = Poll.trace s /\ Poll.nn_poller_set_in s' h = Ok s') /\
     (Poll.nn_poller_set_out s h = Ok s' -> Poll.trace s' = Poll.trace s) /\
     (Poll.nn_poller_reset_in s h = Ok s' -> Poll.trace s' = Poll.trace s) /\
     (Poll.nn_poller_reset_out s h = Ok s' -> Poll.trace s' = Poll.trace s)).
Proof.
  split; [|split].
  - intros s h. split; [apply EpollFacts.epoll_set_in_noop|].
    split; [apply EpollFacts.epoll_set_out_noop|].
    split; [apply EpollFacts.epoll_set_in_once|].
    split; [apply EpollFacts.epoll_set_out_once|].
    split; [apply EpollFacts.epoll_set_in_twice|].
    split; [apply EpollFacts.epoll_set_out_twice|].
    split; [apply EpollFacts.epoll_reset_in_noop|].
    apply EpollFacts.epoll_reset_out_noop.
  - intros s h rc rc'. split; [apply KqueueFacts.kq_set_in_noop|].
    split; [apply KqueueFacts.kq_set_out_noop|].
    split.
    { intros Hb. destruct (KqueueFacts.kq_set_in_once s h rc Hb) as (Ht & Hs & _).
      split; [done|]. split; [done|]. by apply KqueueFacts.kq_set_in_twice. }
    split.
    { intros Hb. destruct (KqueueFacts.kq_set_out_once s h rc Hb) as (Ht & Hs & _).
      done. }
    split; intros s'.
    + apply KqueueFacts.kq_reset_in_no_call.
    + apply KqueueFacts.kq_reset_out_no_call.
  - intros s h s'. split.
    { intros H. split; [by eapply PollFacts.poll_set_in_trace|].
      by eapply PollFacts.poll_set_in_twice. }
    split; [by apply PollFacts.poll_set_out_trace|].
    split; [by apply PollFacts.poll_reset_in_trace|].
    by apply PollFacts.poll_reset_out_trace.
Qed.

(** With epoll, handle [1] without interest: the first [nn_poller_set_in]
    makes one [epoll_ctl] call, the second none.  With kqueue, the same when
    [kevent] returns [0].  With poll the log of calls stays empty. *)
Lemma set_registers_once_witness :
  Epoll.trace (Epoll.nn_poller_set_in
                 (Epoll.nn_poller_set_in (Epoll.sample 0 []) 1%nat) 1%nat)
    = [Epoll.sys_epoll_ctl 3 Epoll.EPOLL_CTL_MOD 11
         (Some {| Epoll.ev_events := 1; Epoll.ev_ptr := 1%nat |})] /\
  Kqueue.trace (Kqueue.nn_poller_set_in
                  (Kqueue.nn_poller_set_in (Kqueue.sample 0 []) 1%nat 0) 1%nat 0)
    = [Kqueue.sys_kevent_change 3 11 Kqueue.EVFILT_READ Kqueue.EV_ADD (Some 1%nat)] /\
  Epoll.nn_poller_reset_in (Epoll.sample 0 []) 1%nat = Ok (Epoll.sample 0 []) /\
  (exists s1, Poll.nn_poller_set_in (Poll.sample [(0, 0)]) 1%nat = Ok s1 /\
     Poll.trace s1 = [] /\ Poll.nn_poller_set_in s1 1%nat = Ok s1).
Proof.
  destruct set_registers_once as (HE & HK & HP).
  split; [|split; [|split]].
  - destruct (HE (Epoll.sample 0 []) 1%nat) as (_ & _ & Hin & _ & Htw & _).
    rewrite Htw. destruct Hin as [Ht _]; [reflexivity|]. exact Ht.
  - destruct (HK (Kqueue.sample 0 []) 1%nat 0 0) as (_ & _ & Hin & _).
    destruct Hin as (_ & _ & Ht); [reflexivity|]. exact Ht.
  - destruct (HE (Epoll.sample 0 []) 1%nat) as (_ & _ & _ & _ & _ & _ & Hr & _).
    apply Hr. reflexivity.
  - eexists.
    eassert (H1 : Poll.nn_poller_set_in (Poll.sample [(0, 0)]) 1%nat = Ok _)
      by (vm_compute; reflexivity).
    split; [exact H1|].
    destruct (proj1 (HP _ 1%nat _) H1) as [Ht Htw].
    split; [exact Ht | exact Htw].
Defined.

(** With kqueue two calls in a row can register twice: when [kevent]
    refuses the registration (it returns [-1]) the bit stays unset, and of
    two calls of [nn_poller_set_in] in a row each makes its registration
    call. *)
Lemma kqueue_set_in_twice_calls_twice :
  Kqueue.trace
    (Kqueue.nn_poller_set_in
       (Kqueue.nn_poller_set_in (Kqueue.sample 0 []) 1%nat (-1)) 1%nat (-1))
  = [Kqueue.sys_kevent_change 3 11 Kqueue.EVFILT_READ Kqueue.EV_ADD (Some 1%nat);
     Kqueue.sys_kevent_change 3 11 Kqueue.EVFILT_READ Kqueue.EV_ADD (Some 1%nat)].
Proof. vm_compute. reflexivity. Qed.

(** [nn_poller_init] where it returns what its callers expect: built with
    [EPOLL_CLOEXEC], and with kqueue, it returns [-EMFILE] when the
    descriptor cannot be had for [EMFILE] or [ENFILE], aborts for another
    error, and else returns [0] with count and cursor [0]; with poll it
    returns [0] with no slot in use, or aborts when memory is short. *)
Lemma init_results :
  (forall s k,
     Epoll.nn_poller_init true s k =
       if decide (Epoll.create_ret k = -1) then
         if decide (Epoll.create_errno k = ENFILE \/ Epoll.create_errno k = EMFILE)
         then Ok (Epoll.log (Epoll.set_ep s (-1)) Epoll.sys_epoll_create1,
                  rc_neg EMFILE)
         else Abort
       else Ok (Epoll.set_buffer
                  (Epoll.log (Epoll.set_ep s (Epoll.create_ret k))
                     Epoll.sys_epoll_create1) 0 0 (Epoll.events s), rc_ok)) /\
  (forall s k,
     Kqueue.nn_poller_init s k =
       if decide (Kqueue.create_ret k = -1) then
         if decide (Kqueue.create_errno k = ENFILE \/ Kqueue.create_errno k = EMFILE)
         then Ok (Kqueue.log (Kqueue.set_kq s (-1)) Kqueue.sys_kqueue, rc_neg EMFILE)
         else Abort
       else Ok (Kqueue.set_buffer
                  (Kqueue.log (Kqueue.set_kq s (Kqueue.create_ret k)) Kqueue.sys_kqueue)
                  0 0 (Kqueue.events s), rc_ok)) /\
  (forall s k,
     (Poll.pollset_ok k = true -> Poll.hndls_ok k = true ->
        exists s', Poll.nn_poller_init s k = Ok (s', rc_ok) /\
          Poll.size s' = 0 /\ Poll.index s' = 0 /\ Poll.removed s' = -1) /\
     (Poll.pollset_ok k && Poll.hndls_ok k = false ->
        Poll.nn_poller_init s k = Abort)).
Proof.
  split; [apply EpollFacts.epoll_init_cloexec|].
  split; [apply KqueueFacts.kq_init_spec|].
  intros s k. split.
  - intros H1 H2. destruct (PollFacts.poll_init_ok s k H1 H2)
      as (s' & Hs & Hsz & Hi & Hr & _). eauto.
  - apply PollFacts.poll_init_short.
Qed.

(** C5: [nn_poller_init] is to return [-EMFILE], and not to abort, when the
    descriptor table is full.  Built without [EPOLL_CLOEXEC] it aborts:
    [epoll_create] returns [-1], [fcntl] on [-1] returns [-1], and
    [errno_assert (rc != -1)] stands before the test of [self->ep].  Built
    with [EPOLL_CLOEXEC], on the same answer of the kernel, it returns
    [-EMFILE]. *)
Theorem init_without_cloexec_aborts :
  forall s f,
    Epoll.nn_poller_init false s
      {| Epoll.create_ret := -1; Epoll.create_errno := EMFILE; Epoll.fcntl_ret := f |}
      = Abort /\
    Epoll.nn_poller_init true s
      {| Epoll.create_ret := -1; Epoll.create_errno := EMFILE; Epoll.fcntl_ret := f |}
      = Ok (Epoll.log (Epoll.set_ep s (-1)) Epoll.sys_epoll_create1, rc_neg EMFILE).
Proof.
  intros s f. split.
  - by rewrite EpollFacts.epoll_init_no_cloexec.
  - by rewrite EpollFacts.epoll_init_cloexec.
Qed.



(** C7: when the kernel wait is interrupted, [nn_poller_wait] of epoll calls
    it again, in every build.  With kqueue and poll the build decides: with
    [NN_IGNORE_EINTR] the wait is called again, once for each interruption,
    and the result is that of the call that was not interrupted; without it
    the first interruption is returned as [-EINTR].  [-EINTR] is returned in
    no other case, and no other error code is returned at all. *)
Theorem interrupted_wait_by_build :
  (forall s t n a s' rc,
     Epoll.nn_poller_wait s t n a = Ok (s', rc) ->
     rc = rc_ok /\
     Epoll.trace s' =
       Epoll.trace s ++
         replicate (S n)
           (Epoll.sys_epoll_wait (Epoll.ep s) Epoll.NN_POLLER_MAX_EVENTS t)) /\
  (forall b s t n a s' rc,
     Kqueue.nn_poller_wait b s t n a = Ok (s', rc) ->
     (rc = rc_neg EINTR /\ b = false /\ n <> O) \/
     (rc = rc_ok /\ (b = true \/ n = O))) /\
  (forall s t n a, n <> O ->
     exists s',
       Kqueue.nn_poller_wait false s t n a = Ok (s', rc_neg EINTR) /\
       Kqueue.trace s' =
         Kqueue.trace s ++
           [Kqueue.sys_kevent_wait (Kqueue.kq s) Kqueue.NN_POLLER_MAX_EVENTS
              (Kqueue.wait_timeout t)]) /\
  (forall s t n batch,
     exists s',
       Kqueue.nn_poller_wait true s t n (Kqueue.Ready batch) = Ok (s', rc_ok) /\
       Kqueue.trace s' =
         Kqueue.trace s ++
           replicate (S n)
             (Kqueue.sys_kevent_wait (Kqueue.kq s) Kqueue.NN_POLLER_MAX_EVENTS
                (Kqueue.wait_timeout t))) /\
  (forall b s t n a s' rc,
     Poll.nn_poller_wait b s t n a = Ok (s', rc) ->
     (rc = rc_neg EINTR /\ b = false /\ n <> O) \/
     (rc = rc_ok /\ (b = true \/ n = O))) /\
  (forall s t n a, Poll.wf s -> n <> O ->
     exists sc s',
       Poll.compact s = Ok sc /\
       Poll.nn_poller_wait false s t n a = Ok (s', rc_neg EINTR) /\
       Poll.trace s' = Poll.trace sc ++ [Poll.sys_poll (Poll.size sc) t]) /\
  (forall s t n rs, Poll.wf s ->
     exists sc s',
       Poll.compact s = Ok sc /\
       Poll.nn_poller_wait true s t n (Poll.Ready rs) = Ok (s', rc_ok) /\
       Poll.trace s' =
         Poll.trace sc ++ replicate (S n) (Poll.sys_poll (Poll.size sc) t)).
Proof.
  repeat apply conj.
  - intros s t n a s' rc H.
    destruct (EpollFacts.epoll_wait_spec s t n a)
      as (s1 & H1 & _ & _ & _ & _ & _ & Ht).
    rewrite H1 in H. by injection H as <- <-.
  - intros b s t n a s' rc H.
    destruct (KqueueFacts.kq_wait_inv _ _ _ _ _ _ _ H) as (_ & _ & Hcase).
    destruct Hcase as [(? & ? & ? & _) | (? & ? & _)]; [by left | by right].
  - intros s t n a Hn. eexists.
    split; [by apply KqueueFacts.kq_wait_interrupted|]. reflexivity.
  - intros s t n batch.
    destruct (KqueueFacts.kq_wait_ready true s t n batch)
      as (s1 & H1 & _ & _ & _ & _ & _ & Ht); [by left|]. eauto.
  - intros b s t n a s' rc H.
    destruct (PollFacts.poll_wait_inv _ _ _ _ _ _ _ H)
      as (sc & _ & _ & _ & _ & _ & _ & _ & Hcase).
    destruct Hcase as [(? & ? & ? & _) | (? & ? & _)]; [by left | by right].
  - intros s t n a Hwf Hn.
    destruct (PollFacts.poll_compact_ok s Hwf) as (sc & Hc & _).
    pose proof (PollFacts.poll_wait_eval false s t n a sc Hc) as He.
    replace (negb false && negb (Nat.eqb n 0)) with true in He
      by (by destruct n).
    eexists sc, _. split; [done|]. split; [exact He|]. reflexivity.
  - intros s t n rs Hwf.
    destruct (PollFacts.poll_compact_ok s Hwf) as (sc & Hc & _).
    pose proof (PollFacts.poll_wait_eval true s t n (Poll.Ready rs) sc Hc) as He.
    cbn [negb andb] in He.
    destruct (PollFacts.poll_wait_inv _ _ _ _ _ _ _ He)
      as (sc' & Hc' & _ & _ & _ & _ & _ & _ & Hcase).
    rewrite Hc in Hc'. injection Hc' as <-.
    eexists sc, _. split; [done|]. split; [exact He|].
    destruct Hcase as [(? & _) | (_ & _ & rs' & _ & _ & Ht)]; done.
Qed.

(** The kernel wait is interrupted twice.  Built without [NN_IGNORE_EINTR],
    kqueue and poll return [-EINTR] after one call of the kernel; built
    with it, poll calls three times and returns [0]. *)
Lemma interrupted_wait_by_build_witness :
  (exists s',
     Kqueue.nn_poller_wait false (Kqueue.sample 3 []) 100 2
       (Kqueue.Ready Kqueue.read_batch) = Ok (s', rc_neg EINTR) /\
     Kqueue.trace s' =
       Kqueue.trace (Kqueue.sample 3 []) ++
         [Kqueue.sys_kevent_wait (Kqueue.kq (Kqueue.sample 3 []))
            Kqueue.NN_POLLER_MAX_EVENTS (Kqueue.wait_timeout 100)]) /\
  (exists sc s',
     Poll.compact (Poll.sample [(1, 0)]) = Ok sc /\
     Poll.nn_poller_wait false (Poll.sample [(1, 0)]) 100 2 (Poll.Ready [1])
       = Ok (s', rc_neg EINTR) /\
     Poll.trace s' = Poll.trace sc ++ [Poll.sys_poll (Poll.size sc) 100]) /\
  (exists sc s',
     Poll.compact (Poll.sample [(1, 0)]) = Ok sc /\
     Poll.nn_poller_wait true (Poll.sample [(1, 0)]) 100 2 (Poll.Ready [1])
       = Ok (s', rc_ok) /\
     Poll.trace s' = Poll.trace sc ++ replicate 3 (Poll.sys_poll (Poll.size sc) 100)).
Proof.
  destruct interrupted_wait_by_build as (_ & _ & HK & _ & _ & HP & HP').
  assert (Hwf : Poll.wf (Poll.sample [(1, 0)]))
    by (apply Totals.poll_sample_wf; simpl; lia).
  split; [|split].
  - apply HK. discriminate.
  - apply HP; [exact Hwf | discriminate].
  - apply HP'. exact Hwf.
Defined.

(** C8: with poll, [nn_poller_rm] of a registered handle [h] returns and
    moves nothing: the number of slots, the capacity and every other handle
    and its slot stay, the slot of [h] gets [revents = 0] and a null handle
    and becomes the head of the list of removed slots.  The slots are
    compacted by the next [nn_poller_wait], before it calls [poll]: after
    that the list of removed slots is empty, every slot in use holds a
    handle, and the handles registered are those that were, each in the slot
    its index names and with the [struct pollfd] it had. *)
Theorem poll_rm_marks_wait_compacts :
  forall s h, Poll.wf s -> Poll.registered s h ->
    exists s1, Poll.nn_poller_rm s h = Ok s1 /\
      Poll.wf s1 /\
      Poll.size s1 = Poll.size s /\ Poll.capacity s1 = Poll.capacity s /\
      Poll.index s1 = Poll.index s /\ Poll.hmem s1 = Poll.hmem s /\
      Poll.trace s1 = Poll.trace s /\
      (forall j g, Poll.holds s1 j g <-> Poll.holds s j g /\ g <> h) /\
      (exists p, aget (Poll.pollset s) (Poll.hmem s h) = Ok p /\
         Poll.pollset s1 =
           <[Z.to_nat (Poll.hmem s h) := Poll.with_revents 0 p]> (Poll.pollset s)) /\
      Poll.removed s1 = Poll.hmem s h /\
      aget (Poll.hndls s1) (Poll.hmem s h) =
        Ok {| Poll.hndl := None; Poll.prev := -1; Poll.next := Poll.removed s |} /\
      exists sc, Poll.compact s1 = Ok sc /\
        Poll.wf sc /\ Poll.removed sc = -1 /\
        (forall j, 0 <= j < Poll.size sc -> exists g, Poll.holds sc j g) /\
        (forall g p, Poll.slot_of sc g p <-> Poll.slot_of s g p /\ g <> h) /\
        forall b t n a s2 rc,
          Poll.nn_poller_wait b s1 t n a = Ok (s2, rc) ->
          Poll.size s2 = Poll.size sc /\ Poll.hndls s2 = Poll.hndls sc /\
          Poll.hmem s2 = Poll.hmem sc /\ Poll.removed s2 = -1 /\
          exists calls,
            Poll.trace s2 = Poll.trace s ++ Poll.sys_poll (Poll.size sc) t :: calls.
Proof.
  intros s h Hwf Hreg.
  destruct (PollFacts.poll_rm_ok s h Hwf Hreg)
    as (s1 & H1 & Hwf1 & Hsz & Hcap & Hidx & Hmem & Htr & Hrem & Hholds & Hps).
  exists s1. split; [done|]. split; [done|].
  do 5 (split; [done|]). split; [done|]. split; [done|]. split; [done|].
  split.
  { destruct Hps as (p & Hp & _). destruct Hreg as (Hr & it & Hit & _).
    assert (Hhead : Poll.removed s = -1 \/
                    exists y, aget (Poll.hndls s) (Poll.removed s) = Ok y).
    { destruct Hwf as (_ & _ & l & _ & Hhd & _ & Hlinks).
      destruct l as [|i l]; [by left|]. right. simpl in Hhd.
      destruct (Hlinks O i eq_refl) as (_ & y & Hy & _). rewrite Hhd. eauto. }
    destruct (PollFacts.poll_rm_eval s h p it Hp Hit Hhead)
      as (hs' & Heq & _ & Hslot & _).
    rewrite H1 in Heq. injection Heq as ->. exact Hslot. }
  destruct (PollFacts.poll_compact_ok s1 Hwf1) as (sc & Hc & Hwfc & Hrc & Hsame & Hfull).
  exists sc. split; [done|]. split; [done|]. split; [done|]. split; [done|].
  destruct Hsame as (_ & _ & Htrc & Hslots). split.
  - intros g p. rewrite <- Hslots. unfold Poll.slot_of, Poll.registered.
    rewrite Hmem, Hholds. destruct Hps as (p0 & Hp0 & ->).
    split.
    + intros ((Hg & Hne) & Hp). split; [|done]. split; [done|].
      rewrite aget_insert_ne in Hp; [done | by destruct Hreg as ((? & _) & _) |].
      intros Heq. apply Hne.
      by apply (PollFacts.poll_registered_inj s g h).
    + intros ((Hg & Hp) & Hne). split; [done|].
      rewrite aget_insert_ne; [done | by destruct Hreg as ((? & _) & _) |].
      intros Heq. apply Hne.
      by apply (PollFacts.poll_registered_inj s g h).
  - intros b t n a s2 rc Hw.
    destruct (PollFacts.poll_wait_inv _ _ _ _ _ _ _ Hw)
      as (sc' & Hc' & _ & Hsz2 & _ & Hh2 & Hm2 & Hr2 & Hcase).
    rewrite Hc in Hc'. injection Hc' as <-.
    split; [done|]. split; [done|]. split; [done|]. split; [congruence|].
    destruct Hcase as [(_ & _ & _ & _ & Ht) | (_ & _ & rs & _ & _ & Ht)].
    + exists []. by rewrite Ht, Htrc, Htr.
    + exists (replicate n (Poll.sys_poll (Poll.size sc) t)).
      by rewrite Ht, Htrc, Htr.
Qed.

(** Handles [1] and [2] are registered; [nn_poller_rm] of handle [1] leaves
    two slots in use and slot [0] at the head of the removed slots; the
    compaction leaves none removed, and handle [2] registered. *)
Lemma poll_rm_marks_wait_compacts_witness :
  exists s1 sc,
    Poll.nn_poller_rm Poll.two_ready 1%nat = Ok s1 /\
    Poll.removed s1 = 0 /\ Poll.size s1 = 2 /\
    Poll.compact s1 = Ok sc /\ Poll.removed sc = -1 /\
    exists p, Poll.slot_of sc 2%nat p.
Proof.
  assert (Hwf : Poll.wf Poll.two_ready)
    by (apply Totals.poll_sample_wf; simpl; lia).
  assert (Hreg1 : Poll.registered Poll.two_ready 1%nat)
    by (apply Totals.poll_sample_registered; simpl; lia).
  assert (Hreg2 : Poll.registered Poll.two_ready 2%nat)
    by (apply Totals.poll_sample_registered; simpl; lia).
  destruct (poll_rm_marks_wait_compacts _ 1%nat Hwf Hreg1)
    as (s1 & H1 & _ & Hsz & _ & _ & _ & _ & _ & _ & Hrem & _ &
        sc & Hc & _ & Hrc & _ & Hslots & _).
  exists s1, sc. split; [exact H1|]. split; [rewrite Hrem; reflexivity|].
  split; [rewrite Hsz; reflexivity|]. split; [exact Hc|]. split; [exact Hrc|].
  eexists. apply Hslots. split; [|discriminate]. split; [exact Hreg2|].
  vm_compute. reflexivity.
Defined.

(** C9, as amended: each call of [nn_poller_term] releases what the context
    holds, once: it closes the epoll or kqueue descriptor, or frees the two
    arrays of poll.  It changes no field of the context and no handle, and
    keeps no record of having run. *)
Theorem term_releases_once_per_call :
  (forall s,
     Epoll.trace (Epoll.nn_poller_term s)
       = Epoll.trace s ++ [Epoll.sys_closefd (Epoll.ep s)] /\
     Epoll.ep (Epoll.nn_poller_term s) = Epoll.ep s /\
     Epoll.hmem (Epoll.nn_poller_term s) = Epoll.hmem s) /\
  (forall s,
     Kqueue.trace (Kqueue.nn_poller_term s)
       = Kqueue.trace s ++ [Kqueue.sys_closefd (Kqueue.kq s)] /\
     Kqueue.kq (Kqueue.nn_poller_term s) = Kqueue.kq s /\
     Kqueue.hmem (Kqueue.nn_poller_term s) = Kqueue.hmem s) /\
  (forall s,
     Poll.trace (Poll.nn_poller_term s)
       = Poll.trace s ++ [Poll.sys_free_pollset; Poll.sys_free_hndls] /\
     Poll.pollset (Poll.nn_poller_term s) = Poll.pollset s /\
     Poll.hndls (Poll.nn_poller_term s) = Poll.hndls s /\
     Poll.hmem (Poll.nn_poller_term s) = Poll.hmem s).
Proof.
  split; [|split]; intros s.
  - by rewrite EpollFacts.epoll_term_spec.
  - done.
  - unfold Poll.nn_poller_term. simpl. by rewrite <- app_assoc.
Qed.

(** [nn_poller_term] is not idempotent: the second of two calls closes the
    descriptor again, and with poll frees the two arrays again. *)
Lemma term_twice_releases_twice :
  Epoll.trace (Epoll.nn_poller_term (Epoll.nn_poller_term (Epoll.sample 0 [])))
    = [Epoll.sys_closefd 3; Epoll.sys_closefd 3] /\
  Kqueue.trace (Kqueue.nn_poller_term (Kqueue.nn_poller_term (Kqueue.sample 0 [])))
    = [Kqueue.sys_closefd 3; Kqueue.sys_closefd 3] /\
  Poll.trace (Poll.nn_poller_term (Poll.nn_poller_term (Poll.sample [])))
    = [Poll.sys_free_pollset; Poll.sys_free_hndls;
       Poll.sys_free_pollset; Poll.sys_free_hndls].
Proof. repeat split. Qed.

(** C10: with epoll and with poll, when the first record (slot) that the
    cursor has not passed and that is not empty has both the [IN] and the
    [OUT] bit, two calls of [nn_poller_event] in a row return [IN] and then
    [OUT] for its handle and leave the record with the two bits cleared.  A
    record yields no pair twice, and the drain of a batch returns what its
    records yield, record after record, and then nothing. *)
Theorem in_then_out_from_one_record :
  (forall s k e,
     Epoll.wf s -> Epoll.index s <= k < Epoll.nevents s ->
     (forall j, Epoll.index s <= j < k ->
        exists x, aget (Epoll.events s) j = Ok x /\ Epoll.ev_events x = 0) ->
     aget (Epoll.events s) k = Ok e ->
     has (Epoll.ev_events e) Epoll.EPOLLIN = true ->
     has (Epoll.ev_events e) Epoll.EPOLLOUT = true ->
     exists s1 s2,
       Epoll.nn_poller_event s = Ok (s1, Some (NN_POLLER_IN, Epoll.ev_ptr e)) /\
       Epoll.nn_poller_event s1 = Ok (s2, Some (NN_POLLER_OUT, Epoll.ev_ptr e)) /\
       Epoll.index s2 = k /\
       aget (Epoll.events s2) k =
         Ok {| Epoll.ev_events :=
                 clear (clear (Epoll.ev_events e) Epoll.EPOLLIN) Epoll.EPOLLOUT;
               Epoll.ev_ptr := Epoll.ev_ptr e |}) /\
  (forall e, NoDup (Epoll.decode e)) /\
  (forall n s,
     Epoll.wf s -> (length (Epoll.pending s) <= n)%nat ->
     exists s', Epoll.drain n s = Ok (s', flat_map Epoll.decode (Epoll.live s)) /\
       Epoll.pending s' = []) /\
  (forall s k p it,
     Poll.cursor_ok s -> Poll.index s <= k < Poll.size s ->
     (forall j, Poll.index s <= j < k ->
        exists x, aget (Poll.pollset s) j = Ok x /\ Poll.revents x = 0) ->
     aget (Poll.pollset s) k = Ok p -> aget (Poll.hndls s) k = Ok it ->
     has (Poll.revents p) Poll.POLLIN = true ->
     has (Poll.revents p) Poll.POLLOUT = true ->
     exists s1 s2,
       Poll.nn_poller_event s = Ok (s1, Some (NN_POLLER_IN, Poll.hndl it)) /\
       Poll.nn_poller_event s1 = Ok (s2, Some (NN_POLLER_OUT, Poll.hndl it)) /\
       Poll.index s2 = k /\
       aget (Poll.pollset s2) k =
         Ok (Poll.with_revents
               (clear (clear (Poll.revents p) Poll.POLLIN) Poll.POLLOUT) p)) /\
  (forall c, NoDup (Poll.decode c)) /\
  (forall n s,
     Poll.cursor_ok s -> (length (Poll.pending s) <= n)%nat ->
     exists s', Poll.drain n s = Ok (s', flat_map Poll.decode (Poll.live s)) /\
       Poll.pending s' = []).
Proof.
  repeat apply conj.
  - apply EpollFacts.epoll_event_in_out.
  - apply EpollFacts.epoll_decode_NoDup.
  - intros n s Hwf Hn.
    destruct (EpollFacts.epoll_drain_pending n s Hwf Hn) as (s' & Hd & _ & Hp).
    eauto.
  - apply PollFacts.poll_event_in_out.
  - apply PollFacts.poll_decode_NoDup.
  - intros n s Hc Hn.
    destruct (PollFacts.poll_drain_pending n s Hc Hn) as (s' & Hd & _ & Hp).
    eauto.
Qed.

(** The first record of the batch has [IN] and [OUT] for handle [1]: two
    calls return [(IN, 1)] and [(OUT, 1)], and the drain of the batch
    returns these two and [(IN, 2)]. *)
Lemma in_then_out_from_one_record_witness :
  (exists s1 s2,
     Epoll.nn_poller_event Epoll.two_ready = Ok (s1, Some (NN_POLLER_IN, 1%nat)) /\
     Epoll.nn_poller_event s1 = Ok (s2, Some (NN_POLLER_OUT, 1%nat)) /\
     Epoll.index s2 = 0 /\
     aget (Epoll.events s2) 0 = Ok {| Epoll.ev_events := 0; Epoll.ev_ptr := 1%nat |}) /\
  (exists s',
     Epoll.drain 3 Epoll.two_ready
       = Ok (s', [(NN_POLLER_IN, 1%nat); (NN_POLLER_OUT, 1%nat); (NN_POLLER_IN, 2%nat)])) /\
  (exists s1 s2,
     Poll.nn_poller_event Poll.two_ready = Ok (s1, Some (NN_POLLER_IN, Some 1%nat)) /\
     Poll.nn_poller_event s1 = Ok (s2, Some (NN_POLLER_OUT, Some 1%nat)) /\
     Poll.index s2 = 0) /\
  (exists s',
     Poll.drain 3 Poll.two_ready
       = Ok (s', [(NN_POLLER_IN, Some 1%nat); (NN_POLLER_OUT, Some 1%nat);
                  (NN_POLLER_IN, Some 2%nat)])).
Proof.
  destruct in_then_out_from_one_record as (HE & _ & HEd & HP & _ & HPd).
  assert (HwE : Epoll.wf Epoll.two_ready)
    by (apply Totals.epoll_sample_wf; simpl; lia).
  assert (HwP : Poll.cursor_ok Poll.two_ready).
  { destruct (Totals.poll_sample_wf [(5, 5); (1, 1)]) as (Hb & _); [simpl; lia|].
    split; [exact Hb | simpl; lia]. }
  split; [|split; [|split]].
  - destruct (HE Epoll.two_ready 0 {| Epoll.ev_events := 5; Epoll.ev_ptr := 1%nat |})
      as (s1 & s2 & H1 & H2 & Hi & Hg);
      [exact HwE | simpl; lia | intros j Hj; simpl in Hj; lia
      | reflexivity | reflexivity | reflexivity |].
    exists s1, s2. split; [exact H1|]. split; [exact H2|]. split; [exact Hi|].
    exact Hg.
  - destruct (HEd 3%nat Epoll.two_ready HwE) as (s' & Hd & _); [simpl; lia|].
    exists s'. exact Hd.
  - destruct (HP Poll.two_ready 0
                {| Poll.fd := 11; Poll.events := 5; Poll.revents := 5 |}
                {| Poll.hndl := Some 1%nat; Poll.prev := -1; Poll.next := -1 |})
      as (s1 & s2 & H1 & H2 & Hi & _);
      [exact HwP | simpl; lia | intros j Hj; simpl in Hj; lia
      | reflexivity | reflexivity | reflexivity | reflexivity |].
    exists s1, s2. split; [exact H1|]. split; [exact H2|]. exact Hi.
  - destruct (HPd 3%nat Poll.two_ready HwP) as (s' & Hd & _); [simpl; lia|].
    exists s'. exact Hd.
Defined.

Local Open Scope Z_scope.

(** * More of the interface *)

(** A cell of the window is a cell of the array. *)
Lemma window_elem {A} (a : list A) from to x :
  0 <= from -> x ∈ window a from to ->
  exists j, from <= j < to /\ aget a j = Ok x.
Proof.
  intros Hf [k Hk]%list_elem_of_lookup. unfold window in Hk.
  apply lookup_take_Some in Hk as [Hk Hlt]. rewrite lookup_drop in Hk.
  exists (from + Z.of_nat k). split; [lia|].
  apply aget_Ok. split; [lia|].
  by replace (Z.to_nat (from + Z.of_nat k)) with (Z.to_nat from + k)%nat by lia.
Qed.

Lemma land_swap3 x c a b :
  Z.land (Z.land (Z.land x c) a) b = Z.land (Z.land (Z.land x a) b) c.
Proof.
  rewrite <- !Z.land_assoc. f_equal. rewrite (Z.land_comm c).
  by rewrite <- Z.land_assoc.
Qed.

(** A batch whose cells have lost events, or moved the cursor forward,
    drains to a subsequence of what it drained to. *)
Lemma window_suffix_sublist {A B} (dec : A -> list B) (a : list A) i k n :
  0 <= i <= k ->
  flat_map dec (window a k n) `sublist_of` flat_map dec (window a i n).
Proof.
  intros Hi. destruct (decide (k <= n)).
  - rewrite (window_app a i k n) by lia. rewrite flat_map_app.
    by apply sublist_inserts_l.
  - rewrite (window_nil a k n) by lia. apply sublist_nil_l.
Qed.

Lemma window_flat_map_sublist {A B} (dec : A -> list B) (a a' : list A) i i' n n' :
  0 <= i <= i' ->
  (forall j, i' <= j < n' -> exists c', aget a' j = Ok c' /\
     (dec c' = [] \/
      (j < n /\ exists c, aget a j = Ok c /\ dec c' `sublist_of` dec c))) ->
  flat_map dec (window a' i' n') `sublist_of` flat_map dec (window a i n).
Proof.
  intros Hi Hcells.
  assert (Hsame : forall m i0, i' <= i0 -> m = Z.to_nat (n' - i0) ->
            flat_map dec (window a' i0 n') `sublist_of` flat_map dec (window a i0 n)).
  { induction m as [|m IH]; intros i0 Hi0 Hm.
    { rewrite (window_nil a' i0 n') by lia. apply sublist_nil_l. }
    destruct (Hcells i0 ltac:(lia)) as (c' & Hc' & Hd).
    rewrite (window_cons a' i0 n' c') by (done || lia). simpl.
    specialize (IH (i0 + 1) ltac:(lia) ltac:(lia)).
    destruct Hd as [-> | (Hlt & c & Hc & Hsub)]; simpl.
    - etrans; [exact IH|]. apply window_suffix_sublist. lia.
    - rewrite (window_cons a i0 n c) by done. simpl. by apply sublist_app. }
  etrans; [apply (Hsame _ i' ltac:(lia) eq_refl)|]. by apply window_suffix_sublist.
Qed.

(** ** epoll *)

Module EpollMore.
Import Epoll EpollFacts.

(** *** The buffer stays inside the array *)

Lemma epoll_scrub_fields f h s s1 evs :
  index s1 = index s -> nevents s1 = nevents s -> events s1 = events s ->
  for_live (scrub f h) (events s1) (index s1) (nevents s1) = Ok evs ->
  wf s -> wf (set_buffer s1 (nevents s1) (index s1) evs).
Proof.
  intros Hi Hn He H [Hw1 Hw2]. apply for_live_Ok in H as (_ & Hl & _).
  unfold wf. simpl. rewrite Hl, Hi, Hn, He. done.
Qed.

Lemma epoll_exec_wf o s s' r :
  is_wait o = false -> wf s -> exec o s = Ok (s', r) -> wf s'.
Proof.
  intros Hnw Hwf H. destruct o; try discriminate; simpl in H.
  - injection H as <- _. exact Hwf.
  - inv_bind. subst. unfold nn_poller_rm in Ha. inv_bind. subst.
    match goal with
    | |- wf (set_buffer ?s1 _ _ _) =>
        eapply (epoll_scrub_fields _ _ s s1); [| | | eassumption | assumption];
        reflexivity
    end.
  - injection H as <- _. destruct (epoll_set_in_buffer s h) as (Hi & Hn & He).
    unfold wf. by rewrite Hi, Hn, He.
  - inv_bind. subst. unfold nn_poller_reset_in in Ha.
    destruct (has _ EPOLLIN); simpl in Ha; [|by injection Ha as <-].
    inv_bind. subst. match goal with
    | |- wf (set_buffer ?s1 _ _ _) =>
        eapply (epoll_scrub_fields _ _ s s1); [| | | eassumption | assumption];
        reflexivity
    end.
  - injection H as <- _. destruct (epoll_set_out_buffer s h) as (Hi & Hn & He).
    unfold wf. by rewrite Hi, Hn, He.
  - inv_bind. subst. unfold nn_poller_reset_out in Ha.
    destruct (has _ EPOLLOUT); simpl in Ha; [|by injection Ha as <-].
    inv_bind. subst. match goal with
    | |- wf (set_buffer ?s1 _ _ _) =>
        eapply (epoll_scrub_fields _ _ s s1); [| | | eassumption | assumption];
        reflexivity
    end.
  - by destruct (epoll_event_pending _ _ _ Hwf H).
Qed.

Lemma epoll_exec_total o s :
  is_wait o = false -> wf s -> exists s' r, exec o s = Ok (s', r).
Proof.
  intros Hnw Hwf. destruct o; try discriminate; simpl.
  - eauto.
  - destruct (Totals.epoll_rm_total s h Hwf) as [s1 ->]. simpl. eauto.
  - eauto.
  - destruct (Totals.epoll_reset_in_total s h Hwf) as [s1 ->]. simpl. eauto.
  - eauto.
  - destruct (Totals.epoll_reset_out_total s h Hwf) as [s1 ->]. simpl. eauto.
  - by apply epoll_event_total.
Qed.

(** The wait leaves the buffer inside the array when the batch fits. *)
Lemma epoll_wait_wf s t n batch s' rc :
  (length batch <= length (events s))%nat ->
  nn_poller_wait s t n (Ready batch) = Ok (s', rc) ->
  wf s' /\ length (events s') = length (events s).
Proof.
  intros Hfit H.
  destruct (epoll_wait_spec s t n (Ready batch))
    as (s1 & H1 & _ & _ & Hi & Hn & He & _).
  rewrite H1 in H. injection H as <- _. simpl in Hn, He.
  assert (Hl : length (events s1) = length (events s)).
  { rewrite He, length_app, length_drop. lia. }
  split; [|done]. unfold wf. rewrite Hi, Hn, Hl. lia.
Qed.

(** *** What is pending only shrinks *)

Lemma epoll_fades_sublist e e' : fades e e' -> decode e' `sublist_of` decode e.
Proof.
  intros Hf. pose proof Hf as [Hp [c Hc]]. unfold decode. rewrite Hp.
  repeat apply sublist_app.
  - destruct (has (ev_events e') EPOLLIN) eqn:E; [|apply sublist_nil_l].
    by rewrite (epoll_fades_has _ _ _ Hf E).
  - destruct (has (ev_events e') EPOLLOUT) eqn:E; [|apply sublist_nil_l].
    by rewrite (epoll_fades_has _ _ _ Hf E).
  - destruct (decide (clear (clear (ev_events e') EPOLLIN) EPOLLOUT = 0)) as [|Hnz];
      [apply sublist_nil_l|].
    destruct (decide (clear (clear (ev_events e) EPOLLIN) EPOLLOUT = 0)) as [Hz|];
      [|done].
    exfalso. apply Hnz. rewrite Hc. unfold clear in *. by rewrite land_swap3, Hz.
Qed.

Lemma epoll_pending_sublist s s' :
  wf s -> wf s' -> shrinks s s' -> pending s' `sublist_of` pending s.
Proof.
  intros [Hi Hn] [Hi' Hn'] (Hix & Hne & Hcells). unfold pending, live.
  apply window_flat_map_sublist; [lia|].
  intros j Hj. destruct (aget_in_range (events s') j) as [e' He']; [lia|].
  exists e'. split; [done|]. right. split; [lia|].
  destruct (Hcells j e' Hj He') as (e & He & Hf). exists e. split; [done|].
  by apply epoll_fades_sublist.
Qed.

Lemma epoll_run_sublist ops s s' outs :
  wf s -> Forall (fun o => is_wait o = false) ops ->
  run ops s = Ok (s', outs) -> outs `sublist_of` pending s.
Proof.
  intros Hwf Hops. revert s s' outs Hwf.
  induction Hops as [|o ops Ho _ IH]; intros s s' outs Hwf H; simpl in H.
  - injection H as <- <-. apply sublist_nil_l.
  - inv_bind. destruct a as [s1 r]. destruct a0 as [s2 outs2]. simpl in *.
    subst. pose proof (epoll_exec_wf _ _ _ _ Ho Hwf Ha) as Hwf1.
    specialize (IH _ _ _ Hwf1 Ha0).
    destruct r as [y|]; simpl.
    + pose proof (epoll_exec_result _ _ _ _ Ha) as ->. simpl in Ha.
      destruct (epoll_event_pending _ _ _ Hwf Ha) as (_ & -> & _).
      simpl. by apply sublist_skip.
    + etrans; [exact IH|]. apply epoll_pending_sublist; [done..|].
      by eapply epoll_exec_shrinks.
Qed.

(** *** No call runs off the array *)

Lemma epoll_run_total_len len ops s :
  wf s -> len = length (events s) ->
  Forall (fun o =>
            match o with
            | Wait _ _ (Ready batch) => (length batch <= len)%nat
            | Wait _ _ Failed => False
            | _ => True
            end) ops ->
  exists s' outs, run ops s = Ok (s', outs) /\ wf s' /\
    length (events s') = len.
Proof.
  intros Hwf Hlen Hops. revert s Hlen Hwf.
  induction Hops as [|o ops Ho _ IH]; intros s Hlen Hwf; simpl.
  - eauto.
  - assert (Hstep : exists s1 r, exec o s = Ok (s1, r) /\ wf s1 /\
                      length (events s1) = len).
    { destruct (is_wait o) eqn:Ew.
      - destruct o as [| | | | | |t n [batch|]|]; try discriminate; [|done].
        simpl. destruct (epoll_wait_spec s t n (Ready batch)) as (s1 & H1 & _).
        rewrite H1. simpl. exists s1, None. split; [done|].
        destruct (epoll_wait_wf s t n batch s1 rc_ok) as [Hw Hl]; [lia | done|].
        split; [done | lia].
      - destruct (epoll_exec_total o s Ew Hwf) as (s1 & r & H1).
        exists s1, r. split; [done|].
        pose proof (epoll_exec_wf _ _ _ _ Ew Hwf H1) as Hw. split; [done|].
        rewrite Hlen. clear -Ew H1.
        destruct o; try discriminate; simpl in H1.
        + by injection H1 as <- _.
        + inv_bind. subst. unfold nn_poller_rm in Ha. inv_bind. subst.
          simpl. by apply for_live_Ok in Ha0 as (_ & Hl & _).
        + injection H1 as <- _.
          destruct (epoll_set_in_buffer s h) as (_ & _ & He). by rewrite He.
        + inv_bind. subst. unfold nn_poller_reset_in in Ha.
          destruct (has _ EPOLLIN); simpl in Ha; [|by injection Ha as <-].
          inv_bind. subst. simpl. by apply for_live_Ok in Ha0 as (_ & Hl & _).
        + injection H1 as <- _.
          destruct (epoll_set_out_buffer s h) as (_ & _ & He). by rewrite He.
        + inv_bind. subst. unfold nn_poller_reset_out in Ha.
          destruct (has _ EPOLLOUT); simpl in Ha; [|by injection Ha as <-].
          inv_bind. subst. simpl. by apply for_live_Ok in Ha0 as (_ & Hl & _).
        + apply epoll_event_inv in H1 as (k & _ & _ & H).
          destruct H as [(_ & _ & _ & ->) | (_ & e & _ & _ & H)]; [done|].
          destruct H as [(_ & _ & ->) | [(_ & _ & _ & ->) | (_ & _ & _ & ->)]];
            simpl; by rewrite ?length_insert. }
    destruct Hstep as (s1 & r & H1 & Hw1 & Hl1). rewrite H1. simpl.
    destruct (IH s1 (eq_sym Hl1) Hw1) as (s2 & outs & H2 & Hw2 & Hl2).
    rewrite H2. simpl. exists s2, (option_list r ++ outs).
    split; [done|]. split; [done|]. lia.
Qed.

Lemma epoll_run_total ops s :
  wf s ->
  Forall (fun o =>
            match o with
            | Wait _ _ (Ready batch) => (length batch <= length (events s))%nat
            | Wait _ _ Failed => False
            | _ => True
            end) ops ->
  exists s' outs, run ops s = Ok (s', outs) /\ wf s' /\
    length (events s') = length (events s).
Proof. intros Hwf. by apply epoll_run_total_len. Qed.

(** *** The end of the batch *)

Lemma epoll_event_none s s' :
  nn_poller_event s = Ok (s', None) ->
  index s <= nevents s -> nn_poller_event s' = Ok (s', None).
Proof.
  intros (k & _ & _ & H)%epoll_event_inv Hle.
  destruct H as [(_ & Hk & _ & ->) | (_ & e & _ & _ & H)].
  - rewrite (Hk Hle). unfold nn_poller_event, skip_empty. simpl.
    rewrite Z.sub_diag. simpl. destruct (decide (nevents s <= nevents s)); [done|lia].
  - destruct H as [(_ & ? & _) | [(_ & _ & ? & _) | (_ & _ & ? & _)]]; done.
Qed.

Lemma epoll_event_none_iff s :
  wf s -> (exists s', nn_poller_event s = Ok (s', None)) <-> pending s = [].
Proof.
  intros Hwf. split.
  - intros (s' & H). destruct (epoll_event_pending _ _ _ Hwf H) as (_ & -> & Hn).
    simpl. by apply Hn.
  - intros Hp. destruct (epoll_event_total s Hwf) as (s' & r & H).
    destruct (epoll_event_pending _ _ _ Hwf H) as (_ & Hpe & _).
    rewrite Hp in Hpe. destruct r; [done|]. eauto.
Qed.

(** *** A wait that fails *)

Lemma epoll_wait_failed s t n :
  exists s', nn_poller_wait s t n Failed = Ok (s', rc_ok) /\
    index s' = 0 /\ nevents s' = -1 /\ events s' = events s /\
    nn_poller_event s' = Ok (s', None) /\
    (forall h, nn_poller_rm s' h = Undef) /\
    (forall h, has (hndl_events (hmem s h)) EPOLLIN = true ->
       nn_poller_reset_in s' h = Undef) /\
    (forall h, has (hndl_events (hmem s h)) EPOLLOUT = true ->
       nn_poller_reset_out s' h = Undef).
Proof.
  destruct (epoll_wait_spec s t n Failed)
    as (s' & H & _ & Hm & Hi & Hn & He & _).
  exists s'. split; [done|]. simpl in Hn, He.
  do 3 (split; [done|]). split.
  { unfold nn_poller_event, skip_empty. rewrite Hi, Hn. simpl.
    destruct (decide (-1 <= 0)); [|lia]. f_equal. f_equal.
    destruct s'. simpl in *. by subst. }
  split; [|split].
  - intros h. unfold nn_poller_rm, for_live. simpl. rewrite Hi, Hn.
    by destruct (decide (0 <= -1)); [lia|].
  - intros h Hb. unfold nn_poller_reset_in, for_live. rewrite Hm, Hb. simpl.
    rewrite Hi, Hn. by destruct (decide (0 <= -1)); [lia|].
  - intros h Hb. unfold nn_poller_reset_out, for_live. rewrite Hm, Hb. simpl.
    rewrite Hi, Hn. by destruct (decide (0 <= -1)); [lia|].
Qed.

End EpollMore.

Local Open Scope Z_scope.

(** ** kqueue *)

Module KqueueMore.
Import Kqueue KqueueFacts.

(** *** One call of [nn_poller_event] *)

Lemma kq_decode_null e : udata e = None -> decode e = [].
Proof. intros H. unfold decode. by rewrite H. Qed.

(** The call skips the records without [udata]; at the first record that
    has one it returns the event of the record, or fails its assertion. *)
Lemma kq_event_cases s :
  wf s ->
  (nn_poller_event s = Ok (set_buffer s (nevents s) (nevents s) (events s), None) /\
   pending s = []) \/
  (exists j e h,
     index s <= j < nevents s /\
     (forall i, index s <= i < j ->
        exists x, aget (events s) i = Ok x /\ udata x = None) /\
     aget (events s) j = Ok e /\ udata e = Some h /\
     nn_poller_event s =
       match classify e with
       | Some k => Ok (set_buffer s (nevents s) (j + 1) (events s), Some (k, h))
       | None => Abort
       end).
Proof.
  intros [Hi Hn]. unfold nn_poller_event, skip_empty.
  destruct (skip_from_total (fun e => bool_decide (udata e <> None)) (events s)
              (index s) (Z.to_nat (nevents s - index s))) as [j Hj]; [lia..|].
  rewrite Hj. simpl. apply skip_from_Ok in Hj as (Hr & Hskip & Hstop).
  assert (Hnull : forall i, index s <= i < j ->
            exists x, aget (events s) i = Ok x /\ udata x = None).
  { intros i Hij. destruct (Hskip i Hij) as (x & Hx & Hz). exists x.
    split; [done|]. apply bool_decide_eq_false in Hz.
    by destruct (udata x); [destruct Hz|]. }
  destruct (decide (nevents s <= j)) as [Hge|Hlt].
  - left. assert (j = nevents s) as -> by lia. split; [done|].
    unfold pending, live. apply flat_map_nil_Forall.
    apply window_Forall; [lia|]. intros i Hij.
    destruct (Hnull i Hij) as (x & Hx & Hu). exists x. split; [done|].
    by apply kq_decode_null.
  - right. destruct Hstop as (e & He & Hlive); [lia|]. rewrite He. simpl.
    apply bool_decide_eq_true in Hlive.
    destruct (udata e) as [h|] eqn:Eu; [|done].
    exists j, e, h. split; [lia|]. split; [done|]. split; [done|]. split; [done|].
    unfold classify. destruct (has (flags e) EV_EOF); [done|].
    destruct (decide (filter e = EVFILT_WRITE)); [done|].
    by destruct (decide (filter e = EVFILT_READ)).
Qed.

Lemma kq_pending_skip s j :
  wf s -> index s <= j <= nevents s ->
  (forall i, index s <= i < j ->
     exists x, aget (events s) i = Ok x /\ udata x = None) ->
  pending s = flat_map decode (window (events s) j (nevents s)).
Proof.
  intros [Hi Hn] Hj Hnull. unfold pending, live.
  rewrite (window_app _ (index s) j (nevents s)) by lia.
  rewrite flat_map_app, flat_map_nil_Forall; [done|].
  apply window_Forall; [lia|]. intros i Hij.
  destruct (Hnull i Hij) as (x & Hx & Hu). exists x. split; [done|].
  by apply kq_decode_null.
Qed.

(** One call returns the first of the pending events and leaves the
    others. *)
Lemma kq_event_pending s s' r :
  wf s -> nn_poller_event s = Ok (s', r) ->
  wf s' /\ pending s = option_list r ++ pending s' /\
  (r = None -> pending s' = []).
Proof.
  intros Hwf H. pose proof Hwf as [Hi Hn].
  destruct (kq_event_cases s Hwf) as [[E Hp] | (j & e & h & Hj & Hnull & He & Hu & E)];
    rewrite E in H.
  - injection H as <- <-. split; [unfold wf; simpl; lia|].
    assert (Hp' : pending (set_buffer s (nevents s) (nevents s) (events s)) = []).
    { unfold pending, live. simpl. by rewrite window_nil by lia. }
    rewrite Hp, Hp'. done.
  - destruct (classify e) as [k|] eqn:Ek; [|done]. injection H as <- <-.
    split; [unfold wf; simpl; lia|]. split; [|done].
    rewrite (kq_pending_skip s j) by (done || lia).
    rewrite (window_cons _ j _ e) by (done || lia). simpl.
    unfold decode at 1. rewrite Hu, Ek. simpl. done.
Qed.

Lemma kq_event_not_undef s : wf s -> nn_poller_event s <> Undef.
Proof.
  intros Hwf.
  destruct (kq_event_cases s Hwf) as [[E _] | (j & e & h & _ & _ & _ & _ & E)];
    rewrite E; [done|]. by destruct (classify e).
Qed.

(** *** The drain of a batch *)

(** Every record that the cursor has not passed and that has a handle has a
    kind. *)
Lemma kq_known_tail s j :
  wf s -> index s <= j ->
  Forall (fun e => udata e <> None -> classify e <> None) (live s) ->
  Forall (fun e => udata e <> None -> classify e <> None)
    (window (events s) j (nevents s)).
Proof.
  intros [Hi Hn] Hj Hall. destruct (decide (j <= nevents s)).
  - unfold live in Hall. rewrite (window_app _ (index s) j (nevents s)) in Hall by lia.
    by apply Forall_app in Hall as [_ ?].
  - rewrite window_nil by lia. constructor.
Qed.

Lemma kq_drain_pending n s :
  wf s ->
  Forall (fun e => udata e <> None -> classify e <> None) (live s) ->
  (length (pending s) <= n)%nat ->
  exists s', drain n s = Ok (s', pending s) /\ wf s' /\ pending s' = [].
Proof.
  revert s. induction n as [|n IH]; intros s Hwf Hknown Hn; simpl.
  { exists s. destruct (pending s); simpl in Hn; [done | lia]. }
  pose proof Hwf as [Hi Hnn].
  destruct (kq_event_cases s Hwf) as [[E Hp] | (j & e & h & Hj & Hnull & He & Hu & E)].
  - rewrite E. simpl. eexists. rewrite Hp. split; [done|].
    split; [unfold wf; simpl; lia|].
    unfold pending, live. simpl. by rewrite window_nil by lia.
  - assert (Hk : classify e <> None).
    { pose proof (kq_known_tail s j Hwf ltac:(lia) Hknown) as Ht.
      rewrite (window_cons _ j _ e) in Ht by (done || lia).
      apply Forall_cons in Ht as [Ht _]. apply Ht. by rewrite Hu. }
    destruct (classify e) as [k|] eqn:Ek; [|done].
    assert (Hev : nn_poller_event s =
                  Ok (set_buffer s (nevents s) (j + 1) (events s), Some (k, h)))
      by done.
    destruct (kq_event_pending _ _ _ Hwf Hev) as (Hwf1 & Hp & _).
    rewrite Hev. simpl. rewrite Hp in Hn. simpl in Hn.
    destruct (IH (set_buffer s (nevents s) (j + 1) (events s)) Hwf1)
      as (s2 & Hd & Hwf2 & Hp2); [|lia|].
    { unfold live. simpl. apply (kq_known_tail s (j + 1) Hwf); [lia | done]. }
    rewrite Hd. simpl. exists s2. by rewrite Hp.
Qed.

Lemma kq_decode_length e : (length (decode e) <= 1)%nat.
Proof. unfold decode. destruct (udata e), (classify e); simpl; lia. Qed.

(** *** The buffer stays inside the array *)

Lemma kq_scrub_wf test s s1 evs :
  index s1 = index s -> nevents s1 = nevents s -> events s1 = events s ->
  for_live (scrub test) (events s1) (index s1) (nevents s1) = Ok evs ->
  wf s ->
  wf (set_buffer s1 (nevents s1) (index s1) evs) /\
  length evs = length (events s).
Proof.
  intros Hi Hn He H [Hw1 Hw2]. apply kq_scrub_loop in H as (Hl & _).
  unfold wf. simpl. rewrite Hl, Hi, Hn, He. done.
Qed.

Lemma kq_exec_fields b o s s' r :
  is_wait o = false -> wf s -> exec b o s = Ok (s', r) ->
  wf s' /\ length (events s') = length (events s).
Proof.
  intros Hnw Hwf H. destruct o; try discriminate; simpl in H.
  - by injection H as <- _.
  - inv_bind. subst. unfold nn_poller_rm in Ha. inv_bind. subst.
    destruct (kq_rm_prefix s h) as (Hi & Hn & He & _).
    eapply (kq_scrub_wf _ s); [exact Hi | exact Hn | exact He | exact Ha0 | done].
  - injection H as <- _. destruct (kq_set_in_buffer s h rc) as (Hi & Hn & He).
    unfold wf. by rewrite Hi, Hn, He.
  - inv_bind. subst. unfold nn_poller_reset_in in Ha. inv_bind. subst.
    destruct (kq_reset_in_prefix s h) as (Hi & Hn & He & _).
    eapply (kq_scrub_wf _ s); [exact Hi | exact Hn | exact He | exact Ha0 | done].
  - injection H as <- _. destruct (kq_set_out_buffer s h rc) as (Hi & Hn & He).
    unfold wf. by rewrite Hi, Hn, He.
  - inv_bind. subst. unfold nn_poller_reset_out in Ha. inv_bind. subst.
    destruct (kq_reset_out_prefix s h rc) as (Hi & Hn & He & _).
    eapply (kq_scrub_wf _ s); [exact Hi | exact Hn | exact He | exact Ha0 | done].
  - destruct (kq_event_pending _ _ _ Hwf H) as (Hw & _). split; [done|].
    apply kq_event_inv in H as (j & _ & _ & H).
    by destruct H as [(_ & _ & _ & ->) | (_ & e & h & k & _ & _ & _ & -> & _)].
Qed.

(** *** What is pending only shrinks *)

Lemma kq_pending_sublist s s' :
  wf s -> wf s' -> shrinks s s' -> pending s' `sublist_of` pending s.
Proof.
  intros [Hi Hn] [Hi' Hn'] (Hix & Hne & Hcells). unfold pending, live.
  apply window_flat_map_sublist; [lia|].
  intros j Hj. destruct (aget_in_range (events s') j) as [e' He']; [lia|].
  exists e'. split; [done|].
  destruct (Hcells j e' Hj He') as (e & He & [-> | ->]).
  - right. split; [lia|]. by exists e.
  - left. by apply kq_decode_null.
Qed.

Lemma kq_run_sublist b ops s s' outs :
  wf s -> Forall (fun o => is_wait o = false) ops ->
  run b ops s = Ok (s', outs) -> outs `sublist_of` pending s.
Proof.
  intros Hwf Hops. revert s s' outs Hwf.
  induction Hops as [|o ops Ho _ IH]; intros s s' outs Hwf H; simpl in H.
  - injection H as <- <-. apply sublist_nil_l.
  - inv_bind. destruct a as [s1 r]. destruct a0 as [s2 outs2]. simpl in *.
    subst. destruct (kq_exec_fields _ _ _ _ _ Ho Hwf Ha) as [Hwf1 _].
    specialize (IH _ _ _ Hwf1 Ha0).
    destruct r as [y|]; simpl.
    + pose proof (kq_exec_result _ _ _ _ _ Ha) as ->. simpl in Ha.
      destruct (kq_event_pending _ _ _ Hwf Ha) as (_ & -> & _).
      simpl. by apply sublist_skip.
    + etrans; [exact IH|]. apply kq_pending_sublist; [done..|].
      by eapply kq_exec_shrinks.
Qed.

(** *** Where [nn_assert (0)] is reached *)

Lemma kq_event_abort_iff s :
  wf s ->
  nn_poller_event s = Abort <->
  exists j e h, index s <= j < nevents s /\
    (forall i, index s <= i < j ->
       exists x, aget (events s) i = Ok x /\ udata x = None) /\
    aget (events s) j = Ok e /\ udata e = Some h /\ classify e = None.
Proof.
  intros Hwf. split.
  - intros Hab.
    destruct (kq_event_cases s Hwf) as [[E _] | (j & e & h & Hj & Hnull & He & Hu & E)].
    + by rewrite E in Hab.
    + exists j, e, h. repeat (split; [done|]). rewrite Hab in E.
      by destruct (classify e).
  - intros (j & e & h & Hj & Hnull & He & Hu & Hk).
    destruct (kq_event_cases s Hwf)
      as [[E _] | (j' & e' & h' & Hj' & Hnull' & He' & Hu' & E)].
    + apply kq_event_inv in E as (j0 & Hj0 & Hn0 & H0).
      destruct H0 as [(Hge & _) | (Hlt & e0 & h0 & k0 & _ & _ & Hr & _)]; [|done].
      destruct (Hn0 j ltac:(lia)) as (x & Hx & Hux).
      rewrite He in Hx. injection Hx as <-. congruence.
    + assert (j' = j) as ->.
      { destruct (Z.lt_trichotomy j j') as [Hlt | [Heq | Hgt]]; [|done|].
        - destruct (Hnull' j ltac:(lia)) as (x & Hx & Hux).
          rewrite He in Hx. injection Hx as <-. congruence.
        - destruct (Hnull j' ltac:(lia)) as (x & Hx & Hux).
          rewrite He' in Hx. injection Hx as <-. congruence. }
      rewrite He in He'. injection He' as <-. by rewrite Hk in E.
Qed.

Lemma kq_pending_length s : (length (pending s) <= length (live s))%nat.
Proof.
  unfold pending. induction (live s) as [|e l IH]; simpl; [done|].
  rewrite length_app. pose proof (kq_decode_length e). lia.
Qed.

(** *** Batches of read and write filters *)

Lemma kq_known_shrinks s s' :
  wf s -> wf s' -> shrinks s s' ->
  Forall (fun e => udata e <> None -> classify e <> None) (live s) ->
  Forall (fun e => udata e <> None -> classify e <> None) (live s').
Proof.
  intros [Hi Hn] [Hi' Hn'] (Hix & Hne & Hcells) Hall.
  apply Forall_forall. intros e' He'.
  apply window_elem in He' as (j & Hj & Hg); [|lia].
  destruct (Hcells j e' Hj Hg) as (e & He & [-> | ->]); [|done].
  rewrite Forall_forall in Hall. apply Hall.
  apply aget_Ok in He as [_ He]. apply list_elem_of_lookup.
  exists (Z.to_nat (j - index s)). unfold live. by rewrite window_lookup by lia.
Qed.

Lemma kq_exec_known b o s :
  wf s -> is_wait o = false ->
  Forall (fun e => udata e <> None -> classify e <> None) (live s) ->
  exists s' r, exec b o s = Ok (s', r).
Proof.
  intros Hwf Hnw Hall. destruct o; try discriminate; simpl.
  - eauto.
  - destruct (Totals.kq_rm_total s h Hwf) as [s1 ->]. simpl. eauto.
  - eauto.
  - destruct (Totals.kq_reset_in_total s h Hwf) as [s1 ->]. simpl. eauto.
  - eauto.
  - destruct (Totals.kq_reset_out_total s h rc Hwf) as [s1 ->]. simpl. eauto.
  - destruct (kq_event_cases s Hwf) as [[E _] | (j & e & h & Hj & _ & He & Hu & E)];
      [eauto|].
    assert (Hk : classify e <> None).
    { pose proof (kq_known_tail s j Hwf ltac:(lia) Hall) as Ht.
      rewrite (window_cons _ j _ e) in Ht by (done || lia).
      apply Forall_cons in Ht as [Ht _]. apply Ht. by rewrite Hu. }
    rewrite E. destruct (classify e); [eauto | done].
Qed.

Lemma kq_run_known b ops s :
  wf s -> Forall (fun o => is_wait o = false) ops ->
  Forall (fun e => udata e <> None -> classify e <> None) (live s) ->
  exists s' outs, run b ops s = Ok (s', outs) /\ wf s' /\
    Forall (fun e => udata e <> None -> classify e <> None) (live s').
Proof.
  intros Hwf Hops. revert s Hwf.
  induction Hops as [|o ops Ho _ IH]; intros s Hwf Hall; simpl.
  - eauto.
  - destruct (kq_exec_known b o s Hwf Ho Hall) as (s1 & r & E). rewrite E. simpl.
    destruct (kq_exec_fields _ _ _ _ _ Ho Hwf E) as [Hwf1 _].
    destruct (IH s1 Hwf1) as (s2 & outs & -> & Hwf2 & Hall2).
    { apply (kq_known_shrinks s); [done..| |done]. by eapply kq_exec_shrinks. }
    simpl. eauto.
Qed.

(** *** No call runs off the array *)

Lemma kq_wait_fields b s t n a s' rc :
  match a with
  | Ready batch => (length batch <= length (events s))%nat
  | Failed => True
  end ->
  nn_poller_wait b s t n a = Ok (s', rc) ->
  wf s' /\ length (events s') = length (events s).
Proof.
  intros Hfit H. unfold nn_poller_wait in H.
  destruct (negb b && negb (n =? 0)%nat).
  - injection H as <- _. unfold wf. simpl. split; [lia | done].
  - destruct (decide (wait_ret a = -1)); [done|]. injection H as <- _.
    destruct (kq_wait_again_fields (set_buffer s 0 0 (events s)) t n)
      as (_ & _ & Hi & He & _).
    destruct a as [batch|]; [|done]. unfold wf. simpl in *.
    rewrite Hi, He. simpl. rewrite length_app, length_drop. lia.
Qed.

Lemma kq_exec_step len b o s :
  wf s -> len = length (events s) ->
  match o with
  | Wait _ _ (Ready batch) => (length batch <= len)%nat
  | _ => True
  end ->
  exec b o s = Abort \/
  exists s' r, exec b o s = Ok (s', r) /\ wf s' /\ len = length (events s').
Proof.
  intros Hwf Hlen Hfit.
  assert (Hok : forall s' r, exec b o s = Ok (s', r) ->
            wf s' /\ len = length (events s')).
  { intros s' r H. destruct (is_wait o) eqn:Ew.
    - destruct o as [| | | | | |t n a|]; try discriminate. simpl in H.
      inv_bind. destruct a0 as [s1 rc]. simpl in *. subst.
      destruct (kq_wait_fields b s t n a s' rc) as [Hw Hl]; [|done|].
      { destruct a; [lia | done]. }
      split; [done | lia].
    - destruct (kq_exec_fields _ _ _ _ _ Ew Hwf H) as [Hw Hl].
      split; [done | lia]. }
  destruct (exec b o s) as [[s' r]| |] eqn:E; [right | by left |].
  { exists s', r. split; [done|]. by apply (Hok s' r). }
  exfalso. clear Hok. destruct o; simpl in E.
  - done.
  - destruct (Totals.kq_rm_total s h Hwf) as [s1 H1]. by rewrite H1 in E.
  - done.
  - destruct (Totals.kq_reset_in_total s h Hwf) as [s1 H1]. by rewrite H1 in E.
  - done.
  - destruct (Totals.kq_reset_out_total s h rc Hwf) as [s1 H1]. by rewrite H1 in E.
  - unfold nn_poller_wait in E.
    destruct (negb b && negb (interrupts =? 0)%nat); [done|].
    by destruct (decide (wait_ret final = -1)).
  - by apply (kq_event_not_undef s Hwf).
Qed.

Lemma kq_run_not_undef_len len b ops s :
  wf s -> len = length (events s) ->
  Forall (fun o =>
            match o with
            | Wait _ _ (Ready batch) => (length batch <= len)%nat
            | _ => True
            end) ops ->
  run b ops s = Abort \/
  exists s' outs, run b ops s = Ok (s', outs) /\ wf s' /\
    len = length (events s').
Proof.
  intros Hwf Hlen Hops. revert s Hwf Hlen.
  induction Hops as [|o ops Ho _ IH]; intros s Hwf Hlen; simpl.
  - right. eauto.
  - destruct (kq_exec_step len b o s Hwf Hlen Ho) as [-> | (s1 & r & -> & Hw1 & Hl1)];
      [by left|]. simpl.
    destruct (IH s1 Hw1 Hl1) as [-> | (s2 & outs & -> & Hw2 & Hl2)]; [by left|].
    simpl. right. eauto.
Qed.

(** *** Interest after a reset *)

Lemma kq_reset_in_clears s h s' :
  nn_poller_reset_in s h = Ok s' ->
  has (hndl_events (hmem s' h)) NN_POLLER_EVENT_IN = false /\
  trace s' =
    trace s ++
      if has (hndl_events (hmem s h)) NN_POLLER_EVENT_IN
      then [sys_kevent_change (kq s) (hndl_fd (hmem s h)) EVFILT_READ EV_DELETE None]
      else [].
Proof.
  unfold nn_poller_reset_in. intros H. inv_bind. subst s'. simpl.
  destruct (has (hndl_events (hmem s h)) NN_POLLER_EVENT_IN) eqn:E; simpl.
  - rewrite fn_lookup_insert. simpl. split; [apply has_clear_same | done].
  - split; [done|]. by rewrite app_nil_r.
Qed.

Lemma kq_reset_out_bit s h rc s' :
  nn_poller_reset_out s h rc = Ok s' ->
  has (hndl_events (hmem s' h)) NN_POLLER_EVENT_OUT =
    has (hndl_events (hmem s h)) NN_POLLER_EVENT_OUT && bool_decide (rc = -1) /\
  trace s' =
    trace s ++
      if has (hndl_events (hmem s h)) NN_POLLER_EVENT_OUT
      then [sys_kevent_change (kq s) (hndl_fd (hmem s h)) EVFILT_WRITE EV_DELETE None]
      else [].
Proof.
  unfold nn_poller_reset_out. intros H. inv_bind. subst s'. simpl.
  destruct (has (hndl_events (hmem s h)) NN_POLLER_EVENT_OUT) eqn:E; simpl.
  - destruct (decide (rc <> -1)) as [Hrc|Hrc]; simpl.
    + rewrite fn_lookup_insert. simpl. rewrite has_clear_same.
      by rewrite bool_decide_eq_false_2.
    + rewrite E. rewrite bool_decide_eq_true_2; [done|].
      by destruct (decide (rc = -1)).
  - rewrite E. split; [done|]. by rewrite app_nil_r.
Qed.

(** *** What [nn_poller_rm] tells the kernel *)

Lemma kq_rm_trace s h s' :
  nn_poller_rm s h = Ok s' ->
  hmem s' = hmem s /\
  trace s' =
    trace s ++
      (if has (hndl_events (hmem s h)) NN_POLLER_EVENT_IN
       then [sys_kevent_change (kq s) (hndl_fd (hmem s h)) EVFILT_READ EV_DELETE None]
       else []) ++
      (if has (hndl_events (hmem s h)) NN_POLLER_EVENT_OUT
       then [sys_kevent_change (kq s) (hndl_fd (hmem s h)) EVFILT_WRITE EV_DELETE None]
       else []).
Proof.
  intros H. split; [by eapply kq_rm_hmem|].
  unfold nn_poller_rm in H. inv_bind. subst s'. simpl.
  destruct (has _ NN_POLLER_EVENT_IN), (has _ NN_POLLER_EVENT_OUT); simpl;
    by rewrite <- ?app_assoc, ?app_nil_r.
Qed.

End KqueueMore.

Local Open Scope Z_scope.

(** ** poll *)

Module PollMore.
Import Poll PollFacts.

(** *** [nn_poller_init] and [nn_poller_add] *)

Lemma poll_empty_wf s :
  bounds s -> size s = 0 -> removed s = -1 -> wf s.
Proof.
  intros Hb Hs Hr. split; [done|]. split.
  - intros j g (Hj & _). lia.
  - exists []. split; [constructor|]. split; [done|]. split.
    + intros j Hj. lia.
    + by intros k i ?.
Qed.

Lemma poll_init_sound s0 k s rc :
  nn_poller_init s0 k = Ok (s, rc) ->
  sound s /\ size s = 0 /\ rc = rc_ok.
Proof.
  intros H.
  destruct (pollset_ok k) eqn:E1; [|by rewrite poll_init_short in H by (by rewrite E1)].
  destruct (hndls_ok k) eqn:E2;
    [|by rewrite poll_init_short in H by (by rewrite E1, E2)].
  destruct (poll_init_ok s0 k E1 E2)
    as (s' & Hs & Hsz & Hi & Hr & Hc & Hp & Hh & _).
  rewrite Hs in H. injection H as <- <-.
  assert (Hb : bounds s').
  { unfold bounds. rewrite Hsz, Hc, Hp, Hh, !length_replicate.
    unfold NN_POLLER_GRANULARITY. lia. }
  split; [|done]. split; [by apply poll_empty_wf|].
  rewrite Hi, Hsz, Hc. unfold NN_POLLER_GRANULARITY. lia.
Qed.

Lemma poll_upd_pollset_eval s i f p :
  aget (pollset s) i = Ok p ->
  upd_pollset s i f = Ok (set_pollset s (<[Z.to_nat i := f p]> (pollset s))).
Proof. intros Hp. apply poll_upd_pollset_Ok. eauto. Qed.

(** [nn_poller_add] asks the allocator for nothing while a cell is free; when
    none is, it doubles the two arrays, or aborts if it cannot. *)
Lemma poll_add_eval s fd0 h k :
  bounds s -> 0 < capacity s ->
  (size s < capacity s ->
     exists s', nn_poller_add s fd0 h k = Ok s' /\
       capacity s' = capacity s /\ trace s' = trace s) /\
  (size s >= capacity s -> pollset_ok k = true -> hndls_ok k = true ->
     exists s', nn_poller_add s fd0 h k = Ok s' /\
       capacity s' = capacity s * 2 /\
       trace s' = trace s ++ [sys_realloc_pollset (capacity s * 2);
                              sys_realloc_hndls (capacity s * 2)]) /\
  (size s >= capacity s -> pollset_ok k && hndls_ok k = false ->
     nn_poller_add s fd0 h k = Abort).
Proof.
  intros (Hs & Hlp & Hlh) Hcap. unfold nn_poller_add.
  match goal with |- context [mbind ?f _] => set (tail := f) end.
  assert (Htail : forall sg,
            0 <= size sg < Z.of_nat (length (pollset sg)) ->
            size sg < Z.of_nat (length (hndls sg)) ->
            exists s', tail sg = Ok s' /\ capacity s' = capacity sg /\
              trace s' = trace sg).
  { intros sg Hp Hh. unfold tail.
    destruct (aget_in_range (pollset sg) (size sg)) as [p Hpg]; [lia|].
    destruct (aget_in_range (hndls sg) (size sg)) as [x Hx]; [lia|].
    rewrite (poll_upd_pollset_eval _ _ _ _ Hpg).
    cbn [mbind outcome_bind obind size set_pollset].
    erewrite poll_upd_pollset_eval
      by (cbn [pollset set_pollset]; apply aget_insert_eq; lia).
    cbn [mbind outcome_bind obind size set_pollset pollset].
    erewrite poll_upd_pollset_eval
      by (cbn [pollset set_pollset]; apply aget_insert_eq;
          rewrite length_insert; lia).
    cbn [mbind outcome_bind obind size set_pollset pollset set_hndl_index].
    erewrite poll_upd_hndls_eval by (cbn [hndls]; exact Hx).
    cbn [mbind outcome_bind obind]. eexists. split; [reflexivity|]. done. }
  split; [|split].
  - intros Hlt. destruct (decide (size s >= capacity s)); [lia|].
    cbn [mbind outcome_bind obind]. apply Htail; lia.
  - intros Hge H1 H2. destruct (decide (size s >= capacity s)); [|lia].
    rewrite H1, H2. cbn [negb mbind outcome_bind obind].
    destruct (Htail
      (set_hndls
         (log
            (set_pollset
               (log (set_capacity s (capacity s * 2))
                  (sys_realloc_pollset (capacity s * 2)))
               (resize (Z.to_nat (capacity s * 2)) (fresh_pollfd k) (pollset s)))
            (sys_realloc_hndls (capacity s * 2)))
         (resize (Z.to_nat (capacity s * 2)) (fresh_item k) (hndls s))))
      as (s' & Hs' & Hc & Ht).
    { simpl. rewrite length_resize. lia. }
    { simpl. rewrite length_resize. lia. }
    exists s'. split; [exact Hs'|]. split; [done|].
    rewrite Ht. simpl. by rewrite <- app_assoc.
  - intros Hge Hk. destruct (decide (size s >= capacity s)); [|lia].
    cbn [capacity set_capacity log]. destruct (pollset_ok k); simpl; [|done].
    simpl in Hk. by rewrite Hk.
Qed.

(** *** No call runs off the arrays *)

Lemma poll_calls_ok_cons b o rest s :
  op_ok o s ->
  (forall r, exec b o s = Ok r -> calls_ok b rest (fst r)) ->
  calls_ok b (o :: rest) s.
Proof.
  intros Ho Hrest. split; [done|].
  destruct (exec b o s) as [r| |]; [by apply Hrest | done..].
Qed.

Lemma poll_registered_slot s h :
  bounds s -> registered s h -> exists p, aget (pollset s) (hmem s h) = Ok p.
Proof.
  intros (Hs & Hl & _) (Hr & _). apply aget_in_range. lia.
Qed.

Lemma poll_exec_step b o s :
  sound s -> op_ok o s ->
  exec b o s = Abort \/
  exists s' r, exec b o s = Ok (s', r) /\ sound s'.
Proof.
  intros (Hwf & Hi & Hc) Hok. pose proof Hwf as (Hb & _).
  assert (Hkeep : forall s' r, exec b o s = Ok (s', r) -> wf s').
  { intros s' r. by apply poll_exec_wf. }
  destruct o; simpl in *.
  - destruct (poll_add_eval s fd0 h k Hb Hc) as (Hfree & Hgrow & Hshort).
    assert (Hcase : nn_poller_add s fd0 h k = Abort \/
                    exists s', nn_poller_add s fd0 h k = Ok s').
    { destruct (decide (size s < capacity s)) as [Hlt|Hge].
      - right. destruct (Hfree Hlt) as (s' & ? & _). eauto.
      - destruct (pollset_ok k && hndls_ok k) eqn:E.
        + apply andb_prop in E as [E1 E2]. right.
          destruct (Hgrow ltac:(lia) E1 E2) as (s' & ? & _). eauto.
        + left. apply Hshort; [lia | done]. }
    destruct Hcase as [-> | (s' & Hs')]; [by left|]. right.
    rewrite Hs'. simpl. exists s', None. split; [done|].
    destruct (poll_add_inv _ _ _ _ _ Hb Hs') as ((Hb1 & _) & Hsz & Hidx & _).
    split; [by apply (Hkeep s' None); rewrite Hs'|]. lia.
  - right. destruct (poll_rm_ok s h Hwf Hok)
      as (s' & Hs' & Hwf' & Hsz & Hcap & Hidx & _).
    rewrite Hs'. simpl. exists s', None. split; [done|]. split; [done|]. lia.
  - right. destruct (poll_registered_slot s h Hb Hok) as [p Hp].
    assert (Hs' : nn_poller_set_in s h =
                  Ok (set_pollset s
                        (<[Z.to_nat (hmem s h) :=
                             with_events (Z.lor (events p) POLLIN) p]> (pollset s))))
      by (apply poll_set_in_spec; eauto).
    rewrite Hs'. simpl. eexists _, None. split; [done|].
    split; [by apply (Hkeep _ None); rewrite Hs'|]. done.
  - right. destruct (poll_reset_in_total s h Hb Hok) as [s' Hs'].
    rewrite Hs'. simpl. exists s', None. split; [done|].
    split; [by apply (Hkeep s' None); rewrite Hs'|].
    apply poll_reset_in_spec in Hs' as (p & _ & ->). done.
  - right. destruct (poll_registered_slot s h Hb Hok) as [p Hp].
    assert (Hs' : nn_poller_set_out s h =
                  Ok (set_pollset s
                        (<[Z.to_nat (hmem s h) :=
                             with_events (Z.lor (events p) POLLOUT) p]> (pollset s))))
      by (apply poll_set_out_spec; eauto).
    rewrite Hs'. simpl. eexists _, None. split; [done|].
    split; [by apply (Hkeep _ None); rewrite Hs'|]. done.
  - right. destruct (poll_reset_out_total s h Hb Hok) as [s' Hs'].
    rewrite Hs'. simpl. exists s', None. split; [done|].
    split; [by apply (Hkeep s' None); rewrite Hs'|].
    apply poll_reset_out_spec in Hs' as (p & _ & ->). done.
  - destruct (poll_compact_ok s Hwf) as (sc & Hcs & Hwfc & _ & (_ & Hcc & _) & _).
    destruct (nn_poller_wait b s timeout interrupts final) as [[s' rc]| |] eqn:E.
    + right. simpl. exists s', None. split; [done|].
      assert (Hwf' : wf s') by (by apply (Hkeep s' None)).
      split; [done|].
      destruct (poll_wait_inv _ _ _ _ _ _ _ E)
        as (sc' & Hc' & Hi' & Hsz' & Hcap' & _).
      rewrite Hcs in Hc'. injection Hc' as <-.
      destruct Hwf' as ((Hs' & _) & _). lia.
    + by left.
    + exfalso. rewrite (poll_wait_eval b s timeout interrupts final sc Hcs) in E.
      destruct (negb b && negb (interrupts =? 0)%nat); [done|].
      by destruct final.
  - right. destruct (poll_event_total s) as (s' & r & Hs'); [done|].
    exists s', r. split; [done|].
    destruct (poll_event_pending _ _ _ (conj Hb Hi) Hs') as ((_ & Hi') & _).
    split; [by apply (Hkeep s' r)|]. split; [done|].
    apply poll_event_inv in Hs' as (j & _ & _ & H).
    destruct H as [(_ & _ & _ & ->) | (_ & p & it & _ & _ & _ & H)]; [done|].
    by destruct H as [(_ & _ & ->) | [(_ & _ & _ & ->) | (_ & _ & _ & ->)]].
Qed.

Lemma poll_run_sound b ops s :
  sound s -> calls_ok b ops s ->
  run b ops s = Abort \/
  exists s' outs, run b ops s = Ok (s', outs) /\ sound s'.
Proof.
  revert s. induction ops as [|o ops IH]; intros s Hs Hok; simpl.
  - right. eauto.
  - cbn [calls_ok] in Hok. destruct Hok as [Hop Hrest].
    destruct (poll_exec_step b o s Hs Hop) as [-> | (s1 & r & E & Hs1)];
      [by left|].
    rewrite E in Hrest |- *. simpl in *.
    destruct (IH s1 Hs1 Hrest) as [-> | (s2 & outs & -> & Hs2)]; [by left|].
    simpl. right. eauto.
Qed.

(** *** How many slots the compaction cuts *)

Lemma poll_removed_slots s l :
  free_list (fun p => p = -1) s l ->
  forall j, j ∈ l <->
    0 <= j < size s /\ exists it, aget (hndls s) j = Ok it /\ hndl it = None.
Proof.
  intros (Hnd & _ & Hcov & Hlink) j. split.
  - intros [k Hk]%list_elem_of_lookup.
    destruct (Hlink k j Hk) as (Hj & _). split; [done|].
    destruct (Hcov j Hj) as (it & Hit & Hn). exists it. split; [done|].
    apply Hn. apply list_elem_of_lookup. eauto.
  - intros (Hj & it & Hit & Hn). destruct (Hcov j Hj) as (it' & Hit' & Hn').
    rewrite Hit in Hit'. injection Hit' as <-. by apply Hn'.
Qed.

Lemma poll_compact_size s :
  wf s ->
  exists l sc,
    NoDup l /\
    (forall j, j ∈ l <->
       0 <= j < size s /\ exists it, aget (hndls s) j = Ok it /\ hndl it = None) /\
    compact s = Ok sc /\
    size sc = size s - Z.of_nat (length l) /\
    capacity sc = capacity s /\ removed sc = -1.
Proof.
  intros (Hb & Hi & l & Hfl).
  pose proof (poll_free_list_length _ _ _ Hfl) as Hlen.
  destruct (poll_compact_loop_ok (S (Z.to_nat (size s))) s l)
    as (sc & Hs & Hwf' & Hsz & (_ & Hcap & _)).
  { by apply poll_wf_loop. }
  { lia. }
  exists l, sc. split; [by destruct Hfl|]. split; [by apply poll_removed_slots|].
  split; [done|]. split; [done|]. split; [done|].
  by destruct (poll_wf_loop_nil _ Hwf').
Qed.

(** *** Removing a handle and registering it again *)

Lemma poll_rm_slot_of s h s1 :
  wf s -> registered s h -> nn_poller_rm s h = Ok s1 ->
  forall g p, slot_of s1 g p <-> slot_of s g p /\ g <> h.
Proof.
  intros Hwf Hreg H1.
  destruct (poll_rm_ok s h Hwf Hreg)
    as (s1' & H1' & _ & _ & _ & _ & Hmem & _ & _ & Hholds & p0 & Hp0 & Hps).
  rewrite H1 in H1'. injection H1' as <-.
  intros g p. unfold slot_of, registered. rewrite Hmem, Hholds, Hps.
  split.
  - intros ((Hg & Hne) & Hp). split; [|done]. split; [done|].
    rewrite aget_insert_ne in Hp; [done | by destruct Hreg as ((? & _) & _) |].
    intros Heq. apply Hne. by apply (poll_registered_inj s g h).
  - intros ((Hg & Hp) & Hne). split; [done|].
    rewrite aget_insert_ne; [done | by destruct Hreg as ((? & _) & _) |].
    intros Heq. apply Hne. by apply (poll_registered_inj s g h).
Qed.

Lemma poll_add_slot_of s fd0 h k s' :
  bounds s -> (forall j, ~ holds s j h) -> nn_poller_add s fd0 h k = Ok s' ->
  slot_of s' h {| fd := fd0; events := 0; revents := 0 |} /\
  forall g p, g <> h -> slot_of s' g p <-> slot_of s g p.
Proof.
  intros Hb Hnew H.
  destruct (poll_add_inv _ _ _ _ _ Hb H)
    as (Hb' & Hsz & _ & _ & Hmem & Hpre & Hnewp & it & Hit & Hh).
  destruct Hb as (Hs & _).
  split.
  - unfold slot_of, registered, holds. rewrite Hmem, fn_lookup_insert.
    split; [|done]. split; [lia|]. eauto.
  - intros g p Hne. unfold slot_of, registered, holds.
    rewrite Hmem, fn_lookup_insert_ne by done. rewrite Hsz. split.
    + intros ((Hj & x & Hx & Hg) & Hp).
      destruct (decide (hmem s g = size s)) as [Heq|Hneq].
      { rewrite Heq, Hit in Hx. injection Hx as <-. congruence. }
      destruct (Hpre (hmem s g)) as [Ep Eh]; [lia|].
      rewrite <- Ep, <- Eh. split; [|done]. split; [lia|]. eauto.
    + intros ((Hj & x & Hx & Hg) & Hp).
      destruct (Hpre (hmem s g) Hj) as [Ep Eh].
      rewrite Ep, Eh. split; [|done]. split; [lia|]. eauto.
Qed.

Lemma poll_rm_add_compact s h fd0 k :
  wf s -> registered s h -> 0 < capacity s ->
  size s < capacity s \/ (pollset_ok k = true /\ hndls_ok k = true) ->
  exists s1 s2 sc,
    nn_poller_rm s h = Ok s1 /\ nn_poller_add s1 fd0 h k = Ok s2 /\
    compact s2 = Ok sc /\ wf sc /\ removed sc = -1 /\
    slot_of sc h {| fd := fd0; events := 0; revents := 0 |} /\
    forall g p, g <> h -> slot_of sc g p <-> slot_of s g p.
Proof.
  intros Hwf Hreg Hcap Hroom.
  destruct (poll_rm_ok s h Hwf Hreg)
    as (s1 & H1 & Hwf1 & Hsz1 & Hcap1 & _ & _ & _ & _ & Hholds1 & _).
  pose proof Hwf1 as (Hb1 & _).
  assert (Hnew : forall j, ~ holds s1 j h).
  { intros j Hj. apply Hholds1 in Hj as [_ Hne]. done. }
  destruct (poll_add_eval s1 fd0 h k Hb1 ltac:(lia)) as (Hfree & Hgrow & _).
  assert (Hadd : exists s2, nn_poller_add s1 fd0 h k = Ok s2).
  { destruct (decide (size s1 < capacity s1)) as [Hlt|Hge].
    - destruct (Hfree Hlt) as (s2 & ? & _). eauto.
    - destruct Hroom as [? | [E1 E2]]; [lia|].
      destruct (Hgrow ltac:(lia) E1 E2) as (s2 & ? & _). eauto. }
  destruct Hadd as [s2 H2].
  pose proof (poll_add_wf _ _ _ _ _ Hwf1 Hnew H2) as Hwf2.
  destruct (poll_compact_ok s2 Hwf2) as (sc & Hc & Hwfc & Hrc & (_ & _ & _ & Hslots) & _).
  destruct (poll_add_slot_of _ _ _ _ _ Hb1 Hnew H2) as [Hh Hothers].
  exists s1, s2, sc. split; [done|]. split; [done|]. split; [done|].
  split; [done|]. split; [done|]. split; [by apply Hslots|].
  intros g p Hne. rewrite <- Hslots, (Hothers g p Hne).
  rewrite (poll_rm_slot_of s h s1 Hwf Hreg H1). tauto.
Qed.

(** *** Interest turned on and off again *)

Lemma clear_lor_absent x m : has x m = false -> clear (Z.lor x m) m = x.
Proof.
  intros H. unfold clear. rewrite Z.land_lor_distr_l, Z.land_lnot_diag, Z.lor_0_r.
  by apply clear_absent.
Qed.

Lemma poll_set_reset_in s h p :
  aget (pollset s) (hmem s h) = Ok p ->
  has (events p) POLLIN = false -> has (revents p) POLLIN = false ->
  exists s1, nn_poller_set_in s h = Ok s1 /\ nn_poller_reset_in s1 h = Ok s.
Proof.
  intros Hp He Hr. pose proof (aget_range _ _ _ Hp) as Hrange.
  eexists. split; [apply poll_set_in_spec; eauto|].
  apply poll_reset_in_spec. eexists. split.
  { simpl. by apply aget_insert_eq. }
  simpl. rewrite list_insert_insert_eq, (clear_lor_absent _ _ He),
    (clear_absent _ _ Hr).
  destruct s as [sz ix cp ps hs rm hm tr]. unfold set_pollset. simpl in *. f_equal.
  symmetry. apply list_insert_id. apply aget_Ok in Hp as [_ ->]. by destruct p.
Qed.

Lemma poll_set_reset_out s h p :
  aget (pollset s) (hmem s h) = Ok p ->
  has (events p) POLLOUT = false -> has (revents p) POLLOUT = false ->
  exists s1, nn_poller_set_out s h = Ok s1 /\ nn_poller_reset_out s1 h = Ok s.
Proof.
  intros Hp He Hr. pose proof (aget_range _ _ _ Hp) as Hrange.
  eexists. split; [apply poll_set_out_spec; eauto|].
  apply poll_reset_out_spec. eexists. split.
  { simpl. by apply aget_insert_eq. }
  simpl. rewrite list_insert_insert_eq, (clear_lor_absent _ _ He),
    (clear_absent _ _ Hr).
  destruct s as [sz ix cp ps hs rm hm tr]. unfold set_pollset. simpl in *. f_equal.
  symmetry. apply list_insert_id. apply aget_Ok in Hp as [_ ->]. by destruct p.
Qed.

(** *** What is returned between two waits *)

Lemma poll_exec_cursor b o s s' r :
  is_wait o = false -> cursor_ok s -> exec b o s = Ok (s', r) ->
  cursor_ok s' /\ index s <= index s'.
Proof.
  intros Hnw [Hb Hi] H.
  pose proof (poll_exec_quieter _ _ _ _ _ Hb Hnw H) as [Hb' _].
  destruct o; try discriminate; simpl in H; inv_bind; subst.
  - destruct (poll_add_inv _ _ _ _ _ Hb Ha) as (_ & Hsz & Hix & _).
    unfold cursor_ok. split; [split; [done | lia] | lia].
  - destruct (poll_rm_inv _ _ _ Ha) as (Hsz & _ & Hix & _).
    unfold cursor_ok. split; [split; [done | lia] | lia].
  - apply poll_set_in_spec in Ha as (p & _ & ->). simpl.
    unfold cursor_ok. simpl. split; [split; [done | lia] | lia].
  - apply poll_reset_in_spec in Ha as (p & _ & ->). simpl.
    unfold cursor_ok. simpl. split; [split; [done | lia] | lia].
  - apply poll_set_out_spec in Ha as (p & _ & ->). simpl.
    unfold cursor_ok. simpl. split; [split; [done | lia] | lia].
  - apply poll_reset_out_spec in Ha as (p & _ & ->). simpl.
    unfold cursor_ok. simpl. split; [split; [done | lia] | lia].
  - destruct (poll_event_pending _ _ _ (conj Hb Hi) H) as (Hc' & _).
    split; [done|].
    apply poll_event_inv in H as (j & Hj & _ & H).
    destruct H as [(_ & _ & _ & ->) | (_ & p & it & _ & _ & _ & H)]; [simpl; lia|].
    destruct H as [(_ & _ & ->) | [(_ & _ & _ & ->) | (_ & _ & _ & ->)]]; simpl; lia.
Qed.

Lemma poll_decode_land_sublist p' it' p it c :
  hndl it' = hndl it -> revents p' = Z.land (revents p) c ->
  decode (p', it') `sublist_of` decode (p, it).
Proof.
  intros Hh Hr. unfold decode. simpl. rewrite Hh.
  repeat apply sublist_app.
  - destruct (has (revents p') POLLIN) eqn:E; [|apply sublist_nil_l].
    rewrite Hr in E. by rewrite (poll_has_land _ _ _ E).
  - destruct (has (revents p') POLLOUT) eqn:E; [|apply sublist_nil_l].
    rewrite Hr in E. by rewrite (poll_has_land _ _ _ E).
  - destruct (decide (clear (clear (revents p') POLLIN) POLLOUT = 0)) as [|Hnz];
      [apply sublist_nil_l|].
    destruct (decide (clear (clear (revents p) POLLIN) POLLOUT = 0)) as [Hz|];
      [|done].
    exfalso. apply Hnz. rewrite Hr. unfold clear in *. by rewrite land_swap3, Hz.
Qed.

Lemma poll_pending_sublist s s' :
  cursor_ok s -> cursor_ok s' -> quieter s s' -> index s <= index s' ->
  pending s' `sublist_of` pending s.
Proof.
  intros [Hb Hi] [(Hsz' & Hlp' & Hlh') Hi'] [_ Hq] Hix. unfold pending, live.
  apply window_flat_map_sublist; [lia|].
  intros j Hj.
  destruct (aget_in_range (pollset s') j) as [p' Hp']; [lia|].
  destruct (aget_in_range (hndls s') j) as [it' Hit']; [lia|].
  exists (p', it'). split; [by rewrite poll_aget_zip, Hp', Hit'|].
  destruct (Hq j it' p' ltac:(lia) Hit' Hp')
    as [Hz | (Hjs & it & p & Hit & Hp & Hh & c & Hr)].
  - left. by apply poll_decode_zero.
  - right. split; [lia|]. exists (p, it).
    split; [by rewrite poll_aget_zip, Hp, Hit|].
    by eapply poll_decode_land_sublist.
Qed.

Lemma poll_run_sublist b ops s s' outs :
  cursor_ok s -> Forall (fun o => is_wait o = false) ops ->
  run b ops s = Ok (s', outs) -> outs `sublist_of` pending s.
Proof.
  intros Hc Hops. revert s s' outs Hc.
  induction Hops as [|o ops Ho _ IH]; intros s s' outs Hc H; simpl in H.
  - injection H as <- <-. apply sublist_nil_l.
  - inv_bind. destruct a as [s1 r]. destruct a0 as [s2 outs2]. simpl in *.
    subst. destruct (poll_exec_cursor _ _ _ _ _ Ho Hc Ha) as [Hc1 Hi1].
    specialize (IH _ _ _ Hc1 Ha0).
    destruct r as [y|]; simpl.
    + pose proof (poll_exec_result _ _ _ _ _ Ha) as ->. simpl in Ha.
      destruct (poll_event_pending _ _ _ Hc Ha) as (_ & -> & _).
      simpl. by apply sublist_skip.
    + etrans; [exact IH|]. apply poll_pending_sublist; [done..| |done].
      destruct Hc as [Hb _]. by eapply poll_exec_quieter.
Qed.

(** *** Nothing left to return *)

Lemma poll_event_none_iff s :
  cursor_ok s -> (exists s', nn_poller_event s = Ok (s', None)) <-> pending s = [].
Proof.
  intros Hc. destruct (poll_event_total s Hc) as (s1 & r & Hev).
  destruct (poll_event_pending _ _ _ Hc Hev) as (_ & Hp & Hnone). split.
  - intros (s' & H). rewrite Hev in H. injection H as <- ->.
    by rewrite Hp, (Hnone eq_refl).
  - intros Hnil. rewrite Hnil in Hp. destruct r; [done|]. eauto.
Qed.

Lemma poll_event_none s s' :
  cursor_ok s -> nn_poller_event s = Ok (s', None) ->
  index s' = size s /\ pollset s' = pollset s /\ hndls s' = hndls s /\
  nn_poller_event s' = Ok (s', None).
Proof.
  intros Hc Hev. pose proof Hev as H.
  destruct (poll_event_pending _ _ _ Hc Hev) as (Hc' & _ & Hnone).
  apply poll_event_inv in H as (j & Hj & _ & H).
  destruct H as [(Hge & Hjs & _ & ->) | (_ & p & it & _ & _ & _ & H)].
  2: { destruct H as [(_ & ? & _) | [(_ & _ & ? & _) | (_ & _ & ? & _)]]; done. }
  destruct Hc as [_ Hi]. rewrite (Hjs ltac:(lia)) in *. simpl.
  split; [done|]. split; [done|]. split; [done|].
  destruct (poll_event_total _ Hc') as (s2 & r & Hev2).
  pose proof Hev2 as H2. apply poll_event_inv in H2 as (k & Hk & _ & H2). simpl in *.
  destruct H2 as [(_ & Hks & -> & ->) | (Hlt & _)]; [|lia].
  rewrite Hev2. by rewrite (Hks ltac:(lia)).
Qed.

(** *** The handle that comes with an event *)

Lemma poll_quiet_quieter s s' :
  quieter s s' -> quiet_removed s -> quiet_removed s'.
Proof.
  intros [_ Hq] Hs j it' p' Hj Hit' Hp' Hnull.
  destruct (Hq j it' p' Hj Hit' Hp')
    as [Hz | (Hjs & it & p & Hit & Hp & Hh & c & Hr)]; [done|].
  rewrite Hr, (Hs j it p Hjs Hit Hp) by congruence. apply Z.land_0_l.
Qed.

Lemma poll_quiet_wait b s t n a s' rc :
  wf s -> nn_poller_wait b s t n a = Ok (s', rc) -> quiet_removed s'.
Proof.
  intros Hwf H.
  apply poll_wait_inv in H as (sc & Hc & _ & Hsz & _ & Hh & _).
  destruct (poll_compact_ok s Hwf) as (sc' & Hc' & _ & _ & _ & Hfull).
  rewrite Hc in Hc'. injection Hc' as <-.
  intros j it p Hj Hit Hp Hnull. rewrite Hsz in Hj. rewrite Hh in Hit.
  destruct (Hfull j Hj) as (g & _ & it' & Hit' & Hg). congruence.
Qed.

Lemma poll_exec_quiet b o s s' r :
  wf s -> quiet_removed s -> exec b o s = Ok (s', r) ->
  quiet_removed s' /\ forall kd oh, r = Some (kd, oh) -> oh <> None.
Proof.
  intros Hwf Hq H. split.
  - destruct (is_wait o) eqn:Ew.
    + destruct o; try discriminate. simpl in H. inv_bind.
      destruct a as [s1 rc]. simpl in *. subst. by eapply poll_quiet_wait.
    + eapply poll_quiet_quieter; [|done].
      destruct Hwf as [Hb _]. by eapply poll_exec_quieter.
  - intros kd oh ->. pose proof (poll_exec_result _ _ _ _ _ H) as ->.
    simpl in H.
    apply poll_event_source in H as (j & it & p & Hj & Hit & Hp & <- & Hnz & _).
    intros Hnull. apply Hnz. by eapply Hq.
Qed.

Lemma poll_run_handles b ops s :
  sound s -> quiet_removed s -> calls_ok b ops s ->
  run b ops s = Abort \/
  exists s' outs, run b ops s = Ok (s', outs) /\ sound s' /\
    quiet_removed s' /\ Forall (fun x => snd x <> None) outs.
Proof.
  revert s. induction ops as [|o ops IH]; intros s Hs Hq Hok; simpl.
  - right. exists s, []. split; [done|]. split; [done|]. split; [done|]. constructor.
  - cbn [calls_ok] in Hok. destruct Hok as [Hop Hrest].
    destruct (poll_exec_step b o s Hs Hop) as [-> | (s1 & r & E & Hs1)];
      [by left|].
    destruct (poll_exec_quiet _ _ _ _ _ (proj1 Hs) Hq E) as [Hq1 Hr].
    rewrite E in Hrest |- *. simpl in *.
    destruct (IH s1 Hs1 Hq1 Hrest) as [-> | (s2 & outs & -> & Hs2 & Hq2 & Hall)];
      [by left|].
    simpl. right. exists s2, (option_list r ++ outs).
    split; [done|]. split; [done|]. split; [done|].
    apply Forall_app. split; [|done].
    destruct r as [[kd oh]|]; simpl; [|constructor].
    apply Forall_cons_2; [|constructor]. simpl. by eapply Hr.
Qed.

End PollMore.

Local Open Scope Z_scope.

(** * Further properties of the three implementations *)

(** ** epoll *)

(** X1: with epoll, from a context whose cursor and count lie inside the
    event array, every sequence of calls of the interface returns: no call
    reads or writes outside the array, the cursor and the count stay inside
    it and the array keeps its length.  The kernel is taken to write no
    more records than the array has cells and [epoll_wait] not to fail
    (other than by [EINTR]). *)
Theorem epoll_calls_stay_in_buffer ops s :
  Epoll.wf s ->
  Forall (fun o =>
            match o with
            | Epoll.Wait _ _ (Epoll.Ready batch) =>
                (length batch <= length (Epoll.events s))%nat
            | Epoll.Wait _ _ Epoll.Failed => False
            | _ => True
            end) ops ->
  exists s' outs, Epoll.run ops s = Ok (s', outs) /\ Epoll.wf s' /\
    length (Epoll.events s') = length (Epoll.events s).
Proof. apply EpollMore.epoll_run_total. Qed.

(** Handle [1] is removed, the batch drained, and a second batch fetched and
    read. *)
Lemma epoll_calls_stay_in_buffer_witness :
  exists s' outs,
    Epoll.run [Epoll.Rm 1%nat; Epoll.Event; Epoll.Event;
               Epoll.Wait 100 1 (Epoll.Ready Epoll.hup_batch);
               Epoll.Event; Epoll.ResetIn 2%nat; Epoll.Event]
      Epoll.two_ready = Ok (s', outs) /\ Epoll.wf s' /\
    length (Epoll.events s') = length (Epoll.events Epoll.two_ready).
Proof.
  apply epoll_calls_stay_in_buffer.
  - apply Totals.epoll_sample_wf. simpl. lia.
  - repeat (apply Forall_cons_2; [simpl; lia|]). constructor.
Defined.

(** X2: with epoll, between two waits every sequence of calls returns, and
    the events its [nn_poller_event] calls return are a subsequence of the
    events that were pending when it started: none is made up, none comes
    twice, and their order is that of the batch. *)
Theorem epoll_returns_subsequence_of_pending ops s :
  Epoll.wf s -> Forall (fun o => Epoll.is_wait o = false) ops ->
  exists s' outs, Epoll.run ops s = Ok (s', outs) /\ Epoll.wf s' /\
    outs `sublist_of` Epoll.pending s.
Proof.
  intros Hwf Hops.
  destruct (EpollMore.epoll_run_total ops s Hwf) as (s' & outs & H & Hwf' & _).
  { eapply Forall_impl; [exact Hops|]. by intros [] ?. }
  exists s', outs. split; [done|]. split; [done|].
  by eapply EpollMore.epoll_run_sublist.
Qed.

Lemma epoll_returns_subsequence_of_pending_witness :
  exists s' outs,
    Epoll.run [Epoll.Event; Epoll.ResetOut 1%nat; Epoll.Event; Epoll.Rm 2%nat;
               Epoll.Event] Epoll.two_ready = Ok (s', outs) /\
    Epoll.wf s' /\ outs `sublist_of` Epoll.pending Epoll.two_ready.
Proof.
  apply epoll_returns_subsequence_of_pending.
  - apply Totals.epoll_sample_wf. simpl. lia.
  - repeat (apply Forall_cons_2; [reflexivity|]). constructor.
Defined.

(** X3: with epoll, [nn_poller_event] returns [-EAGAIN] exactly when no
    event is pending, and once it has, it returns [-EAGAIN] again and
    changes nothing, until the next wait. *)
Theorem epoll_eagain_iff_batch_drained s :
  Epoll.wf s ->
  ((exists s', Epoll.nn_poller_event s = Ok (s', None)) <-> Epoll.pending s = []) /\
  forall s', Epoll.nn_poller_event s = Ok (s', None) ->
    Epoll.nn_poller_event s' = Ok (s', None).
Proof.
  intros Hwf. split; [by apply EpollMore.epoll_event_none_iff|].
  intros s' H. apply (EpollMore.epoll_event_none s s' H). destruct Hwf. lia.
Qed.

Lemma epoll_eagain_iff_batch_drained_witness :
  exists s', Epoll.nn_poller_event (Epoll.sample 0 []) = Ok (s', None) /\
    Epoll.nn_poller_event s' = Ok (s', None).
Proof.
  destruct (epoll_eagain_iff_batch_drained (Epoll.sample 0 [])) as [Hiff Hstay].
  { apply Totals.epoll_sample_wf. simpl. lia. }
  destruct (proj2 Hiff eq_refl) as [s' H].
  exists s'. split; [exact H | exact (Hstay s' H)].
Defined.

(** X4: with epoll, a failure of [epoll_wait] other than [EINTR] is not
    caught: the assertion reads the field that was just set to [0], so
    [nn_poller_wait] returns [0] and leaves the count at [-1].  The next
    [nn_poller_event] returns [-EAGAIN]; the next [nn_poller_rm], and the
    next [nn_poller_reset_in] or [nn_poller_reset_out] of a handle that has
    the interest, runs its loop past the end of the array. *)
Theorem epoll_failed_wait_goes_unnoticed s t n :
  exists s', Epoll.nn_poller_wait s t n Epoll.Failed = Ok (s', rc_ok) /\
    Epoll.index s' = 0 /\ Epoll.nevents s' = -1 /\
    Epoll.events s' = Epoll.events s /\
    Epoll.nn_poller_event s' = Ok (s', None) /\
    (forall h, Epoll.nn_poller_rm s' h = Undef) /\
    (forall h, has (Epoll.hndl_events (Epoll.hmem s h)) Epoll.EPOLLIN = true ->
       Epoll.nn_poller_reset_in s' h = Undef) /\
    (forall h, has (Epoll.hndl_events (Epoll.hmem s h)) Epoll.EPOLLOUT = true ->
       Epoll.nn_poller_reset_out s' h = Undef).
Proof. apply EpollMore.epoll_wait_failed. Qed.

Lemma epoll_failed_wait_goes_unnoticed_witness :
  exists s', Epoll.nn_poller_wait Epoll.two_ready 0 0 Epoll.Failed = Ok (s', rc_ok) /\
    Epoll.nevents s' = -1 /\
    Epoll.nn_poller_reset_in s' 1%nat = Undef /\
    Epoll.nn_poller_reset_out s' 1%nat = Undef.
Proof.
  destruct (epoll_failed_wait_goes_unnoticed Epoll.two_ready 0 0)
    as (s' & H & _ & Hn & _ & _ & _ & Hin & Hout).
  exists s'. split; [exact H|]. split; [exact Hn|].
  split; [apply Hin | apply Hout]; reflexivity.
Defined.

(** ** kqueue *)

(** X5: with kqueue, from a context whose cursor and count lie inside the
    event array, a sequence of calls of the interface returns or stops in a
    failed assertion: no call reads or writes outside the array, the cursor
    and the count stay inside it and the array keeps its length.  The
    kernel is taken to write no more records than the array has cells. *)
Theorem kqueue_calls_never_run_off_buffer b ops s :
  Kqueue.wf s ->
  Forall (fun o =>
            match o with
            | Kqueue.Wait _ _ (Kqueue.Ready batch) =>
                (length batch <= length (Kqueue.events s))%nat
            | _ => True
            end) ops ->
  Kqueue.run b ops s = Abort \/
  exists s' outs, Kqueue.run b ops s = Ok (s', outs) /\ Kqueue.wf s' /\
    length (Kqueue.events s') = length (Kqueue.events s).
Proof.
  intros Hwf Hops.
  destruct (KqueueMore.kq_run_not_undef_len _ b ops s Hwf eq_refl Hops)
    as [? | (s' & outs & ? & ? & ?)]; [by left | right]. eauto.
Qed.

Lemma kqueue_calls_never_run_off_buffer_witness :
  Kqueue.run true
    [Kqueue.Rm 1%nat; Kqueue.Event;
     Kqueue.Wait 100 1 (Kqueue.Ready Kqueue.eof_batch);
     Kqueue.Event; Kqueue.ResetOut 2%nat (-1); Kqueue.Event;
     Kqueue.Wait 0 0 Kqueue.Failed] Kqueue.two_ready = Abort \/
  exists s' outs,
    Kqueue.run true
      [Kqueue.Rm 1%nat; Kqueue.Event;
       Kqueue.Wait 100 1 (Kqueue.Ready Kqueue.eof_batch);
       Kqueue.Event; Kqueue.ResetOut 2%nat (-1); Kqueue.Event;
       Kqueue.Wait 0 0 Kqueue.Failed] Kqueue.two_ready = Ok (s', outs) /\
    Kqueue.wf s' /\
    length (Kqueue.events s') = length (Kqueue.events Kqueue.two_ready).
Proof.
  apply kqueue_calls_never_run_off_buffer.
  - apply Totals.kq_sample_wf. simpl. lia.
  - repeat (apply Forall_cons_2; [simpl; lia|]). constructor.
Defined.

(** X6: with kqueue, when each record of the batch that has a handle has a
    read or a write filter or [EV_EOF], every sequence of calls between two
    waits returns, and the events its [nn_poller_event] calls return are a
    subsequence of the events that were pending when it started: none is
    made up, none comes twice, and their order is that of the batch. *)
Theorem kqueue_returns_subsequence_of_pending b ops s :
  Kqueue.wf s ->
  Forall (fun e => Kqueue.udata e <> None -> Kqueue.classify e <> None)
    (Kqueue.live s) ->
  Forall (fun o => Kqueue.is_wait o = false) ops ->
  exists s' outs, Kqueue.run b ops s = Ok (s', outs) /\ Kqueue.wf s' /\
    outs `sublist_of` Kqueue.pending s.
Proof.
  intros Hwf Hall Hops.
  destruct (KqueueMore.kq_run_known b ops s Hwf Hops Hall)
    as (s' & outs & H & Hwf' & _).
  exists s', outs. split; [done|]. split; [done|].
  by eapply KqueueMore.kq_run_sublist.
Qed.

Lemma kqueue_returns_subsequence_of_pending_witness :
  exists s' outs,
    Kqueue.run false
      [Kqueue.Event; Kqueue.ResetOut 1%nat 0; Kqueue.Event; Kqueue.Rm 2%nat;
       Kqueue.Event] Kqueue.two_ready = Ok (s', outs) /\
    Kqueue.wf s' /\ outs `sublist_of` Kqueue.pending Kqueue.two_ready.
Proof.
  apply kqueue_returns_subsequence_of_pending.
  - apply Totals.kq_sample_wf. simpl. lia.
  - repeat (apply Forall_cons_2; [vm_compute; intros _; discriminate|]). constructor.
  - repeat (apply Forall_cons_2; [reflexivity|]). constructor.
Defined.

(** X7: with kqueue, when each record of the batch that has a handle has a
    read or a write filter or [EV_EOF], calling [nn_poller_event] as many
    times as the batch has records left returns all that is pending and
    leaves nothing: one event for each record that still has its handle, in
    the order of the array, [ERR] if the record has [EV_EOF] and else [OUT]
    or [IN] by its filter; records whose handle was cleared give nothing. *)
Theorem kqueue_drain_one_event_per_record s :
  Kqueue.wf s ->
  Forall (fun e => Kqueue.udata e <> None -> Kqueue.classify e <> None)
    (Kqueue.live s) ->
  exists s',
    Kqueue.drain (length (Kqueue.live s)) s = Ok (s', Kqueue.pending s) /\
    Kqueue.pending s' = [] /\
    Kqueue.pending s =
      omap (fun e => h ← Kqueue.udata e; k ← Kqueue.classify e; Some (k, h))
        (Kqueue.live s).
Proof.
  intros Hwf Hall.
  destruct (KqueueMore.kq_drain_pending (length (Kqueue.live s)) s Hwf Hall)
    as (s' & Hd & _ & Hp); [apply KqueueMore.kq_pending_length|].
  exists s'. split; [done|]. split; [done|].
  unfold Kqueue.pending. clear. induction (Kqueue.live s) as [|e l IH]; [done|].
  simpl. rewrite IH. unfold Kqueue.decode.
  destruct (Kqueue.udata e); simpl; [|done]. by destruct (Kqueue.classify e).
Qed.

Lemma kqueue_drain_one_event_per_record_witness :
  exists s',
    Kqueue.drain 2 (Kqueue.sample 3 Kqueue.eof_batch) =
      Ok (s', [(NN_POLLER_ERR, 1%nat); (NN_POLLER_OUT, 2%nat)]) /\
    Kqueue.pending s' = [].
Proof.
  destruct (kqueue_drain_one_event_per_record (Kqueue.sample 3 Kqueue.eof_batch))
    as (s' & Hd & Hp & _).
  - apply Totals.kq_sample_wf. simpl. lia.
  - repeat (apply Forall_cons_2; [vm_compute; intros _; discriminate|]). constructor.
  - exists s'. split; [exact Hd | exact Hp].
Defined.

(** X8: with kqueue, [nn_poller_event] fails its assertion exactly when the
    first record at or after the cursor that has a handle has neither
    [EV_EOF] nor a read or write filter. *)
Theorem kqueue_event_aborts_on_other_filter s :
  Kqueue.wf s ->
  Kqueue.nn_poller_event s = Abort <->
  exists j e h, Kqueue.index s <= j < Kqueue.nevents s /\
    (forall i, Kqueue.index s <= i < j ->
       exists x, aget (Kqueue.events s) i = Ok x /\ Kqueue.udata x = None) /\
    aget (Kqueue.events s) j = Ok e /\ Kqueue.udata e = Some h /\
    has (Kqueue.flags e) Kqueue.EV_EOF = false /\
    Kqueue.filter e <> Kqueue.EVFILT_WRITE /\
    Kqueue.filter e <> Kqueue.EVFILT_READ.
Proof.
  intros Hwf. rewrite (KqueueMore.kq_event_abort_iff s Hwf).
  assert (Hc : forall e, Kqueue.classify e = None <->
            has (Kqueue.flags e) Kqueue.EV_EOF = false /\
            Kqueue.filter e <> Kqueue.EVFILT_WRITE /\
            Kqueue.filter e <> Kqueue.EVFILT_READ).
  { intros e. unfold Kqueue.classify.
    destruct (has _ _); [by split; [|intros (? & _)]|].
    destruct (decide (Kqueue.filter e = Kqueue.EVFILT_WRITE));
      [split; [done | by intros (_ & ? & _)]|].
    destruct (decide (Kqueue.filter e = Kqueue.EVFILT_READ));
      [split; [done | by intros (_ & _ & ?)]|].
    done. }
  split; intros (j & e & h & Hj & Hnull & He & Hu & Hk); exists j, e, h;
    repeat (split; [done|]); by apply Hc.
Qed.

Lemma kqueue_event_aborts_on_other_filter_witness :
  Kqueue.nn_poller_event
    (Kqueue.sample 3
       [ {| Kqueue.ident := 11; Kqueue.filter := -7; Kqueue.flags := 0;
            Kqueue.udata := Some 1%nat |} ]) = Abort.
Proof.
  apply kqueue_event_aborts_on_other_filter.
  - apply Totals.kq_sample_wf. simpl. lia.
  - exists 0, {| Kqueue.ident := 11; Kqueue.filter := -7; Kqueue.flags := 0;
                 Kqueue.udata := Some 1%nat |}, 1%nat.
    split; [simpl; lia|]. split; [intros i Hi; simpl in Hi; lia|].
    repeat split; discriminate.
Defined.

(** X9: with kqueue, the two resets differ in what they do to the interest
    bits of the handle.  [nn_poller_reset_in] clears the [IN] bit whatever
    [kevent] returned; [nn_poller_reset_out] clears the [OUT] bit only if
    [kevent] did not return [-1].  Each asks the kernel to delete its
    filter if, and only if, its bit was set. *)
Theorem kqueue_reset_interest_bits s h rc :
  Kqueue.wf s ->
  (exists s1, Kqueue.nn_poller_reset_in s h = Ok s1 /\
     has (Kqueue.hndl_events (Kqueue.hmem s1 h)) Kqueue.NN_POLLER_EVENT_IN = false /\
     Kqueue.trace s1 =
       Kqueue.trace s ++
         if has (Kqueue.hndl_events (Kqueue.hmem s h)) Kqueue.NN_POLLER_EVENT_IN
         then [Kqueue.sys_kevent_change (Kqueue.kq s)
                 (Kqueue.hndl_fd (Kqueue.hmem s h))
                 Kqueue.EVFILT_READ Kqueue.EV_DELETE None]
         else []) /\
  (exists s2, Kqueue.nn_poller_reset_out s h rc = Ok s2 /\
     has (Kqueue.hndl_events (Kqueue.hmem s2 h)) Kqueue.NN_POLLER_EVENT_OUT =
       has (Kqueue.hndl_events (Kqueue.hmem s h)) Kqueue.NN_POLLER_EVENT_OUT
       && bool_decide (rc = -1) /\
     Kqueue.trace s2 =
       Kqueue.trace s ++
         if has (Kqueue.hndl_events (Kqueue.hmem s h)) Kqueue.NN_POLLER_EVENT_OUT
         then [Kqueue.sys_kevent_change (Kqueue.kq s)
                 (Kqueue.hndl_fd (Kqueue.hmem s h))
                 Kqueue.EVFILT_WRITE Kqueue.EV_DELETE None]
         else []).
Proof.
  intros Hwf. split.
  - destruct (Totals.kq_reset_in_total s h Hwf) as [s1 H]. exists s1.
    split; [done|]. by apply KqueueMore.kq_reset_in_clears.
  - destruct (Totals.kq_reset_out_total s h rc Hwf) as [s2 H]. exists s2.
    split; [done|]. by apply KqueueMore.kq_reset_out_bit.
Qed.

(** A [kevent] that fails leaves the [OUT] bit of handle [1] set, not the
    [IN] bit. *)
Lemma kqueue_reset_interest_bits_witness :
  (exists s1, Kqueue.nn_poller_reset_in Kqueue.two_ready 1%nat = Ok s1 /\
     has (Kqueue.hndl_events (Kqueue.hmem s1 1%nat)) Kqueue.NN_POLLER_EVENT_IN
       = false) /\
  (exists s2, Kqueue.nn_poller_reset_out Kqueue.two_ready 1%nat (-1) = Ok s2 /\
     has (Kqueue.hndl_events (Kqueue.hmem s2 1%nat)) Kqueue.NN_POLLER_EVENT_OUT
       = true).
Proof.
  destruct (kqueue_reset_interest_bits Kqueue.two_ready 1%nat (-1))
    as [(s1 & H1 & Hb1 & _) (s2 & H2 & Hb2 & _)].
  { apply Totals.kq_sample_wf. simpl. lia. }
  split.
  - exists s1. split; [exact H1 | exact Hb1].
  - exists s2. split; [exact H2|]. rewrite Hb2. reflexivity.
Defined.

(** X10: with kqueue, [nn_poller_rm] asks the kernel to delete the read
    filter if the handle has the [IN] bit and then the write filter if it
    has the [OUT] bit, and nothing else; it ignores what [kevent] returns
    and leaves the handle as it was, bits included. *)
Theorem kqueue_rm_deletes_set_filters s h :
  Kqueue.wf s ->
  exists s', Kqueue.nn_poller_rm s h = Ok s' /\
    Kqueue.hmem s' = Kqueue.hmem s /\
    Kqueue.trace s' =
      Kqueue.trace s ++
        (if has (Kqueue.hndl_events (Kqueue.hmem s h)) Kqueue.NN_POLLER_EVENT_IN
         then [Kqueue.sys_kevent_change (Kqueue.kq s)
                 (Kqueue.hndl_fd (Kqueue.hmem s h))
                 Kqueue.EVFILT_READ Kqueue.EV_DELETE None]
         else []) ++
        (if has (Kqueue.hndl_events (Kqueue.hmem s h)) Kqueue.NN_POLLER_EVENT_OUT
         then [Kqueue.sys_kevent_change (Kqueue.kq s)
                 (Kqueue.hndl_fd (Kqueue.hmem s h))
                 Kqueue.EVFILT_WRITE Kqueue.EV_DELETE None]
         else []).
Proof.
  intros Hwf. destruct (Totals.kq_rm_total s h Hwf) as [s' H]. exists s'.
  split; [done|]. by apply KqueueMore.kq_rm_trace.
Qed.

Lemma kqueue_rm_deletes_set_filters_witness :
  exists s', Kqueue.nn_poller_rm Kqueue.two_ready 1%nat = Ok s' /\
    Kqueue.hmem s' = Kqueue.hmem Kqueue.two_ready /\
    Kqueue.trace s' =
      [Kqueue.sys_kevent_change 3 11 Kqueue.EVFILT_READ Kqueue.EV_DELETE None;
       Kqueue.sys_kevent_change 3 11 Kqueue.EVFILT_WRITE Kqueue.EV_DELETE None].
Proof.
  destruct (kqueue_rm_deletes_set_filters Kqueue.two_ready 1%nat)
    as (s' & H & Hm & Ht).
  { apply Totals.kq_sample_wf. simpl. lia. }
  exists s'. split; [exact H|]. split; [exact Hm | exact Ht].
Defined.

(** ** poll *)

(** X11: with poll, [nn_poller_init] returns [0] with no slot in use, or
    stops in a failed allocation.  From the context it leaves, a sequence
    of calls that keeps to the interface (a handle is added when it is not
    registered, and is registered when it is passed to any other function)
    returns or stops in a failed assertion: no call reads or writes outside
    the two arrays, whatever the kernel and the allocator answer. *)
Theorem poll_calls_never_run_off_arrays s0 k :
  Poll.nn_poller_init s0 k = Abort \/
  exists s, Poll.nn_poller_init s0 k = Ok (s, rc_ok) /\
    Poll.sound s /\ Poll.size s = 0 /\
    forall b ops, Poll.calls_ok b ops s ->
      Poll.run b ops s = Abort \/
      exists s' outs, Poll.run b ops s = Ok (s', outs) /\ Poll.sound s'.
Proof.
  destruct (Poll.nn_poller_init s0 k) as [[s rc]| |] eqn:E.
  - destruct (PollMore.poll_init_sound _ _ _ _ E) as (Hs & Hsz & ->).
    right. exists s. split; [done|]. split; [done|]. split; [done|].
    intros b ops Hok. by apply PollMore.poll_run_sound.
  - by left.
  - exfalso. unfold Poll.nn_poller_init in E.
    destruct (negb (Poll.pollset_ok k)); [done|].
    by destruct (negb (Poll.hndls_ok k)).
Qed.

Lemma poll_calls_never_run_off_arrays_witness :
  exists s, Poll.nn_poller_init (Poll.sample []) Poll.alloc_fine = Ok (s, rc_ok) /\
    (Poll.run false
       [Poll.Add 7 1%nat Poll.alloc_fine; Poll.SetIn 1%nat;
        Poll.Wait 100 0 (Poll.Ready [Poll.POLLIN]); Poll.Event; Poll.Rm 1%nat;
        Poll.Wait 0 0 (Poll.Ready []); Poll.Event] s = Abort \/
     exists s' outs,
       Poll.run false
         [Poll.Add 7 1%nat Poll.alloc_fine; Poll.SetIn 1%nat;
          Poll.Wait 100 0 (Poll.Ready [Poll.POLLIN]); Poll.Event; Poll.Rm 1%nat;
          Poll.Wait 0 0 (Poll.Ready []); Poll.Event] s = Ok (s', outs) /\
       Poll.sound s').
Proof.
  destruct (poll_calls_never_run_off_arrays (Poll.sample []) Poll.alloc_fine)
    as [H | (s & H & _ & _ & Hrun)]; [discriminate H|].
  exists s. split; [exact H|]. apply Hrun.
  vm_compute in H. injection H as <-.
  apply PollMore.poll_calls_ok_cons.
  { intros j ((Hj & Hj') & _). vm_compute in Hj'. by destruct j. }
  intros r E. vm_compute in E. injection E as <-. cbn [fst].
  apply PollMore.poll_calls_ok_cons.
  { split; [by vm_compute|]. eexists. split; vm_compute; reflexivity. }
  intros r E. vm_compute in E. injection E as <-. cbn [fst].
  apply PollMore.poll_calls_ok_cons; [exact I|].
  intros r E. vm_compute in E. injection E as <-. cbn [fst].
  apply PollMore.poll_calls_ok_cons; [exact I|].
  intros r E. vm_compute in E. injection E as <-. cbn [fst].
  apply PollMore.poll_calls_ok_cons.
  { split; [by vm_compute|]. eexists. split; vm_compute; reflexivity. }
  intros r E. vm_compute in E. injection E as <-. cbn [fst].
  apply PollMore.poll_calls_ok_cons; [exact I|].
  intros r E. vm_compute in E. injection E as <-. cbn [fst].
  apply PollMore.poll_calls_ok_cons; [exact I|].
  intros r E. exact I.
Defined.

(** X12: with poll, between two waits the events that the
    [nn_poller_event] calls of a sequence return are a subsequence of the
    events that were pending when it started: none is made up, none comes
    twice, and their order is that of the slots.  The sequence keeps to the
    interface; it returns unless an allocation of [nn_poller_add] fails. *)
Theorem poll_returns_subsequence_of_pending b ops s :
  Poll.sound s -> Poll.calls_ok b ops s ->
  Forall (fun o => Poll.is_wait o = false) ops ->
  Poll.run b ops s = Abort \/
  exists s' outs, Poll.run b ops s = Ok (s', outs) /\ Poll.sound s' /\
    outs `sublist_of` Poll.pending s.
Proof.
  intros Hs Hok Hops.
  destruct (PollMore.poll_run_sound b ops s Hs Hok) as [? | (s' & outs & H & Hs')];
    [by left | right].
  exists s', outs. split; [done|]. split; [done|].
  eapply PollMore.poll_run_sublist; [|done..].
  destruct Hs as ((Hb & _) & Hi & _). by split.
Qed.

Lemma poll_returns_subsequence_of_pending_witness :
  Poll.run false
    [Poll.Event; Poll.ResetOut 1%nat; Poll.Event; Poll.Rm 2%nat; Poll.Event]
    Poll.two_ready = Abort \/
  exists s' outs,
    Poll.run false
      [Poll.Event; Poll.ResetOut 1%nat; Poll.Event; Poll.Rm 2%nat; Poll.Event]
      Poll.two_ready = Ok (s', outs) /\
    Poll.sound s' /\ outs `sublist_of` Poll.pending Poll.two_ready.
Proof.
  apply poll_returns_subsequence_of_pending.
  - split; [apply Totals.poll_sample_wf; simpl; lia | simpl; lia].
  - apply PollMore.poll_calls_ok_cons; [exact I|].
    intros r E. vm_compute in E. injection E as <-. cbn [fst].
    apply PollMore.poll_calls_ok_cons.
    { split; [by vm_compute|]. eexists. split; vm_compute; reflexivity. }
    intros r E. vm_compute in E. injection E as <-. cbn [fst].
    apply PollMore.poll_calls_ok_cons; [exact I|].
    intros r E. vm_compute in E. injection E as <-. cbn [fst].
    apply PollMore.poll_calls_ok_cons.
    { split; [by vm_compute|]. eexists. split; vm_compute; reflexivity. }
    intros r E. vm_compute in E. injection E as <-. cbn [fst].
    apply PollMore.poll_calls_ok_cons; [exact I|].
    intros r E. exact I.
  - repeat (apply Forall_cons_2; [reflexivity|]). constructor.
Defined.

(** X13: with poll, [nn_poller_add] asks the allocator for nothing while a
    cell is free.  When none is free it doubles the capacity and
    reallocates the array of [struct pollfd] and then the array of handles
    to it; if either allocation fails it stops in the assertion. *)
Theorem poll_add_doubles_when_full s fd0 h k :
  Poll.bounds s -> 0 < Poll.capacity s ->
  (Poll.size s < Poll.capacity s ->
     exists s', Poll.nn_poller_add s fd0 h k = Ok s' /\
       Poll.capacity s' = Poll.capacity s /\ Poll.trace s' = Poll.trace s) /\
  (Poll.size s >= Poll.capacity s ->
   Poll.pollset_ok k = true -> Poll.hndls_ok k = true ->
     exists s', Poll.nn_poller_add s fd0 h k = Ok s' /\
       Poll.capacity s' = Poll.capacity s * 2 /\
       Poll.trace s' =
         Poll.trace s ++ [Poll.sys_realloc_pollset (Poll.capacity s * 2);
                          Poll.sys_realloc_hndls (Poll.capacity s * 2)]) /\
  (Poll.size s >= Poll.capacity s ->
   Poll.pollset_ok k && Poll.hndls_ok k = false ->
     Poll.nn_poller_add s fd0 h k = Abort).
Proof. apply PollMore.poll_add_eval. Qed.

(** A context with a free cell, and one whose sixteen cells are taken. *)
Lemma poll_add_doubles_when_full_witness :
  (exists s', Poll.nn_poller_add Poll.two_ready 9 3%nat Poll.alloc_fine = Ok s' /\
     Poll.capacity s' = Poll.capacity Poll.two_ready /\
     Poll.trace s' = Poll.trace Poll.two_ready) /\
  (exists s',
     Poll.nn_poller_add (Poll.sample (replicate 16 (0, 0))) 9 17%nat
       Poll.alloc_fine = Ok s' /\
     Poll.capacity s' = Poll.capacity (Poll.sample (replicate 16 (0, 0))) * 2 /\
     Poll.trace s' =
       Poll.trace (Poll.sample (replicate 16 (0, 0))) ++
         [Poll.sys_realloc_pollset
            (Poll.capacity (Poll.sample (replicate 16 (0, 0))) * 2);
          Poll.sys_realloc_hndls
            (Poll.capacity (Poll.sample (replicate 16 (0, 0))) * 2)]).
Proof.
  split.
  - destruct (poll_add_doubles_when_full Poll.two_ready 9 3%nat Poll.alloc_fine)
      as (Hfree & _ & _).
    + unfold Poll.bounds. simpl. lia.
    + simpl. lia.
    + apply Hfree. simpl. lia.
  - destruct (poll_add_doubles_when_full (Poll.sample (replicate 16 (0, 0))) 9
                17%nat Poll.alloc_fine) as (_ & Hfull & _).
    + unfold Poll.bounds. simpl. lia.
    + simpl. lia.
    + apply Hfull; [simpl; lia | reflexivity | reflexivity].
Defined.

(** X14: with poll, [nn_poller_wait] cuts out exactly the slots that
    [nn_poller_rm] has emptied since the last wait: when it returns, the
    number of slots in use is the old number less the number of slots with
    a null handle, the list of removed slots is empty, and the capacity is
    what it was (the arrays never shrink).  It returns when [poll] answers,
    and, in a build without [NN_IGNORE_EINTR], with [-EINTR] when [poll] is
    interrupted. *)
Theorem poll_wait_cuts_removed_slots s :
  Poll.wf s ->
  exists l, NoDup l /\
    (forall j, j ∈ l <->
       0 <= j < Poll.size s /\
       exists it, aget (Poll.hndls s) j = Ok it /\ Poll.hndl it = None) /\
    (forall b t n a s' rc, Poll.nn_poller_wait b s t n a = Ok (s', rc) ->
       Poll.size s' = Poll.size s - Z.of_nat (length l) /\
       Poll.capacity s' = Poll.capacity s /\ Poll.removed s' = -1) /\
    (forall b t n rs, b = true \/ n = O ->
       exists s', Poll.nn_poller_wait b s t n (Poll.Ready rs) = Ok (s', rc_ok)) /\
    (forall t n a, n <> O ->
       exists s', Poll.nn_poller_wait false s t n a = Ok (s', rc_neg EINTR)).
Proof.
  intros Hwf.
  destruct (PollMore.poll_compact_size s Hwf)
    as (l & sc & Hnd & Hl & Hc & Hsz & Hcap & Hrm).
  exists l. split; [done|]. split; [done|]. split; [|split].
  - intros b t n a s' rc H.
    apply PollFacts.poll_wait_inv in H
      as (sc' & Hc' & _ & Hsz' & Hcap' & _ & _ & Hrm' & _).
    rewrite Hc in Hc'. injection Hc' as <-. by rewrite Hsz', Hcap', Hrm'.
  - intros b t n rs Hb. rewrite (PollFacts.poll_wait_eval _ _ _ _ _ _ Hc).
    destruct Hb as [-> | ->]; simpl; [eauto|].
    rewrite andb_false_r. eauto.
  - intros t n a Hn. rewrite (PollFacts.poll_wait_eval _ _ _ _ _ _ Hc).
    destruct n; [done|]. simpl. eauto.
Qed.

(** Handle [1] is removed, and the next wait is left with one slot less. *)
Lemma poll_wait_cuts_removed_slots_witness :
  exists s1 (l : list Z) s',
    Poll.nn_poller_rm Poll.two_ready 1%nat = Ok s1 /\ NoDup l /\
    Poll.nn_poller_wait false s1 0 0 (Poll.Ready []) = Ok (s', rc_ok) /\
    Poll.size s' = Poll.size s1 - Z.of_nat (length l) /\
    Poll.capacity s' = Poll.capacity s1 /\ Poll.removed s' = -1.
Proof.
  destruct (PollFacts.poll_rm_ok Poll.two_ready 1%nat) as (s1 & H1 & Hwf1 & _).
  { apply Totals.poll_sample_wf. simpl. lia. }
  { apply Totals.poll_sample_registered; simpl; lia. }
  destruct (poll_wait_cuts_removed_slots s1 Hwf1) as (l & Hnd & _ & Hcut & Hret & _).
  destruct (Hret false 0 O [] (or_intror eq_refl)) as [s' Hw].
  destruct (Hcut _ _ _ _ _ _ Hw) as (Hsz & Hcap & Hrm).
  exists s1, l, s'. repeat split; assumption.
Defined.

(** X15: with poll, a handle that is removed and registered again before
    the next wait ends in one slot: after the compaction of that wait the
    handle is registered on its new descriptor with no interest and no
    event, the list of removed slots is empty, and every other handle is
    registered as it was, with the same [struct pollfd]. *)
Theorem poll_readd_before_wait s h fd0 k :
  Poll.wf s -> Poll.registered s h -> 0 < Poll.capacity s ->
  Poll.size s < Poll.capacity s \/
    (Poll.pollset_ok k = true /\ Poll.hndls_ok k = true) ->
  exists s1 s2 sc,
    Poll.nn_poller_rm s h = Ok s1 /\ Poll.nn_poller_add s1 fd0 h k = Ok s2 /\
    Poll.compact s2 = Ok sc /\ Poll.wf sc /\ Poll.removed sc = -1 /\
    Poll.slot_of sc h {| Poll.fd := fd0; Poll.events := 0; Poll.revents := 0 |} /\
    forall g p, g <> h -> Poll.slot_of sc g p <-> Poll.slot_of s g p.
Proof. apply PollMore.poll_rm_add_compact. Qed.

Lemma poll_readd_before_wait_witness :
  exists s1 s2 sc,
    Poll.nn_poller_rm Poll.two_ready 1%nat = Ok s1 /\
    Poll.nn_poller_add s1 42 1%nat Poll.alloc_fine = Ok s2 /\
    Poll.compact s2 = Ok sc /\ Poll.wf sc /\ Poll.removed sc = -1 /\
    Poll.slot_of sc 1%nat
      {| Poll.fd := 42; Poll.events := 0; Poll.revents := 0 |} /\
    forall g p, g <> 1%nat -> Poll.slot_of sc g p <-> Poll.slot_of Poll.two_ready g p.
Proof.
  apply poll_readd_before_wait.
  - apply Totals.poll_sample_wf. simpl. lia.
  - apply Totals.poll_sample_registered; simpl; lia.
  - simpl. lia.
  - left. simpl. lia.
Defined.

(** X16: with poll, turning an interest on and off again leaves the context
    as it was: [nn_poller_set_in] followed by [nn_poller_reset_in] of a
    handle whose slot had [POLLIN] neither in [events] nor in [revents]
    gives back the same context, and so do [nn_poller_set_out] and
    [nn_poller_reset_out] for [POLLOUT]. *)
Theorem poll_set_reset_round_trip s h p :
  aget (Poll.pollset s) (Poll.hmem s h) = Ok p ->
  (has (Poll.events p) Poll.POLLIN = false ->
   has (Poll.revents p) Poll.POLLIN = false ->
   exists s1, Poll.nn_poller_set_in s h = Ok s1 /\
     Poll.nn_poller_reset_in s1 h = Ok s) /\
  (has (Poll.events p) Poll.POLLOUT = false ->
   has (Poll.revents p) Poll.POLLOUT = false ->
   exists s1, Poll.nn_poller_set_out s h = Ok s1 /\
     Poll.nn_poller_reset_out s1 h = Ok s).
Proof.
  intros Hp. split; intros He Hr.
  - by eapply PollMore.poll_set_reset_in.
  - by eapply PollMore.poll_set_reset_out.
Qed.

Lemma poll_set_reset_round_trip_witness :
  (exists s1, Poll.nn_poller_set_in (Poll.sample [(0, 0)]) 1%nat = Ok s1 /\
     Poll.nn_poller_reset_in s1 1%nat = Ok (Poll.sample [(0, 0)])) /\
  (exists s1, Poll.nn_poller_set_out (Poll.sample [(0, 0)]) 1%nat = Ok s1 /\
     Poll.nn_poller_reset_out s1 1%nat = Ok (Poll.sample [(0, 0)])).
Proof.
  destruct (poll_set_reset_round_trip (Poll.sample [(0, 0)]) 1%nat
              {| Poll.fd := 11; Poll.events := 0; Poll.revents := 0 |})
    as [Hin Hout]; [reflexivity|].
  split; [apply Hin | apply Hout]; reflexivity.
Defined.

(** X17: with poll, [nn_poller_event] returns [-EAGAIN] exactly when no
    event is pending; it then leaves the cursor on the number of slots in
    use, changes no slot, and returns [-EAGAIN] again until the next
    wait. *)
Theorem poll_eagain_iff_batch_drained s :
  Poll.cursor_ok s ->
  ((exists s', Poll.nn_poller_event s = Ok (s', None)) <-> Poll.pending s = []) /\
  forall s', Poll.nn_poller_event s = Ok (s', None) ->
    Poll.index s' = Poll.size s /\ Poll.pollset s' = Poll.pollset s /\
    Poll.hndls s' = Poll.hndls s /\
    Poll.nn_poller_event s' = Ok (s', None).
Proof.
  intros Hc. split; [by apply PollMore.poll_event_none_iff|].
  intros s' H. by apply PollMore.poll_event_none.
Qed.

Lemma poll_eagain_iff_batch_drained_witness :
  exists s', Poll.nn_poller_event (Poll.sample [(1, 0); (4, 0)]) = Ok (s', None) /\
    Poll.index s' = 2 /\ Poll.nn_poller_event s' = Ok (s', None).
Proof.
  destruct (poll_eagain_iff_batch_drained (Poll.sample [(1, 0); (4, 0)]))
    as [Hiff Hstay].
  { split; [|simpl; lia]. unfold Poll.bounds. simpl. lia. }
  destruct (proj2 Hiff eq_refl) as [s' H].
  destruct (Hstay s' H) as (Hi & _ & _ & Hagain).
  exists s'. split; [exact H|]. split; [exact Hi | exact Hagain].
Defined.

(** X18: with poll, no event comes with a null handle.  From a context in
    which the slots that [nn_poller_rm] has emptied have no event to
    deliver (as is the one [nn_poller_init] leaves, which has no slot), a
    sequence of calls that keeps to the interface returns or stops in a
    failed assertion, and every event its [nn_poller_event] calls return
    carries the handle of a registration, whatever [poll] reported. *)
Theorem poll_event_never_null_handle b ops s :
  Poll.sound s -> Poll.quiet_removed s -> Poll.calls_ok b ops s ->
  Poll.run b ops s = Abort \/
  exists s' outs, Poll.run b ops s = Ok (s', outs) /\
    Poll.quiet_removed s' /\ Forall (fun x => snd x <> None) outs.
Proof.
  intros Hs Hq Hok.
  destruct (PollMore.poll_run_handles b ops s Hs Hq Hok)
    as [? | (s' & outs & ? & _ & ? & ?)]; [by left | right]. eauto.
Qed.

(** Handle [2] is removed while its slot has an event, and a wait whose
    answer has events for every slot follows. *)
Lemma poll_event_never_null_handle_witness :
  Poll.run false
    [Poll.Event; Poll.Rm 2%nat; Poll.Event; Poll.Event;
     Poll.Wait 0 0 (Poll.Ready [Poll.POLLIN; Poll.POLLIN]); Poll.Event; Poll.Event]
    Poll.two_ready = Abort \/
  exists s' outs,
    Poll.run false
      [Poll.Event; Poll.Rm 2%nat; Poll.Event; Poll.Event;
       Poll.Wait 0 0 (Poll.Ready [Poll.POLLIN; Poll.POLLIN]); Poll.Event; Poll.Event]
      Poll.two_ready = Ok (s', outs) /\
    Poll.quiet_removed s' /\ Forall (fun x => snd x <> None) outs.
Proof.
  apply poll_event_never_null_handle.
  - split; [apply Totals.poll_sample_wf; simpl; lia | simpl; lia].
  - intros j it p Hj Hit _ Hnull. unfold Poll.two_ready in Hj, Hit. simpl in Hj.
    match type of Hit with
    | aget (Poll.hndls (Poll.sample ?c)) _ = _ =>
        rewrite (Totals.poll_sample_lookup c j it Hj Hit) in Hnull
    end.
    discriminate Hnull.
  - apply PollMore.poll_calls_ok_cons; [exact I|].
    intros r E. vm_compute in E. injection E as <-. cbn [fst].
    apply PollMore.poll_calls_ok_cons.
    { split; [by vm_compute|]. eexists. split; vm_compute; reflexivity. }
    intros r E. vm_compute in E. injection E as <-. cbn [fst].
    apply PollMore.poll_calls_ok_cons; [exact I|].
    intros r E. vm_compute in E. injection E as <-. cbn [fst].
    apply PollMore.poll_calls_ok_cons; [exact I|].
    intros r E. vm_compute in E. injection E as <-. cbn [fst].
    apply PollMore.poll_calls_ok_cons; [exact I|].
    intros r E. vm_compute in E. injection E as <-. cbn [fst].
    apply PollMore.poll_calls_ok_cons; [exact I|].
    intros r E. vm_compute in E. injection E as <-. cbn [fst].
    apply PollMore.poll_calls_ok_cons; [exact I|].
    intros r E. exact I.
Defined.

(** X19: with kqueue and with poll, a failure of the kernel call other than
    [EINTR] stops [nn_poller_wait] in its assertion: the call does not
    return.  With poll this is after the removed slots have been cut
    out. *)
Theorem kqueue_poll_failed_wait_aborts :
  (forall b s t n, b = true \/ n = O ->
     Kqueue.nn_poller_wait b s t n Kqueue.Failed = Abort) /\
  (forall b s t n, Poll.wf s -> b = true \/ n = O ->
     Poll.nn_poller_wait b s t n Poll.Failed = Abort).
Proof.
  split.
  - intros b s t n Hb. by apply KqueueFacts.kq_wait_failed.
  - intros b s t n Hwf Hb.
    destruct (PollFacts.poll_compact_ok s Hwf) as (sc & Hc & _).
    rewrite (PollFacts.poll_wait_eval _ _ _ _ _ _ Hc).
    destruct Hb as [-> | ->]; simpl; [done|]. by rewrite andb_false_r.
Qed.

Lemma kqueue_poll_failed_wait_aborts_witness :
  Kqueue.nn_poller_wait false Kqueue.two_ready 100 0 Kqueue.Failed = Abort /\
  Poll.nn_poller_wait true Poll.two_ready 100 3 Poll.Failed = Abort.
Proof.
  destruct kqueue_poll_failed_wait_aborts as [HK HP]. split.
  - apply HK. by right.
  - apply HP; [apply Totals.poll_sample_wf; simpl; lia | by left].
Defined.
